(* ===== verification/_CoqProject ===== *)
-Q . S2P
Prelude.v
JsString.v
Tasks.v
Chunker.v
World.v
AiService.v
Rag.v
Documents.v
Lifecycle.v
Typing.v
Roundtrip.v
Interleave.v
Schemas.v
Session.v
Upload.v
View.v
UploadView.v
Pages.v
DocumentsView.v
ChatbotView.v
DashboardView.v
