(* ===== verification/Prelude.v ===== *)
(** * A verification development for the RAG-project

    The repository is a multi-tenant retrieval-augmented-generation service:
    a business uploads documents, the backend extracts their text, cuts it
    into overlapping chunks, stores one embedding per chunk in a vector
    collection, and answers chat questions by retrieving the most similar
    chunks and handing them to a language model.  The code that does this is
    three JavaScript services under [src/backend/src/services/]:

    - [ragService.js] (class [RAGService]): [chunkText], [storeDocumentChunks],
      [searchRelevantContext], [generateRAGResponse], [deleteDocumentChunks],
      [updateDocumentChunks], [getDocumentStats], [searchSimilarQueries];
    - [aiService.js] (class [AIService]): [buildSystemPrompt],
      [generateResponse] and its two provider adapters, [generateStreamResponse],
      [translateText], [detectLanguage], [generateEmbeddings];
    - [documentService.js] (class [DocumentService]): [validateFile],
      [extractText], [processDocument], [reprocessDocument], [deleteDocument],
      [getDocumentStats], [getDocuments] and the registry and storage helpers.

    Beside them the repository has the Joi schemas of a chatbot configuration
    ([src/backend/src/schemas/chatbotSchemas.js]) and a React dashboard under
    [src/project/src/]: the request builders of [lib/api.ts], the session of
    [contexts/AuthContext.tsx], the upload list of
    [components/FileUpload.tsx] and three pages.  The dashboard and the
    services meet in the values they exchange: model names, language codes,
    file names and sizes, document statuses.

    ** Files of the development

    - [Prelude] (this file): the state-and-error monad [prog] in which every
      [async] method is written, its notation (stdpp's [x ← c; k]), the
      lemmas and tactics that run or invert a program, the frame rule
      [preserves] with its tactic [solve_preserves], and the list lemmas the
      components share.
    - [JsString]: the ECMAScript and Node builtins the services call, on
      strings as lists of UTF-16 code units: [length], [slice], [lastIndexOf],
      [trim], [toLowerCase], [startsWith], [substring], [join], the stable
      [sort], [path.extname], the lookup [o[k]] on an object literal
      (inherited members included) and the printing of numbers.  Indices are
      [Z] because the source computes negative ones.
    - [Chunker]: [RAGService.chunkText] as a loop over a state
      [(chunks, start)], one [chunk_step] per iteration of the [while], run
      with fuel; the window list as its reference specification.
    - [World]: the state the services act on, a record [world] of the vector
      collection (a list of records with unique ids), the [documents] table
      (a finite map from id to row), the storage bucket (a finite map from key
      to object), the id counter of the table, the clock and the trace of
      provider calls; the primitives of the three stores; the class
      [Providers] of what the embedding, completion and extraction providers
      answer, each reply a function of the trace so far ([None] is a failed
      call); the invariant [wf_world]; two concrete providers for the
      examples.  The clients of these stores are not under [src/]: this file
      is modelled from the interface the specification gives them.
    - [AiService]: [aiService.js], method by method.
    - [Rag]: the methods of [ragService.js] other than [chunkText], with
      [search_spec] and [stored_chunks] as reference specifications.
    - [Documents]: [documentService.js], method by method, with the frame
      [doc_frame] of an operation on one document.
    - [Lifecycle]: the worlds a sequence of ingest, reprocess and delete
      requests can reach ([reachable], an inductive family), their
      invariants, and the labelled relation [transition] of a document's
      status from one request to the next.
    - [Schemas]: [chatbotSchemas.js], the two schemas written with the
      combinators of Joi the source chains, and their validation.
    - [Session]: [api.ts] (a request is a value [http_request]) and
      [AuthContext.tsx]: the record [session] of the React state, the
      storage, the toasts and the requests sent, one definition per handler,
      the sessions [session_reachable] from a page load, and the hook
      [useAuth] a component reads the session through.
    - [Upload]: [FileUpload.tsx]: the list [uploadedFiles] with its running
      timers ([upload_state]), [onDrop], one firing of a timer ([tick]),
      [removeFile], and runs of such events.
    - [Typing]: the type of a stored record ([record_typed]) and of a world
      ([typed_world]), kept by every request.
    - [Roundtrip]: the operations composed: store then download, ingest
      then reprocess, ingest then delete.
    - [Interleave]: the writing operations cut at their [await]s ([task]),
      the requests in progress ([pool]) and the schedules of their steps
      ([run_pool]).
    - [View]: the tree of elements a React component renders ([node]), the
      events a browser offers on an element ([offered]), their dispatch to
      the handler of the element, and the calls a tree can make
      ([calls]).  React and the DOM are not under [src/]: this file is
      modelled from their documented behaviour.
    - [UploadView]: [formatFileSize] and the markup of [FileUpload.tsx] as a
      function of its list ([FileUpload_view]).
    - [Pages]: the state and the handlers of [ChatbotPage.tsx] and the rows,
      the filter and the colours of [DocumentsPage.tsx].
    - [DocumentsView]: the states of [DocumentsPage.tsx] with the
      [FileUpload] of its dialog, its markup ([DocumentsPage_view]) and the
      states a user can reach ([page_reachable]).
    - [ChatbotView]: the markup of [ChatbotPage.tsx] ([ChatbotPage_view]),
      its setters, [handleLogoUpload] with the file readers at work, and the
      states a user can reach ([chatbot_reachable]).
    - [DashboardView]: the tables and the markup of [DashboardPage.tsx].

    ** How the model corresponds to the code

    A JavaScript number that holds an index, a length or a size is a [Z]; a
    comparison with [chunkSize * 0.5] is written with both sides doubled,
    which is exact on integers; a similarity is a rational [Q].  A string is
    a [list N] of code units.  An [async] method is a function into
    [prog W E A := W → outcome E A * W]: it reads and writes the world [W]
    and either returns ([Ok]) or throws ([Throw]); a thrown error carries the
    message of the JavaScript [Error], and, as in JavaScript, throwing does
    not undo the writes made before it.  [try { c } catch (e) { h }] is
    [try_catch c h]; a [for] loop that awaits in its body is [for_each].
    Each method keeps the name it has in the source (the second
    [getDocumentStats], of [DocumentService], is
    [documentService_getDocumentStats]); a method too long to read at once is
    cut at a comment of the source ([process_valid], [reprocess_body],
    [embed_chunks], [insert_batches]).  Logging is not modelled.

    A React component is the record of its state with one function per
    handler; a state setter called with a function is that function.  What a
    handler awaits from the server is an argument of the handler ([fetched]):
    the theorems hold for every answer.  A timer is an entry of the list
    [intervals] until [clearInterval] removes it, and an event [Fire] runs
    its callback once.  A Joi schema is a value built by the same chain of
    calls as in the source; the rules are those of Joi 17.

    An [async] method whose [await]s matter is also a [task]: [Await c k]
    runs the program [c] (the code up to and including one awaited call)
    as one step and goes on as [k] of its outcome.  Node runs one step at a
    time, so a schedule is a list of the tasks that step.

    The markup a component returns is a function from its state to a tree
    ([node]): an element with its key, its props in source order and its
    children, a callback being the function from an event to the call it
    makes ([View] says how JSX is read).  A user acts on the tree: an event
    at a path of child indices is dispatched to the handler of the element
    there, if the browser offers the event on it, and the call it makes is
    run on the state ([upload_ui_step], [page_event_step],
    [chatbot_event_step]).  A component rendered inside another is its tree
    with the calls translated ([map_calls]); unmounting it drops its state.
    A [FileReader] is an entry of [readers] until it answers; its answer is
    an event that carries the data URL.

    ** What the theorems show

    - [Chunker]: the loop terminates within [length text] iterations whenever
      [0 ≤ overlap < chunkSize] and [2 * overlap ≤ chunkSize + 2] (so for the
      defaults 1000 and 200), and it diverges for every fuel when the overlap
      reaches the chunk size on a text without sentence breaks, and on a
      concrete text with [overlap < chunkSize]; the result equals the trimmed,
      non-empty slices of the window list; windows start at 0, overlap by
      exactly [overlap] code units, are at most [chunkSize + 1] long and cover
      every position of the text; every chunk is non-empty, trimmed and an
      infix of the text.
    - [AiService]: the prompt has the shape the source writes and falls back
      to English for an unknown language code, except for the names of
      inherited members; the dispatch on the model name, branch by branch,
      with the message of every error; what each provider is sent.
    - [Rag]: a search returns only records of the querying company, above
      the threshold, most similar first, at most [limit] of them, and equals
      [search_spec]; a store that returns has appended one record per chunk,
      in order, under the ids of the document, and a failed embedding writes
      nothing; deletion removes exactly the records of one document of one
      company and is idempotent; an update is a replacement; an answer
      carries the context of a search with limit 5; the statistics are the
      counts and sums of the records read, of which there are at most 1000;
      all of them keep [wf_world].
    - [Documents]: validation accepts exactly the files the source accepts
      and precedes every effect; an ingest that returns leaves a processed
      row, the stored file and the chunks, and one that throws leaves the row
      at [processing]; a reprocess ends processed or failed, replaces the
      chunks, and marks a document failed by id alone, also that of another
      company; a delete removes records, file and row, is idempotent, and
      leaves other companies' documents alone; every operation touches only
      its own document ([doc_frame]) and keeps [wf_world]; the table
      statistics and the paging of [getDocuments].
    - [Lifecycle]: by induction on the requests served, every reachable
      world is well formed, has no record without a row of its company, and
      gives every processed document the chunk count of its records; a
      status moves only along [transition], and a document becomes failed
      only by a reprocess called with its id.
    - [Schemas]: the bodies each schema accepts, as a record of plain
      conditions; the value returned is the body followed by the defaults of
      the absent keys; the errors of [name] with the messages of the source;
      the models and the languages a schema lets through are the keys of
      [AIService.models] and of the table of directives, so a validated
      configuration never meets the unsupported-model branch.
    - [Session]: a sign-in the server accepts stores token and user and sets
      both states; one that fails in any way changes nothing but the toasts;
      sign-out clears; every reachable session is backed by the storage
      ([backed]) and survives a reload, and so is what [useAuth] reads
      under its provider; [updateProfile] leaves [user] stale and builds its
      address without the fallback of [api.ts].
    - [Upload]: every list any run of drops, firings and removals can show
      is well formed ([upload_ok]); with distinct names the entry of a file
      is a function of the firings of its own timer; an entry behind another
      of the same name never advances; the timer of a removed file is never
      cleared; a file the server accepts passes the drop zone, not
      conversely.
    - [Pages]: the form offers the models and languages of the schemas; what
      a toggle does; the filter of the document list; the status [failed] of
      the service is unknown to the page.
    - [Typing]: every record of every reachable world has a vector of the
      dimension of the embedding model, an index that is not negative, the
      id [<document_id>_chunk_<index>] and the metadata of the source, so a
      search compares vectors of equal dimension.
    - [Rag], [Roundtrip]: inserting in batches of 20 is inserting at once
      when every insert succeeds, and leaves a prefix stored when one fails;
      a stored file is downloaded as it was uploaded; a text document
      reprocessed after its ingest has the records it had; a delete after an
      ingest gives back the stores of before.
    - [Interleave]: each method cut at its [await]s and run alone is the
      method ([same_runs], the equality of programs the monad's operations
      respect); the worlds of [Lifecycle] are those of the schedules that
      serve one request after the other; every schedule keeps the world well
      formed and its records typed; a delete that overtakes a reprocess of
      the same document leaves records without a row, which searches return.
    - [UploadView]: [formatFileSize] prints the size in the unit of its
      magnitude, rounded to hundredths, between 1 and 1024, and has no unit
      from a tebibyte on; the keys of the list are distinct exactly when the
      file names are; the events of a user are calls of [removeFile] and
      [onClose], and the cross of an entry removes every entry of its name.
    - [DocumentsView]: the calls the page can make; in every reachable
      state the filter is one of its four values and a closed dialog holds
      no file; opening and closing the dialog forgets what was dropped.
    - [ChatbotView]: the calls the page can make, none of which sends the
      configuration; in every reachable state the model and the languages
      are of the lists and the preview names the model; a name typed is
      shown as typed and enters the address and the embed code without its
      white space, quotes included; of two logos the one read last stays.
    - [DashboardView]: no element of the dashboard has a handler; its
      figures are literals.

    ** Bounds

    Fuel is the only bound of the chunking loop, and [length text] is proved
    enough under the termination condition; more fuel never changes a result.
    Every other loop of the services runs over a list.  Numbers are unbounded
    integers: the model is exact as long as the source's values stay below
    2^53, where JavaScript numbers are exact integers.  [toLowerCase] is
    exact on ASCII.  A timestamp is the value of a clock that advances at
    each reading, not an ISO string.  [formatFileSize] takes the index
    [floor (log bytes / log 1024)] to be exact, which floating-point
    logarithms give for every size below 2^50 - 3, and rounds a quotient to
    hundredths exactly where [toFixed] rounds the nearest double.  Numbers
    of the markup ([index * 0.1]) are rationals.

    ** Not modelled

    The HTTP clients of the providers (OpenAI, Gemini, Supabase, Astra DB) are
    parameters of the model, given by their interface; PDF and DOCX parsing
    are parameters too.  A failure of the table or of the bucket other than a
    missing row, a missing object or an existing key is not modelled.
    [Interleave] interleaves the requests of the document service at their
    [await]s, a step being the code up to and including one awaited call;
    the methods of [AIService] and the handlers of the dashboard run from
    their call to their end.
    Of the dashboard, the layout component [DashboardLayout] is left out,
    as are the libraries the markup names
    ([framer-motion], [react-dropzone], [react-color], the icons), which are
    elements with their props; the bytes a [FileReader] reads and the
    timers of a list whose dialog was closed are not followed.  The [uri]
    rule of Joi and the JSON codec of user objects are parameters.  The
    logger is left out. *)

From Stdlib Require Import ZArith Lia.
From stdpp Require Import prelude list sorting.

(** ** Outcomes and the monad of effectful methods *)

Inductive outcome (E A : Type) : Type :=
  | Ok (a : A)
  | Throw (e : E).
Arguments Ok {E A} a.
Arguments Throw {E A} e.

Definition prog (W E A : Type) : Type := W → outcome E A * W.

Definition ret_prog {W E A} (a : A) : prog W E A := λ w, (Ok a, w).

Definition bind_prog {W E A B} (f : A → prog W E B) (c : prog W E A)
    : prog W E B :=
  λ w, match c w with
       | (Ok a, w') => f a w'
       | (Throw e, w') => (Throw e, w')
       end.

Definition throw {W E A} (e : E) : prog W E A := λ w, (Throw e, w).

Definition try_catch {W E A} (c : prog W E A) (h : E → prog W E A)
    : prog W E A :=
  λ w, match c w with
       | (Ok a, w') => (Ok a, w')
       | (Throw e, w') => h e w'
       end.

Definition get_world {W E} : prog W E W := λ w, (Ok w, w).

Definition modify_world {W E} (f : W → W) : prog W E unit := λ w, (Ok tt, f w).

Definition of_option {W E A} (o : option A) (e : E) : prog W E A :=
  match o with Some a => ret_prog a | None => throw e end.

#[export] Instance prog_ret {W E} : MRet (prog W E) := λ A, ret_prog.
#[export] Instance prog_bind {W E} : MBind (prog W E) := λ A B, bind_prog.
#[export] Instance prog_fmap {W E} : FMap (prog W E) :=
  λ A B f c, bind_prog (λ a, ret_prog (f a)) c.

(** [for_each f l] runs [f] on the elements of [l] from left to right and
    collects the results: a [for] loop that pushes one value per iteration
    and stops at the first throw. *)
Fixpoint for_each {W E A B} (f : A → prog W E B) (l : list A)
    : prog W E (list B) :=
  match l with
  | [] => ret_prog []
  | x :: l' => bind_prog (λ y, bind_prog (λ ys, ret_prog (y :: ys)) (for_each f l')) (f x)
  end.

(** A loop run for its effects only. *)
Definition for_each_ {W E A} (f : A → prog W E unit) (l : list A) : prog W E unit :=
  bind_prog (λ _, ret_prog tt) (for_each f l).

Definition result_of {W E A} (c : prog W E A) (w : W) : outcome E A := fst (c w).
Definition world_after {W E A} (c : prog W E A) (w : W) : W := snd (c w).

Definition is_ok {E A} (o : outcome E A) : bool :=
  match o with Ok _ => true | Throw _ => false end.

(** The value an outcome carries, [d] when it is a throw. *)
Definition ok_value {E A} (d : A) (o : outcome E A) : A :=
  match o with Ok a => a | Throw _ => d end.

(** ** Automation *)

Create HintDb rag discriminated.
Create Rewrite HintDb rag_rw.

Ltac prog_unfold :=
  unfold mbind, mret, fmap, prog_bind, prog_ret, prog_fmap, bind_prog, ret_prog, throw,
    try_catch, get_world, modify_world, of_option, result_of, world_after in *.

Ltac prog_simpl := prog_unfold; simpl in *.

(** Case analysis on the next effectful call of a goal. *)
Ltac prog_step :=
  match goal with
  | |- context [match ?c ?w with (_, _) => _ end] =>
      let o := fresh "o" in let w' := fresh "w" in let E := fresh "Hrun" in
      destruct (c w) as [o w'] eqn:E; destruct o
  end.

(** ** Laws of the monad *)

Section monad_laws.
Context {W E : Type}.

Lemma bind_ret_l {A B} (a : A) (f : A → prog W E B) :
  bind_prog f (ret_prog a) = f a.
Proof. reflexivity. Qed.

Lemma bind_throw_l {A B} (e : E) (f : A → prog W E B) w :
  bind_prog f (throw e) w = (Throw e, w).
Proof. reflexivity. Qed.

Lemma bind_ok_run {A B} (c : prog W E A) (f : A → prog W E B) w a w' :
  c w = (Ok a, w') → bind_prog f c w = f a w'.
Proof. unfold bind_prog. by intros ->. Qed.

Lemma bind_throw_run {A B} (c : prog W E A) (f : A → prog W E B) w e w' :
  c w = (Throw e, w') → bind_prog f c w = (Throw e, w').
Proof. unfold bind_prog. by intros ->. Qed.

Lemma bind_assoc_run {A B C} (c : prog W E A) (f : A → prog W E B)
    (g : B → prog W E C) w :
  bind_prog g (bind_prog f c) w = bind_prog (λ a, bind_prog g (f a)) c w.
Proof. unfold bind_prog. by destruct (c w) as [[a|e] w']. Qed.

Lemma try_catch_ok_run {A} (c : prog W E A) h w a w' :
  c w = (Ok a, w') → try_catch c h w = (Ok a, w').
Proof. unfold try_catch. by intros ->. Qed.

Lemma try_catch_throw_run {A} (c : prog W E A) h w e w' :
  c w = (Throw e, w') → try_catch c h w = h e w'.
Proof. unfold try_catch. by intros ->. Qed.

End monad_laws.

#[export] Hint Rewrite @bind_ret_l @bind_throw_l : rag_rw.
#[export] Hint Resolve bind_ok_run bind_throw_run try_catch_ok_run
  try_catch_throw_run : rag.

(** ** Shared facts on integers and lists *)

Lemma Z_to_nat_le_length {A} (l : list A) (z : Z) :
  (z ≤ Z.of_nat (length l))%Z → Z.to_nat z ≤ length l.
Proof. lia. Qed.

Lemma length_take_Z {A} (l : list A) (z : Z) :
  (0 ≤ z ≤ Z.of_nat (length l))%Z → Z.of_nat (length (take (Z.to_nat z) l)) = z.
Proof. intros. rewrite length_take. lia. Qed.

Lemma length_drop_Z {A} (l : list A) (z : Z) :
  (0 ≤ z ≤ Z.of_nat (length l))%Z →
  Z.of_nat (length (drop (Z.to_nat z) l)) = (Z.of_nat (length l) - z)%Z.
Proof. intros. rewrite length_drop. lia. Qed.

Lemma for_each_length {W E A B} (f : A → prog W E B) (l : list A) w ys w' :
  for_each f l w = (Ok ys, w') → length ys = length l.
Proof.
  revert w ys w'. induction l as [|x l IH]; intros w ys w'; simpl.
  - unfold ret_prog. by intros [= <- _].
  - unfold bind_prog at 1. destruct (f x w) as [[y|e] w1]; [|done].
    unfold bind_prog. destruct (for_each f l w1) as [[zs|e] w2] eqn:Hl; [|done].
    unfold ret_prog. intros [= <- _]. simpl. f_equal. eauto.
Qed.

(** ** Loops *)

Section loops.
Context {W E A B : Type} (f : A → prog W E B).

Lemma for_each_nil w : for_each f [] w = (Ok [], w).
Proof. done. Qed.

Lemma for_each_cons_ok x l w y w1 ys w2 :
  f x w = (Ok y, w1) → for_each f l w1 = (Ok ys, w2) →
  for_each f (x :: l) w = (Ok (y :: ys), w2).
Proof. simpl. unfold bind_prog, ret_prog. by intros -> ->. Qed.

Lemma for_each_cons_inv x l w r w' :
  for_each f (x :: l) w = (r, w') →
  (∃ e, f x w = (Throw e, w') ∧ r = Throw e)
  ∨ (∃ y w1, f x w = (Ok y, w1) ∧
       ((∃ e, for_each f l w1 = (Throw e, w') ∧ r = Throw e)
        ∨ (∃ ys, for_each f l w1 = (Ok ys, w') ∧ r = Ok (y :: ys)))).
Proof.
  simpl. unfold bind_prog, ret_prog.
  destruct (f x w) as [[y|e] w1]; [|intros [= <- <-]; eauto].
  destruct (for_each f l w1) as [[ys|e] w2] eqn:Hl; intros [= <- <-]; right;
    exists y, w1; (split; [done|]); [right|left]; eauto.
Qed.

(** A property of the world that every iteration preserves holds after the
    loop, whether it ends or throws. *)
Lemma for_each_preserves (I : W → Prop) l w r w' :
  (∀ x w0 r0 w1, x ∈ l → I w0 → f x w0 = (r0, w1) → I w1) →
  I w → for_each f l w = (r, w') → I w'.
Proof.
  revert w r w'. induction l as [|x l IH]; intros w r w' Hf Hw.
  - by intros [= _ <-].
  - intros [(e & Hx & _)|(y & w1 & Hx & Hl)]%for_each_cons_inv.
    + eapply Hf; [left|done..].
    + assert (I w1) by (eapply Hf; [left|done..]).
      assert (∀ x0 w0 r0 w2, x0 ∈ l → I w0 → f x0 w0 = (r0, w2) → I w2) as Hf'
        by (intros; eapply Hf; [by right|done..]).
      destruct Hl as [(e & Hl & _)|(ys & Hl & _)]; by eapply IH.
Qed.

(** Each result of a loop that ends is related to its element. *)
Lemma for_each_Forall2 (P : A → B → Prop) l w ys w' :
  (∀ x w0 y w1, x ∈ l → f x w0 = (Ok y, w1) → P x y) →
  for_each f l w = (Ok ys, w') → Forall2 P l ys.
Proof.
  revert w ys w'. induction l as [|x l IH]; intros w ys w' Hf.
  - intros [= <- _]. constructor.
  - intros [(e & _ & ?)|(y & w1 & Hx & [(e & _ & ?)|(zs & Hl & [= ->])])]%for_each_cons_inv;
      try done.
    constructor; [eapply Hf; [left|done]|]. eapply IH; [|done].
    intros. eapply Hf; [by right|done].
Qed.

End loops.

Lemma for_each__run {W E A} (f : A → prog W E unit) l w :
  for_each_ f l w
  = (match (for_each f l w).1 with Ok _ => Ok tt | Throw e => Throw e end,
     (for_each f l w).2).
Proof. unfold for_each_, bind_prog, ret_prog. by destruct (for_each f l w) as [[?|?] ?]. Qed.

(** ** Sorted lists *)

Section sorted.
Context {A : Type} (R : relation A).

Lemma Sorted_take n l : Sorted R l → Sorted R (take n l).
Proof.
  revert n. induction l as [|x l IH]; intros [|n] Hs; simpl; try done; try constructor.
  - apply IH. by apply Sorted_inv in Hs as [Hl _].
  - apply Sorted_inv in Hs as [_ Hhd].
    destruct Hhd as [|y l' Hxy]; destruct n; simpl; by constructor.
Qed.

Lemma Sorted_drop n l : Sorted R l → Sorted R (drop n l).
Proof.
  revert n. induction l as [|x l IH]; intros [|n] Hs; simpl; try done.
  apply IH. by apply Sorted_inv in Hs as [Hl _].
Qed.

Lemma StronglySorted_filter (P : A → Prop) `{∀ x, Decision (P x)} l :
  StronglySorted R l → StronglySorted R (filter P l).
Proof.
  induction 1 as [|x l Hl IH Hx]; [constructor|]. rewrite filter_cons.
  case_decide; [|done]. constructor; [done|].
  rewrite Forall_forall in *. intros y [_ Hy]%list_elem_of_filter. auto.
Qed.

Lemma Sorted_filter `{!Transitive R} (P : A → Prop) `{∀ x, Decision (P x)} l :
  Sorted R l → Sorted R (filter P l).
Proof.
  intros. by apply StronglySorted_Sorted, StronglySorted_filter, Sorted_StronglySorted.
Qed.

End sorted.

Lemma Sorted_impl {A} (R R' : relation A) l :
  (∀ x y, R x y → R' x y) → Sorted R l → Sorted R' l.
Proof.
  intros HR. induction 1 as [|x l Hl IH Hhd]; constructor; [done|].
  destruct Hhd; constructor; auto.
Qed.

(** A loop whose body cannot throw ends. *)
Lemma for_each_ok {W E A B} (f : A → prog W E B) l w :
  (∀ x w0, x ∈ l → ∃ y w1, f x w0 = (Ok y, w1)) →
  ∃ ys w', for_each f l w = (Ok ys, w').
Proof.
  revert w. induction l as [|x l IH]; intros w Hf; [by eexists _, _|].
  destruct (Hf x w) as (y & w1 & Hx); [left|].
  destruct (IH w1) as (ys & w2 & Hl); [intros; apply Hf; by right|].
  eexists _, _. by eapply for_each_cons_ok.
Qed.

(** A loop throws when its body throws at some element in every world. *)
Lemma for_each_throws {W E A B} (f : A → prog W E B) l x w :
  x ∈ l → (∀ w0, ∃ e w1, f x w0 = (Throw e, w1)) →
  ∃ e w', for_each f l w = (Throw e, w').
Proof.
  intros Hx Hf. revert w. induction l as [|y l IH]; intros w; [by inversion Hx|].
  simpl. unfold bind_prog at 1.
  destruct (f y w) as [[b|e] w1] eqn:Hy; [|eauto].
  apply elem_of_cons in Hx as [->|Hx].
  - destruct (Hf w) as (e & w2 & Hw). congruence.
  - destruct (IH Hx w1) as (e & w2 & Hl). unfold bind_prog. rewrite Hl. eauto.
Qed.

(** The concatenation of the first lists of a list of lists is a prefix of
    the concatenation of all of them. *)
Lemma concat_take_prefix {A} k (ls : list (list A)) :
  ∃ n, concat (take k ls) = take n (concat ls).
Proof.
  revert k. induction ls as [|l ls IH]; intros [|k]; simpl; try by exists 0%nat.
  destruct (IH k) as [n ->]. exists (length l + n)%nat.
  by rewrite take_app_add.
Qed.

(** The error of a loop that throws is the error of one of its iterations. *)
Lemma for_each_throw_inv {W E A B} (f : A → prog W E B) l w e w' :
  for_each f l w = (Throw e, w') → ∃ x w0, x ∈ l ∧ f x w0 = (Throw e, w').
Proof.
  revert w. induction l as [|x l IH]; intros w; [done|].
  intros [(e0 & Hx & [= ->])|(y & w1 & _ & [(e0 & Hl & [= ->])|(ys & _ & ?)])]%for_each_cons_inv;
    [exists x, w; split; [left|done]| |done].
  destruct (IH _ Hl) as (x0 & w0 & ? & ?). exists x0, w0. split; [by right|done].
Qed.

Lemma for_each_fmap {W E A A' B} (f : A' → prog W E B) (g : A → A') l :
  for_each f (g <$> l) = for_each (λ x, f (g x)) l.
Proof. induction l as [|x l IH]; [done|]. rewrite fmap_cons. simpl. by rewrite IH. Qed.

(** ** Filters *)

Section filters.
Context {A : Type} (P : A → Prop) `{∀ x, Decision (P x)}.

Lemma filter_none l : Forall (λ x, ¬ P x) l → filter P l = [].
Proof.
  induction 1 as [|x l Hx Hl IH]; [done|]. by rewrite filter_cons, decide_False.
Qed.

Lemma filter_all l : Forall P l → filter P l = l.
Proof.
  induction 1 as [|x l Hx Hl IH]; [done|]. by rewrite filter_cons, decide_True, IH.
Qed.

Lemma Forall_filter_keep (Q : A → Prop) l : Forall Q l → Forall Q (filter P l).
Proof.
  rewrite !Forall_forall. intros HQ x [_ Hx]%list_elem_of_filter. by apply HQ.
Qed.

Lemma filter_iff_elem (Q : A → Prop) `{∀ x, Decision (Q x)} (l : list A) :
  (∀ x, x ∈ l → P x ↔ Q x) → filter P l = filter Q l.
Proof.
  induction l as [|x l IH]; intros HPQ; [done|]. rewrite !filter_cons.
  rewrite IH by (intros y Hy; apply HPQ; by right).
  destruct (HPQ x) as [H1 H2]; [by left|]. by repeat case_decide; auto; tauto.
Qed.

Lemma filter_filter_none (Q : A → Prop) `{∀ x, Decision (Q x)} l :
  (∀ x, P x → Q x → False) → filter P (filter Q l) = [].
Proof.
  intros HPQ. apply filter_none, Forall_forall.
  intros x [? _]%list_elem_of_filter ?. eauto.
Qed.

End filters.

(** ** Frames: what a computation leaves related

    [preserves R c] says that every run of [c], returning or throwing, takes
    a world to one related to it by [R].  For a preorder [R] the property
    passes through the monad's operations, so a frame of a method is proved
    from the frames of the calls it makes. *)

Definition preserves {W E A} (R : relation W) (c : prog W E A) : Prop :=
  ∀ w r w', c w = (r, w') → R w w'.

Section preserves.
Context {W E : Type} (R : relation W) `{!PreOrder R}.

Lemma preserves_ret {A} (a : A) : preserves (E:=E) R (mret a).
Proof. by intros w r w' [= _ <-]. Qed.

Lemma preserves_throw {A} (e : E) : preserves (A:=A) R (throw e).
Proof. by intros w r w' [= _ <-]. Qed.

Lemma preserves_get_world : preserves (E:=E) R get_world.
Proof. by intros w r w' [= _ <-]. Qed.

Lemma preserves_of_option {A} (o : option A) (e : E) : preserves R (of_option o e).
Proof. destruct o; [apply (preserves_ret a)|apply preserves_throw]. Qed.

Lemma preserves_bind {A B} (c : prog W E A) (f : A → prog W E B) :
  preserves R c → (∀ a, preserves R (f a)) → preserves R (c ≫= f).
Proof.
  intros Hc Hf w r w'. unfold mbind, prog_bind, bind_prog.
  destruct (c w) as [[a|e] w1] eqn:Hrun.
  - intros Hrun'. etrans; [by eapply Hc|by eapply Hf].
  - intros [= _ <-]. by eapply Hc.
Qed.

Lemma preserves_fmap {A B} (g : A → B) (c : prog W E A) :
  preserves R c → preserves R (g <$> c).
Proof.
  intros Hc w r w'. unfold fmap, prog_fmap, bind_prog, ret_prog.
  destruct (c w) as [[a|e] w1] eqn:Hrun; intros [= _ <-]; by eapply Hc.
Qed.

Lemma preserves_try_catch {A} (c : prog W E A) (h : E → prog W E A) :
  preserves R c → (∀ e, preserves R (h e)) → preserves R (try_catch c h).
Proof.
  intros Hc Hh w r w'. unfold try_catch.
  destruct (c w) as [[a|e] w1] eqn:Hrun.
  - intros [= _ <-]. by eapply Hc.
  - intros Hrun'. etrans; [by eapply Hc|by eapply Hh].
Qed.

Lemma preserves_for_each {A B} (f : A → prog W E B) (l : list A) :
  (∀ x, x ∈ l → preserves R (f x)) → preserves R (for_each f l).
Proof.
  intros Hf w r w'. apply (for_each_preserves f (R w)); [|done].
  intros x w0 r0 w1 Hx Hw0 Hrun. etrans; [done|by eapply Hf].
Qed.

Lemma preserves_weaken {A} (R' : relation W) (c : prog W E A) :
  (∀ w w', R' w w' → R w w') → preserves R' c → preserves R c.
Proof. intros HR Hc w r w' Hrun. by eapply HR, Hc. Qed.

End preserves.

(** Splits the frame of a method into the frames of its calls; a call whose
    frame is a hint of the database [rag] is not opened. *)
Ltac preserves_step :=
  first
    [ apply preserves_bind; [tc_solve| |intros ?]
    | apply preserves_try_catch; [tc_solve| |intros ?]
    | apply preserves_fmap; [tc_solve|]
    | apply preserves_ret; tc_solve
    | apply preserves_throw; tc_solve
    | apply preserves_get_world; tc_solve
    | apply preserves_of_option; tc_solve ].

Ltac solve_preserves :=
  repeat first [ solve [auto with rag] | preserves_step | case_match ].

(** ** Inversion of runs *)

Section inversion.
Context {W E : Type}.

Lemma bind_inv {A B} (c : prog W E A) (f : A → prog W E B) w r w' :
  (c ≫= f) w = (r, w') →
  (∃ e, c w = (Throw e, w') ∧ r = Throw e)
  ∨ (∃ a w1, c w = (Ok a, w1) ∧ f a w1 = (r, w')).
Proof.
  unfold mbind, prog_bind, bind_prog. destruct (c w) as [[a|e] w1].
  - intros Hf. right. eauto.
  - intros [= <- <-]. left. eauto.
Qed.

Lemma bind_ok_inv {A B} (c : prog W E A) (f : A → prog W E B) w b w' :
  (c ≫= f) w = (Ok b, w') → ∃ a w1, c w = (Ok a, w1) ∧ f a w1 = (Ok b, w').
Proof. intros [(e & _ & ?)|?]%bind_inv; [done|done]. Qed.

Lemma try_catch_inv {A} (c : prog W E A) (h : E → prog W E A) w r w' :
  try_catch c h w = (r, w') →
  (∃ a, c w = (Ok a, w') ∧ r = Ok a)
  ∨ (∃ e w1, c w = (Throw e, w1) ∧ h e w1 = (r, w')).
Proof.
  unfold try_catch. destruct (c w) as [[a|e] w1].
  - intros [= <- <-]. left. eauto.
  - intros Hh. right. eauto.
Qed.

Lemma mret_inv {A} (a : A) (w : W) (r : outcome E A) w' :
  (mret a : prog W E A) w = (r, w') → r = Ok a ∧ w' = w.
Proof. by intros [= <- <-]. Qed.

Lemma of_option_ok_inv {A} (o : option A) (e : E) (w : W) a w' :
  of_option o e w = (Ok a, w') → o = Some a ∧ w' = w.
Proof. destruct o; [by intros [= <- <-]|done]. Qed.

End inversion.

(** Opens a run that returned: one hypothesis per call, in order. *)
Ltac prog_ok_inv H :=
  repeat
    (let a := fresh "a" in let w := fresh "w" in let Ha := fresh "Hrun" in
     apply bind_ok_inv in H as (a & w & Ha & H)).

(** ** Programs with the same runs

    Two programs are the same when they give the same outcome and the same
    world from every world.  The operations of the monad respect it, so a
    program can be rewritten inside another one. *)

Definition same_runs {W E A} : relation (prog W E A) := pointwise_relation W eq.

Infix "≃" := same_runs (at level 70) : stdpp_scope.

Section same_runs.
Context {W E : Type}.

#[export] Instance same_runs_equiv {A} : Equivalence (@same_runs W E A).
Proof. unfold same_runs. apply _. Qed.

#[export] Instance bind_prog_proper {A B} :
  Proper (pointwise_relation A same_runs ==> same_runs ==> same_runs) (@bind_prog W E A B).
Proof.
  intros f f' Hf c c' Hc w. unfold bind_prog. rewrite (Hc w).
  destruct (c' w) as [[a|e] w']; [apply Hf|done].
Qed.

#[export] Instance mbind_prog_proper {A B} :
  Proper (pointwise_relation A same_runs ==> same_runs ==> same_runs)
    (@mbind (prog W E) _ A B).
Proof. apply bind_prog_proper. Qed.

#[export] Instance try_catch_proper {A} :
  Proper (same_runs ==> pointwise_relation E same_runs ==> same_runs) (@try_catch W E A).
Proof.
  intros c c' Hc h h' Hh w. unfold try_catch. rewrite (Hc w).
  destruct (c' w) as [[a|e] w']; [done|apply Hh].
Qed.

#[export] Instance for_each_proper {A B} :
  Proper (pointwise_relation A same_runs ==> eq ==> same_runs) (@for_each W E A B).
Proof.
  intros f f' Hf l ? <-. induction l as [|x l IH]; [done|].
  simpl. apply bind_prog_proper; [|apply Hf].
  intros y. by apply bind_prog_proper.
Qed.

Lemma bind_ret_r_runs {A} (c : prog W E A) : (c ≫= mret) ≃ c.
Proof. intros w. unfold mbind, prog_bind, bind_prog. by destruct (c w) as [[a|e] w']. Qed.

Lemma bind_ret_l_runs {A B} (a : A) (f : A → prog W E B) : (mret a ≫= f) ≃ f a.
Proof. done. Qed.

Lemma bind_assoc_runs {A B C} (c : prog W E A) (f : A → prog W E B) (g : B → prog W E C) :
  ((c ≫= f) ≫= g) ≃ (c ≫= λ a, f a ≫= g).
Proof. intros w. unfold mbind, prog_bind, bind_prog. by destruct (c w) as [[a|e] w']. Qed.

End same_runs.

