(* ===== verification/JsString.v ===== *)
(** * The ECMAScript string and array builtins the sources call

    A JavaScript string is a sequence of UTF-16 code units, here a [list N].
    Each builtin is named after the method it models and takes the receiver
    first.  Positions and lengths are [Z]: the chunking loop of [ragService.js]
    passes negative positions to [slice] and [lastIndexOf], and both methods
    give them a meaning.  [toLowerCase] is modelled on the ASCII range, which
    is where the callers compare its result.  [js_sort_by] is the stable
    [Array.prototype.sort] with the comparator given as a boolean order.
    [js_endsWith], [js_text_includes] and [js_remove_ws] are the string
    methods [endsWith] and [includes] and the removal of white space the
    dashboard uses; [path_extname] is Node's [path.extname] and
    [js_object_get] the lookup [o[k]] on an object literal. *)

From Stdlib Require Import ZArith Lia Ascii String.
From stdpp Require Import prelude list strings pretty sorting gmap.
From S2P Require Import Prelude.

#[local] Open Scope Z_scope.

Abbreviation text := (list N) (only parsing).

(** A string literal of the source, as code units (ASCII literals only). *)
Definition str (s : string) : text := N_of_ascii <$> list_ascii_of_string s.

Definition js_length {A} (t : list A) : Z := Z.of_nat (length t).

(** The relative-index rule of [slice]: a negative index counts from the
    end, and every index is clamped to [0, len]. *)
Definition rel_index (len i : Z) : Z :=
  if i <? 0 then Z.max (len + i) 0 else Z.min i len.

(** [t.slice(s, e)], of a string or of an array *)
Definition js_slice {A} (t : list A) (s e : Z) : list A :=
  let from := rel_index (js_length t) s in
  let to := rel_index (js_length t) e in
  take (Z.to_nat (to - from)) (drop (Z.to_nat from) t).

(** [t.substring(s)]: a negative start is 0, a start past the end is the end. *)
Definition js_substring (t : text) (s : Z) : text := drop (Z.to_nat s) t.

(** WhiteSpace and LineTerminator code units, the set [trim] strips. *)
Definition is_ws (c : N) : bool :=
  bool_decide (c ∈ [9; 10; 11; 12; 13; 32; 160; 5760; 8232; 8233; 8239; 8287;
                    12288; 65279]%N)
  || ((8192 <=? c)%N && (c <=? 8202)%N).

Fixpoint trim_start (t : text) : text :=
  match t with
  | [] => []
  | c :: t' => if is_ws c then trim_start t' else t
  end.

Definition trim_end (t : text) : text := reverse (trim_start (reverse t)).

(** [t.trim()] *)
Definition js_trim (t : text) : text := trim_end (trim_start t).

(** Index of the last occurrence of [c] in [t], or -1. *)
Fixpoint last_index_in (c : N) (t : text) : Z :=
  match t with
  | [] => -1
  | x :: t' =>
      let r := last_index_in c t' in
      if 0 <=? r then r + 1 else if (x =? c)%N then 0 else -1
  end.

(** [t.lastIndexOf(c, pos)] for a search string of one code unit [c]: the
    greatest index [k ≤ min (max pos 0) (len - 1)] with [t[k] = c], or -1. *)
Definition js_lastIndexOf (t : text) (c : N) (pos : Z) : Z :=
  last_index_in c (take (S (Z.to_nat pos)) t).

Definition lower_unit (c : N) : N :=
  if ((65 <=? c) && (c <=? 90))%N then (c + 32)%N else c.

(** [t.toLowerCase()], on the ASCII letters. *)
Definition js_toLowerCase (t : text) : text := lower_unit <$> t.

(** [t.startsWith(p)] *)
Definition js_startsWith (t p : text) : bool := bool_decide (take (length p) t = p).

(** [l.join(sep)] *)
Fixpoint js_join (sep : text) (l : list text) : text :=
  match l with
  | [] => []
  | [x] => x
  | x :: l' => x ++ sep ++ js_join sep l'
  end.

(** [l.includes(x)] *)
Definition js_includes (l : list text) (x : text) : bool := bool_decide (x ∈ l).

(** A non-negative integer interpolated into a template literal. *)
Definition js_of_nat (n : nat) : text := str (pretty n).

(** The code units of the decimal digits. *)
Definition is_digit (c : N) : bool := (48 <=? c)%N && (c <=? 57)%N.

Definition period : N := 46%N.
Definition newline : N := 10%N.

(** [l.sort(cmp)], which is stable: [before x y] says [cmp(x, y) <= 0].  An
    element is inserted in front of the first one it may precede, so equal
    elements keep their order. *)
Fixpoint js_sort_insert {A} (before : A → A → bool) (x : A) (l : list A) : list A :=
  match l with
  | [] => [x]
  | y :: l' => if before x y then x :: l else y :: js_sort_insert before x l'
  end.

Fixpoint js_sort_by {A} (before : A → A → bool) (l : list A) : list A :=
  match l with
  | [] => []
  | x :: l' => js_sort_insert before x (js_sort_by before l')
  end.

(** [t.endsWith(u)] *)
Definition js_endsWith (t u : text) : bool :=
  bool_decide (drop (length t - length u) t = u).

(** [t.includes(u)] on strings: [u] occurs in [t]. *)
Definition js_text_includes (t u : text) : bool :=
  existsb (λ k, js_startsWith (drop k t) u) (seq 0 (S (length t))).

(** [t.replace(/\s+/g, '')] *)
Definition js_remove_ws (t : text) : text := filter (λ c, is_ws c = false) t.

(** ** Node's [path.extname] and the printing of a quotient *)

Definition slash : N := 47%N.

(** The longest prefix of [t] without [c], and [t] without its leading [c]s. *)
Fixpoint take_until (c : N) (t : text) : text :=
  match t with
  | [] => []
  | x :: t' => if bool_decide (x = c) then [] else x :: take_until c t'
  end.

Fixpoint drop_leading (c : N) (t : text) : text :=
  match t with
  | [] => []
  | x :: t' => if bool_decide (x = c) then drop_leading c t' else t
  end.

(** [path.extname(p)] (POSIX): the last component of [p], trailing slashes
    apart, from its last period on; empty when the component has no period,
    when its only period is its first character, and when it is [..].  The
    scan runs from the end of the path, so the text is handled reversed. *)
Definition path_extname (p : text) : text :=
  let rbase := take_until slash (drop_leading slash (reverse p)) in
  let rext := take_until period rbase in
  match drop (length rext) rbase with
  | [] => []
  | _ :: rbefore =>
      if bool_decide (rbefore = []) then []
      else if bool_decide (rbase = [period; period]) then []
      else period :: reverse rext
  end.

(** An integer interpolated into a template literal. *)
Definition js_of_Z (z : Z) : text :=
  if z <? 0 then str "-" ++ js_of_nat (Z.to_nat (- z)) else js_of_nat (Z.to_nat z).

(** The decimal digits of [r / d] after the point, for [0 <= r < d], at most
    [fuel] of them. *)
Fixpoint frac_digits (fuel : nat) (r d : Z) : text :=
  match fuel with
  | O => []
  | S fuel' =>
      if r =? 0 then []
      else js_of_Z (10 * r / d) ++ frac_digits fuel' (10 * r mod d) d
  end.

(** The quotient [n / d] of two integers as a template literal prints it, for
    a power of two [d] (the division is then exact in floating point).  The
    expansion is the exact one; it is what the engine prints when it has at
    most 15 significant digits and the quotient is 0 or at least 0.000001 in
    magnitude, which covers every whole number of mebibytes. *)
Definition js_quot_text (n d : Z) : text :=
  let a := Z.abs n in
  (if n <? 0 then str "-" else [])
  ++ js_of_Z (a / d)
  ++ (if a mod d =? 0 then [] else str "." ++ frac_digits 64 (a mod d) d).

(** ** Objects used as tables

    [o[k]] on an object literal finds the members the literal declares and,
    for the other keys, the members every object inherits. *)
Definition object_prototype_keys : list text :=
  [str "constructor"; str "__defineGetter__"; str "__defineSetter__";
   str "hasOwnProperty"; str "__lookupGetter__"; str "__lookupSetter__";
   str "isPrototypeOf"; str "propertyIsEnumerable"; str "toString";
   str "valueOf"; str "__proto__"; str "toLocaleString"].

(** What an inherited member prints as in a template literal. *)
Definition inherited_text (k : text) : text :=
  if bool_decide (k = str "__proto__") then str "[object Object]"
  else if bool_decide (k = str "constructor") then str "function Object() { [native code] }"
  else str "function " ++ k ++ str "() { [native code] }".

(** [o[k]] for an object literal [o] with text members: the declared member,
    else the inherited one (given as the text it prints as), else
    [undefined]. *)
Definition js_object_get (o : gmap text text) (k : text) : option text :=
  match o !! k with
  | Some v => Some v
  | None => if js_includes object_prototype_keys k then Some (inherited_text k) else None
  end.

(** ** Lengths and slices *)

Section slices.
Context {A : Type}.
Implicit Types t u : list A.

Lemma js_length_nonneg t : 0 ≤ js_length t.
Proof. unfold js_length. lia. Qed.

Lemma js_length_app t u : js_length (t ++ u) = js_length t + js_length u.
Proof. unfold js_length. rewrite length_app. lia. Qed.

Lemma js_length_nil_iff t : js_length t = 0 ↔ t = [].
Proof. unfold js_length. destruct t; simpl; split; (done || lia). Qed.

Lemma rel_index_bounds len i : 0 ≤ len → 0 ≤ rel_index len i ≤ len.
Proof. unfold rel_index. intros. case_match; lia. Qed.

Lemma rel_index_inside len i : 0 ≤ i ≤ len → rel_index len i = i.
Proof. unfold rel_index. intros. case_match; lia. Qed.

Lemma rel_index_past len i : 0 ≤ len ≤ i → rel_index len i = len.
Proof. unfold rel_index. intros. case_match; lia. Qed.

Lemma js_slice_length_le t s e : js_length (js_slice t s e) ≤ js_length t.
Proof.
  unfold js_slice, js_length. rewrite length_take, length_drop. lia.
Qed.

Lemma js_slice_length t s e :
  js_length (js_slice t s e)
  = Z.max 0 (rel_index (js_length t) e - rel_index (js_length t) s).
Proof.
  pose proof (rel_index_bounds (js_length t) s (js_length_nonneg t)).
  pose proof (rel_index_bounds (js_length t) e (js_length_nonneg t)).
  unfold js_slice. unfold js_length at 1.
  rewrite length_take, length_drop. unfold js_length in *. lia.
Qed.

Lemma js_slice_inside t s e :
  0 ≤ s → s ≤ e → e ≤ js_length t →
  js_slice t s e = take (Z.to_nat (e - s)) (drop (Z.to_nat s) t).
Proof.
  intros. unfold js_slice. by rewrite !rel_index_inside by lia.
Qed.

Lemma drop_rel_index t s : 0 ≤ s → drop (Z.to_nat (rel_index (js_length t) s)) t = drop (Z.to_nat s) t.
Proof.
  intros. destruct (decide (s ≤ js_length t)).
  - by rewrite rel_index_inside.
  - rewrite rel_index_past by (unfold js_length in *; lia).
    unfold js_length in *. by rewrite !drop_ge by lia.
Qed.

Lemma js_slice_to_end t s e :
  0 ≤ s → js_length t ≤ e → js_slice t s e = drop (Z.to_nat s) t.
Proof.
  intros. unfold js_slice. rewrite drop_rel_index by done.
  rewrite (rel_index_past _ e) by (unfold js_length in *; lia).
  apply take_ge. rewrite length_drop. unfold rel_index, js_length in *.
  case_match; lia.
Qed.

Lemma js_slice_whole t e : js_length t ≤ e → js_slice t 0 e = t.
Proof. intros. by rewrite js_slice_to_end. Qed.

Lemma js_slice_infix t s e : ∃ a b, t = a ++ js_slice t s e ++ b.
Proof.
  unfold js_slice. generalize (Z.to_nat (rel_index (js_length t) s)) as from.
  generalize (Z.to_nat (rel_index (js_length t) e - rel_index (js_length t) s)) as n.
  intros n from. exists (take from t), (drop n (drop from t)).
  by rewrite (take_drop n (drop from t)), (take_drop from t).
Qed.

End slices.

(** ** Trimming *)

Lemma trim_start_suffix t : ∃ a, t = a ++ trim_start t ∧ Forall (λ c, is_ws c = true) a.
Proof.
  induction t as [|c t (a & Ha & Hws)]; simpl.
  - by exists [].
  - destruct (is_ws c) eqn:Hc.
    + exists (c :: a). split; [simpl; congruence | by constructor].
    + by exists [].
Qed.

Lemma trim_start_head t c u : trim_start t = c :: u → is_ws c = false.
Proof.
  induction t as [|x t IH]; simpl; [done|].
  destruct (is_ws x) eqn:Hx; [done|]. by intros [= -> _].
Qed.

Lemma trim_start_fixed t c u : t = c :: u → is_ws c = false → trim_start t = t.
Proof. intros -> Hc. simpl. by rewrite Hc. Qed.

Lemma trim_start_length t : (length (trim_start t) ≤ length t)%nat.
Proof. induction t; simpl; [done|]. case_match; simpl; lia. Qed.

Lemma trim_end_prefix t : ∃ b, t = trim_end t ++ b ∧ Forall (λ c, is_ws c = true) b.
Proof.
  unfold trim_end. destruct (trim_start_suffix (reverse t)) as (a & Ha & Hws).
  exists (reverse a). split; [|by apply Forall_reverse].
  rewrite <- reverse_app, <- Ha. by rewrite reverse_involutive.
Qed.

Lemma trim_end_length t : (length (trim_end t) ≤ length t)%nat.
Proof.
  unfold trim_end. rewrite length_reverse, <- (length_reverse t).
  apply trim_start_length.
Qed.

Lemma trim_start_snoc_nonws t c : is_ws c = false → ∃ r, trim_start (t ++ [c]) = r ++ [c].
Proof.
  intros Hc. induction t as [|x t (r & Hr)]; simpl.
  - rewrite Hc. by exists [].
  - destruct (is_ws x); [eauto|]. by exists (x :: t).
Qed.

Lemma trim_end_head t c u : t = c :: u → is_ws c = false → ∃ u', trim_end t = c :: u'.
Proof.
  intros -> Hc. unfold trim_end. rewrite reverse_cons.
  destruct (trim_start_snoc_nonws (reverse u) c Hc) as (r & ->).
  rewrite reverse_snoc. eauto.
Qed.

Lemma js_trim_infix t : ∃ a b, t = a ++ js_trim t ++ b.
Proof.
  unfold js_trim. destruct (trim_start_suffix t) as (a & Ha & _).
  destruct (trim_end_prefix (trim_start t)) as (b & Hb & _).
  exists a, b. by rewrite <- Hb.
Qed.

Lemma js_trim_length_le t : js_length (js_trim t) ≤ js_length t.
Proof.
  unfold js_trim, js_length.
  pose proof (trim_end_length (trim_start t)). pose proof (trim_start_length t). lia.
Qed.

Lemma js_trim_head t c u : js_trim t = c :: u → is_ws c = false.
Proof.
  unfold js_trim. intros Ht.
  destruct (trim_start t) as [|x r] eqn:Hs; [done|].
  pose proof (trim_start_head _ _ _ Hs) as Hx.
  destruct (trim_end_head (x :: r) x r eq_refl Hx) as (u' & Hu).
  rewrite Hu in Ht. by injection Ht as -> _.
Qed.

Lemma trim_start_nil_iff t : trim_start t = [] ↔ Forall (λ c, is_ws c = true) t.
Proof.
  induction t as [|c t IH]; simpl; [by split|].
  destruct (is_ws c) eqn:Hc.
  - rewrite IH. split; [by constructor | by inversion 1].
  - split; [done | inversion 1; congruence].
Qed.

Lemma js_trim_fixed t c u d :
  t = c :: u ++ [d] → is_ws c = false → is_ws d = false → js_trim t = t.
Proof.
  intros -> Hc Hd. unfold js_trim. rewrite (trim_start_fixed _ c (u ++ [d])) by done.
  unfold trim_end.
  assert (reverse (c :: u ++ [d]) = d :: reverse u ++ [c]) as ->.
  { by rewrite reverse_cons, reverse_app. }
  simpl. rewrite Hd.
  by rewrite reverse_cons, reverse_app, reverse_involutive.
Qed.

Lemma js_trim_singleton c : is_ws c = false → js_trim [c] = [c].
Proof. intros Hc. unfold js_trim, trim_end. simpl. rewrite Hc. simpl. by rewrite Hc. Qed.

(** ** [lastIndexOf] *)

Lemma last_index_in_bounds c t : -1 ≤ last_index_in c t < js_length t.
Proof.
  unfold js_length. induction t as [|x t IH]; simpl length; simpl last_index_in; [lia|].
  repeat case_match; lia.
Qed.

Lemma last_index_in_absent c t : c ∉ t → last_index_in c t = -1.
Proof.
  induction t as [|x t IH]; [done|]. intros [Hx Ht]%not_elem_of_cons.
  simpl. rewrite (IH Ht). simpl. destruct (N.eqb_spec x c); congruence.
Qed.

Lemma last_index_in_hit c t :
  0 ≤ last_index_in c t → t !! Z.to_nat (last_index_in c t) = Some c.
Proof.
  induction t as [|x t IH]; simpl last_index_in; [lia|].
  destruct (Z.leb_spec 0 (last_index_in c t)) as [Hr|Hr].
  - intros _. replace (Z.to_nat (last_index_in c t + 1)) with (S (Z.to_nat (last_index_in c t))) by lia.
    by apply IH.
  - destruct (N.eqb_spec x c) as [->|]; [done | lia].
Qed.

Lemma last_index_in_greatest c t (k : nat) :
  t !! k = Some c → Z.of_nat k ≤ last_index_in c t.
Proof.
  revert k. induction t as [|x t IH]; intros k; [done|].
  pose proof (last_index_in_bounds c t). simpl last_index_in.
  destruct k as [|k]; simpl.
  - intros [= ->]. rewrite N.eqb_refl. case_match; lia.
  - intros Hk%IH. destruct (Z.leb_spec 0 (last_index_in c t)); lia.
Qed.

Lemma js_lastIndexOf_bounds t c pos :
  -1 ≤ js_lastIndexOf t c pos ∧ js_lastIndexOf t c pos ≤ Z.max pos 0
  ∧ js_lastIndexOf t c pos < js_length t.
Proof.
  unfold js_lastIndexOf.
  pose proof (last_index_in_bounds c (take (S (Z.to_nat pos)) t)) as Hb.
  unfold js_length in *. rewrite length_take in Hb. lia.
Qed.

Lemma js_lastIndexOf_absent t c pos : c ∉ t → js_lastIndexOf t c pos = -1.
Proof.
  intros Hc. apply last_index_in_absent. intros Hin. apply Hc.
  by eapply subseteq_take.
Qed.

Lemma js_lastIndexOf_hit t c pos :
  0 ≤ js_lastIndexOf t c pos → t !! Z.to_nat (js_lastIndexOf t c pos) = Some c.
Proof.
  intros Hr. pose proof (last_index_in_hit c _ Hr) as Hhit.
  by apply lookup_take_Some in Hhit as [? _].
Qed.

Lemma js_lastIndexOf_greatest t c pos (k : nat) :
  t !! k = Some c → Z.of_nat k ≤ Z.max pos 0 → Z.of_nat k ≤ js_lastIndexOf t c pos.
Proof.
  intros Hk Hle. apply last_index_in_greatest.
  rewrite lookup_take_lt by lia. done.
Qed.

(** ** Literals, joins and decimal printing *)

Lemma str_inj : Inj (=) (=) str.
Proof.
  intros s1 s2 Hs. unfold str in Hs.
  rewrite <- (string_of_list_ascii_of_string s1), <- (string_of_list_ascii_of_string s2).
  f_equal. revert Hs. generalize (list_ascii_of_string s2) as l2.
  induction (list_ascii_of_string s1) as [|a l1 IH]; intros [|b l2]; simpl; try done.
  intros [= Hab Hl]. f_equal; [|by apply IH].
  by rewrite <- (ascii_N_embedding a), <- (ascii_N_embedding b), Hab.
Qed.

Lemma js_of_nat_inj : Inj (=) (=) js_of_nat.
Proof. intros n m H. unfold js_of_nat in H. by apply str_inj, (inj pretty) in H. Qed.

Lemma pretty_N_go_digits x s :
  Forall (λ c, is_digit c = true) (str s) →
  Forall (λ c, is_digit c = true) (str (pretty_N_go x s)).
Proof.
  revert s. induction (N.lt_wf_0 x) as [x _ IH]; intros s Hs.
  destruct (decide (x = 0)%N) as [->|Hx]; [by rewrite pretty_N_go_0|].
  rewrite pretty_N_go_step by lia. apply IH; [apply N.div_lt; lia|].
  change (str (String ?a s)) with (N_of_ascii a :: str s). constructor; [|done].
  assert (x `mod` 10 < 10)%N as Hm by (apply N.mod_lt; lia).
  revert Hm. generalize (x `mod` 10)%N. intros d Hd.
  by do 10 (destruct d as [|d] using N.peano_ind; [done|]; try lia).
Qed.

(** A number is printed with decimal digits only. *)
Lemma js_of_nat_digits n : Forall (λ c, is_digit c = true) (js_of_nat n).
Proof.
  unfold js_of_nat, pretty, pretty_nat, pretty, pretty_N.
  case_decide; [by repeat constructor|]. by apply pretty_N_go_digits.
Qed.

(** Two texts cut at the first occurrence of a separator: equal texts have
    equal parts. *)
Lemma app_sep_inj {A} (u : A) s s' a a' :
  u ∉ s → u ∉ s' → s ++ u :: a = s' ++ u :: a' → s = s' ∧ a = a'.
Proof.
  revert s'. induction s as [|x s IH]; intros [|y s'] Hs Hs'; simpl.
  - by intros [= ->].
  - intros [= <- _]. by apply not_elem_of_cons in Hs' as [? _].
  - intros [= -> _]. by apply not_elem_of_cons in Hs as [? _].
  - intros [= -> H]. apply not_elem_of_cons in Hs as [_ Hs].
    apply not_elem_of_cons in Hs' as [_ Hs'].
    by destruct (IH s' Hs Hs' H) as [-> ->].
Qed.

Lemma js_join_singleton sep x : js_join sep [x] = x.
Proof. done. Qed.

Lemma js_join_cons sep x y l : js_join sep (x :: y :: l) = x ++ sep ++ js_join sep (y :: l).
Proof. done. Qed.

Lemma js_includes_true l x : js_includes l x = true ↔ x ∈ l.
Proof. unfold js_includes. apply bool_decide_eq_true. Qed.

Lemma js_startsWith_app p u : js_startsWith (p ++ u) p = true.
Proof. unfold js_startsWith. apply bool_decide_eq_true. by rewrite take_app_length. Qed.

Lemma js_startsWith_true t p : js_startsWith t p = true ↔ ∃ u, t = p ++ u.
Proof.
  unfold js_startsWith. rewrite bool_decide_eq_true. split.
  - intros H. exists (drop (length p) t). by rewrite <- H at 1; rewrite take_drop.
  - intros [u ->]. by rewrite take_app_length.
Qed.

(** ** Facts the chunking loop needs *)

Lemma js_length_pos_iff {A} (t : list A) : (0 <? js_length t) = true ↔ t ≠ [].
Proof.
  rewrite Z.ltb_lt. unfold js_length. destruct t; simpl; split; (done || lia).
Qed.

Lemma js_length_pos_false {A} (t : list A) : (0 <? js_length t) = false ↔ t = [].
Proof.
  rewrite Z.ltb_ge. unfold js_length. destruct t; simpl; split; (done || lia).
Qed.

Lemma trim_end_last t u d : trim_end t = u ++ [d] → is_ws d = false.
Proof.
  unfold trim_end. intros H. apply (f_equal reverse) in H.
  rewrite reverse_involutive, reverse_snoc in H. by eapply trim_start_head.
Qed.

Lemma js_trim_idemp t : js_trim (js_trim t) = js_trim t.
Proof.
  destruct (js_trim t) as [|c u] eqn:Ht; [done|].
  pose proof (js_trim_head _ _ _ Ht) as Hc.
  destruct u as [|d u _] using rev_ind; [by apply js_trim_singleton|].
  eapply js_trim_fixed; [done..|].
  unfold js_trim in Ht. by apply (trim_end_last (trim_start t) (c :: u) d).
Qed.

Lemma js_slice_lookup {A} (t : list A) s e p :
  0 ≤ s → s ≤ p → p < e → p < js_length t →
  js_slice t s e !! Z.to_nat (p - s) = t !! Z.to_nat p.
Proof.
  intros. unfold js_slice. rewrite (rel_index_inside _ s) by lia.
  rewrite lookup_take_lt, lookup_drop.
  - f_equal. lia.
  - unfold rel_index. case_match; lia.
Qed.

Lemma js_slice_length_span {A} (t : list A) s e :
  0 ≤ s → s ≤ e → js_length (js_slice t s e) ≤ e - s.
Proof.
  intros. rewrite js_slice_length. pose proof (js_length_nonneg t).
  unfold rel_index. repeat case_match; lia.
Qed.

(** ** Sorting *)

Section sort.
Context {A : Type} (before : A → A → bool).

Lemma js_sort_insert_perm x l : js_sort_insert before x l ≡ₚ x :: l.
Proof.
  induction l as [|y l IH]; simpl; [done|].
  destruct (before x y); [done|]. rewrite IH. apply Permutation_swap.
Qed.

Lemma js_sort_by_perm l : js_sort_by before l ≡ₚ l.
Proof.
  induction l as [|x l IH]; simpl; [done|]. by rewrite js_sort_insert_perm, IH.
Qed.

Lemma js_sort_by_length l : length (js_sort_by before l) = length l.
Proof. by rewrite js_sort_by_perm. Qed.

Lemma js_sort_by_Forall (P : A → Prop) l : Forall P l → Forall P (js_sort_by before l).
Proof. by rewrite js_sort_by_perm. Qed.

Lemma js_sort_by_elem_of x l : x ∈ js_sort_by before l ↔ x ∈ l.
Proof. by rewrite js_sort_by_perm. Qed.

Context (before_total : ∀ x y, before x y = true ∨ before y x = true).

Lemma js_sort_insert_sorted x l :
  Sorted (λ a b, before a b = true) l →
  Sorted (λ a b, before a b = true) (js_sort_insert before x l).
Proof.
  induction 1 as [|y l Hl IH Hhd]; simpl; [by repeat constructor|].
  destruct (before x y) eqn:Hxy.
  - by repeat constructor.
  - constructor; [done|]. destruct (before_total x y) as [?|Hyx]; [congruence|].
    destruct Hhd as [|z l Hyz]; simpl; [by constructor|].
    destruct (before x z); by constructor.
Qed.

Lemma js_sort_by_sorted l : Sorted (λ a b, before a b = true) (js_sort_by before l).
Proof. induction l; simpl; [constructor | by apply js_sort_insert_sorted]. Qed.

Lemma js_sort_by_id l :
  Sorted (λ a b, before a b = true) l → js_sort_by before l = l.
Proof.
  induction 1 as [|x l Hl IH Hhd]; simpl; [done|]. rewrite IH.
  destruct Hhd as [|y l Hxy]; simpl; [done|]. by rewrite Hxy.
Qed.

End sort.

Lemma js_slice_take_drop {A} (t : list A) s e :
  0 ≤ s ≤ e → js_slice t s e = take (Z.to_nat (e - s)) (drop (Z.to_nat s) t).
Proof.
  intros. unfold js_slice. rewrite drop_rel_index by lia.
  destruct (decide (js_length t ≤ s)) as [Hs|Hs].
  - unfold js_length in Hs. by rewrite drop_ge, !take_nil by lia.
  - destruct (decide (e ≤ js_length t)).
    + by rewrite !rel_index_inside by lia.
    + rewrite (rel_index_past _ e), (rel_index_inside _ s) by (unfold js_length in *; lia).
      unfold js_length in *. by rewrite !take_ge by (rewrite length_drop; lia).
Qed.

(** ** [path.extname] *)

Lemma take_until_app c t u : c ∉ t → take_until c (t ++ u) = t ++ take_until c u.
Proof.
  induction t as [|x t IH]; [done|]. intros [Hx Ht]%not_elem_of_cons. simpl.
  rewrite bool_decide_eq_false_2 by done. by rewrite IH.
Qed.

Lemma take_until_absent c t : c ∉ t → take_until c t = t.
Proof.
  intros Ht. rewrite <- (app_nil_r t) at 1. rewrite take_until_app by done.
  simpl. apply app_nil_r.
Qed.

Lemma take_until_not_elem c t : c ∉ take_until c t.
Proof.
  induction t as [|x t IH]; simpl; [apply not_elem_of_nil|].
  case_bool_decide; [apply not_elem_of_nil|]. by apply not_elem_of_cons.
Qed.

Lemma drop_leading_other c x t : x ≠ c → drop_leading c (x :: t) = x :: t.
Proof. intros Hx. simpl. by rewrite bool_decide_eq_false_2. Qed.

(** A name whose last component is [base.ext], with a non-empty stem, has
    the extension [.ext]. *)
Lemma path_extname_ext base c ext :
  c ≠ slash → slash ∉ ext → period ∉ ext → ext ≠ [] →
  path_extname (base ++ c :: period :: ext) = period :: ext.
Proof.
  intros Hc Hs Hp Hne. unfold path_extname.
  rewrite reverse_app, !reverse_cons, <- !(assoc_L (++)). simpl.
  destruct (reverse ext) as [|x rext] eqn:Hr.
  { apply (f_equal reverse) in Hr. rewrite reverse_involutive in Hr. done. }
  assert ((slash ∉ x :: rext) ∧ (period ∉ x :: rext)) as [Hs' Hp'].
  { rewrite <- Hr. split; by rewrite elem_of_reverse. }
  simpl app. rewrite drop_leading_other by (by apply not_elem_of_cons in Hs' as [? _]).
  change (x :: rext ++ period :: c :: reverse base)
    with ((x :: rext) ++ period :: c :: reverse base).
  rewrite (take_until_app slash) by done. cbn [take_until].
  rewrite (bool_decide_eq_false_2 (period = slash)) by done.
  rewrite (bool_decide_eq_false_2 (c = slash)) by done.
  rewrite (take_until_app period) by done. cbn [take_until].
  rewrite (bool_decide_eq_true_2 (period = period)) by done.
  rewrite app_nil_r, drop_app_length. cbn [bool_decide].
  rewrite bool_decide_eq_false_2 by done.
  rewrite bool_decide_eq_false_2.
  - by rewrite <- Hr, reverse_involutive.
  - intros [= -> _]. apply Hp'. left.
Qed.

(** A name without a period in its last component has no extension. *)
Lemma path_extname_no_period p : period ∉ p → path_extname p = [].
Proof.
  intros Hp. unfold path_extname.
  set (rbase := take_until slash _).
  assert (period ∉ rbase) as Hb.
  { subst rbase. intros Hin. apply Hp.
    assert (∀ t, period ∈ take_until slash t → period ∈ t) as Htu.
    { induction t as [|x t IH]; simpl; [done|]. case_bool_decide.
      - by intros ?%elem_of_nil.
      - intros [->|?]%elem_of_cons; [left|right; auto]. }
    assert (∀ t, period ∈ drop_leading slash t → period ∈ t) as Hdl.
    { induction t as [|x t IH]; simpl; [done|]. case_bool_decide; [right; auto|done]. }
    apply elem_of_reverse. auto. }
  rewrite (take_until_absent period) by done. by rewrite drop_all.
Qed.

(** ** Objects used as tables *)

Lemma js_object_get_own o k v : o !! k = Some v → js_object_get o k = Some v.
Proof. unfold js_object_get. by intros ->. Qed.

Lemma js_object_get_none o k :
  js_object_get o k = None ↔ o !! k = None ∧ k ∉ object_prototype_keys.
Proof.
  unfold js_object_get, js_includes. destruct (o !! k).
  { split; [done|]. by intros [? _]. }
  case_bool_decide; (split; [try done|]).
  - by intros [_ ?].
  - by intros _.
Qed.

Lemma js_object_get_plain o k :
  k ∉ object_prototype_keys → js_object_get o k = o !! k.
Proof.
  intros Hk. unfold js_object_get, js_includes. destruct (o !! k); [done|].
  by rewrite bool_decide_eq_false_2.
Qed.

(** ** [endsWith], and the extension as a suffix of the name *)

Lemma js_endsWith_true t u : js_endsWith t u = true ↔ u `suffix_of` t.
Proof.
  unfold js_endsWith. rewrite bool_decide_eq_true. split.
  - intros <-. apply suffix_drop.
  - intros [k ->]. rewrite length_app.
    replace (length k + length u - length u)%nat with (length k) by lia.
    apply drop_app_length.
Qed.

Lemma js_toLowerCase_suffix t u :
  u `suffix_of` t → js_toLowerCase u `suffix_of` js_toLowerCase t.
Proof. intros [k ->]. exists (js_toLowerCase k). apply fmap_app. Qed.

Lemma drop_leading_absent c t : c ∉ t → drop_leading c t = t.
Proof.
  destruct t as [|x t]; [done|]. intros [Hx _]%not_elem_of_cons.
  by apply drop_leading_other.
Qed.

(** What [take_until] leaves starts with the character it stopped at. *)
Lemma take_until_split c t :
  t = take_until c t
  ∨ ∃ rest, t = take_until c t ++ c :: rest
            ∧ drop (length (take_until c t)) t = c :: rest.
Proof.
  induction t as [|x t IH]; simpl; [by left|]. case_bool_decide as Hx.
  - right. exists t. by subst.
  - destruct IH as [IH|(rest & IH & Hd)]; [left; by f_equal|].
    right. exists rest. split; [simpl; by f_equal|done].
Qed.

(** The extension of a name without a slash is a suffix of the name that
    starts with a period, or it is empty. *)
Lemma path_extname_suffix p :
  slash ∉ p →
  path_extname p = []
  ∨ ∃ ext, path_extname p = period :: ext ∧ (period :: ext) `suffix_of` p.
Proof.
  intros Hp. unfold path_extname.
  assert (slash ∉ reverse p) as Hr by (by rewrite elem_of_reverse).
  rewrite (drop_leading_absent slash (reverse p) Hr), (take_until_absent slash _ Hr).
  destruct (take_until_split period (reverse p)) as [Hall|(rest & Hsplit & Hd)].
  - left. rewrite <- Hall, drop_all. done.
  - rewrite Hd. repeat case_bool_decide; [by left..|]. right.
    eexists. split; [done|]. exists (reverse rest).
    apply (f_equal reverse) in Hsplit.
    rewrite reverse_involutive, reverse_app, reverse_cons in Hsplit.
    by rewrite <- (assoc_L (++)) in Hsplit.
Qed.

(** ** [includes] on strings *)

Lemma js_text_includes_true t u : js_text_includes t u = true ↔ ∃ a b, t = a ++ u ++ b.
Proof.
  unfold js_text_includes. rewrite existsb_exists. split.
  - intros (k & _ & [b Hb]%js_startsWith_true). exists (take k t), b.
    by rewrite <- Hb, take_drop.
  - intros (a & b & ->). exists (length a). split.
    + apply list_elem_of_In, elem_of_seq. rewrite length_app. lia.
    + rewrite drop_app_length. apply js_startsWith_app.
Qed.

Lemma js_text_includes_empty t : js_text_includes t [] = true.
Proof. apply js_text_includes_true. by exists [], t. Qed.

Lemma js_remove_ws_clean t : Forall (λ c, is_ws c = false) (js_remove_ws t).
Proof. apply Forall_forall. by intros c [? _]%list_elem_of_filter. Qed.
