(* ===== verification/Tasks.v ===== *)
(** * Asynchronous functions as tasks

    An [async] function of the sources runs without interruption from one
    [await] to the next; at an [await] the event loop may run the steps of
    other functions.  This file holds the runtime the task models of
    [Interleave.v] (the document service) and [SessionTasks.v] (the handlers
    of [AuthProvider]) share, over any type [W] of state:

    - [task W A]: a function as a tree of atomic steps.  [Await c k] runs the
      program [c] without interruption and goes on as [k] of its outcome;
      [Return] and [Raise] are a function that has returned or thrown;
    - [task_bind], [task_try], [task_for_each]: sequencing, [try]/[catch] and
      a [for] loop whose body awaits;
    - [complete]: a task run alone, from its first step to its last;
    - [task_step], [pool_step], [run_pool]: one step of one task of a pool of
      tasks, and a schedule of such steps;
    - [task_sound R Q]: every step of the task relates the state before to
      the state after by [R], and what the task returns satisfies [Q].

    The lemmas: [complete] of each operation is the operation of the monad
    ([complete_bind], [complete_try], ...), which the tactic [solve_alone]
    uses to compare a task run alone with the method it was cut from; a
    relation every step keeps is kept by every schedule ([run_pool_sound]);
    a task scheduled on its own inside a pool ends as [complete] says
    ([runs_inside], [task_ends]). *)

From Stdlib Require Import ZArith Lia.
From stdpp Require Import prelude list.
From S2P Require Import Prelude JsString.

(** ** Tasks *)

Inductive task (W A : Type) : Type :=
  | Return (a : A)
  | Raise (e : text)
  | Await {B : Type} (c : prog W text B) (k : outcome text B → task W A).

Arguments Return {W A} a.
Arguments Raise {W A} e.
Arguments Await {W A B} c k.

(** The task that has ended with the outcome [o]. *)
Definition finished {W A} (o : outcome text A) : task W A :=
  match o with Ok a => Return a | Throw e => Raise e end.

(** One awaited call: its value is returned, its error thrown. *)
Definition atomic {W A} (c : prog W text A) : task W A := Await c finished.

Fixpoint task_bind {W A B} (f : A → task W B) (t : task W A) : task W B :=
  match t with
  | Return a => f a
  | Raise e => Raise e
  | Await c k => Await c (λ o, task_bind f (k o))
  end.

(** [try { t } catch (e) { h }] *)
Fixpoint task_try {W A} (t : task W A) (h : text → task W A) : task W A :=
  match t with
  | Return a => Return a
  | Raise e => h e
  | Await c k => Await c (λ o, task_try (k o) h)
  end.

#[export] Instance task_ret {W} : MRet (task W) := @Return W.
#[export] Instance task_mbind {W} : MBind (task W) := @task_bind W.

(** A [for] loop that awaits in its body. *)
Fixpoint task_for_each {W A B} (f : A → task W B) (l : list A) : task W (list B) :=
  match l with
  | [] => Return []
  | x :: l' => y ← f x; ys ← task_for_each f l'; Return (y :: ys)
  end.

(** The task run alone. *)
Fixpoint complete {W A} (t : task W A) (w : W) : outcome text A * W :=
  match t with
  | Return a => (Ok a, w)
  | Raise e => (Throw e, w)
  | Await c k => let (o, w') := c w in complete (k o) w'
  end.

(** One step of a task; a task that has ended stays as it is. *)
Definition task_step {W A} (t : task W A) (w : W) : task W A * W :=
  match t with
  | Await c k => let (o, w') := c w in (k o, w')
  | _ => (t, w)
  end.

Definition ended {W A} (t : task W A) : bool :=
  match t with Await _ _ => false | _ => true end.

(** How a task that has ended did end. *)
Definition outcome_of {W A} (t : task W A) : option (outcome text A) :=
  match t with
  | Return a => Some (Ok a)
  | Raise e => Some (Throw e)
  | Await _ _ => None
  end.

(** ** Pools and schedules *)

(** The functions in progress. *)
Abbreviation pool W := (list (task W unit)).

(** The task at [i] makes one step. *)
Definition pool_step {W} (i : nat) (p : pool W) (w : W) : pool W * W :=
  match p !! i with
  | Some t => let (t', w') := task_step t w in (<[i := t']> p, w')
  | None => (p, w)
  end.

(** A schedule: the tasks that step, in order. *)
Fixpoint run_pool {W} (schedule : list nat) (p : pool W) (w : W) : pool W * W :=
  match schedule with
  | [] => (p, w)
  | i :: schedule' => let (p', w') := pool_step i p w in run_pool schedule' p' w'
  end.

(** The schedule that runs the task at [i] for [n] steps. *)
Definition alone (i n : nat) : list nat := replicate n i.

(** ** Specifications *)

(** Every step of the task takes a state to one related to it by [R], and
    what the task returns satisfies [Q].  The rest of a task is looked at for
    the outcomes its step can have. *)
Inductive task_sound {W A} (R : relation W) (Q : A → Prop) : task W A → Prop :=
  | sound_Return a : Q a → task_sound R Q (Return a)
  | sound_Raise e : task_sound R Q (Raise e)
  | sound_Await {B} (c : prog W text B) k :
      preserves R c → (∀ w o w', c w = (o, w') → task_sound R Q (k o)) →
      task_sound R Q (Await c k).

(** A function on tasks that leaves the steps of its argument in place. *)
Definition stepwise {W A B} (C : task W A → task W B) : Prop :=
  ∀ X (c : prog W text X) k, C (Await c k) = Await c (λ o, C (k o)).

(** ** A task run alone *)

Section alone.
Context {W : Type}.
Implicit Types w : W.

Lemma complete_atomic {A} (c : prog W text A) : complete (atomic c) ≃ c.
Proof. intros w. simpl. by destruct (c w) as [[a|e] w']. Qed.

Lemma complete_bind {A B} (t : task W A) (f : A → task W B) :
  complete (t ≫= f) ≃ (complete t ≫= λ a, complete (f a)).
Proof.
  induction t as [a|e|C c k IH]; intros w; [done..|].
  simpl. unfold mbind, prog_bind, bind_prog. simpl.
  destruct (c w) as [o w']. apply IH.
Qed.

Lemma complete_try {A} (t : task W A) (h : text → task W A) :
  complete (task_try t h) ≃ try_catch (complete t) (λ e, complete (h e)).
Proof.
  induction t as [a|e|C c k IH]; intros w; [done..|].
  simpl. unfold try_catch. simpl. destruct (c w) as [o w']. apply IH.
Qed.

Lemma complete_for_each {A B} (f : A → task W B) (l : list A) :
  complete (task_for_each f l) ≃ for_each (λ x, complete (f x)) l.
Proof.
  induction l as [|x l IH]; [done|].
  simpl. rewrite complete_bind. apply bind_prog_proper; [|done].
  intros y. rewrite complete_bind. by apply bind_prog_proper.
Qed.

Lemma complete_step {A B} (c : prog W text A) (f : A → task W B) w a w' :
  c w = (Ok a, w') → complete (atomic c ≫= f) w = complete (f a) w'.
Proof. intros Hc. unfold mbind, task_mbind. simpl. by rewrite Hc. Qed.

Lemma complete_step_throw {A B} (c : prog W text A) (f : A → task W B) w e w' :
  c w = (Throw e, w') → complete (atomic c ≫= f) w = (Throw e, w').
Proof. intros Hc. unfold mbind, task_mbind. simpl. by rewrite Hc. Qed.

End alone.

(** Pushes [complete] through the operations of a task, then compares
    the two programs call by call. *)
Ltac run_alone_step :=
  first
    [ rewrite complete_try | rewrite complete_bind | rewrite complete_atomic
    | rewrite complete_for_each
    | setoid_rewrite complete_try | setoid_rewrite complete_bind
    | setoid_rewrite complete_atomic | setoid_rewrite complete_for_each ].

Ltac run_alone := repeat run_alone_step.

Ltac same_runs_step :=
  first [ reflexivity
        | solve [auto with rag]
        | apply try_catch_proper; [|intros ?]
        | apply bind_prog_proper; [intros ?|]
        | progress cbv zeta ].

Ltac solve_alone := run_alone; repeat same_runs_step.

(** The same, for a task that calls a task whose run is known. *)
Ltac solve_alone_with known :=
  repeat first [ setoid_rewrite known | progress run_alone_step ];
  repeat same_runs_step.

(** ** Steps that keep a relation *)

Section sound.
Context {W : Type} (R : relation W).

Lemma sound_atomic {A} (Q : A → Prop) (c : prog W text A) :
  preserves R c → (∀ w a w', c w = (Ok a, w') → Q a) → task_sound R Q (atomic c).
Proof.
  intros Hc HQ. constructor; [done|].
  intros w [a|e] w' Hrun; constructor. by eapply HQ.
Qed.

Lemma sound_weaken {A} (Q Q' : A → Prop) (t : task W A) :
  (∀ a, Q a → Q' a) → task_sound R Q t → task_sound R Q' t.
Proof. intros HQ. induction 1; constructor; eauto. Qed.

Lemma sound_try {A} (Q : A → Prop) t (h : text → task W A) :
  task_sound R Q t → (∀ e, task_sound R Q (h e)) → task_sound R Q (task_try t h).
Proof. intros Ht Hh. induction Ht; simpl; [by constructor|done|constructor; eauto]. Qed.

Lemma sound_bind {A B} (Q : A → Prop) (Q' : B → Prop) t (f : A → task W B) :
  task_sound R Q t → (∀ a, Q a → task_sound R Q' (f a)) → task_sound R Q' (t ≫= f).
Proof.
  intros Ht Hf. induction Ht; [by apply Hf|constructor|].
  unfold mbind, task_mbind. simpl. constructor; eauto.
Qed.

Lemma sound_for_each {A B} (Q : B → Prop) (f : A → task W B) (l : list A) :
  (∀ x, x ∈ l → task_sound R Q (f x)) → task_sound R (Forall Q) (task_for_each f l).
Proof.
  induction l as [|x l IH]; intros Hf; [by constructor|]. simpl.
  eapply sound_bind; [apply Hf; left|]. intros y Hy.
  eapply sound_bind; [apply IH; intros; apply Hf; by right|].
  intros ys Hys. by repeat constructor.
Qed.

End sound.

(** ** Schedules *)

Section schedules.
Context {W : Type} (R : relation W) `{!PreOrder R}.

Lemma task_step_sound {A} (Q : A → Prop) (t : task W A) w t' w' :
  task_sound R Q t → task_step t w = (t', w') → R w w' ∧ task_sound R Q t'.
Proof.
  intros Ht. destruct Ht as [a Ha|e|B c k Hc Hk]; simpl.
  - intros [= <- <-]. split; [done|by constructor].
  - intros [= <- <-]. split; [done|constructor].
  - destruct (c w) as [o w1] eqn:Hrun. intros [= <- <-]. split; [by eapply Hc|by eapply Hk].
Qed.

Lemma pool_step_sound Q i (p : pool W) w p' w' :
  Forall (task_sound R Q) p → pool_step i p w = (p', w') →
  R w w' ∧ Forall (task_sound R Q) p'.
Proof.
  intros Hp. unfold pool_step. destruct (p !! i) as [t|] eqn:Ht; [|by intros [= <- <-]].
  destruct (task_step t w) as [t1 w1] eqn:Hstep. intros [= <- <-].
  eapply task_step_sound in Hstep as [? ?]; [|by eapply Forall_lookup_1].
  split; [done|]. by apply Forall_insert.
Qed.

Lemma run_pool_sound Q schedule (p : pool W) w p' w' :
  Forall (task_sound R Q) p → run_pool schedule p w = (p', w') →
  R w w' ∧ Forall (task_sound R Q) p'.
Proof.
  revert p w. induction schedule as [|i schedule IH]; intros p w Hp; simpl.
  - by intros [= <- <-].
  - destruct (pool_step i p w) as [p1 w1] eqn:Hstep. intros Hrun.
    eapply pool_step_sound in Hstep as [? ?]; [|done].
    eapply IH in Hrun as [? ?]; [|done]. split; [by etrans|done].
Qed.

End schedules.

(** ** One task scheduled on its own *)

Section serial.
Context {W : Type}.
Implicit Types w : W.

Lemma run_pool_app s1 s2 (p : pool W) w :
  run_pool (s1 ++ s2) p w = run_pool s2 (run_pool s1 p w).1 (run_pool s1 p w).2.
Proof.
  revert p w. induction s1 as [|i s1 IH]; intros p w; [done|].
  simpl. destruct (pool_step i p w) as [p1 w1]. apply IH.
Qed.

(** Inside a pool and inside a function that leaves its steps in place, a
    task reaches its end in finitely many steps, with the outcome and the
    state of its run alone. *)
Lemma runs_inside {A} (C : task W A → task W unit) (before after : pool W) t w :
  stepwise C →
  ∃ n, run_pool (alone (length before) n) (before ++ C t :: after) w
       = (before ++ C (finished (complete t w).1) :: after, (complete t w).2).
Proof.
  intros HC. revert w. induction t as [a|e|B c k IH]; intros w.
  - by exists 0%nat.
  - by exists 0%nat.
  - simpl. destruct (c w) as [o w1] eqn:Hrun. destruct (IH o w1) as [n Hn].
    exists (S n). simpl. unfold pool_step. rewrite HC, list_lookup_middle by done.
    simpl. rewrite Hrun, insert_app_r_alt, Nat.sub_diag by done. exact Hn.
Qed.

Lemma task_ends (t : task W unit) w :
  ∃ n t', run_pool (alone 0 n) [t] w = ([t'], (complete t w).2)
          ∧ outcome_of t' = Some (complete t w).1.
Proof.
  destruct (runs_inside id [] [] t w) as [n Hn]; [done|].
  exists n, (finished (complete t w).1). split; [done|].
  by destruct (complete t w).1.
Qed.

(** The steps of the task at [i] do not look at the other tasks. *)
Lemma run_pool_at (before after : pool W) t schedule t' w w' :
  run_pool schedule [t] w = ([t'], w') →
  Forall (λ i, i = 0%nat) schedule →
  run_pool ((λ _, length before) <$> schedule) (before ++ t :: after) w
  = (before ++ t' :: after, w').
Proof.
  revert t w. induction schedule as [|i schedule IH]; intros t w; simpl.
  - by intros [= <- <-].
  - intros Hrun [-> Hs]%Forall_cons. unfold pool_step in *. simpl in Hrun.
    rewrite list_lookup_middle by done.
    destruct (task_step t w) as [t1 w1]. simpl in Hrun.
    rewrite insert_app_r_alt, Nat.sub_diag by done. simpl. by apply IH.
Qed.

End serial.
