(* ===== verification/Chunker.v ===== *)
(** * [RAGService.chunkText]: sentence-aware chunking with overlap

    [chunkText] is the [while (start < text.length)] loop of [ragService.js]:
    its state is the array [chunks] and the index [start]; [chunk_step] is one
    iteration and [window_end] the computation of [end] inside it.  The loop
    is run with fuel because it does not terminate for every argument: [None]
    means that [fuel] iterations did not reach [start >= text.length].

    [windows] is the reference specification: the list of index pairs
    [(start, end)] the loop goes through.  The theorems relate [chunkText] to
    it, bound the fuel, and describe the windows. *)

From Stdlib Require Import ZArith Lia String.
From stdpp Require Import prelude list.
From S2P Require Import Prelude JsString.

#[local] Open Scope Z_scope.

(** ** The loop *)

Record chunk_state := ChunkState { chunks : list text; start : Z }.

(** The value of [end] after the sentence-boundary search:
    [breakPoint > start + chunkSize * 0.5] is compared doubled. *)
Definition window_end (txt : text) (chunkSize start : Z) : Z :=
  let end_ := start + chunkSize in
  if end_ <? js_length txt then
    let lastPeriod := js_lastIndexOf txt period end_ in
    let lastNewline := js_lastIndexOf txt newline end_ in
    let breakPoint := Z.max lastPeriod lastNewline in
    if 2 * start + chunkSize <? 2 * breakPoint then breakPoint + 1 else end_
  else end_.

(** One iteration of the [while] body. *)
Definition chunk_step (txt : text) (chunkSize overlap : Z) (st : chunk_state)
    : chunk_state :=
  let end_ := window_end txt chunkSize (start st) in
  let chunk := js_trim (js_slice txt (start st) end_) in
  {| chunks := if 0 <? js_length chunk then chunks st ++ [chunk] else chunks st;
     start := end_ - overlap |}.

Fixpoint chunk_loop (fuel : nat) (txt : text) (chunkSize overlap : Z)
    (st : chunk_state) : option (list text) :=
  if start st <? js_length txt then
    match fuel with
    | O => None
    | S fuel' =>
        chunk_loop fuel' txt chunkSize overlap (chunk_step txt chunkSize overlap st)
    end
  else Some (chunks st).

Definition chunkText (fuel : nat) (txt : text) (chunkSize overlap : Z)
    : option (list text) :=
  chunk_loop fuel txt chunkSize overlap {| chunks := []; start := 0 |}.

(** The fields the constructor of [RAGService] sets, and the instance the
    module exports. *)
Record RAGService := {
  collectionName : text;
  chunkSize : Z;
  chunkOverlap : Z
}.

Definition ragService : RAGService :=
  {| collectionName := str "document_embeddings";
     chunkSize := 1000;
     chunkOverlap := 200 |}.

(** [chunkText(text)] with the default arguments [this.chunkSize] and
    [this.chunkOverlap], with the fuel [chunkText_default_total] proves enough. *)
Definition chunkText_default (svc : RAGService) (txt : text) : option (list text) :=
  chunkText (length txt) txt (chunkSize svc) (chunkOverlap svc).

(** ** The reference specification *)

(** The windows [(start, end)] of the loop, from [start] on. *)
Fixpoint windows (fuel : nat) (txt : text) (chunkSize overlap start : Z)
    : option (list (Z * Z)) :=
  if start <? js_length txt then
    match fuel with
    | O => None
    | S fuel' =>
        let end_ := window_end txt chunkSize start in
        cons (start, end_) <$> windows fuel' txt chunkSize overlap (end_ - overlap)
    end
  else Some [].

Definition chunk_of_window (txt : text) (w : Z * Z) : text :=
  js_trim (js_slice txt w.1 w.2).

Definition chunks_of_windows (txt : text) (ws : list (Z * Z)) : list text :=
  filter (λ c, c ≠ []) (chunk_of_window txt <$> ws).

(** The arguments for which the loop is proved to terminate. *)
Definition good_params (chunkSize overlap : Z) : Prop :=
  0 ≤ overlap ∧ overlap < chunkSize ∧ 2 * overlap ≤ chunkSize + 2.

#[export] Instance good_params_dec cs ov : Decision (good_params cs ov).
Proof. unfold good_params. apply _. Defined.

(** A text without sentence terminators: [lastIndexOf] finds nothing. *)
Definition no_breaks (txt : text) : Prop := (period ∉ txt) ∧ (newline ∉ txt).

(** ** [window_end] *)

Section window.
Context (txt : text) (cs ov : Z).

Lemma window_end_cases s :
  window_end txt cs s = s + cs
  ∨ (s + cs < js_length txt ∧
     ∃ bp, window_end txt cs s = bp + 1 ∧ 2 * s + cs < 2 * bp ∧
           bp ≤ Z.max (s + cs) 0 ∧ bp < js_length txt ∧
           bp = Z.max (js_lastIndexOf txt period (s + cs))
                      (js_lastIndexOf txt newline (s + cs))).
Proof.
  unfold window_end. cbv zeta.
  destruct (Z.ltb_spec (s + cs) (js_length txt)); [|by left].
  set (bp := Z.max _ _).
  destruct (Z.ltb_spec (2 * s + cs) (2 * bp)); [|by left].
  right. split; [done|]. exists bp. split; [done|]. subst bp.
  pose proof (js_lastIndexOf_bounds txt period (s + cs)).
  pose proof (js_lastIndexOf_bounds txt newline (s + cs)). lia.
Qed.

Lemma window_end_progress s :
  good_params cs ov → s + 1 ≤ window_end txt cs s - ov.
Proof.
  intros (? & ? & ?). destruct (window_end_cases s) as [->|(_ & bp & -> & ? & _)]; lia.
Qed.

Lemma window_end_upper s : 0 ≤ s → 0 ≤ cs → window_end txt cs s ≤ s + cs + 1.
Proof.
  intros. destruct (window_end_cases s) as [->|(_ & bp & -> & ? & ? & _)]; lia.
Qed.

Lemma window_end_lower s : 0 ≤ cs → 2 * s + cs ≤ 2 * window_end txt cs s.
Proof.
  intros. destruct (window_end_cases s) as [->|(_ & bp & -> & ? & ? & _)]; lia.
Qed.

Lemma window_end_no_breaks s :
  no_breaks txt → window_end txt cs s = s + cs ∨ window_end txt cs s = 0.
Proof.
  intros [Hp Hn]. destruct (window_end_cases s) as [->|(_ & bp & -> & _ & _ & _ & ->)];
    [by left|right].
  rewrite !js_lastIndexOf_absent by done. lia.
Qed.

Lemma window_end_short s : js_length txt ≤ s + cs → window_end txt cs s = s + cs.
Proof. intros. destruct (window_end_cases s) as [->|(? & _)]; lia. Qed.

End window.

(** ** Fuel *)

Section loop.
Context (txt : text) (cs ov : Z).

Lemma chunk_loop_done fuel st :
  js_length txt ≤ start st → chunk_loop fuel txt cs ov st = Some (chunks st).
Proof.
  intros. destruct fuel; simpl; destruct (Z.ltb_spec (start st) (js_length txt)); (done || lia).
Qed.

Lemma chunk_loop_unfold fuel st :
  start st < js_length txt →
  chunk_loop (S fuel) txt cs ov st = chunk_loop fuel txt cs ov (chunk_step txt cs ov st).
Proof.
  intros. simpl. destruct (Z.ltb_spec (start st) (js_length txt)); (done || lia).
Qed.

Lemma chunk_loop_fuel_mono fuel fuel' st r :
  chunk_loop fuel txt cs ov st = Some r → (fuel ≤ fuel')%nat →
  chunk_loop fuel' txt cs ov st = Some r.
Proof.
  revert fuel' st. induction fuel as [|fuel IH]; intros fuel' st Hr Hle.
  - simpl in Hr. destruct (Z.ltb_spec (start st) (js_length txt)); [done|].
    by rewrite chunk_loop_done.
  - destruct fuel' as [|fuel']; [lia|]. simpl in *.
    destruct (start st <? js_length txt); [|done]. apply IH; [done|lia].
Qed.

Lemma chunk_loop_terminates fuel st :
  good_params cs ov → js_length txt - start st ≤ Z.of_nat fuel →
  is_Some (chunk_loop fuel txt cs ov st).
Proof.
  intros Hgood. revert st. induction fuel as [|fuel IH]; intros st Hfuel.
  - rewrite chunk_loop_done by lia. eauto.
  - simpl. destruct (Z.ltb_spec (start st) (js_length txt)); [|eauto].
    apply IH. simpl. pose proof (window_end_progress txt cs ov (start st) Hgood). lia.
Qed.

End loop.

(** ** The loop computes the chunks of the window list *)

Section refinement.
Context (txt : text) (cs ov : Z).

Lemma chunks_of_windows_cons w ws :
  chunks_of_windows txt (w :: ws)
  = (if 0 <? js_length (chunk_of_window txt w) then [chunk_of_window txt w] else [])
    ++ chunks_of_windows txt ws.
Proof.
  unfold chunks_of_windows. rewrite fmap_cons, filter_cons.
  destruct (0 <? js_length (chunk_of_window txt w)) eqn:Hc.
  - apply js_length_pos_iff in Hc. by rewrite decide_True.
  - apply js_length_pos_false in Hc. by rewrite decide_False by (by intros []).
Qed.

Lemma chunk_loop_windows fuel st :
  chunk_loop fuel txt cs ov st
  = (λ ws, chunks st ++ chunks_of_windows txt ws) <$> windows fuel txt cs ov (start st).
Proof.
  revert st. induction fuel as [|fuel IH]; intros st; simpl;
    destruct (start st <? js_length txt); simpl; try done.
  - by rewrite app_nil_r.
  - rewrite IH. simpl. rewrite <- option_fmap_compose. apply option_fmap_ext.
    intros ws. simpl. rewrite chunks_of_windows_cons. unfold chunk_of_window. simpl.
    destruct (0 <? js_length _); by rewrite <- ?app_assoc, ?app_nil_r.
  - by rewrite app_nil_r.
Qed.

Lemma elem_of_chunks_of_windows c ws :
  c ∈ chunks_of_windows txt ws ↔ c ≠ [] ∧ ∃ w, w ∈ ws ∧ c = chunk_of_window txt w.
Proof.
  unfold chunks_of_windows. rewrite list_elem_of_filter, list_elem_of_fmap.
  split.
  - intros [Hne (w & -> & Hin)]. eauto.
  - intros [Hne (w & Hin & ->)]. eauto.
Qed.

Lemma chunks_of_windows_length ws : (length (chunks_of_windows txt ws) ≤ length ws)%nat.
Proof.
  unfold chunks_of_windows. etrans; [apply length_filter|]. by rewrite length_fmap.
Qed.

End refinement.

(** ** Properties of the window list *)

Section windows_facts.
Context (txt : text) (cs ov : Z).

Lemma windows_length fuel s ws :
  windows fuel txt cs ov s = Some ws → (length ws ≤ fuel)%nat.
Proof.
  revert s ws. induction fuel as [|fuel IH]; intros s ws; simpl;
    destruct (s <? js_length txt); try done.
  - intros [= <-]. simpl. lia.
  - destruct (windows fuel _ _ _ _) as [ws'|] eqn:Hw; [|done].
    intros [= <-]. simpl. apply IH in Hw. lia.
  - intros [= <-]. simpl. lia.
Qed.

Lemma windows_unfold fuel s ws :
  windows fuel txt cs ov s = Some ws →
  (js_length txt ≤ s ∧ ws = [])
  ∨ (s < js_length txt ∧ ∃ fuel' ws', fuel = S fuel' ∧
       ws = (s, window_end txt cs s) :: ws' ∧
       windows fuel' txt cs ov (window_end txt cs s - ov) = Some ws').
Proof.
  destruct fuel as [|fuel]; simpl; destruct (Z.ltb_spec s (js_length txt)); try done.
  - intros [= <-]. by left.
  - destruct (windows fuel _ _ _ _) as [ws'|] eqn:Hw; [|done].
    intros [= <-]. right. split; [done|]. by exists fuel, ws'.
  - intros [= <-]. by left.
Qed.

Lemma windows_overlap_from fuel s ws i s1 e1 s2 e2 :
  windows fuel txt cs ov s = Some ws →
  ws !! i = Some (s1, e1) → ws !! S i = Some (s2, e2) → s2 = e1 - ov.
Proof.
  revert s ws i. induction fuel as [|fuel IH]; intros s ws i Hw H1 H2;
    apply windows_unfold in Hw as [[_ ->]|(_ & f & ws' & Hf & -> & Hw)]; try done.
  injection Hf as <-. destruct i as [|i]; simpl in *.
  - injection H1 as <- <-.
    apply windows_unfold in Hw as [[_ ->]|(_ & f & ws'' & _ & -> & _)]; [done|].
    by injection H2 as <- _.
  - eauto.
Qed.

Lemma windows_bounds fuel s ws :
  good_params cs ov → 0 ≤ s → windows fuel txt cs ov s = Some ws →
  Forall (λ w, s ≤ w.1 ∧ w.1 < js_length txt ∧ w.1 < w.2 ≤ w.1 + cs + 1) ws.
Proof.
  intros Hgood. revert s ws. induction fuel as [|fuel IH]; intros s ws Hs Hw;
    apply windows_unfold in Hw as [[_ ->]|(? & f & ws' & Hf & -> & Hw)]; try done.
  injection Hf as <-.
  pose proof (window_end_progress txt cs ov s Hgood).
  destruct Hgood as (? & ? & ?).
  pose proof (window_end_upper txt cs s Hs ltac:(lia)).
  constructor; [simpl; lia|].
  assert (0 ≤ window_end txt cs s - ov) as Hs' by lia.
  eapply Forall_impl; [exact (IH _ _ Hs' Hw)|]. intros [s' e']. simpl. lia.
Qed.

Lemma windows_cover_from fuel s ws p :
  good_params cs ov → 0 ≤ s → windows fuel txt cs ov s = Some ws →
  s ≤ p < js_length txt → ∃ w, w ∈ ws ∧ 0 ≤ w.1 ∧ w.1 ≤ p < w.2.
Proof.
  intros Hgood. revert s ws. induction fuel as [|fuel IH]; intros s ws Hs Hw Hp;
    apply windows_unfold in Hw as [[? ->]|(? & f & ws' & Hf & -> & Hw)]; try lia; try done.
  injection Hf as <-. destruct (decide (p < window_end txt cs s)).
  - exists (s, window_end txt cs s). split; [left|simpl; lia].
  - pose proof (window_end_progress txt cs ov s Hgood). destruct Hgood as (? & ? & ?).
    assert (0 ≤ window_end txt cs s - ov) as Hs' by lia.
    destruct (IH _ _ Hs' Hw) as (w & Hin & ?); [lia|].
    exists w. split; [by right|done].
Qed.

Lemma windows_terminates fuel s :
  good_params cs ov → js_length txt - s ≤ Z.of_nat fuel →
  is_Some (windows fuel txt cs ov s).
Proof.
  intros Hgood. revert s. induction fuel as [|fuel IH]; intros s Hfuel; simpl;
    destruct (Z.ltb_spec s (js_length txt)); try lia; eauto.
  pose proof (window_end_progress txt cs ov s Hgood).
  destruct (IH (window_end txt cs s - ov)) as [ws ->]; [lia|]. simpl. eauto.
Qed.

End windows_facts.

(** ** Theorems on [chunkText] *)

(** C2: [chunkText] returns exactly the non-empty trimmed slices of the
    windows the loop goes through, in order, for every fuel and every
    argument: the loop and the window list run out of fuel together. *)
Theorem chunkText_refines_windows fuel txt cs ov :
  chunkText fuel txt cs ov = chunks_of_windows txt <$> windows fuel txt cs ov 0.
Proof.
  unfold chunkText. rewrite chunk_loop_windows. simpl.
  by apply option_fmap_ext.
Qed.

(** C3: when [0 ≤ overlap < chunkSize] and [2 * overlap ≤ chunkSize + 2],
    [chunkText] terminates: [length text] iterations of the loop reach
    [start >= text.length] and a list of chunks is returned. *)
Theorem chunkText_terminates txt cs ov :
  good_params cs ov → is_Some (chunkText (length txt) txt cs ov).
Proof.
  intros Hgood. apply chunk_loop_terminates; [done|]. simpl.
  unfold js_length. lia.
Qed.

Lemma chunkText_terminates_witness :
  good_params 10 2 ∧ is_Some (chunkText 27 (str "abcdefghij.klmnopqrstuvwxyz") 10 2).
Proof.
  assert (good_params 10 2) as H by (unfold good_params; lia).
  split; [exact H|]. exact (chunkText_terminates (str "abcdefghij.klmnopqrstuvwxyz") 10 2 H).
Defined.

(** With the service's defaults ([chunkSize] 1000, [chunkOverlap] 200)
    [chunkText(text)] returns a list of chunks for every text. *)
Theorem chunkText_default_total txt :
  ∃ cs, chunkText_default ragService txt = Some cs.
Proof.
  unfold chunkText_default, chunkText. apply chunk_loop_terminates.
  - unfold good_params. simpl. lia.
  - simpl. unfold js_length. lia.
Qed.

(** Fuel only bounds the loop: a result obtained with some fuel is
    the result with any larger fuel. *)
Theorem chunkText_fuel_mono fuel fuel' txt cs ov r :
  chunkText fuel txt cs ov = Some r → (fuel ≤ fuel')%nat →
  chunkText fuel' txt cs ov = Some r.
Proof. unfold chunkText. intros Hr Hle. by eapply chunk_loop_fuel_mono. Qed.

Lemma chunkText_fuel_mono_witness :
  chunkText 1 (str "one chunk") 1000 200 = Some [str "one chunk"]
  ∧ chunkText 5 (str "one chunk") 1000 200 = Some [str "one chunk"].
Proof.
  assert (chunkText 1 (str "one chunk") 1000 200 = Some [str "one chunk"]) as H
    by (vm_compute; reflexivity).
  split; [exact H|].
  apply (chunkText_fuel_mono 1 5 _ _ _ _ H). lia.
Defined.

Lemma chunk_loop_diverges txt cs ov fuel st :
  cs ≤ ov → 0 ≤ ov → txt ≠ [] → no_breaks txt → start st ≤ 0 →
  chunk_loop fuel txt cs ov st = None.
Proof.
  intros Hcs Hov Hne Hnb. revert st.
  assert (0 < js_length txt) by (unfold js_length; destruct txt; simpl; (done || lia)).
  induction fuel as [|fuel IH]; intros st Hst; simpl;
    destruct (Z.ltb_spec (start st) (js_length txt)); try lia; [done|].
  apply IH. simpl. destruct (window_end_no_breaks txt cs (start st) Hnb) as [->| ->]; lia.
Qed.

(** The loop has no guard for [overlap >= chunkSize]: on a non-empty
    text without a period or a newline it never reaches the end of the text,
    whatever the number of iterations. *)
Theorem chunkText_diverges_overlap_ge_size txt cs ov fuel :
  cs ≤ ov → 0 ≤ ov → txt ≠ [] → no_breaks txt → chunkText fuel txt cs ov = None.
Proof. intros. by apply chunk_loop_diverges. Qed.

Lemma no_breaks_letters : no_breaks (str "abc").
Proof. split; apply (bool_decide_unpack _); vm_compute; exact I. Qed.

Lemma chunkText_diverges_overlap_ge_size_witness :
  chunkText 1000 (str "abc") 2 2 = None.
Proof.
  apply chunkText_diverges_overlap_ge_size; [lia | lia | done | exact no_breaks_letters].
Defined.

Lemma chunk_loop_cycle txt cs ov s :
  s < js_length txt →
  (∀ acc, start (chunk_step txt cs ov {| chunks := acc; start := s |}) = s) →
  ∀ fuel acc, chunk_loop fuel txt cs ov {| chunks := acc; start := s |} = None.
Proof.
  intros Hlt Hstep. induction fuel as [|fuel IH]; intros acc; simpl;
    destruct (Z.ltb_spec s (js_length txt)); try lia; [done|].
  specialize (Hstep acc). unfold chunk_step in *. simpl in *. rewrite Hstep. apply IH.
Qed.

(** C26: [overlap < chunkSize] is not enough for termination.  With
    [chunkSize = 10] and [overlap = 7] the text ["abcdef.ghijklmnop"] is cut
    after the period at index 6, so [start] returns to 0 and the loop never
    ends: no fuel gives a result. *)
Theorem chunkText_diverges_small_overlap fuel :
  chunkText fuel (str "abcdef.ghijklmnop") 10 7 = None.
Proof.
  unfold chunkText. apply chunk_loop_cycle.
  - vm_compute. reflexivity.
  - intros acc. vm_compute. reflexivity.
Qed.

(** A text no longer than [chunkSize - overlap] code units whose trim
    is not empty yields exactly one chunk, its trim. *)
Theorem chunkText_single_chunk fuel txt cs ov :
  0 ≤ ov → js_length txt ≤ cs - ov → js_trim txt ≠ [] → (0 < fuel)%nat →
  chunkText fuel txt cs ov = Some [js_trim txt].
Proof.
  intros Hov Hlen Htrim Hfuel. destruct fuel as [|fuel]; [lia|].
  assert (txt ≠ []) as Hne by (by intros ->).
  apply js_length_pos_iff, Z.ltb_lt in Hne.
  unfold chunkText. rewrite chunk_loop_unfold by done.
  unfold chunk_step. simpl.
  rewrite window_end_short, js_slice_whole by lia.
  apply js_length_pos_iff in Htrim. rewrite Htrim.
  by rewrite chunk_loop_done by (simpl; lia).
Qed.

Lemma chunkText_single_chunk_witness :
  chunkText 1 (str "  Hello world.  ") 1000 200 = Some [str "Hello world."].
Proof.
  apply (chunkText_single_chunk 1 (str "  Hello world.  ") 1000 200).
  - lia.
  - vm_compute. discriminate.
  - vm_compute. discriminate.
  - lia.
Defined.

(** A text that is no longer than [chunkSize] but longer than
    [chunkSize - overlap] yields two chunks, not one: the loop starts a second
    window at [chunkSize - overlap], inside the text, and the tail it cuts is
    a chunk whenever it is not blank. *)
Theorem chunkText_short_text_two_chunks fuel txt cs ov :
  0 ≤ ov → 2 * ov ≤ cs → cs - ov < js_length txt → js_length txt ≤ cs →
  js_trim txt ≠ [] → js_trim (js_slice txt (cs - ov) (2 * cs - ov)) ≠ [] →
  (1 < fuel)%nat →
  chunkText fuel txt cs ov
  = Some [js_trim txt; js_trim (js_slice txt (cs - ov) (2 * cs - ov))].
Proof.
  intros Hov Hcs Hlong Hshort Htrim Htail Hfuel.
  destruct fuel as [|[|fuel]]; [lia..|].
  unfold chunkText. rewrite chunk_loop_unfold by (simpl; lia).
  unfold chunk_step. cbn [start chunks].
  rewrite window_end_short, js_slice_whole by lia.
  apply js_length_pos_iff in Htrim. rewrite Htrim. simpl app.
  rewrite chunk_loop_unfold by (simpl; lia).
  unfold chunk_step. cbn [start chunks]. rewrite window_end_short by lia.
  replace (0 + cs - ov + cs) with (2 * cs - ov) by lia.
  replace (0 + cs - ov) with (cs - ov) by lia.
  apply js_length_pos_iff in Htail. rewrite Htail.
  by rewrite chunk_loop_done by (simpl; lia).
Qed.

Lemma chunkText_short_text_two_chunks_witness :
  chunkText 2 (replicate 900 97%N) 1000 200
  = Some [js_trim (replicate 900 97%N);
          js_trim (js_slice (replicate 900 97%N) (1000 - 200) (2 * 1000 - 200))].
Proof.
  apply (chunkText_short_text_two_chunks 2 (replicate 900 97%N) 1000 200);
    try (vm_compute; (discriminate || reflexivity)); lia.
Defined.

(** A text of 2500 letters with the defaults yields four chunks, of
    1000, 1000, 900 and 100 code units: the last window starts at 2400,
    inside the third one. *)
Theorem chunkText_2500_four_chunks :
  fmap (M := list) length <$> chunkText_default ragService (replicate 2500 97%N)
  = Some [1000; 1000; 900; 100]%nat.
Proof. vm_compute. reflexivity. Qed.

(** Consecutive windows overlap by exactly [overlap] code units: each
    window starts [overlap] before the end of the previous one. *)
Theorem windows_overlap_exact fuel txt cs ov ws i s1 e1 s2 e2 :
  windows fuel txt cs ov 0 = Some ws →
  ws !! i = Some (s1, e1) → ws !! S i = Some (s2, e2) → s2 = e1 - ov.
Proof. apply windows_overlap_from. Qed.

Lemma windows_overlap_exact_witness :
  windows 50 (str "abcdefghij.klmnopqrstuvwxyz") 10 2 0
    = Some [(0, 11); (9, 19); (17, 27); (25, 35)]
  ∧ 9 = 11 - 2.
Proof.
  assert (windows 50 (str "abcdefghij.klmnopqrstuvwxyz") 10 2 0
          = Some [(0, 11); (9, 19); (17, 27); (25, 35)]) as H by (vm_compute; reflexivity).
  split; [exact H|].
  exact (windows_overlap_exact 50 _ 10 2 _ 0%nat 0 11 9 19 H eq_refl eq_refl).
Defined.

(** Under the termination condition every window starts inside the
    text at a non-negative index, is not empty and spans at most
    [chunkSize + 1] code units. *)
Theorem windows_span_bounded fuel txt cs ov ws s e :
  good_params cs ov → windows fuel txt cs ov 0 = Some ws → (s, e) ∈ ws →
  0 ≤ s < js_length txt ∧ s < e ≤ s + cs + 1.
Proof.
  intros Hgood Hw Hin.
  pose proof (windows_bounds txt cs ov fuel 0 ws Hgood ltac:(done) Hw) as Hall.
  rewrite Forall_forall in Hall. specialize (Hall _ Hin). simpl in Hall. lia.
Qed.

Lemma windows_span_bounded_witness :
  0 ≤ 0 < js_length (str "abcdefghij.klmnopqrstuvwxyz") ∧ 0 < 11 ≤ 0 + 10 + 1.
Proof.
  apply (windows_span_bounded 50 (str "abcdefghij.klmnopqrstuvwxyz") 10 2
           [(0, 11); (9, 19); (17, 27); (25, 35)] 0 11).
  - unfold good_params. lia.
  - vm_compute. reflexivity.
  - left.
Defined.

(** C25: under the termination condition no position of the text is lost:
    every index [p] lies in some window, and the slice of that window holds
    the code unit of the text at [p]. *)
Theorem windows_cover fuel txt cs ov ws p :
  good_params cs ov → windows fuel txt cs ov 0 = Some ws →
  0 ≤ p < js_length txt →
  ∃ s e, (s, e) ∈ ws ∧ 0 ≤ s ≤ p ∧ p < e
         ∧ js_slice txt s e !! Z.to_nat (p - s) = txt !! Z.to_nat p.
Proof.
  intros Hgood Hw Hp.
  destruct (windows_cover_from txt cs ov fuel 0 ws p Hgood ltac:(done) Hw Hp)
    as ([s e] & Hin & Hs & Hse). simpl in *.
  exists s, e. repeat split; try done; try lia.
  apply js_slice_lookup; lia.
Qed.

Lemma windows_cover_witness :
  ∃ s e, (s, e) ∈ [(0, 11); (9, 19); (17, 27); (25, 35)] ∧ 0 ≤ s ≤ 12 ∧ 12 < e
    ∧ js_slice (str "abcdefghij.klmnopqrstuvwxyz") s e !! Z.to_nat (12 - s)
      = str "abcdefghij.klmnopqrstuvwxyz" !! Z.to_nat 12.
Proof.
  apply (windows_cover 50 (str "abcdefghij.klmnopqrstuvwxyz") 10 2).
  - unfold good_params. lia.
  - vm_compute. reflexivity.
  - vm_compute. split; [discriminate | reflexivity].
Defined.

Lemma chunkText_windows fuel txt cs ov r :
  chunkText fuel txt cs ov = Some r →
  ∃ ws, windows fuel txt cs ov 0 = Some ws ∧ r = chunks_of_windows txt ws.
Proof.
  unfold chunkText. rewrite chunk_loop_windows. simpl.
  destruct (windows fuel txt cs ov 0) as [ws|]; [|done].
  intros [= <-]. eauto.
Qed.

(** Every chunk [chunkText] returns is non-empty, is its own trim (no
    leading or trailing whitespace) and is a contiguous piece of the text. *)
Theorem chunkText_chunks_wellformed fuel txt cs ov r c :
  chunkText fuel txt cs ov = Some r → c ∈ r →
  c ≠ [] ∧ js_trim c = c ∧ ∃ a b, txt = a ++ c ++ b.
Proof.
  intros (ws & _ & ->)%chunkText_windows
    (Hne & [s e] & _ & ->)%elem_of_chunks_of_windows.
  unfold chunk_of_window in *. simpl in *.
  split; [done|]. split; [apply js_trim_idemp|].
  destruct (js_slice_infix txt s e) as (a & b & Hab).
  destruct (js_trim_infix (js_slice txt s e)) as (a' & b' & Hab').
  exists (a ++ a'), (b' ++ b). rewrite Hab at 1. rewrite Hab' at 1.
  by rewrite <- !app_assoc.
Qed.

Lemma chunkText_chunks_wellformed_witness :
  str "abcdefghij." ≠ [] ∧ js_trim (str "abcdefghij.") = str "abcdefghij."
  ∧ ∃ a b, str "abcdefghij.klmnopqrstuvwxyz" = a ++ str "abcdefghij." ++ b.
Proof.
  apply (chunkText_chunks_wellformed 27 (str "abcdefghij.klmnopqrstuvwxyz") 10 2
           [str "abcdefghij."; str "j.klmnopqr"; str "qrstuvwxyz"; str "yz"]).
  - vm_compute. reflexivity.
  - left.
Defined.

(** C27: under the termination condition a chunk is at most
    [chunkSize + 1] code units long. *)
Theorem chunkText_chunk_length_bound fuel txt cs ov r c :
  good_params cs ov → chunkText fuel txt cs ov = Some r → c ∈ r →
  js_length c ≤ cs + 1.
Proof.
  intros Hgood (ws & Hw & ->)%chunkText_windows
    (_ & [s e] & Hin & ->)%elem_of_chunks_of_windows.
  pose proof (windows_bounds txt cs ov fuel 0 ws Hgood ltac:(done) Hw) as Hall.
  rewrite Forall_forall in Hall. specialize (Hall _ Hin). simpl in Hall.
  unfold chunk_of_window. simpl.
  pose proof (js_trim_length_le (js_slice txt s e)).
  pose proof (js_slice_length_span txt s e ltac:(lia) ltac:(lia)). lia.
Qed.

Lemma chunkText_chunk_length_bound_witness :
  js_length (str "abcdefghij.") ≤ 10 + 1.
Proof.
  apply (chunkText_chunk_length_bound 27 (str "abcdefghij.klmnopqrstuvwxyz") 10 2
           [str "abcdefghij."; str "j.klmnopqr"; str "qrstuvwxyz"; str "yz"]).
  - unfold good_params. lia.
  - vm_compute. reflexivity.
  - left.
Defined.

(** The bound [chunkSize + 1] is reached: [lastIndexOf(".", end)]
    also finds a period at index [end] itself, and the cut is placed after
    it, so a chunk can be one code unit longer than [chunkSize]. *)
Theorem chunkText_chunk_exceeds_size :
  ∃ r c, chunkText 27 (str "abcdefghij.klmnopqrstuvwxyz") 10 2 = Some r
         ∧ c ∈ r ∧ js_length c = 10 + 1.
Proof.
  exists [str "abcdefghij."; str "j.klmnopqr"; str "qrstuvwxyz"; str "yz"],
    (str "abcdefghij.").
  split; [vm_compute; reflexivity|]. split; [left | vm_compute; reflexivity].
Qed.

(** The number of chunks never exceeds the number of iterations, and
    under the termination condition it is at most the length of the text. *)
Theorem chunkText_count_bound fuel txt cs ov r :
  good_params cs ov → chunkText fuel txt cs ov = Some r →
  (length r ≤ length txt)%nat.
Proof.
  intros Hgood Hr.
  destruct (chunk_loop_terminates txt cs ov (length txt) {| chunks := []; start := 0 |}
              Hgood) as [r' Hr']; [simpl; unfold js_length; lia|].
  assert (r = r') as <-.
  { destruct (decide (fuel ≤ length txt)%nat).
    - pose proof (chunk_loop_fuel_mono _ _ _ _ _ _ _ Hr l). congruence.
    - pose proof (chunk_loop_fuel_mono _ _ _ _ fuel _ _ Hr' ltac:(lia)).
      unfold chunkText in Hr. congruence. }
  apply chunkText_windows in Hr' as (ws & Hw & ->).
  etrans; [apply chunks_of_windows_length|]. by eapply windows_length.
Qed.

Lemma chunkText_count_bound_witness :
  (length [str "abcdefghij."; str "j.klmnopqr"; str "qrstuvwxyz"; str "yz"]
   ≤ length (str "abcdefghij.klmnopqrstuvwxyz"))%nat.
Proof.
  apply (chunkText_count_bound 27 (str "abcdefghij.klmnopqrstuvwxyz") 10 2).
  - unfold good_params. lia.
  - vm_compute. reflexivity.
Defined.
