(* ===== verification/World.v ===== *)
(** * The world the services run in

    The three services share no JavaScript state; what they share is the
    outside: the vector collection [document_embeddings] (Astra DB), the
    [documents] table and the [documents] storage bucket (Supabase), and the
    AI providers.  None of their clients is under [src/]: the stores are
    modelled from the interface the specification gives them, and the
    providers are the operations of the class [Providers], of which the
    theorems assume nothing but what [ProvidersOk] states.

    - [world]: the contents of the three stores, the id counter of the table,
      a clock, and the trace of provider calls made so far.
    - [insertMany], [find_similar], [find_plain], [deleteMany]: the collection.
    - [table_insert], [table_select_single], [table_update], [table_delete],
      [table_select_company]: the [documents] table.
    - [storage_upload], [storage_download], [storage_remove], [getPublicUrl]:
      the bucket.
    - [wf_world]: ids of the collection are pairwise distinct, table rows sit
      under their own id, and ids not yet handed out are unused. *)

From Stdlib Require Import ZArith QArith Qabs Lia String.
From stdpp Require Import prelude list gmap sorting.
From S2P Require Import Prelude JsString.

#[local] Open Scope Z_scope.

(** ** Data *)

Inductive jsval :=
  | JNull
  | JNum (z : Z)
  | JStr (t : text).

#[export] Instance jsval_eq_dec : EqDecision jsval.
Proof. solve_decision. Defined.

(** A record of the vector collection, as [storeDocumentChunks] builds it. *)
Record chunk_doc := ChunkDoc {
  _id : text;
  content : text;
  vector : list Q;
  company_id : text;
  document_id : text;
  chunk_index : Z;
  metadata : gmap text jsval
}.

Inductive doc_status := Processing | Processed | Failed.

#[export] Instance doc_status_eq_dec : EqDecision doc_status.
Proof. solve_decision. Defined.

(** A row of the [documents] table. *)
Record document_row := DocumentRow {
  row_id : text;
  row_company_id : text;
  row_user_id : text;
  row_filename : text;
  row_file_type : text;
  row_file_size : Z;
  row_content_length : Z;
  row_status : doc_status;
  row_chunk_count : option Z;
  row_file_url : option text;
  row_created_at : N;
  row_updated_at : N
}.

Record blob := Blob { blob_bytes : list N; blob_content_type : text }.

Inductive role := System | User | Assistant | OtherRole (r : text).

Record message := Message { msg_role : role; msg_content : text }.

(** Calls to the outside that are not store operations. *)
Inductive event :=
  | EvEmbedding (model input : text)
  | EvChat (model : option text) (messages : list message) (temperature : Q)
      (max_tokens : Z) (stream : bool)
  | EvGemini (prompt : text)
  | EvExtractPdf (bytes : list N)
  | EvExtractDocx (bytes : list N).

Record usage := Usage { total_tokens : Z }.

Record completion := Completion { comp_content : text; comp_usage : usage }.

Record world := World {
  collection : list chunk_doc;
  documents : gmap text document_row;
  storage : gmap text blob;
  next_id : nat;
  clock : N;
  trace : list event
}.

(** What the providers answer.  A reply may depend on every call made before
    it ([trace]); [None] is a failed call (an error, a timeout). *)
Class Providers := {
  embeddings_create : list event → text → text → option (list Q);
  chat_create : list event → option text → list message → Q → Z → option completion;
  chat_stream : list event → option text → list message → Q → Z → option (list text);
  gemini_generate : list event → text → option text;
  pdf_extract : list event → list N → option (list text);
  docx_extract : list event → list N → option text;
  utf8_decode : list N → text;
  similarity : list Q → list Q → Q;
  embedding_dim : nat
}.

Class ProvidersOk `{Providers} := {
  embeddings_create_dim tr m t v :
    embeddings_create tr m t = Some v → length v = embedding_dim
}.

Definition M (A : Type) : Type := prog world text A.

(** ** Field updates *)

Definition set_collection (c : list chunk_doc) (w : world) : world :=
  World c (documents w) (storage w) (next_id w) (clock w) (trace w).
Definition set_documents (d : gmap text document_row) (w : world) : world :=
  World (collection w) d (storage w) (next_id w) (clock w) (trace w).
Definition set_storage (s : gmap text blob) (w : world) : world :=
  World (collection w) (documents w) s (next_id w) (clock w) (trace w).
Definition set_next_id (n : nat) (w : world) : world :=
  World (collection w) (documents w) (storage w) n (clock w) (trace w).
Definition set_clock (c : N) (w : world) : world :=
  World (collection w) (documents w) (storage w) (next_id w) c (trace w).
Definition log_event (e : event) (w : world) : world :=
  World (collection w) (documents w) (storage w) (next_id w) (clock w) (trace w ++ [e]).

Definition empty_world : world := World [] ∅ ∅ 0 0 [].

(** Two worlds with the same stores: they differ at most in the trace of
    provider calls. *)
Definition same_stores (w w' : world) : Prop :=
  collection w = collection w' ∧ documents w = documents w'
  ∧ storage w = storage w' ∧ next_id w = next_id w' ∧ clock w = clock w'.

(** [new Date()]: the clock is read and advances. *)
Definition now : M N := λ w, (Ok (clock w), set_clock (clock w + 1)%N w).

(** Two worlds with the same data: the clock and the trace may differ. *)
Definition same_data (w w' : world) : Prop :=
  collection w = collection w' ∧ documents w = documents w'
  ∧ storage w = storage w' ∧ next_id w = next_id w'.

(** A provider call: logged, then answered from the trace before the call. *)
Definition call {A} (e : event) (reply : list event → option A) : M A :=
  λ w, match reply (trace w) with
       | Some a => (Ok a, log_event e w)
       | None => (Throw (str "provider error"), log_event e w)
       end.

(** ** The vector collection *)

Record find_filter := FindFilter {
  by_company : option text;
  by_document : option text
}.

Definition matches (f : find_filter) (d : chunk_doc) : bool :=
  match by_company f with Some c => bool_decide (company_id d = c) | None => true end
  && match by_document f with Some x => bool_decide (document_id d = x) | None => true end.

(** [insertMany]: ids are unique in a collection, so a batch that repeats an
    id, its own or a stored one, is refused. *)
Definition insertMany (batch : list chunk_doc) : M unit :=
  λ w, if bool_decide (NoDup (_id <$> (collection w ++ batch)))
       then (Ok tt, set_collection (collection w ++ batch) w)
       else (Throw (str "Document already exists"), w).

Definition more_similar (x y : chunk_doc * Q) : bool := Qle_bool y.2 x.2.

(** [find(filter, { vector, limit, includeSimilarity: true })]: the matching
    records ranked by similarity to [vector], most similar first. *)
Definition find_similar `{Providers} (f : find_filter) (v : list Q) (limit : Z)
    : M (list (chunk_doc * Q)) :=
  λ w, (Ok (take (Z.to_nat limit)
              (js_sort_by more_similar
                 ((λ d, (d, similarity v (vector d))) <$> filter (λ d, matches f d = true) (collection w)))),
        w).

(** [find(filter, { limit })] *)
Definition find_plain (f : find_filter) (limit : Z) : M (list chunk_doc) :=
  λ w, (Ok (take (Z.to_nat limit) (filter (λ d, matches f d = true) (collection w))), w).

(** [deleteMany(filter)], which reports the number of records deleted. *)
Definition deleteMany (f : find_filter) : M Z :=
  λ w, (Ok (Z.of_nat (length (filter (λ d, matches f d = true) (collection w)))),
        set_collection (filter (λ d, matches f d = false) (collection w)) w).

(** ** The [documents] table *)

Definition table_id (n : nat) : text := js_of_nat n.

Definition set_row_id (id : text) (r : document_row) : document_row :=
  DocumentRow id (row_company_id r) (row_user_id r) (row_filename r) (row_file_type r)
    (row_file_size r) (row_content_length r) (row_status r) (row_chunk_count r)
    (row_file_url r) (row_created_at r) (row_updated_at r).

(** [insert([row]).select().single()]: the table assigns the id and returns
    the stored row. *)
Definition table_insert (r : document_row) : M document_row :=
  λ w, let r' := set_row_id (table_id (next_id w)) r in
       (Ok r', set_next_id (S (next_id w))
                 (set_documents (<[table_id (next_id w) := r']> (documents w)) w)).

(** [select().eq('id', id).eq('company_id', c).single()]: the row, or null
    with an error when no row matches. *)
Definition table_select_single (id c : text) (w : world) : option document_row :=
  r ← documents w !! id; if bool_decide (row_company_id r = c) then Some r else None.

(** [update(f).eq('id', id).select().single()]: an error when no row has
    this id. *)
Definition table_update (id : text) (f : document_row → document_row) : M document_row :=
  λ w, match documents w !! id with
       | Some r => (Ok (f r), set_documents (<[id := f r]> (documents w)) w)
       | None => (Throw (str "JSON object requested, multiple (or no) rows returned"), w)
       end.

(** [delete().eq('id', id).eq('company_id', c)]: no error when nothing
    matches. *)
Definition table_delete (id c : text) : M unit :=
  λ w, match table_select_single id c w with
       | Some _ => (Ok tt, set_documents (delete id (documents w)) w)
       | None => (Ok tt, w)
       end.

Definition newer (x y : document_row) : bool := (row_created_at y <=? row_created_at x)%N.

(** [select().eq('company_id', c)] *)
Definition table_select_company (c : text) (w : world) : list document_row :=
  filter (λ r, row_company_id r = c) (map_to_list (documents w)).*2.

(** ** The storage bucket *)

Definition getPublicUrl (key : text) : text :=
  str "https://storage.example/object/public/documents/" ++ key.

(** [upload(key, bytes, { contentType, upsert: false })] *)
Definition storage_upload (key : text) (b : blob) : M unit :=
  λ w, match storage w !! key with
       | Some _ => (Throw (str "The resource already exists"), w)
       | None => (Ok tt, set_storage (<[key := b]> (storage w)) w)
       end.

(** [download(key)]: the data, or an error. *)
Definition storage_download (key : text) (w : world) : option blob := storage w !! key.

(** [remove([key])] *)
Definition storage_remove (key : text) : M unit :=
  modify_world (λ w, set_storage (delete key (storage w)) w).

(** ** Well-formed worlds *)

Record wf_world (w : world) : Prop := {
  wf_ids : NoDup (_id <$> collection w);
  wf_rows : ∀ id r, documents w !! id = Some r → row_id r = id;
  wf_fresh : ∀ n, (next_id w ≤ n)%nat → documents w !! table_id n = None
}.

(** ** A concrete provider, for running the model

    Embeddings have dimension 2 and measure the length of the text (the empty
    text is refused); the similarity of two vectors is [1 / (1 + |a - b|)] on
    their first coordinates; completions are fixed texts. *)

Definition toy_similarity (v1 v2 : list Q) : Q :=
  match v1, v2 with
  | a :: _, b :: _ => Qred (1 / (1 + Qabs (a - b)))
  | _, _ => 0
  end.

Definition toy_providers : Providers :=
  {| embeddings_create := λ _ _ t,
       if decide (t = []) then None else Some [Z.of_nat (length t) # 4; 1]%Q;
     chat_create := λ _ model _ _ _,
       match model with
       | Some _ => Some {| comp_content := str "An answer."; comp_usage := {| total_tokens := 42 |} |}
       | None => None
       end;
     chat_stream := λ _ model _ _ _,
       match model with Some _ => Some [str "An "; str "answer."] | None => None end;
     gemini_generate := λ _ _, Some (str "A Gemini answer.");
     pdf_extract := λ _ b, if decide (b = []) then None else Some [b];
     docx_extract := λ _ b, if decide (b = []) then None else Some b;
     utf8_decode := λ b, b;
     similarity := toy_similarity;
     embedding_dim := 2 |}.

(** The toy providers with the embedding service down. *)
Definition mute_providers : Providers :=
  {| embeddings_create := λ _ _ _, None;
     chat_create := @chat_create toy_providers;
     chat_stream := @chat_stream toy_providers;
     gemini_generate := @gemini_generate toy_providers;
     pdf_extract := @pdf_extract toy_providers;
     docx_extract := @docx_extract toy_providers;
     utf8_decode := @utf8_decode toy_providers;
     similarity := toy_similarity;
     embedding_dim := 2 |}.

(** ** Facts on the primitives *)

#[export] Instance same_stores_equiv : Equivalence same_stores.
Proof.
  unfold same_stores. split.
  - by intros w.
  - intros w w' (? & ? & ? & ? & ?). by repeat split.
  - intros w1 w2 w3 (? & ? & ? & ? & ?) (? & ? & ? & ? & ?).
    repeat split; congruence.
Qed.

#[export] Instance collection_proper : Proper (same_stores ==> (=)) collection.
Proof. by intros w w' (? & _). Qed.
#[export] Instance documents_proper : Proper (same_stores ==> (=)) documents.
Proof. by intros w w' (_ & ? & _). Qed.
#[export] Instance storage_proper : Proper (same_stores ==> (=)) storage.
Proof. by intros w w' (_ & _ & ? & _). Qed.

#[export] Instance same_data_equiv : Equivalence same_data.
Proof.
  unfold same_data. split.
  - by intros w.
  - intros w w' (? & ? & ? & ?). by repeat split.
  - intros w1 w2 w3 (? & ? & ? & ?) (? & ? & ? & ?). repeat split; congruence.
Qed.

Lemma same_stores_data w w' : same_stores w w' → same_data w w'.
Proof. intros (? & ? & ? & ? & _). by repeat split. Qed.

Lemma now_same_data w : same_data w (now w).2.
Proof. done. Qed.

Lemma log_event_same_stores e w : same_stores w (log_event e w).
Proof. done. Qed.

Lemma call_world {A} e (reply : list event → option A) w :
  (call e reply w).2 = log_event e w.
Proof. unfold call. by destruct (reply (trace w)). Qed.

Lemma call_ok {A} e (reply : list event → option A) w a w' :
  call e reply w = (Ok a, w') ↔ reply (trace w) = Some a ∧ w' = log_event e w.
Proof.
  unfold call. destruct (reply (trace w)) as [b|]; split; try done.
  - by intros [= -> <-].
  - by intros [[= ->] ->].
  - by intros [? _].
Qed.

Lemma call_throw {A} e (reply : list event → option A) w x w' :
  call e reply w = (Throw x, w') → reply (trace w) = None ∧ w' = log_event e w.
Proof. unfold call. destruct (reply (trace w)); [done|]. by intros [= _ <-]. Qed.

#[export] Hint Resolve log_event_same_stores same_stores_data now_same_data : rag.

(** ** The collection *)

Lemma insertMany_run batch w :
  insertMany batch w
  = if bool_decide (NoDup (_id <$> (collection w ++ batch)))
    then (Ok tt, set_collection (collection w ++ batch) w)
    else (Throw (str "Document already exists"), w).
Proof. done. Qed.

Lemma insertMany_ok batch w :
  NoDup (_id <$> (collection w ++ batch)) →
  insertMany batch w = (Ok tt, set_collection (collection w ++ batch) w).
Proof. intros. unfold insertMany. by rewrite bool_decide_eq_true_2. Qed.

Lemma insertMany_inv batch w r w' :
  insertMany batch w = (r, w') →
  (r = Ok tt ∧ w' = set_collection (collection w ++ batch) w
   ∧ NoDup (_id <$> (collection w ++ batch)))
  ∨ (w' = w ∧ ∃ e, r = Throw e).
Proof.
  unfold insertMany. case_bool_decide; intros [= <- <-]; [left|right]; eauto.
Qed.

Lemma matches_company c d x : matches (FindFilter (Some c) x) d = true → company_id d = c.
Proof. unfold matches. simpl. intros [?%bool_decide_eq_true _]%andb_true_iff. done. Qed.

Lemma matches_document c x d : matches (FindFilter c (Some x)) d = true → document_id d = x.
Proof. unfold matches. simpl. intros [_ ?%bool_decide_eq_true]%andb_true_iff. done. Qed.

Lemma matches_both c x d :
  matches (FindFilter (Some c) (Some x)) d = true ↔ company_id d = c ∧ document_id d = x.
Proof. unfold matches. simpl. by rewrite andb_true_iff, !bool_decide_eq_true. Qed.

Lemma deleteMany_collection f w :
  collection (deleteMany f w).2 = filter (λ d, matches f d = false) (collection w).
Proof. done. Qed.

Lemma filter_ids_NoDup (P : chunk_doc → Prop) `{∀ d, Decision (P d)} l :
  NoDup (_id <$> l) → NoDup (_id <$> filter P l).
Proof.
  intros Hl. eapply sublist_NoDup; [done|]. apply fmap_sublist, sublist_filter.
Qed.

Section find.
Context `{Providers}.

Lemma more_similar_total x y : more_similar x y = true ∨ more_similar y x = true.
Proof.
  unfold more_similar. rewrite !Qle_bool_iff.
  destruct (Qlt_le_dec x.2 y.2); [right|left]; auto using Qlt_le_weak.
Qed.

Lemma find_similar_run f v limit w :
  find_similar f v limit w
  = (Ok (take (Z.to_nat limit)
           (js_sort_by more_similar
              ((λ d, (d, similarity v (vector d))) <$>
                 filter (λ d, matches f d = true) (collection w)))), w).
Proof. done. Qed.

(** What [find] promises: at most [limit] records, each a stored record that
    matches the filter, paired with its similarity, most similar first. *)
Lemma find_similar_spec f v limit w rs w' :
  find_similar f v limit w = (Ok rs, w') →
  w' = w ∧ (Z.of_nat (length rs) ≤ Z.max limit 0)
  ∧ Forall (λ r, r.1 ∈ collection w ∧ matches f r.1 = true
                 ∧ r.2 = similarity v (vector r.1)) rs
  ∧ Sorted (λ a b, more_similar a b = true) rs.
Proof.
  rewrite find_similar_run. intros [= <- <-]. split; [done|].
  split; [rewrite length_take; lia|]. split.
  - apply Forall_take, js_sort_by_Forall, Forall_fmap, Forall_forall.
    intros d [? ?]%list_elem_of_filter. done.
  - apply Sorted_take, js_sort_by_sorted, more_similar_total.
Qed.

End find.

(** ** Well-formed worlds *)

Lemma wf_world_same_data w w' : same_data w w' → wf_world w → wf_world w'.
Proof.
  intros (Hc & Hd & _ & Hn) [? ? ?]. split; rewrite <- ?Hc, <- ?Hd, <- ?Hn; done.
Qed.

Lemma wf_world_set_collection c w :
  NoDup (_id <$> c) → wf_world w → wf_world (set_collection c w).
Proof. intros ? [? ? ?]. by split. Qed.

Lemma insertMany_wf batch w r w' :
  wf_world w → insertMany batch w = (r, w') → wf_world w'.
Proof.
  intros Hwf [(_ & -> & ?)|(-> & _)]%insertMany_inv; [|done].
  by apply wf_world_set_collection.
Qed.

Lemma deleteMany_wf f w : wf_world w → wf_world (deleteMany f w).2.
Proof.
  intros Hwf. apply wf_world_set_collection; [|done].
  apply filter_ids_NoDup, Hwf.
Qed.

Lemma empty_world_wf : wf_world empty_world.
Proof. split; simpl; [constructor|done..]. Qed.

#[export] Hint Resolve wf_world_same_data insertMany_wf deleteMany_wf empty_world_wf : rag.
