(* ===== verification/AiService.v ===== *)
(** * [AIService]: prompts, model dispatch and the provider adapters

    One definition per method of the class in [aiService.js], in the monad
    [M] of [World].  A call to an OpenAI or Gemini client is [call]: it is
    logged in the trace and answered by the [Providers] instance.  The
    template literals of [buildSystemPrompt] are written out code unit by
    code unit; the non-ASCII language directives are given by their UTF-16
    code units. *)

From Stdlib Require Import ZArith QArith Lia String.
From stdpp Require Import prelude list gmap sorting.
From S2P Require Import Prelude JsString World.

#[local] Open Scope Z_scope.

(** ** Literals *)

Definition nl : text := [newline].

Definition instruction_en : text := str "Respond in English.".
Definition instruction_es : text :=
  [82; 101; 115; 112; 111; 110; 100; 101; 32; 101; 110; 32; 101; 115; 112; 97;
   241; 111; 108; 46]%N.
Definition instruction_fr : text :=
  [82; 233; 112; 111; 110; 100; 101; 122; 32; 101; 110; 32; 102; 114; 97; 110;
   231; 97; 105; 115; 46]%N.
Definition instruction_de : text := str "Antworten Sie auf Deutsch.".
Definition instruction_hi : text :=
  [2361; 2367; 2306; 2342; 2368; 32; 2350; 2375; 2306; 32; 2313; 2340; 2381;
   2340; 2352; 32; 2342; 2375; 2306; 2404]%N.
Definition instruction_ne : text :=
  [2344; 2375; 2346; 2366; 2354; 2368; 2350; 2366; 32; 2332; 2357; 2366; 2347;
   32; 2342; 2367; 2344; 2369; 2361; 2379; 2360; 2381; 2404]%N.
Definition instruction_zh : text := [29992; 20013; 25991; 22238; 31572; 12290]%N.
Definition instruction_ja : text :=
  [26085; 26412; 35486; 12391; 31572; 12360; 12390; 12367; 12384; 12373; 12356;
   12290]%N.

(** ** [constructor] *)

Record AIService := { models : gmap text text }.

Definition aiService : AIService :=
  {| models := list_to_map
       [(str "gpt-4", str "gpt-4");
        (str "gpt-3.5-turbo", str "gpt-3.5-turbo");
        (str "gemini-pro", str "gemini-pro")] |}.

(** ** [buildSystemPrompt] *)

Definition languageInstructions : gmap text text :=
  list_to_map
    [(str "en", instruction_en); (str "es", instruction_es);
     (str "fr", instruction_fr); (str "de", instruction_de);
     (str "hi", instruction_hi); (str "ne", instruction_ne);
     (str "zh", instruction_zh); (str "ja", instruction_ja)].

(** [languageInstructions[language] || languageInstructions['en']] *)
Definition languageInstruction (language : text) : text :=
  default instruction_en (js_object_get languageInstructions language).

Definition basePrompt (language : text) : text :=
  str "You are a helpful AI assistant for a business. You should provide accurate, helpful, and professional responses based on the company's documentation and knowledge base."
  ++ nl ++ nl ++ languageInstruction language ++ nl ++ nl
  ++ str "If you have relevant context from the company's documents, use it to provide accurate answers. If you don't have specific information, politely say so and offer to help in other ways."
  ++ nl ++ nl
  ++ str "Keep responses concise but informative. Be friendly and professional.".

Definition buildSystemPrompt (context language : text) : text :=
  if 0 <? js_length context then
    basePrompt language ++ nl ++ nl ++ str "Relevant company information:" ++ nl
    ++ context ++ nl ++ nl
    ++ str "Use this information to answer the user's question accurately."
  else basePrompt language.

(** ** The provider adapters *)

Section service.
Context `{Providers}.

Definition embedding_model : text := str "text-embedding-3-small".

Definition generateEmbeddings (t : text) : M (list Q) :=
  try_catch
    (call (EvEmbedding embedding_model t) (λ tr, embeddings_create tr embedding_model t))
    (λ _, throw (str "Failed to generate embeddings")).

Definition generateOpenAIResponse (svc : AIService) (model : text)
    (messages : list message) : M completion :=
  call (EvChat (js_object_get (models svc) model) messages (7 # 10) 1000 false)
       (λ tr, chat_create tr (js_object_get (models svc) model) messages (7 # 10) 1000).

(** The line of the Gemini prompt for one message. *)
Definition gemini_line (msg : message) : text :=
  match msg_role msg with
  | System => str "System: " ++ msg_content msg
  | User => str "User: " ++ msg_content msg
  | Assistant => str "Assistant: " ++ msg_content msg
  | OtherRole _ => msg_content msg
  end.

Definition gemini_prompt (messages : list message) : text :=
  js_join (nl ++ nl) (gemini_line <$> messages).

Definition generateGeminiResponse (messages : list message) : M completion :=
  let prompt := gemini_prompt messages in
  t ← call (EvGemini prompt) (λ tr, gemini_generate tr prompt);
  mret {| comp_content := t; comp_usage := {| total_tokens := 0 |} |}.

Definition generateResponse (svc : AIService) (model : text)
    (messages : list message) (context language : text) : M completion :=
  try_catch
    (let systemPrompt := buildSystemPrompt context language in
     let fullMessages := Message System systemPrompt :: messages in
     if js_startsWith model (str "gpt") then
       generateOpenAIResponse svc model fullMessages
     else if bool_decide (model = str "gemini-pro") then
       generateGeminiResponse fullMessages
     else throw (str "Unsupported model: " ++ model))
    (λ _, throw (str "Failed to generate response")).

(** [generateStreamResponse] returns the provider's stream for a [gpt]
    model and a whole completion otherwise. *)
Definition generateStreamResponse (svc : AIService) (model : text)
    (messages : list message) (context language : text)
    : M (list text + completion) :=
  try_catch
    (let systemPrompt := buildSystemPrompt context language in
     let fullMessages := Message System systemPrompt :: messages in
     if js_startsWith model (str "gpt") then
       inl <$> call (EvChat (js_object_get (models svc) model) fullMessages (7 # 10) 1000 true)
                    (λ tr, chat_stream tr (js_object_get (models svc) model) fullMessages (7 # 10) 1000)
     else inr <$> generateResponse svc model messages context language)
    (λ _, throw (str "Failed to generate stream response")).

Definition translate_messages (t targetLanguage : text) : list message :=
  [Message System (str "Translate the following text to " ++ targetLanguage
                   ++ str ". Only return the translation, no additional text.");
   Message User t].

Definition translateText (t targetLanguage : text) : M text :=
  try_catch
    (comp_content <$>
       call (EvChat (Some (str "gpt-3.5-turbo")) (translate_messages t targetLanguage) (3 # 10) 500 false)
            (λ tr, chat_create tr (Some (str "gpt-3.5-turbo")) (translate_messages t targetLanguage) (3 # 10) 500))
    (λ _, throw (str "Failed to translate text")).

Definition detect_messages (t : text) : list message :=
  [Message System (str "Detect the language of the following text. Return only the language code (e.g., en, es, fr, de, hi, ne, zh, ja).");
   Message User t].

Definition detectLanguage (t : text) : M text :=
  try_catch
    ((λ c, js_toLowerCase (js_trim (comp_content c))) <$>
       call (EvChat (Some (str "gpt-3.5-turbo")) (detect_messages t) (1 # 10) 10 false)
            (λ tr, chat_create tr (Some (str "gpt-3.5-turbo")) (detect_messages t) (1 # 10) 10))
    (λ _, mret (str "en")).

End service.

(** ** [buildSystemPrompt] *)

Lemma languageInstruction_unsupported language :
  js_object_get languageInstructions language = None →
  languageInstruction language = instruction_en.
Proof. unfold languageInstruction. by intros ->. Qed.

Lemma languageInstruction_en : languageInstruction (str "en") = instruction_en.
Proof. vm_compute. reflexivity. Qed.

(** A language code that is neither one of the eight supported ones
    nor the name of a member every object inherits gets the English
    directive: the prompt is the one built for ["en"]. *)
Theorem buildSystemPrompt_language_fallback context language :
  languageInstructions !! language = None → language ∉ object_prototype_keys →
  buildSystemPrompt context language = buildSystemPrompt context (str "en").
Proof.
  intros Hl Hk. unfold buildSystemPrompt, basePrompt.
  rewrite (languageInstruction_unsupported language), languageInstruction_en; [done|].
  by apply js_object_get_none.
Qed.

Lemma buildSystemPrompt_language_fallback_witness :
  buildSystemPrompt (str "ctx") (str "xx") = buildSystemPrompt (str "ctx") (str "en").
Proof.
  apply buildSystemPrompt_language_fallback.
  - vm_compute. reflexivity.
  - apply (bool_decide_unpack _). vm_compute. exact I.
Defined.

(** The table of directives is read with [languageInstructions[language]],
    which also finds inherited members: for the language ["constructor"] the
    prompt carries the text of a function where the directive should be, not
    the English directive. *)
Theorem buildSystemPrompt_inherited_language context :
  languageInstruction (str "constructor") = str "function Object() { [native code] }"
  ∧ buildSystemPrompt context (str "constructor") ≠ buildSystemPrompt context (str "en").
Proof.
  assert (languageInstruction (str "constructor")
          = str "function Object() { [native code] }") as Hl by (vm_compute; reflexivity).
  split; [done|]. unfold buildSystemPrompt, basePrompt.
  rewrite Hl, languageInstruction_en.
  destruct (0 <? js_length context); intros Heq;
    apply (f_equal (λ t, t !! 170%nat)) in Heq; vm_compute in Heq; discriminate.
Qed.

(** The prompt starts with the role preamble, holds the directive of
    the language, and, exactly when the context is not empty, continues with
    the context block followed by the instruction to use it. *)
Theorem buildSystemPrompt_shape context language :
  (∃ a b, basePrompt language = a ++ languageInstruction language ++ b)
  ∧ (context = [] → buildSystemPrompt context language = basePrompt language)
  ∧ (context ≠ [] →
     buildSystemPrompt context language
     = basePrompt language ++ nl ++ nl ++ str "Relevant company information:" ++ nl
       ++ context ++ nl ++ nl
       ++ str "Use this information to answer the user's question accurately.").
Proof.
  split; [|split].
  - unfold basePrompt. eexists _, _. rewrite (app_assoc _ nl), (app_assoc _ nl).
    reflexivity.
  - by intros ->.
  - intros Hc%js_length_pos_iff. unfold buildSystemPrompt. by rewrite Hc.
Qed.

(** ** Model dispatch *)

Section dispatch.
Context `{Providers}.

Lemma generateEmbeddings_run t w :
  generateEmbeddings t w
  = (match embeddings_create (trace w) embedding_model t with
     | Some v => Ok v
     | None => Throw (str "Failed to generate embeddings")
     end, log_event (EvEmbedding embedding_model t) w).
Proof.
  unfold generateEmbeddings, try_catch, call, throw.
  by destruct (embeddings_create _ _ _).
Qed.

(** C9: a model that neither starts with ["gpt"] nor is ["gemini-pro"] is
    refused before any provider is called: the world, trace included, is
    unchanged, and the caller sees the message of the outer [catch]. *)
Theorem generateResponse_unsupported_model svc model messages context language w :
  js_startsWith model (str "gpt") = false → model ≠ str "gemini-pro" →
  generateResponse svc model messages context language w
  = (Throw (str "Failed to generate response"), w).
Proof.
  intros Hgpt Hgem. unfold generateResponse, try_catch. cbv zeta.
  rewrite Hgpt, bool_decide_eq_false_2 by done. reflexivity.
Qed.

(** Whatever fails inside [generateResponse], an unsupported model or
    a provider, the error that leaves it carries the same message. *)
Theorem generateResponse_error_message svc model messages context language w e w' :
  generateResponse svc model messages context language w = (Throw e, w') →
  e = str "Failed to generate response".
Proof.
  unfold generateResponse, try_catch. cbv zeta.
  destruct (_ w) as [[c|e0] w0]; [done|]. unfold throw. by intros [= <- _].
Qed.

(** The dispatch tests the prefix ["gpt"], not the table of models: a
    model such as ["gpt-foo"] reaches the OpenAI client with the model
    [this.models[model]], which is undefined. *)
Theorem generateResponse_unlisted_gpt_reaches_openai messages context language w :
  ∃ r, generateResponse aiService (str "gpt-foo") messages context language w
       = (r, log_event (EvChat None (Message System (buildSystemPrompt context language)
                                       :: messages) (7 # 10) 1000 false) w).
Proof.
  unfold generateResponse, try_catch. cbv zeta.
  replace (js_startsWith (str "gpt-foo") (str "gpt")) with true by (vm_compute; reflexivity).
  unfold generateOpenAIResponse.
  replace (js_object_get (models aiService) (str "gpt-foo")) with (@None text) by (vm_compute; reflexivity).
  unfold call, throw. destruct (chat_create _ _ _ _ _); eauto.
Qed.

(** The Gemini adapter cannot report usage and says so: a completion
    obtained for ["gemini-pro"] has [total_tokens = 0]. *)
Theorem generateResponse_gemini_usage_zero svc messages context language w c w' :
  generateResponse svc (str "gemini-pro") messages context language w = (Ok c, w') →
  total_tokens (comp_usage c) = 0.
Proof.
  unfold generateResponse, try_catch. cbv zeta.
  replace (js_startsWith (str "gemini-pro") (str "gpt")) with false by (vm_compute; reflexivity).
  rewrite bool_decide_eq_true_2 by done.
  unfold generateGeminiResponse. prog_unfold. unfold call.
  destruct (gemini_generate _ _); [|done]. by intros [= <- _].
Qed.

(** Language detection is best effort: it never throws, and when the
    provider fails the answer is ["en"]. *)
Theorem detectLanguage_total t w :
  ∃ l, detectLanguage t w = (Ok l, log_event (EvChat (Some (str "gpt-3.5-turbo"))
                                       (detect_messages t) (1 # 10) 10 false) w)
       ∧ (chat_create (trace w) (Some (str "gpt-3.5-turbo")) (detect_messages t) (1 # 10) 10
          = None → l = str "en").
Proof.
  unfold detectLanguage. prog_unfold. unfold call.
  destruct (chat_create _ _ _ _ _); eexists; split; try reflexivity; done.
Qed.

Lemma generateResponse_same_stores svc model messages context language w r w' :
  generateResponse svc model messages context language w = (r, w') → same_stores w w'.
Proof.
  unfold generateResponse, generateOpenAIResponse, generateGeminiResponse.
  prog_unfold. unfold call. intros Hr. repeat case_match; simplify_eq; done.
Qed.

Lemma generateEmbeddings_same_stores t w r w' :
  generateEmbeddings t w = (r, w') → same_stores w w'.
Proof. rewrite generateEmbeddings_run. by intros [= _ <-]. Qed.

(** For ["gemini-pro"] the provider receives one prompt: the system
    prompt on a line that starts with ["System: "], then one line per
    message, separated by blank lines; exactly one provider call is made. *)
Theorem generateResponse_gemini_prompt svc messages context language w :
  (generateResponse svc (str "gemini-pro") messages context language w).2
  = log_event (EvGemini (js_join (nl ++ nl)
                 ((str "System: " ++ buildSystemPrompt context language)
                    :: (gemini_line <$> messages)))) w.
Proof.
  unfold generateResponse, try_catch. cbv zeta.
  replace (js_startsWith (str "gemini-pro") (str "gpt")) with false by (vm_compute; reflexivity).
  rewrite bool_decide_eq_true_2 by done.
  unfold generateGeminiResponse, gemini_prompt. prog_unfold. unfold call. simpl.
  by destruct (gemini_generate _ _).
Qed.

(** A model that does not start with ["gpt"] is not streamed:
    [generateStreamResponse] hands the call to [generateResponse] and returns
    its whole completion, or the stream's own error message when it fails. *)
Theorem generateStreamResponse_non_gpt svc model messages context language w :
  js_startsWith model (str "gpt") = false →
  generateStreamResponse svc model messages context language w
  = match generateResponse svc model messages context language w with
    | (Ok c, w') => (Ok (inr c), w')
    | (Throw _, w') => (Throw (str "Failed to generate stream response"), w')
    end.
Proof.
  intros Hgpt. unfold generateStreamResponse. prog_unfold. rewrite Hgpt.
  by destruct (generateResponse _ _ _ _ _ _) as [[?|?] ?].
Qed.

(** For a [gpt] model [generateStreamResponse] makes one streaming
    call with the system prompt first, temperature 0.7 and at most 1000
    tokens, and returns the provider's stream. *)
Theorem generateStreamResponse_gpt svc model messages context language w :
  js_startsWith model (str "gpt") = true →
  let fullMessages := Message System (buildSystemPrompt context language) :: messages in
  generateStreamResponse svc model messages context language w
  = (match chat_stream (trace w) (js_object_get (models svc) model) fullMessages (7 # 10) 1000 with
     | Some s => Ok (inl s)
     | None => Throw (str "Failed to generate stream response")
     end,
     log_event (EvChat (js_object_get (models svc) model) fullMessages (7 # 10) 1000 true) w).
Proof.
  intros Hgpt. unfold generateStreamResponse. prog_unfold. rewrite Hgpt.
  unfold call. by destruct (chat_stream _ _ _ _ _).
Qed.

(** [translateText] makes one call to ["gpt-3.5-turbo"] at
    temperature 0.3 with at most 500 tokens and returns the content of the
    completion; unlike [detectLanguage] it has no fallback and throws when the
    provider fails. *)
Theorem translateText_run t targetLanguage w :
  translateText t targetLanguage w
  = (match chat_create (trace w) (Some (str "gpt-3.5-turbo"))
             (translate_messages t targetLanguage) (3 # 10) 500 with
     | Some c => Ok (comp_content c)
     | None => Throw (str "Failed to translate text")
     end,
     log_event (EvChat (Some (str "gpt-3.5-turbo")) (translate_messages t targetLanguage)
                  (3 # 10) 500 false) w).
Proof.
  unfold translateText. prog_unfold. unfold call.
  by destruct (chat_create _ _ _ _ _).
Qed.

End dispatch.

(** ** The theorems at work on the toy providers *)

Section examples.
#[local] Existing Instance toy_providers.

Lemma generateResponse_unsupported_model_witness :
  generateResponse aiService (str "foo-bar") [] [] (str "en") empty_world
  = (Throw (str "Failed to generate response"), empty_world).
Proof.
  apply generateResponse_unsupported_model.
  - vm_compute. reflexivity.
  - vm_compute. discriminate.
Defined.

Lemma generateResponse_error_message_witness :
  str "Failed to generate response" = str "Failed to generate response".
Proof.
  apply (generateResponse_error_message aiService (str "gpt-foo") [] [] (str "en")
           empty_world _
           (generateResponse aiService (str "gpt-foo") [] [] (str "en") empty_world).2).
  vm_compute. reflexivity.
Defined.

Lemma generateResponse_gemini_usage_zero_witness :
  total_tokens (comp_usage {| comp_content := str "A Gemini answer.";
                              comp_usage := {| total_tokens := 0 |} |}) = 0.
Proof.
  apply (generateResponse_gemini_usage_zero aiService [Message User (str "hi")] []
           (str "en") empty_world _
           (generateResponse aiService (str "gemini-pro") [Message User (str "hi")] []
              (str "en") empty_world).2).
  vm_compute. reflexivity.
Defined.

Lemma generateStreamResponse_non_gpt_witness :
  generateStreamResponse aiService (str "gemini-pro") [Message User (str "hi")] []
    (str "en") empty_world
  = match generateResponse aiService (str "gemini-pro") [Message User (str "hi")] []
            (str "en") empty_world with
    | (Ok c, w') => (Ok (inr c), w')
    | (Throw _, w') => (Throw (str "Failed to generate stream response"), w')
    end.
Proof. apply generateStreamResponse_non_gpt. reflexivity. Defined.

Lemma generateStreamResponse_gpt_witness :
  generateStreamResponse aiService (str "gpt-4") [Message User (str "hi")] []
    (str "en") empty_world
  = (Ok (inl [str "An "; str "answer."]),
     log_event (EvChat (Some (str "gpt-4"))
                  [Message System (buildSystemPrompt [] (str "en")); Message User (str "hi")]
                  (7 # 10) 1000 true) empty_world).
Proof.
  etrans.
  - apply (generateStreamResponse_gpt aiService (str "gpt-4")). reflexivity.
  - vm_compute. reflexivity.
Defined.

End examples.
