(* ===== verification/Rag.v ===== *)
(** * [RAGService]: storing, searching and answering

    One definition per method of the class in [ragService.js] ([chunkText] is
    in [Chunker]).  The methods run in the monad [M] of [World]: they read and
    write the vector collection through [insertMany], [find_similar],
    [find_plain] and [deleteMany], and reach the providers through
    [AiService].  A timestamp is the value of the clock, stored as a number. *)

From Stdlib Require Import ZArith QArith Lia String.
From stdpp Require Import prelude list gmap sorting.
From S2P Require Import Prelude JsString Chunker World AiService.

#[local] Open Scope Z_scope.

(** ** Data *)

(** An element of the array [searchRelevantContext] returns. *)
Record context_item := ContextItem {
  ctx_content : text;
  ctx_similarity : Q;
  ctx_document_id : text;
  ctx_metadata : gmap text jsval
}.

(** The object [generateRAGResponse] returns. *)
Record rag_response := RagResponse {
  response : text;
  context_used : list context_item;
  response_usage : usage;
  model_used : text;
  response_language : text
}.

(** An element of the array [searchSimilarQueries] returns. *)
Record similar_item := SimilarItem {
  sim_content : text;
  sim_similarity : Q;
  sim_company_id : text;
  sim_document_id : text
}.

Record doc_stat := DocStat {
  stat_chunk_count : Z;
  stat_content_length : Z;
  stat_created_at : jsval
}.

Record rag_stats := RagStats {
  total_chunks : Z;
  stats_documents : gmap text doc_stat;
  total_content_length : Z
}.

(** ** [storeDocumentChunks] *)

Definition batchSize : Z := 20.

(** The id of the [i]-th chunk of a document. *)
Definition chunk_id (documentId : text) (i : nat) : text :=
  documentId ++ str "_chunk_" ++ js_of_nat i.

(** The object pushed for chunk [i]. *)
Definition make_chunk_doc (companyId documentId : text) (metadata : gmap text jsval)
    (i : nat) (chunk : text) (embedding : list Q) (created_at : N) : chunk_doc :=
  {| _id := chunk_id documentId i;
     content := chunk;
     vector := embedding;
     company_id := companyId;
     document_id := documentId;
     chunk_index := Z.of_nat i;
     metadata := <[str "chunk_size" := JNum (js_length chunk)]>
                   (<[str "created_at" := JNum (Z.of_N created_at)]> metadata) |}.

(** The values [i] takes in [for (i = 0; i < len; i += batchSize)]. *)
Definition batch_starts (len : Z) : list Z :=
  (λ k, batchSize * Z.of_nat k) <$> seq 0 (Z.to_nat ((len + batchSize - 1) / batchSize)).

Section service.
Context `{Providers}.

(** The body of the first loop: the embedding, then the object. *)
Definition embed_chunk (companyId documentId : text) (metadata : gmap text jsval)
    (i : nat) (chunk : text) : M chunk_doc :=
  embedding ← generateEmbeddings chunk;
  created_at ← now;
  mret (make_chunk_doc companyId documentId metadata i chunk embedding created_at).

(** The first loop: one embedding and one object per chunk. *)
Definition embed_chunks (companyId documentId : text) (chunks : list text)
    (metadata : gmap text jsval) : M (list chunk_doc) :=
  for_each (λ ic : nat * text, embed_chunk companyId documentId metadata ic.1 ic.2)
           (imap pair chunks).

(** The second loop: the objects are inserted in batches. *)
Definition insert_batches (documents : list chunk_doc) : M unit :=
  for_each_ (λ i, insertMany (js_slice documents i (i + batchSize)))
            (batch_starts (js_length documents)).

Definition storeDocumentChunks (companyId documentId : text) (chunks : list text)
    (metadata : gmap text jsval) : M Z :=
  try_catch
    (documents ← embed_chunks companyId documentId chunks metadata;
     _ ← insert_batches documents;
     mret (js_length documents))
    (λ _, throw (str "Failed to store document chunks")).

(** ** [searchRelevantContext] *)

(** [result.$similarity > 0.7] *)
Definition above_threshold (r : chunk_doc * Q) : bool := negb (Qle_bool r.2 (7 # 10)).

Definition to_context (r : chunk_doc * Q) : context_item :=
  {| ctx_content := content r.1;
     ctx_similarity := r.2;
     ctx_document_id := document_id r.1;
     ctx_metadata := metadata r.1 |}.

(** [(a, b) => b.similarity - a.similarity] is at most 0. *)
Definition by_similarity_desc (a b : context_item) : bool :=
  Qle_bool (ctx_similarity b) (ctx_similarity a).

Definition searchRelevantContext (companyId query : text) (limit : Z)
    : M (list context_item) :=
  try_catch
    (queryEmbedding ← generateEmbeddings query;
     results ← find_similar {| by_company := Some companyId; by_document := None |}
                 queryEmbedding limit;
     mret (js_sort_by by_similarity_desc
             (to_context <$> filter (λ r, above_threshold r = true) results)))
    (λ _, throw (str "Failed to search relevant context")).

(** ** [generateRAGResponse] *)

Definition generateRAGResponse (svc : AIService) (companyId query model language : text)
    (conversationHistory : list message) : M rag_response :=
  try_catch
    (relevantContext ← searchRelevantContext companyId query 5;
     let contextString := js_join (nl ++ nl) (ctx_content <$> relevantContext) in
     let messages := conversationHistory ++ [Message User query] in
     r ← generateResponse svc model messages contextString language;
     mret {| response := comp_content r;
             context_used := relevantContext;
             response_usage := comp_usage r;
             model_used := model;
             response_language := language |})
    (λ _, throw (str "Failed to generate RAG response")).

(** ** [deleteDocumentChunks] and [updateDocumentChunks] *)

Definition deleteDocumentChunks (companyId documentId : text) : M Z :=
  try_catch
    (deleteMany {| by_company := Some companyId; by_document := Some documentId |})
    (λ _, throw (str "Failed to delete document chunks")).

Definition updateDocumentChunks (companyId documentId : text) (newChunks : list text)
    (metadata : gmap text jsval) : M Z :=
  try_catch
    (_ ← deleteDocumentChunks companyId documentId;
     storeDocumentChunks companyId documentId newChunks metadata)
    (λ _, throw (str "Failed to update document chunks")).

(** ** [getDocumentStats] *)

(** The body of the [forEach].  [stats.documents[docId]] also finds the
    members every object inherits: for such a [docId] the test sees a value,
    no entry is created, and the two increments land on the inherited member,
    outside the statistics. *)
Definition add_result (stats : rag_stats) (result : chunk_doc) : rag_stats :=
  let docId := document_id result in
  let entry := default {| stat_chunk_count := 0; stat_content_length := 0;
                          stat_created_at := default JNull (metadata result !! str "created_at") |}
                       (stats_documents stats !! docId) in
  {| total_chunks := total_chunks stats;
     stats_documents :=
       if js_includes object_prototype_keys docId then stats_documents stats
       else
         <[docId := {| stat_chunk_count := stat_chunk_count entry + 1;
                       stat_content_length := stat_content_length entry + js_length (content result);
                       stat_created_at := stat_created_at entry |}]> (stats_documents stats);
     total_content_length := total_content_length stats + js_length (content result) |}.

(** [if (documentId) filter.document_id = documentId]: null and the empty
    string add no filter. *)
Definition stats_filter (companyId : text) (documentId : option text) : find_filter :=
  {| by_company := Some companyId;
     by_document := match documentId with
                    | Some d => if 0 <? js_length d then Some d else None
                    | None => None
                    end |}.

Definition getDocumentStats (companyId : text) (documentId : option text) : M rag_stats :=
  try_catch
    (results ← find_plain (stats_filter companyId documentId) 1000;
     mret (foldl add_result
             {| total_chunks := js_length results; stats_documents := ∅;
                total_content_length := 0 |} results))
    (λ _, throw (str "Failed to get document stats")).

(** ** [searchSimilarQueries] *)

Definition to_similar (r : chunk_doc * Q) : similar_item :=
  {| sim_content := content r.1; sim_similarity := r.2;
     sim_company_id := company_id r.1; sim_document_id := document_id r.1 |}.

Definition searchSimilarQueries (query : text) (limit : Z) : M (list similar_item) :=
  try_catch
    (queryEmbedding ← generateEmbeddings query;
     results ← find_similar {| by_company := None; by_document := None |} queryEmbedding limit;
     mret (to_similar <$> results))
    (λ _, throw (str "Failed to search similar queries")).

End service.

(** ** Reference specification of the search

    What [searchRelevantContext] promises, as a function of the stored
    records and of the embedding of the query: the company's records, ranked
    by similarity, cut at [limit], then cut at the threshold.  There is no
    final sort in it. *)
Definition search_spec `{Providers} (companyId : text) (v : list Q) (limit : Z)
    (c : list chunk_doc) : list context_item :=
  to_context <$>
    filter (λ r, above_threshold r = true)
      (take (Z.to_nat limit)
         (js_sort_by more_similar
            ((λ d, (d, similarity v (vector d))) <$>
               filter (λ d, company_id d = companyId) c))).

(** [docs] are the objects [storeDocumentChunks] builds for [chunks]: one
    per chunk, in order, with the deterministic id, the index and the scope. *)
Definition stored_chunks (companyId documentId : text) (metadata : gmap text jsval)
    (chunks : list text) (docs : list chunk_doc) : Prop :=
  length docs = length chunks
  ∧ ∀ i doc, docs !! i = Some doc →
      ∃ chunk v ts, chunks !! i = Some chunk
        ∧ doc = make_chunk_doc companyId documentId metadata i chunk v ts.

(** The record belongs to the document [documentId] of [companyId]. *)
Definition in_document (companyId documentId : text) (x : chunk_doc) : Prop :=
  company_id x = companyId ∧ document_id x = documentId.

#[export] Instance in_document_dec c d x : Decision (in_document c d x).
Proof. unfold in_document. apply _. Defined.

(** No stored record carries an id of document [documentId]. *)
Definition fresh_document (documentId : text) (w : world) : Prop :=
  ∀ x i, x ∈ collection w → _id x ≠ chunk_id documentId i.

(** ** Reference specification of the statistics *)

(** The sum of the content lengths of [rs]. *)
Definition content_total (rs : list chunk_doc) : Z :=
  foldr (λ r acc, js_length (content r) + acc) 0 rs.

(** The entry of document [d] in the statistics of the records [rs]: none
    when [rs] has no record of [d] or [d] names an inherited member;
    otherwise the count and the total length of its records, dated by the
    first of them. *)
Definition doc_stat_of (d : text) (rs : list chunk_doc) : option doc_stat :=
  match filter (λ r, document_id r = d ∧ d ∉ object_prototype_keys) rs with
  | [] => None
  | r :: rest =>
      Some {| stat_chunk_count := js_length (r :: rest);
              stat_content_length := content_total (r :: rest);
              stat_created_at := default JNull (metadata r !! str "created_at") |}
  end.

(** The records [getDocumentStats] reads. *)
Definition stats_records (companyId : text) (documentId : option text) (w : world)
    : list chunk_doc :=
  take 1000 (filter (λ d, matches (stats_filter companyId documentId) d = true) (collection w)).

(** ** A small world for the examples

    Two companies; document 7 of [acme] has three chunks of 8, 9 and 12 code
    units, document 9 of [globex] has one.  With the toy providers a query of
    8 code units is at similarity 1, 4/5 and 1/2 of the three. *)
Definition acme : text := str "acme".
Definition globex : text := str "globex".
Definition demo_chunks : list text := [str "alphabet"; str "nine char"; str "twelve chars"].

Definition demo_query : text := str "abcdefgh".

(** A world whose collection holds [n] one-letter chunks of one document. *)
Definition crowded_world (n : nat) : world :=
  set_collection ((λ i, make_chunk_doc acme (str "7") ∅ i (str "x") [] 0%N) <$> seq 0 n)
    empty_world.

(** A world with one record of another company under an id that the 21st
    chunk of document 7 would take. *)
Definition squatted_world : world :=
  set_collection [make_chunk_doc globex (str "7") ∅ 20 (str "x") [] 0%N] empty_world.

Definition demo_world : world :=
  world_after (storeDocumentChunks (H:=toy_providers) globex (str "9") [str "alphabet"] ∅)
    (world_after (storeDocumentChunks (H:=toy_providers) acme (str "7") demo_chunks ∅)
       empty_world).

(** ** [searchRelevantContext] *)

Section search.
Context `{Providers}.

#[local] Instance more_similar_trans : Transitive (λ a b, more_similar a b = true).
Proof.
  intros x y z. unfold more_similar. rewrite !Qle_bool_iff. intros. by eapply Qle_trans.
Qed.

Lemma filter_company companyId (c : list chunk_doc) :
  filter (λ d, matches (FindFilter (Some companyId) None) d = true) c
  = filter (λ d, company_id d = companyId) c.
Proof.
  apply list_filter_iff. intros d. unfold matches. simpl.
  by rewrite andb_true_r, bool_decide_eq_true.
Qed.

Lemma search_spec_sorted companyId v limit c :
  Sorted (λ a b, by_similarity_desc a b = true) (search_spec companyId v limit c).
Proof.
  unfold search_spec.
  apply (Sorted_fmap _ (λ a b, more_similar a b = true)); [by intros [d1 q1] [d2 q2]|].
  apply (Sorted_filter _), Sorted_take, js_sort_by_sorted, more_similar_total.
Qed.

Lemma searchRelevantContext_run companyId query limit w :
  searchRelevantContext companyId query limit w
  = (match embeddings_create (trace w) embedding_model query with
     | Some v => Ok (search_spec companyId v limit (collection w))
     | None => Throw (str "Failed to search relevant context")
     end, log_event (EvEmbedding embedding_model query) w).
Proof.
  unfold searchRelevantContext. prog_unfold. rewrite generateEmbeddings_run.
  destruct (embeddings_create _ _ _) as [v|]; [|done].
  rewrite find_similar_run. simpl. f_equal. f_equal.
  rewrite js_sort_by_id; [by rewrite filter_company|].
  rewrite filter_company. apply search_spec_sorted.
Qed.

Lemma elem_of_search_spec companyId v limit c it :
  it ∈ search_spec companyId v limit c →
  ∃ d, d ∈ c ∧ company_id d = companyId ∧ it = to_context (d, similarity v (vector d))
       ∧ (7 # 10 < similarity v (vector d))%Q.
Proof.
  unfold search_spec.
  intros ([d q] & -> & [Hq Hin]%list_elem_of_filter)%list_elem_of_fmap.
  apply subseteq_take, js_sort_by_elem_of, list_elem_of_fmap in Hin
    as (d' & [= <- ->] & [Hc Hd]%list_elem_of_filter).
  exists d. repeat split; try done.
  unfold above_threshold in Hq. simpl in Hq. apply negb_true_iff in Hq.
  apply Qnot_le_lt. intros Hle%Qle_bool_iff. congruence.
Qed.

Lemma search_spec_length companyId v limit c :
  Z.of_nat (length (search_spec companyId v limit c)) ≤ Z.max limit 0.
Proof.
  unfold search_spec. rewrite length_fmap.
  etrans; [apply inj_le, length_filter|]. rewrite length_take. lia.
Qed.

(** C1: a successful search returns at most [limit] items, each built
    from a stored record of the querying company with a similarity strictly
    above 0.7, most similar first; the stores are left as they were. *)
Theorem searchRelevantContext_sound companyId query limit w items w' :
  searchRelevantContext companyId query limit w = (Ok items, w') →
  Z.of_nat (length items) ≤ Z.max limit 0
  ∧ Forall (λ it, (7 # 10 < ctx_similarity it)%Q
                  ∧ ∃ d, d ∈ collection w ∧ company_id d = companyId
                         ∧ ctx_content it = content d
                         ∧ ctx_document_id it = document_id d) items
  ∧ Sorted (λ a b, (ctx_similarity b <= ctx_similarity a)%Q) items
  ∧ same_stores w w'.
Proof.
  rewrite searchRelevantContext_run.
  destruct (embeddings_create _ _ _) as [v|]; [|done]. intros [= <- <-].
  split; [apply search_spec_length|]. split; [|split; [|done]].
  - apply Forall_forall. intros it (d & ? & ? & -> & ?)%elem_of_search_spec. eauto 10.
  - eapply Sorted_impl; [|apply search_spec_sorted].
    intros a b. unfold by_similarity_desc. by rewrite Qle_bool_iff.
Qed.

(** C23: the [.sort] that ends [searchRelevantContext] never changes
    anything: the result is the ranked list the collection returned, cut at
    the threshold. *)
Theorem searchRelevantContext_refines_spec companyId query limit w items w' :
  searchRelevantContext companyId query limit w = (Ok items, w') →
  ∃ v, embeddings_create (trace w) embedding_model query = Some v
       ∧ items = search_spec companyId v limit (collection w).
Proof.
  rewrite searchRelevantContext_run.
  destruct (embeddings_create _ _ _) as [v|]; [|done]. intros [= <- _]. eauto.
Qed.

End search.

(** ** [storeDocumentChunks] *)

#[export] Instance chunk_id_inj documentId : Inj (=) (=) (chunk_id documentId).
Proof.
  intros i j Hij. unfold chunk_id in Hij.
  by apply app_inv_head, app_inv_head, js_of_nat_inj in Hij.
Qed.

(** The id tells the document and the index apart: the index is printed
    with digits only, so the last [_chunk_] of the id is the separator. *)
Lemma chunk_id_eq_inv d i d' j : chunk_id d i = chunk_id d' j → d = d' ∧ i = j.
Proof.
  assert (∀ n, 95%N ∉ reverse (js_of_nat n)) as Hdigits.
  { intros n Hin. rewrite elem_of_reverse in Hin.
    by apply (proj1 (Forall_forall _ _) (js_of_nat_digits n)) in Hin. }
  unfold chunk_id. intros Heq%(f_equal reverse).
  rewrite !reverse_app, <- !(assoc_L (++)) in Heq.
  apply (app_sep_inj 95%N) in Heq as [Hi Hd]; [|done..].
  apply (inj reverse), js_of_nat_inj in Hi. injection Hd as Hd. by apply (inj reverse) in Hd.
Qed.

Lemma set_collection_id w : set_collection (collection w) w = w.
Proof. by destruct w. Qed.

Lemma set_collection_twice c c' w : set_collection c (set_collection c' w) = set_collection c w.
Proof. done. Qed.

Lemma batch_starts_concat {A} (docs : list A) :
  concat ((λ i, js_slice docs i (i + batchSize)) <$> batch_starts (js_length docs)) = docs.
Proof.
  unfold batch_starts. rewrite <- list_fmap_compose.
  set (n := Z.to_nat _).
  assert (∀ m, concat ((λ k, js_slice docs (batchSize * Z.of_nat k)
                               (batchSize * Z.of_nat k + batchSize)) <$> seq 0 m)
               = take (Z.to_nat batchSize * m) docs) as Hm.
  { induction m as [|m IH]; [by rewrite Nat.mul_0_r|].
    rewrite seq_S, fmap_app, concat_app, IH. simpl. rewrite app_nil_r.
    rewrite js_slice_take_drop by (unfold batchSize; lia).
    replace (Z.to_nat (batchSize * Z.of_nat m)) with (Z.to_nat batchSize * m)%nat
      by (unfold batchSize; lia).
    rewrite take_take_drop. f_equal. unfold batchSize. lia. }
  etrans; [apply Hm|]. apply take_ge. subst n. unfold js_length, batchSize.
  pose proof (Z.div_mod (Z.of_nat (length docs) + 20 - 1) 20 ltac:(done)).
  pose proof (Z.mod_pos_bound (Z.of_nat (length docs) + 20 - 1) 20 ltac:(done)).
  lia.
Qed.

Section store.
Context `{Providers}.

Lemma embed_chunk_run companyId documentId metadata i chunk w :
  embed_chunk companyId documentId metadata i chunk w
  = match embeddings_create (trace w) embedding_model chunk with
    | Some v =>
        (Ok (make_chunk_doc companyId documentId metadata i chunk v (clock w)),
         set_clock (clock w + 1)%N (log_event (EvEmbedding embedding_model chunk) w))
    | None => (Throw (str "Failed to generate embeddings"),
               log_event (EvEmbedding embedding_model chunk) w)
    end.
Proof.
  unfold embed_chunk. prog_unfold. rewrite generateEmbeddings_run.
  by destruct (embeddings_create _ _ _).
Qed.

Lemma embed_chunk_same_data companyId documentId metadata i chunk w r w' :
  embed_chunk companyId documentId metadata i chunk w = (r, w') → same_data w w'.
Proof.
  rewrite embed_chunk_run. destruct (embeddings_create _ _ _); by intros [= _ <-].
Qed.

Lemma embed_chunks_same_data companyId documentId chunks metadata w r w' :
  embed_chunks companyId documentId chunks metadata w = (r, w') → same_data w w'.
Proof.
  apply (for_each_preserves _ (same_data w)); [|done].
  intros [i c] w0 r0 w1 _ Hw0 Hrun%embed_chunk_same_data. by etrans.
Qed.

Lemma embed_chunks_docs companyId documentId chunks metadata w docs w' :
  embed_chunks companyId documentId chunks metadata w = (Ok docs, w') →
  stored_chunks companyId documentId metadata chunks docs.
Proof.
  intros Hrun. eapply for_each_Forall2 in Hrun; last first.
  { intros [i c] w0 y w1 _. rewrite embed_chunk_run. simpl.
    instantiate (1 := λ ic doc, ∃ v ts,
      doc = make_chunk_doc companyId documentId metadata ic.1 ic.2 v ts).
    destruct (embeddings_create _ _ _); [|done]. intros [= <- _]. simpl. eauto. }
  apply Forall2_same_length_lookup in Hrun as [Hlen Hall]. rewrite length_imap in Hlen.
  split; [done|]. intros i doc Hdoc.
  destruct (lookup_lt_is_Some_2 chunks i) as [chunk Hchunk];
    [rewrite Hlen; by eapply lookup_lt_Some|].
  destruct (Hall i (i, chunk) doc) as (v & ts & ->); [|done|eauto].
  by rewrite list_lookup_imap, Hchunk.
Qed.

End store.

Section batches.

Lemma insert_all_ok bs w :
  NoDup (_id <$> (collection w ++ concat bs)) →
  ∃ us, for_each insertMany bs w = (Ok us, set_collection (collection w ++ concat bs) w).
Proof.
  revert w. induction bs as [|b bs IH]; intros w Hnd; simpl in *.
  - exists []. by rewrite app_nil_r, set_collection_id.
  - assert (NoDup (_id <$> (collection w ++ b))) as Hb.
    { rewrite app_assoc, fmap_app in Hnd. by apply NoDup_app in Hnd as [? _]. }
    unfold bind_prog at 1. rewrite (insertMany_ok _ _ Hb).
    destruct (IH (set_collection (collection w ++ b) w)) as [us Hus].
    { simpl. by rewrite <- app_assoc. }
    unfold bind_prog, ret_prog. rewrite Hus. simpl. rewrite <- app_assoc. eauto.
Qed.

Lemma insert_all_inv bs w r w' :
  for_each insertMany bs w = (r, w') →
  (∃ k, w' = set_collection (collection w ++ concat (take k bs)) w)
  ∧ (is_ok r = true → w' = set_collection (collection w ++ concat bs) w).
Proof.
  revert w r w'. induction bs as [|b bs IH]; intros w r w'.
  - intros [= <- <-]. split; [exists 0%nat|intros _]; simpl;
      by rewrite app_nil_r, set_collection_id.
  - intros [(e & Hb & ->)|(y & w1 & Hb & Hl)]%for_each_cons_inv.
    + apply insertMany_inv in Hb as [(? & _)|(-> & _)]; [done|].
      split; [|done]. exists 0%nat. simpl. by rewrite app_nil_r, set_collection_id.
    + apply insertMany_inv in Hb as [(_ & -> & _)|(_ & ? & ?)]; [|done].
      assert (∃ r1, for_each insertMany bs (set_collection (collection w ++ b) w) = (r1, w')
                    ∧ is_ok r1 = is_ok r) as (r1 & Hr1 & Hok).
      { destruct Hl as [(e & ? & ->)|(ys & ? & ->)]; eauto. }
      apply IH in Hr1 as [(k & ->) Hall]. simpl in *. split.
      * exists (S k). simpl. by rewrite <- app_assoc.
      * rewrite <- Hok. intros ->%Hall. by rewrite <- app_assoc.
Qed.

Lemma insert_batches_ok docs w :
  NoDup (_id <$> (collection w ++ docs)) →
  insert_batches docs w = (Ok tt, set_collection (collection w ++ docs) w).
Proof.
  intros Hnd. unfold insert_batches. rewrite for_each__run.
  rewrite <- (for_each_fmap insertMany (λ i, js_slice docs i (i + batchSize))).
  destruct (insert_all_ok ((λ i, js_slice docs i (i + batchSize)) <$>
              batch_starts (js_length docs)) w) as [us Hus].
  { by rewrite batch_starts_concat. }
  rewrite Hus. simpl. by rewrite batch_starts_concat.
Qed.

Lemma insert_batches_inv docs w r w' :
  insert_batches docs w = (r, w') →
  (∃ k, w' = set_collection (collection w ++ take k docs) w)
  ∧ (is_ok r = true → w' = set_collection (collection w ++ docs) w).
Proof.
  unfold insert_batches. rewrite for_each__run.
  rewrite <- (for_each_fmap insertMany (λ i, js_slice docs i (i + batchSize))).
  destruct (for_each _ _ w) as [r0 w0] eqn:Hrun. simpl. intros [= <- <-].
  apply insert_all_inv in Hrun as [(k & ->) Hall]. split.
  - destruct (concat_take_prefix k ((λ i, js_slice docs i (i + batchSize)) <$>
                batch_starts (js_length docs))) as [n Hn].
    rewrite Hn, batch_starts_concat. eauto.
  - intros Hok. rewrite Hall by (by destruct r0). by rewrite batch_starts_concat.
Qed.

(** The error of the batch loop is the error of [insertMany]. *)
Lemma insert_batches_error docs w e w' :
  insert_batches docs w = (Throw e, w') → e = str "Document already exists".
Proof.
  unfold insert_batches. rewrite for_each__run.
  destruct (for_each _ _ w) as [[us|e0] w0] eqn:Hrun; [done|]. intros [= <- _].
  apply for_each_throw_inv in Hrun as (i & w1 & _ & Hi).
  rewrite insertMany_run in Hi. case_bool_decide; by injection Hi.
Qed.

Lemma insert_batches_wf docs w r w' :
  wf_world w → insert_batches docs w = (r, w') → wf_world w'.
Proof.
  intros Hwf. unfold insert_batches. rewrite for_each__run.
  destruct (for_each _ _ w) as [r0 w0] eqn:Hrun. simpl. intros [= _ <-].
  revert Hrun. apply for_each_preserves; [|done].
  intros i w1 r1 w2 _. apply insertMany_wf.
Qed.

(** C15: inserting in batches of [batchSize] has the outcome of one
    [insertMany] of all the records: the same result or the same error, and
    when it succeeds the same collection.  (When it fails, the batches before
    the failing one stay: see [insert_batches_inv].) *)
Theorem insert_batches_as_one docs w :
  wf_world w →
  result_of (insert_batches docs) w = result_of (insertMany docs) w
  ∧ (is_ok (result_of (insert_batches docs) w) = true →
     insert_batches docs w = insertMany docs w).
Proof.
  intros Hwf. unfold result_of.
  destruct (decide (NoDup (_id <$> (collection w ++ docs)))) as [Hnd|Hnd].
  { by rewrite (insert_batches_ok _ _ Hnd), (insertMany_ok _ _ Hnd). }
  destruct (insert_batches docs w) as [[[]|e] w'] eqn:Hrun.
  - destruct Hnd. pose proof (insert_batches_wf _ _ _ _ Hwf Hrun) as [Hids _ _].
    apply insert_batches_inv in Hrun as [_ Hw']. by rewrite Hw' in Hids.
  - apply insert_batches_error in Hrun as ->.
    unfold insertMany. by rewrite bool_decide_eq_false_2.
Qed.

End batches.

Section store_theorems.
Context `{Providers}.

Lemma storeDocumentChunks_inv companyId documentId chunks metadata w r w' :
  storeDocumentChunks companyId documentId chunks metadata w = (r, w') →
  (∃ e, embed_chunks companyId documentId chunks metadata w = (Throw e, w')
        ∧ r = Throw (str "Failed to store document chunks"))
  ∨ (∃ docs w1 r1, embed_chunks companyId documentId chunks metadata w = (Ok docs, w1)
        ∧ insert_batches docs w1 = (r1, w')
        ∧ r = match r1 with
              | Ok _ => Ok (js_length docs)
              | Throw _ => Throw (str "Failed to store document chunks")
              end).
Proof.
  unfold storeDocumentChunks. prog_unfold.
  destruct (embed_chunks _ _ _ _ w) as [[docs|e] w1] eqn:He.
  - destruct (insert_batches docs w1) as [[[]|e] w2] eqn:Hi; intros [= <- <-];
      right; eexists _, _, _; eauto.
  - intros [= <- <-]. left. eauto.
Qed.

Lemma stored_chunks_ids companyId documentId metadata chunks docs :
  stored_chunks companyId documentId metadata chunks docs →
  _id <$> docs = chunk_id documentId <$> seq 0 (length chunks).
Proof.
  intros [Hlen Hdocs]. apply list_eq_same_length with (length docs).
  - by rewrite length_fmap, length_seq.
  - by rewrite length_fmap.
  - intros i x y Hi. rewrite !list_lookup_fmap.
    destruct (docs !! i) as [doc|] eqn:Hdoc; [|done]. simpl.
    destruct (Hdocs _ _ Hdoc) as (chunk & v & ts & _ & ->).
    rewrite lookup_seq_lt by lia. simpl. by intros [= <-] [= <-].
Qed.

Lemma stored_chunks_contents companyId documentId metadata chunks docs :
  stored_chunks companyId documentId metadata chunks docs → content <$> docs = chunks.
Proof.
  intros [Hlen Hdocs]. apply list_eq_same_length with (length docs).
  - done.
  - by rewrite length_fmap.
  - intros i x y Hi. rewrite list_lookup_fmap.
    destruct (docs !! i) as [doc|] eqn:Hdoc; [|done]. simpl.
    destruct (Hdocs _ _ Hdoc) as (chunk & v & ts & Hchunk & ->). simpl.
    intros [= <-]. congruence.
Qed.

Lemma stored_chunks_in_document companyId documentId metadata chunks docs :
  stored_chunks companyId documentId metadata chunks docs →
  Forall (in_document companyId documentId) docs.
Proof.
  intros [_ Hdocs]. apply Forall_lookup. intros i doc Hdoc.
  by destruct (Hdocs _ _ Hdoc) as (chunk & v & ts & _ & ->).
Qed.

(** What a call of [storeDocumentChunks] does to the world, whatever its
    outcome: only the collection changes, by records of the document added
    at its end; when the call returns they are the records of the chunks. *)
Lemma storeDocumentChunks_effect companyId documentId chunks metadata w r w' :
  storeDocumentChunks companyId documentId chunks metadata w = (r, w') →
  documents w' = documents w ∧ storage w' = storage w ∧ next_id w' = next_id w
  ∧ ∃ docs, collection w' = collection w ++ docs
      ∧ Forall (in_document companyId documentId) docs
      ∧ (∀ n, r = Ok n →
           n = js_length chunks ∧ stored_chunks companyId documentId metadata chunks docs)
      ∧ (∀ e, r = Throw e → e = str "Failed to store document chunks").
Proof.
  intros [(e & He & ->)|(docs & w1 & r1 & He & Hi & ->)]%storeDocumentChunks_inv.
  - apply embed_chunks_same_data in He as (Hc & Hd & Hs & Hn).
    repeat split; try done. exists []. rewrite app_nil_r.
    repeat split; try done. by intros e0 [= <-].
  - pose proof (embed_chunks_docs _ _ _ _ _ _ _ He) as Hdocs.
    apply embed_chunks_same_data in He as (Hc & Hd & Hs & Hn).
    apply insert_batches_inv in Hi as [(k & Hk) Hall].
    split; [by rewrite Hk|]. split; [by rewrite Hk|]. split; [by rewrite Hk|].
    destruct r1 as [[]|e].
    + rewrite Hall by done. simpl. exists docs. rewrite Hc.
      split; [done|]. split; [by eapply stored_chunks_in_document|].
      split; [|done]. intros n [= <-]. split; [|done].
      unfold js_length. by rewrite (proj1 Hdocs).
    + rewrite Hk. simpl. exists (take k docs). rewrite Hc. split; [done|].
      split; [by eapply Forall_take, stored_chunks_in_document|].
      split; [done|]. by intros e0 [= <-].
Qed.

Lemma storeDocumentChunks_wf companyId documentId chunks metadata w r w' :
  wf_world w → storeDocumentChunks companyId documentId chunks metadata w = (r, w') →
  wf_world w'.
Proof.
  intros Hwf [(e & He & _)|(docs & w1 & r1 & He & Hi & _)]%storeDocumentChunks_inv.
  - eapply wf_world_same_data; [by eapply embed_chunks_same_data|done].
  - eapply insert_batches_wf; [|done].
    eapply wf_world_same_data; [by eapply embed_chunks_same_data|done].
Qed.

Lemma storeDocumentChunks_returns companyId documentId chunks metadata w n w' :
  storeDocumentChunks companyId documentId chunks metadata w = (Ok n, w') →
  n = js_length chunks
  ∧ ∃ docs, stored_chunks companyId documentId metadata chunks docs
            ∧ collection w' = collection w ++ docs
            ∧ documents w' = documents w ∧ storage w' = storage w.
Proof.
  intros [(e & _ & ?)|(docs & w1 & r1 & He & Hi & Hr)]%storeDocumentChunks_inv; [done|].
  destruct r1 as [[]|]; [|done]. injection Hr as ->.
  pose proof (embed_chunks_docs _ _ _ _ _ _ _ He) as Hdocs.
  apply embed_chunks_same_data in He as (Hc & Hd & Hs & _).
  apply insert_batches_inv in Hi as [_ ->]; [|done]. simpl.
  split; [unfold js_length; by rewrite (proj1 Hdocs)|].
  exists docs. by rewrite Hc, Hd, Hs.
Qed.

(** C5: when [storeDocumentChunks] returns, it returns the number of
    chunks, and the collection has grown by exactly one record per chunk, in
    order, each with the id [<documentId>_chunk_<index>], the index, the
    chunk as content and the company and document of the call; the table and
    the bucket are untouched. *)
Theorem storeDocumentChunks_stored companyId documentId chunks metadata w n w' :
  storeDocumentChunks companyId documentId chunks metadata w = (Ok n, w') →
  n = js_length chunks
  ∧ ∃ docs, stored_chunks companyId documentId metadata chunks docs
            ∧ collection w' = collection w ++ docs
            ∧ documents w' = documents w ∧ storage w' = storage w.
Proof. apply storeDocumentChunks_returns. Qed.

(** If the embedding provider fails on one chunk, the whole call
    fails and nothing is written: the collection, the table and the bucket
    are as before. *)
Theorem storeDocumentChunks_embedding_failure companyId documentId chunks metadata w chunk :
  chunk ∈ chunks → (∀ tr, embeddings_create tr embedding_model chunk = None) →
  ∃ w', storeDocumentChunks companyId documentId chunks metadata w
        = (Throw (str "Failed to store document chunks"), w')
        ∧ same_data w w'.
Proof.
  intros [i Hi]%list_elem_of_lookup Hfail.
  destruct (for_each_throws
              (λ ic : nat * text, embed_chunk companyId documentId metadata ic.1 ic.2)
              (imap pair chunks) (i, chunk) w) as (e & w' & Hrun).
  { apply list_elem_of_lookup. exists i. by rewrite list_lookup_imap, Hi. }
  { intros w0. rewrite embed_chunk_run. simpl. rewrite Hfail. eauto. }
  exists w'. split; [|by eapply embed_chunks_same_data].
  unfold storeDocumentChunks, embed_chunks. prog_unfold. by rewrite Hrun.
Qed.

(** If the provider answers every chunk and no stored record carries
    an id of the document, [storeDocumentChunks] returns the number of
    chunks. *)
Theorem storeDocumentChunks_succeeds companyId documentId chunks metadata w :
  (∀ tr chunk, chunk ∈ chunks → is_Some (embeddings_create tr embedding_model chunk)) →
  NoDup (_id <$> collection w) → fresh_document documentId w →
  ∃ w', storeDocumentChunks companyId documentId chunks metadata w
        = (Ok (js_length chunks), w').
Proof.
  intros Hemb Hnd Hfresh.
  destruct (for_each_ok
              (λ ic : nat * text, embed_chunk companyId documentId metadata ic.1 ic.2)
              (imap pair chunks) w) as (docs & w1 & He).
  { intros [i c] w0 (j & y & [= -> ->] & Hj)%elem_of_lookup_imap.
    rewrite embed_chunk_run. simpl.
    destruct (Hemb (trace w0) y) as [v ->]; [by eapply list_elem_of_lookup_2|]. eauto. }
  pose proof (embed_chunks_docs _ _ _ _ _ _ _ He) as Hdocs.
  pose proof (embed_chunks_same_data _ _ _ _ _ _ _ He) as (Hc & _).
  assert (NoDup (_id <$> (collection w1 ++ docs))) as Hall.
  { rewrite <- Hc, fmap_app, (stored_chunks_ids _ _ _ _ _ Hdocs).
    apply NoDup_app. split; [done|]. split.
    - intros x (d & -> & Hd)%list_elem_of_fmap (i & Hx & _)%list_elem_of_fmap.
      by eapply Hfresh.
    - apply (NoDup_fmap_2 _), NoDup_seq. }
  eexists. unfold storeDocumentChunks, embed_chunks in *. prog_unfold.
  rewrite He, (insert_batches_ok _ _ Hall). unfold js_length.
  by rewrite (proj1 Hdocs).
Qed.

End store_theorems.

(** ** [deleteDocumentChunks] and [updateDocumentChunks] *)

Section delete_update.
Context `{Providers}.

Lemma deleteDocumentChunks_run companyId documentId w :
  deleteDocumentChunks companyId documentId w
  = (Ok (Z.of_nat (length (filter (in_document companyId documentId) (collection w)))),
     set_collection (filter (λ x, ¬ in_document companyId documentId x) (collection w)) w).
Proof.
  unfold deleteDocumentChunks, try_catch, deleteMany. simpl.
  rewrite (list_filter_iff _ (in_document companyId documentId))
    by (intros x; apply matches_both).
  rewrite (list_filter_iff (λ d, matches _ d = false)
             (λ x, ¬ in_document companyId documentId x)); [done|].
  intros x. unfold in_document. rewrite <- matches_both.
  destruct (matches _ x); split; try done.
Qed.

Lemma deleteDocumentChunks_wf companyId documentId w :
  wf_world w → wf_world (deleteDocumentChunks companyId documentId w).2.
Proof.
  intros Hwf. rewrite deleteDocumentChunks_run. simpl.
  apply wf_world_set_collection; [|done]. apply filter_ids_NoDup, Hwf.
Qed.

(** C10: [deleteDocumentChunks] always succeeds; it removes exactly the
    records of the given company and document, reports how many there were,
    and leaves every other record, the table and the bucket as they were. *)
Theorem deleteDocumentChunks_removes companyId documentId w :
  ∃ w', deleteDocumentChunks companyId documentId w
        = (Ok (Z.of_nat (length (filter (in_document companyId documentId) (collection w)))), w')
    ∧ collection w' = filter (λ x, ¬ in_document companyId documentId x) (collection w)
    ∧ (∀ x, x ∈ collection w' ↔ x ∈ collection w ∧ ¬ in_document companyId documentId x)
    ∧ documents w' = documents w ∧ storage w' = storage w ∧ trace w' = trace w.
Proof.
  rewrite deleteDocumentChunks_run. eexists. split; [done|]. simpl.
  split; [done|]. split; [|done].
  intros x. rewrite list_elem_of_filter. tauto.
Qed.

(** Deleting the chunks of a document twice is the same as deleting
    them once: the second call finds nothing and changes nothing. *)
Theorem deleteDocumentChunks_idempotent companyId documentId w :
  deleteDocumentChunks companyId documentId (deleteDocumentChunks companyId documentId w).2
  = (Ok 0, (deleteDocumentChunks companyId documentId w).2).
Proof.
  rewrite !deleteDocumentChunks_run. simpl.
  rewrite filter_filter_none by tauto. simpl. f_equal.
  unfold set_collection. simpl. f_equal. apply list_filter_filter_l. tauto.
Qed.

(** Once the chunks of a document are deleted, a search of the same
    company returns no item of that document. *)
Theorem search_after_delete companyId documentId query limit w items w' :
  searchRelevantContext companyId query limit
    (deleteDocumentChunks companyId documentId w).2 = (Ok items, w') →
  Forall (λ it, ctx_document_id it ≠ documentId) items.
Proof.
  rewrite searchRelevantContext_run, deleteDocumentChunks_run. simpl.
  destruct (embeddings_create _ _ _) as [v|]; [|done]. intros [= <- _].
  apply Forall_forall.
  intros it (d & [Hnot Hd]%list_elem_of_filter & Hc & -> & _)%elem_of_search_spec.
  simpl. intros Heq. by apply Hnot.
Qed.

Lemma updateDocumentChunks_run companyId documentId newChunks metadata w :
  updateDocumentChunks companyId documentId newChunks metadata w
  = let r := storeDocumentChunks companyId documentId newChunks metadata
               (deleteDocumentChunks companyId documentId w).2 in
    (match r.1 with Ok n => Ok n | Throw _ => Throw (str "Failed to update document chunks") end,
     r.2).
Proof.
  unfold updateDocumentChunks. prog_unfold. rewrite deleteDocumentChunks_run. simpl.
  by destruct (storeDocumentChunks _ _ _ _ _) as [[?|?] ?].
Qed.

(** C8: an update is a replacement, not a merge: when it returns, the
    records of the document are exactly the new chunks, one per chunk and in
    order, and no record of another document or company has changed. *)
Theorem updateDocumentChunks_replaces companyId documentId newChunks metadata w n w' :
  updateDocumentChunks companyId documentId newChunks metadata w = (Ok n, w') →
  n = js_length newChunks
  ∧ ∃ docs, stored_chunks companyId documentId metadata newChunks docs
      ∧ filter (in_document companyId documentId) (collection w') = docs
      ∧ filter (λ x, ¬ in_document companyId documentId x) (collection w')
        = filter (λ x, ¬ in_document companyId documentId x) (collection w).
Proof.
  rewrite updateDocumentChunks_run. cbv zeta.
  destruct (storeDocumentChunks _ _ _ _ _) as [[m|e] w1] eqn:Hs; [|done].
  intros [= <- <-].
  apply storeDocumentChunks_returns in Hs as (-> & docs & Hdocs & Hc & _).
  rewrite deleteDocumentChunks_run in Hc. simpl in Hc.
  split; [done|]. exists docs. split; [done|]. rewrite Hc, !filter_app.
  assert (Forall (in_document companyId documentId) docs) as Hin.
  { apply Forall_lookup. intros i doc Hdoc.
    by destruct (proj2 Hdocs _ _ Hdoc) as (chunk & v & ts & _ & ->). }
  rewrite filter_filter_none, (filter_all _ docs Hin) by tauto.
  split; [done|].
  rewrite (filter_none _ docs), app_nil_r.
  - apply list_filter_filter_l. tauto.
  - eapply Forall_impl; [exact Hin|]. tauto.
Qed.

End delete_update.

(** ** [generateRAGResponse] *)

Section answer.
Context `{Providers}.

Lemma generateRAGResponse_run svc companyId query model language history w :
  generateRAGResponse svc companyId query model language history w
  = match embeddings_create (trace w) embedding_model query with
    | None => (Throw (str "Failed to generate RAG response"),
               log_event (EvEmbedding embedding_model query) w)
    | Some v =>
        let ctx := search_spec companyId v 5 (collection w) in
        match generateResponse svc model (history ++ [Message User query])
                (js_join (nl ++ nl) (ctx_content <$> ctx)) language
                (log_event (EvEmbedding embedding_model query) w) with
        | (Ok r, w') =>
            (Ok {| response := comp_content r; context_used := ctx;
                   response_usage := comp_usage r; model_used := model;
                   response_language := language |}, w')
        | (Throw _, w') => (Throw (str "Failed to generate RAG response"), w')
        end
    end.
Proof.
  unfold generateRAGResponse. prog_unfold. rewrite searchRelevantContext_run.
  destruct (embeddings_create _ _ _) as [v|]; [|done]. simpl.
  by destruct (generateResponse _ _ _ _ _ _) as [[?|?] ?].
Qed.

(** An unsupported model is refused only after the search: a call
    with a model that is neither a [gpt] model nor ["gemini-pro"] throws, and
    the embedding provider has been called for the query by then. *)
Theorem generateRAGResponse_unsupported_model_embeds
    svc companyId query model language history w :
  js_startsWith model (str "gpt") = false → model ≠ str "gemini-pro" →
  generateRAGResponse svc companyId query model language history w
  = (Throw (str "Failed to generate RAG response"),
     log_event (EvEmbedding embedding_model query) w).
Proof.
  intros Hgpt Hgem. rewrite generateRAGResponse_run.
  destruct (embeddings_create _ _ _) as [v|]; [|done]. cbv zeta.
  unfold generateResponse, try_catch. cbv zeta.
  by rewrite Hgpt, bool_decide_eq_false_2.
Qed.

(** C24: an answer names the model and the language it was asked for, and
    carries as [context_used] exactly the result of the search with limit 5
    on the company's records; answering writes to no store. *)
Theorem generateRAGResponse_answer svc companyId query model language history w r w' :
  generateRAGResponse svc companyId query model language history w = (Ok r, w') →
  model_used r = model ∧ response_language r = language
  ∧ (∃ v, embeddings_create (trace w) embedding_model query = Some v
          ∧ context_used r = search_spec companyId v 5 (collection w))
  ∧ (length (context_used r) ≤ 5)%nat
  ∧ same_stores w w'.
Proof.
  rewrite generateRAGResponse_run.
  destruct (embeddings_create _ _ _) as [v|]; [|done]. cbv zeta.
  destruct (generateResponse _ _ _ _ _ _) as [[c|e] w1] eqn:Hg; intros [= <- <-].
  simpl. split; [done|]. split; [done|]. split; [eauto|]. split.
  - pose proof (search_spec_length companyId v 5 (collection w)). lia.
  - apply generateResponse_same_stores in Hg. by etrans.
Qed.

(** Whatever goes wrong inside [generateRAGResponse], the caller
    sees one message, and no store has been written. *)
Theorem generateRAGResponse_error svc companyId query model language history w e w' :
  generateRAGResponse svc companyId query model language history w = (Throw e, w') →
  e = str "Failed to generate RAG response" ∧ same_stores w w'.
Proof.
  rewrite generateRAGResponse_run.
  destruct (embeddings_create _ _ _) as [v|]; [|by intros [= <- <-]]. cbv zeta.
  destruct (generateResponse _ _ _ _ _ _) as [[c|e0] w1] eqn:Hg; intros [= <- <-].
  split; [done|]. apply generateResponse_same_stores in Hg. by etrans.
Qed.

End answer.

(** ** Invariants of the collection *)

Section invariants.
Context `{Providers}.

(** The three operations that write the collection keep the world
    well formed: record ids stay pairwise distinct and the table is not
    touched, whether the operation returns or throws. *)
Theorem collection_writes_preserve_wf companyId documentId chunks metadata w :
  wf_world w →
  wf_world (storeDocumentChunks companyId documentId chunks metadata w).2
  ∧ wf_world (deleteDocumentChunks companyId documentId w).2
  ∧ wf_world (updateDocumentChunks companyId documentId chunks metadata w).2.
Proof.
  intros Hwf. split; [|split].
  - eapply storeDocumentChunks_wf; [done|]. apply surjective_pairing.
  - by apply deleteDocumentChunks_wf.
  - rewrite updateDocumentChunks_run. simpl.
    eapply storeDocumentChunks_wf; [by apply deleteDocumentChunks_wf|].
    apply surjective_pairing.
Qed.

End invariants.

Lemma collection_writes_preserve_wf_witness :
  wf_world (@storeDocumentChunks toy_providers (str "acme") (str "7")
              [str "first chunk"; str "second chunk"] ∅ empty_world).2
  ∧ wf_world (@deleteDocumentChunks (str "acme") (str "7") empty_world).2
  ∧ wf_world (@updateDocumentChunks toy_providers (str "acme") (str "7")
                [str "first chunk"; str "second chunk"] ∅ empty_world).2.
Proof.
  apply (@collection_writes_preserve_wf toy_providers). exact empty_world_wf.
Defined.

Lemma insert_batches_as_one_witness :
  result_of (insert_batches (collection (crowded_world 45))) empty_world
  = result_of (insertMany (collection (crowded_world 45))) empty_world
  ∧ (is_ok (result_of (insert_batches (collection (crowded_world 45))) empty_world) = true →
     insert_batches (collection (crowded_world 45)) empty_world
     = insertMany (collection (crowded_world 45)) empty_world).
Proof. apply insert_batches_as_one. exact empty_world_wf. Defined.

(** A call that fails in its second batch leaves the first batch behind:
    with the id of the 21st chunk taken, storing 21 chunks throws, and the 20
    records of the first batch are in the collection afterwards. *)
Example storeDocumentChunks_partial_insert :
  let run := @storeDocumentChunks toy_providers acme (str "7") (replicate 21 (str "x")) ∅
               squatted_world in
  run.1 = Throw (str "Failed to store document chunks")
  ∧ length (filter (in_document acme (str "7")) (collection run.2)) = 20%nat.
Proof. vm_compute. split; reflexivity. Qed.

(** ** [getDocumentStats] and [searchSimilarQueries] *)

Section stats.
Context `{Providers}.

Lemma content_total_app rs1 rs2 :
  content_total (rs1 ++ rs2) = content_total rs1 + content_total rs2.
Proof. unfold content_total. induction rs1 as [|r rs1 IH]; simpl; lia. Qed.

(** What the [forEach] computes from any starting statistics. *)
Lemma foldl_add_result rs s :
  let s' := foldl add_result s rs in
  total_chunks s' = total_chunks s
  ∧ total_content_length s' = total_content_length s + content_total rs
  ∧ ∀ d, stats_documents s' !! d
         = match stats_documents s !! d with
           | Some e =>
               let mine := filter (λ r, document_id r = d ∧ d ∉ object_prototype_keys) rs in
               Some {| stat_chunk_count := stat_chunk_count e + js_length mine;
                       stat_content_length := stat_content_length e + content_total mine;
                       stat_created_at := stat_created_at e |}
           | None => doc_stat_of d rs
           end.
Proof.
  cbv zeta. revert s. induction rs as [|r rs IH]; intros s.
  - simpl. split; [done|]. split; [lia|]. intros d. unfold doc_stat_of. simpl.
    destruct (stats_documents s !! d) as [[c l t]|]; [|done]. simpl.
    rewrite ?filter_nil. unfold js_length. simpl. do 2 f_equal; lia.
  - simpl. destruct (IH (add_result s r)) as (Hc & Hl & Hd). rewrite Hc, Hl.
    split; [done|]. split; [simpl; lia|]. intros d. rewrite Hd. clear IH Hc Hl Hd.
    unfold doc_stat_of. rewrite filter_cons. simpl. unfold js_includes.
    destruct (decide (document_id r = d ∧ d ∉ object_prototype_keys)) as [[<- Hk]|Hne].
    + rewrite bool_decide_eq_false_2, lookup_insert_eq by done.
      destruct (stats_documents s !! document_id r) as [e|]; simpl;
        f_equal; unfold js_length; simpl length; f_equal; lia.
    + case_bool_decide as Hk; [done|]. rewrite lookup_insert_ne; [done|].
      intros <-. by apply Hne.
Qed.

Lemma getDocumentStats_run companyId documentId w :
  getDocumentStats companyId documentId w
  = (Ok (foldl add_result
           {| total_chunks := js_length (stats_records companyId documentId w);
              stats_documents := ∅; total_content_length := 0 |}
           (stats_records companyId documentId w)), w).
Proof. done. Qed.

(** [getDocumentStats] never fails and changes nothing; over the
    records it reads, [total_chunks] is their number, [total_content_length]
    the sum of their content lengths, and the entry of each document holds the
    count and the total length of that document's records, dated by the first
    of them. *)
Theorem getDocumentStats_spec companyId documentId w :
  ∃ stats, getDocumentStats companyId documentId w = (Ok stats, w)
    ∧ total_chunks stats = js_length (stats_records companyId documentId w)
    ∧ total_content_length stats = content_total (stats_records companyId documentId w)
    ∧ ∀ d, stats_documents stats !! d
           = doc_stat_of d (stats_records companyId documentId w).
Proof.
  rewrite getDocumentStats_run. eexists. split; [done|].
  destruct (foldl_add_result (stats_records companyId documentId w)
              {| total_chunks := js_length (stats_records companyId documentId w);
                 stats_documents := ∅; total_content_length := 0 |}) as (Hc & Hl & Hd).
  split; [done|]. split; [rewrite Hl; simpl; lia|].
  intros d. rewrite Hd. simpl. by rewrite lookup_empty.
Qed.

(** The statistics read at most 1000 records: for a company with more
    records than that, [total_chunks] is 1000, not the number stored. *)
Theorem getDocumentStats_truncated companyId w :
  (1000 < length (filter (λ d, company_id d = companyId) (collection w)))%nat →
  ∃ stats, getDocumentStats companyId None w = (Ok stats, w)
           ∧ total_chunks stats = 1000.
Proof.
  intros Hlen. rewrite getDocumentStats_run. eexists. split; [done|].
  destruct (foldl_add_result (stats_records companyId None w)
              {| total_chunks := js_length (stats_records companyId None w);
                 stats_documents := ∅; total_content_length := 0 |}) as (-> & _).
  simpl. unfold stats_records, js_length. rewrite length_take.
  rewrite (list_filter_iff _ (λ d, company_id d = companyId)).
  - lia.
  - intros d. unfold matches. simpl. rewrite andb_true_r. apply bool_decide_eq_true.
Qed.

Lemma searchSimilarQueries_run query limit w :
  searchSimilarQueries query limit w
  = (match embeddings_create (trace w) embedding_model query with
     | Some v =>
         Ok (to_similar <$>
               take (Z.to_nat limit)
                 (js_sort_by more_similar
                    ((λ d, (d, similarity v (vector d))) <$> collection w)))
     | None => Throw (str "Failed to search similar queries")
     end, log_event (EvEmbedding embedding_model query) w).
Proof.
  unfold searchSimilarQueries. prog_unfold. rewrite generateEmbeddings_run.
  destruct (embeddings_create _ _ _) as [v|]; [|done]. simpl.
  rewrite filter_all; [done|]. by apply Forall_forall.
Qed.

(** [searchSimilarQueries] does not scope by company: when the limit
    covers the collection, every stored record, of any company, is in the
    result with its company and document. *)
Theorem searchSimilarQueries_crosses_tenants query limit w d :
  is_Some (embeddings_create (trace w) embedding_model query) →
  Z.of_nat (length (collection w)) ≤ limit → d ∈ collection w →
  ∃ items w', searchSimilarQueries query limit w = (Ok items, w')
    ∧ ∃ it, it ∈ items ∧ sim_content it = content d
            ∧ sim_company_id it = company_id d ∧ sim_document_id it = document_id d.
Proof.
  intros [v Hv] Hlimit Hd. rewrite searchSimilarQueries_run, Hv.
  eexists _, _. split; [done|].
  exists (to_similar (d, similarity v (vector d))). split; [|done].
  apply list_elem_of_fmap_2. rewrite take_ge.
  - apply js_sort_by_elem_of.
    by apply (list_elem_of_fmap_2 (λ d0, (d0, similarity v (vector d0)))).
  - rewrite js_sort_by_length, length_fmap. lia.
Qed.

End stats.

(** ** The theorems at work on the small world *)

Section examples.
#[local] Existing Instance toy_providers.

Lemma searchRelevantContext_sound_witness :
  let run := searchRelevantContext acme demo_query 5 demo_world in
  let items := ok_value [] run.1 in
  Z.of_nat (length items) ≤ Z.max 5 0
  ∧ Forall (λ it, (7 # 10 < ctx_similarity it)%Q
                  ∧ ∃ d, d ∈ collection demo_world ∧ company_id d = acme
                         ∧ ctx_content it = content d
                         ∧ ctx_document_id it = document_id d) items
  ∧ Sorted (λ a b, (ctx_similarity b <= ctx_similarity a)%Q) items
  ∧ same_stores demo_world run.2.
Proof.
  apply (searchRelevantContext_sound acme demo_query 5 demo_world). vm_compute. reflexivity.
Defined.

Lemma searchRelevantContext_refines_spec_witness :
  ∃ v, embeddings_create (trace demo_world) embedding_model demo_query = Some v
       ∧ ok_value [] (searchRelevantContext acme demo_query 5 demo_world).1
         = search_spec acme v 5 (collection demo_world).
Proof.
  apply (searchRelevantContext_refines_spec acme demo_query 5 demo_world _
           (searchRelevantContext acme demo_query 5 demo_world).2).
  vm_compute. reflexivity.
Defined.

Lemma storeDocumentChunks_stored_witness :
  let w' := (storeDocumentChunks acme (str "7") demo_chunks ∅ empty_world).2 in
  3 = js_length demo_chunks
  ∧ ∃ docs, stored_chunks acme (str "7") ∅ demo_chunks docs
            ∧ collection w' = collection empty_world ++ docs
            ∧ documents w' = documents empty_world ∧ storage w' = storage empty_world.
Proof.
  apply (storeDocumentChunks_stored acme (str "7") demo_chunks ∅ empty_world).
  vm_compute. reflexivity.
Defined.

Lemma storeDocumentChunks_embedding_failure_witness :
  ∃ w', storeDocumentChunks acme (str "7") [str "alphabet"; []] ∅ demo_world
        = (Throw (str "Failed to store document chunks"), w')
        ∧ same_data demo_world w'.
Proof.
  apply (storeDocumentChunks_embedding_failure _ _ _ _ _ []).
  - apply (bool_decide_unpack _). vm_compute. exact I.
  - intros tr. reflexivity.
Defined.

Lemma storeDocumentChunks_succeeds_witness :
  ∃ w', storeDocumentChunks acme (str "7") demo_chunks ∅ empty_world
        = (Ok (js_length demo_chunks), w').
Proof.
  apply storeDocumentChunks_succeeds.
  - intros tr chunk Hin. simpl. case_decide as Hc; [|by eexists].
    subst chunk. exfalso. revert Hin. apply (bool_decide_unpack _). vm_compute. exact I.
  - constructor.
  - intros x i Hx. by apply elem_of_nil in Hx.
Defined.

Lemma search_after_delete_witness :
  Forall (λ it, ctx_document_id it ≠ str "7")
    (ok_value []
       (searchRelevantContext acme demo_query 5 (deleteDocumentChunks acme (str "7") demo_world).2).1).
Proof.
  apply (search_after_delete acme (str "7") demo_query 5 demo_world _
           (searchRelevantContext acme demo_query 5
              (deleteDocumentChunks acme (str "7") demo_world).2).2).
  vm_compute. reflexivity.
Defined.

Lemma updateDocumentChunks_replaces_witness :
  let w' := (updateDocumentChunks acme (str "7") [str "new text"] ∅ demo_world).2 in
  1 = js_length [str "new text"]
  ∧ ∃ docs, stored_chunks acme (str "7") ∅ [str "new text"] docs
      ∧ filter (in_document acme (str "7")) (collection w') = docs
      ∧ filter (λ x, ¬ in_document acme (str "7") x) (collection w')
        = filter (λ x, ¬ in_document acme (str "7") x) (collection demo_world).
Proof.
  apply (updateDocumentChunks_replaces acme (str "7") [str "new text"] ∅ demo_world).
  vm_compute. reflexivity.
Defined.

Lemma generateRAGResponse_unsupported_model_embeds_witness :
  generateRAGResponse aiService acme demo_query (str "claude") (str "en") [] demo_world
  = (Throw (str "Failed to generate RAG response"),
     log_event (EvEmbedding embedding_model demo_query) demo_world).
Proof.
  apply generateRAGResponse_unsupported_model_embeds.
  - reflexivity.
  - apply (bool_decide_unpack _). vm_compute. exact I.
Defined.

Lemma generateRAGResponse_answer_witness :
  let run := generateRAGResponse aiService acme demo_query (str "gpt-4") (str "en") [] demo_world in
  let r := ok_value (RagResponse [] [] {| total_tokens := 0 |} [] []) run.1 in
  model_used r = str "gpt-4" ∧ response_language r = str "en"
  ∧ (∃ v, embeddings_create (trace demo_world) embedding_model demo_query = Some v
          ∧ context_used r = search_spec acme v 5 (collection demo_world))
  ∧ (length (context_used r) ≤ 5)%nat
  ∧ same_stores demo_world run.2.
Proof.
  apply (generateRAGResponse_answer aiService acme demo_query (str "gpt-4") (str "en") []
           demo_world).
  vm_compute. reflexivity.
Defined.

Lemma generateRAGResponse_error_witness :
  str "Failed to generate RAG response" = str "Failed to generate RAG response"
  ∧ same_stores demo_world
      (generateRAGResponse aiService acme [] (str "gpt-4") (str "en") [] demo_world).2.
Proof.
  apply (generateRAGResponse_error aiService acme [] (str "gpt-4") (str "en") []
           demo_world).
  vm_compute. reflexivity.
Defined.

Lemma getDocumentStats_truncated_witness :
  ∃ stats, getDocumentStats acme None (crowded_world 1001) = (Ok stats, crowded_world 1001)
           ∧ total_chunks stats = 1000.
Proof.
  apply getDocumentStats_truncated.
  apply (bool_decide_unpack _). vm_compute. exact I.
Defined.

Lemma searchSimilarQueries_crosses_tenants_witness :
  let d := make_chunk_doc globex (str "9") ∅ 0 (str "alphabet") [8 # 4; 1]%Q 3 in
  ∃ items w', searchSimilarQueries demo_query 10 demo_world = (Ok items, w')
    ∧ ∃ it, it ∈ items ∧ sim_content it = content d
            ∧ sim_company_id it = company_id d ∧ sim_document_id it = document_id d.
Proof.
  apply searchSimilarQueries_crosses_tenants.
  - by eexists.
  - vm_compute. discriminate.
  - apply (list_elem_of_lookup_2 _ 3%nat). vm_compute. reflexivity.
Defined.

End examples.
