(* ===== verification/Documents.v ===== *)
(** * The document service: [services/documentService.js]

    [DocumentService] drives a document through its life: [processDocument]
    validates an uploaded file, extracts its text, registers a row with the
    status [processing], uploads the bytes, chunks the text, stores the chunks
    and marks the row [processed]; [reprocessDocument] rebuilds the chunks of
    a stored document; [deleteDocument] removes the chunks, the stored file
    and the row; [getDocuments] and [getDocumentStats] read the table.  Every
    method is a definition of the same name, in the monad of [World.v]; the
    calls to the table, the bucket and [ragService] happen in the order of
    the source.  A thrown [Error] is its message. *)

From Stdlib Require Import ZArith QArith Lia String.
From stdpp Require Import prelude list gmap sorting.
From S2P Require Import Prelude JsString Chunker World AiService Rag.

#[local] Open Scope Z_scope.

(** ** Data *)

(** The file object the upload middleware hands over. *)
Record upload_file := UploadFile {
  originalname : text;
  buffer : list N;
  file_size : Z;
  mimetype : text
}.

Record DocumentService := {
  allowedTypes : list text;
  maxFileSize : Z
}.

(** The argument of [storeDocumentMetadata]. *)
Record document_metadata := DocumentMetadata {
  md_company_id : text;
  md_user_id : text;
  md_filename : text;
  md_file_type : text;
  md_file_size : Z;
  md_content_length : Z;
  md_status : doc_status
}.

(** The [additionalData] of [updateDocumentStatus]: the columns it sets. *)
Record status_patch := StatusPatch {
  patch_chunk_count : option Z;
  patch_content_length : option Z;
  patch_file_url : option text
}.

(** The object [processDocument] returns. *)
Record processed_document := ProcessedDocument {
  pd_id : text;
  pd_filename : text;
  pd_status : doc_status;
  pd_chunk_count : Z;
  pd_content_length : Z;
  pd_file_url : text
}.

(** The object [DocumentService.getDocumentStats] returns. *)
Record table_stats := TableStats {
  total_documents : Z;
  processed_documents : Z;
  processing_documents : Z;
  failed_documents : Z;
  total_size : Z;
  total_table_chunks : Z
}.

(** ** The constructor and the helpers *)

(** [parseInt(process.env.MAX_FILE_SIZE) || 10 * 1024 * 1024]: [env] is the
    number [parseInt] returns, [None] when it is [NaN]. *)
Definition new_DocumentService (env : option Z) : DocumentService :=
  {| allowedTypes := [str "pdf"; str "docx"; str "txt"];
     maxFileSize := match env with
                    | Some n => if n =? 0 then 10 * 1024 * 1024 else n
                    | None => 10 * 1024 * 1024
                    end |}.

(** The exported instance, with [MAX_FILE_SIZE] unset. *)
Definition documentService : DocumentService := new_DocumentService None.

Definition getFileExtension (filename : text) : text :=
  js_substring (js_toLowerCase (path_extname filename)) 1.

Definition mimeTypes : gmap text text :=
  list_to_map
    [(str "pdf", str "application/pdf");
     (str "docx", str "application/vnd.openxmlformats-officedocument.wordprocessingml.document");
     (str "txt", str "text/plain")].

Definition getMimeType (extension : text) : text :=
  default (str "application/octet-stream") (js_object_get mimeTypes extension).

(** The key of a document's file in the bucket. *)
Definition storage_key (companyId documentId filename : text) : text :=
  companyId ++ str "/" ++ documentId ++ str "/" ++ filename.

(** [ragService.chunkText(text)]: the loop of [Chunker.v] with the service's
    defaults, for which it always returns ([ragService_chunkText_eq]). *)
Definition ragService_chunkText (txt : text) : list text :=
  default [] (chunkText_default ragService txt).

(** The metadata attached to every chunk of a document. *)
Definition chunk_metadata (filename file_type : text) (file_url : option text)
    : gmap text jsval :=
  {[ str "filename" := JStr filename;
     str "file_type" := JStr file_type;
     str "file_url" := from_option JStr JNull file_url ]}.

(** ** Validation *)

Definition validateFile (svc : DocumentService) (file : option upload_file) : M unit :=
  match file with
  | None => throw (str "No file provided")
  | Some f =>
      if maxFileSize svc <? file_size f then
        throw (str "File size exceeds maximum limit of "
               ++ js_quot_text (maxFileSize svc) (1024 * 1024) ++ str "MB")
      else
        let fileExtension := getFileExtension (originalname f) in
        if negb (js_includes (allowedTypes svc) fileExtension) then
          throw (str "File type " ++ fileExtension ++ str " not supported. Allowed types: "
                 ++ js_join (str ", ") (allowedTypes svc))
        else mret tt
  end.

(** ** The table *)

Definition no_patch : status_patch := StatusPatch None None None.

(** The row after [update({ status, ...additionalData, updated_at })]. *)
Definition apply_patch (status : doc_status) (p : status_patch) (t : N)
    (r : document_row) : document_row :=
  DocumentRow (row_id r) (row_company_id r) (row_user_id r) (row_filename r)
    (row_file_type r) (row_file_size r)
    (default (row_content_length r) (patch_content_length p))
    status
    (match patch_chunk_count p with Some n => Some n | None => row_chunk_count r end)
    (match patch_file_url p with Some u => Some u | None => row_file_url r end)
    (row_created_at r) t.

Definition storeDocumentMetadata (metadata : document_metadata) : M document_row :=
  try_catch
    (created_at ← now;
     updated_at ← now;
     table_insert
       (DocumentRow [] (md_company_id metadata) (md_user_id metadata)
          (md_filename metadata) (md_file_type metadata) (md_file_size metadata)
          (md_content_length metadata) (md_status metadata) None None
          created_at updated_at))
    (λ _, throw (str "Failed to store document metadata")).

Definition updateDocumentStatus (documentId : text) (status : doc_status)
    (additionalData : status_patch) : M document_row :=
  try_catch
    (updated_at ← now;
     table_update documentId (apply_patch status additionalData updated_at))
    (λ _, throw (str "Failed to update document status")).

(** [range(offset, offset + limit - 1)] of the company's rows, newest first. *)
Definition getDocuments (companyId : text) (limit offset : Z) : M (list document_row) :=
  try_catch
    (w ← get_world;
     mret (take (Z.to_nat limit)
             (drop (Z.to_nat offset) (js_sort_by newer (table_select_company companyId w)))))
    (λ _, throw (str "Failed to get documents")).

Definition count_status (s : doc_status) (data : list document_row) : Z :=
  js_length (filter (λ d, row_status d = s) data).

(** [DocumentService.getDocumentStats]; [ragService] has a method of the
    same name, modelled in [Rag.v]. *)
Definition documentService_getDocumentStats (companyId : text) : M table_stats :=
  try_catch
    (w ← get_world;
     let data := table_select_company companyId w in
     mret {| total_documents := js_length data;
             processed_documents := count_status Processed data;
             processing_documents := count_status Processing data;
             failed_documents := count_status Failed data;
             total_size := foldl (λ sum d, sum + row_file_size d) 0 data;
             total_table_chunks := foldl (λ sum d, sum + default 0 (row_chunk_count d)) 0 data |})
    (λ _, throw (str "Failed to get document stats")).

(** ** The bucket *)

Definition uploadToStorage (file : upload_file) (companyId documentId : text) : M text :=
  try_catch
    (let fileName := storage_key companyId documentId (originalname file) in
     _ ← storage_upload fileName (Blob (buffer file) (mimetype file));
     mret (getPublicUrl fileName))
    (λ _, throw (str "Failed to upload file to storage")).

Section service.
Context `{Providers}.

(** ** Text extraction *)

(** The callback rejects with its own message; the [catch] around the
    promise replaces it. *)
Definition extractFromPDF (bytes : list N) : M text :=
  try_catch
    (pages ← try_catch (call (EvExtractPdf bytes) (λ tr, pdf_extract tr bytes))
                       (λ _, throw (str "Failed to extract text from PDF"));
     mret (js_join [newline] pages))
    (λ _, throw (str "PDF parsing failed")).

Definition extractFromDOCX (bytes : list N) : M text :=
  try_catch
    (call (EvExtractDocx bytes) (λ tr, docx_extract tr bytes))
    (λ _, throw (str "Failed to extract text from DOCX")).

Definition extractText (file : upload_file) : M text :=
  let fileExtension := getFileExtension (originalname file) in
  if bool_decide (fileExtension = str "pdf") then extractFromPDF (buffer file)
  else if bool_decide (fileExtension = str "docx") then extractFromDOCX (buffer file)
  else if bool_decide (fileExtension = str "txt") then mret (utf8_decode (buffer file))
  else throw (str "Unsupported file type: " ++ fileExtension).

(** ** [processDocument] *)

(** The steps after validation, for the file that passed it. *)
Definition process_valid (file : upload_file) (companyId userId : text)
    : M processed_document :=
  extractedText ← extractText file;
  documentRecord ← storeDocumentMetadata
    {| md_company_id := companyId;
       md_user_id := userId;
       md_filename := originalname file;
       md_file_type := getFileExtension (originalname file);
       md_file_size := file_size file;
       md_content_length := js_length extractedText;
       md_status := Processing |};
  fileUrl ← uploadToStorage file companyId (row_id documentRecord);
  let chunks := ragService_chunkText extractedText in
  _ ← storeDocumentChunks companyId (row_id documentRecord) chunks
        (chunk_metadata (originalname file) (getFileExtension (originalname file))
           (Some fileUrl));
  _ ← updateDocumentStatus (row_id documentRecord) Processed
        {| patch_chunk_count := Some (js_length chunks);
           patch_content_length := None;
           patch_file_url := Some fileUrl |};
  mret {| pd_id := row_id documentRecord;
          pd_filename := originalname file;
          pd_status := Processed;
          pd_chunk_count := js_length chunks;
          pd_content_length := js_length extractedText;
          pd_file_url := fileUrl |}.

Definition processDocument (svc : DocumentService) (file : option upload_file)
    (companyId userId : text) : M processed_document :=
  try_catch
    (_ ← validateFile svc file;
     match file with
     | Some f => process_valid f companyId userId
     | None => throw (str "Cannot read properties of undefined (reading 'originalname')")
     end)
    (λ message, throw (str "Failed to process document: " ++ message)).

(** ** [deleteDocument] *)

Definition deleteDocument (documentId companyId : text) : M bool :=
  try_catch
    (_ ← deleteDocumentChunks companyId documentId;
     w ← get_world;
     _ ← match table_select_single documentId companyId w with
         | Some document =>
             storage_remove (storage_key companyId documentId (row_filename document))
         | None => mret tt
         end;
     _ ← table_delete documentId companyId;
     mret true)
    (λ _, throw (str "Failed to delete document")).

(** ** [reprocessDocument] *)

(** The body of the [try]. *)
Definition reprocess_body (documentId companyId : text) : M bool :=
  w ← get_world;
  document ← of_option (table_select_single documentId companyId w)
               (str "JSON object requested, multiple (or no) rows returned");
  let fileName := storage_key companyId documentId (row_filename document) in
  w' ← get_world;
  fileData ← of_option (storage_download fileName w') (str "Object not found");
  let file := {| originalname := row_filename document;
                 buffer := blob_bytes fileData;
                 file_size := row_file_size document;
                 mimetype := getMimeType (row_file_type document) |} in
  extractedText ← extractText file;
  _ ← updateDocumentStatus documentId Processing no_patch;
  _ ← deleteDocumentChunks companyId documentId;
  let chunks := ragService_chunkText extractedText in
  _ ← storeDocumentChunks companyId documentId chunks
        (chunk_metadata (row_filename document) (row_file_type document)
           (row_file_url document));
  _ ← updateDocumentStatus documentId Processed
        {| patch_chunk_count := Some (js_length chunks);
           patch_content_length := Some (js_length extractedText);
           patch_file_url := None |};
  mret true.

(** The [catch] marks the document failed before it throws; when that update
    throws, its error is the one that leaves. *)
Definition reprocessDocument (documentId companyId : text) : M bool :=
  try_catch (reprocess_body documentId companyId)
    (λ _, _ ← updateDocumentStatus documentId Failed no_patch;
          throw (str "Failed to reprocess document")).

End service.

(** ** The frame of an operation on one document

    What an operation on document [id] of company [c] may touch: the row
    [id], the files under the key prefix of the document, and the records of
    the document.  Everything else is as before. *)
Record doc_frame (c id : text) (w w' : world) : Prop := DocFrame {
  frame_rows : ∀ j, j ≠ id → documents w' !! j = documents w !! j;
  frame_files : ∀ k, (∀ name, k ≠ storage_key c id name) → storage w' !! k = storage w !! k;
  frame_records :
    filter (λ x, ¬ in_document c id x) (collection w')
    = filter (λ x, ¬ in_document c id x) (collection w);
  frame_next_id : (next_id w ≤ next_id w')%nat
}.

(** The status of a document, [None] when it has no row. *)
Definition status_of (id : text) (w : world) : option doc_status :=
  row_status <$> documents w !! id.

(** The row [id] is still there. *)
Definition row_kept (id : text) (w w' : world) : Prop :=
  is_Some (documents w !! id) → is_Some (documents w' !! id).

(** Well-formedness is kept. *)
Definition wf_kept (w w' : world) : Prop := wf_world w → wf_world w'.

(** The sum of [f] over the rows [l]. *)
Definition row_sum (f : document_row → Z) (l : list document_row) : Z :=
  foldr (λ d acc, f d + acc) 0 l.

(** ** A small world for the examples *)

Definition notes_file : upload_file :=
  UploadFile (str "notes.txt") (str "Hello world. This is a note.") 28 (str "text/plain").

(** One document of [acme], processed. *)
Definition library_world : world :=
  world_after (processDocument (H:=toy_providers) documentService (Some notes_file)
                 acme (str "u1")) empty_world.

(** Its row. *)
Definition library_row : document_row :=
  default (DocumentRow [] [] [] [] [] 0 0 Failed None None 0 0)
    (documents library_world !! str "0").

(** ** Helpers: extension, chunking, validation *)

Lemma ragService_chunkText_eq txt :
  chunkText_default ragService txt = Some (ragService_chunkText txt).
Proof.
  unfold ragService_chunkText.
  destruct (chunkText_default ragService txt) as [cs|] eqn:Hc; [done|].
  assert (is_Some (chunkText_default ragService txt)) as [cs Hcs]; [|congruence].
  unfold chunkText_default, chunkText. apply chunk_loop_terminates.
  - unfold good_params. simpl. lia.
  - simpl. unfold js_length. lia.
Qed.

Lemma getFileExtension_ext base c ext :
  c ≠ slash → slash ∉ ext → period ∉ ext → ext ≠ [] →
  getFileExtension (base ++ c :: period :: ext) = js_toLowerCase ext.
Proof.
  intros. unfold getFileExtension. by rewrite path_extname_ext.
Qed.

Lemma validateFile_world svc file w : (validateFile svc file w).2 = w.
Proof.
  unfold validateFile. destruct file as [f|]; [|done].
  destruct (_ <? _); [done|]. cbv zeta. by destruct (negb _).
Qed.

Lemma validateFile_ok svc file w :
  (validateFile svc file w).1 = Ok tt
  ↔ ∃ f, file = Some f ∧ file_size f ≤ maxFileSize svc
         ∧ getFileExtension (originalname f) ∈ allowedTypes svc.
Proof.
  unfold validateFile, js_includes. destruct file as [f|]; [|split; [done|by intros (? & ? & _)]].
  destruct (Z.ltb_spec (maxFileSize svc) (file_size f)); cbv zeta.
  - split; [done|]. intros (? & [= <-] & ? & _). lia.
  - case_bool_decide as Hin; simpl.
    + split; [|done]. intros _. exists f. split; [done|]. split; [lia|done].
    + split; [done|]. by intros (? & [= <-] & _ & ?).
Qed.

Lemma validateFile_run svc file w : validateFile svc file w = ((validateFile svc file w).1, w).
Proof. rewrite <- (validateFile_world svc file w) at 3. apply surjective_pairing. Qed.

(** ** The steps, one by one *)

Lemma storeDocumentMetadata_run metadata w :
  storeDocumentMetadata metadata w
  = let id := table_id (next_id w) in
    let row := DocumentRow id (md_company_id metadata) (md_user_id metadata)
                 (md_filename metadata) (md_file_type metadata) (md_file_size metadata)
                 (md_content_length metadata) (md_status metadata) None None
                 (clock w) (clock w + 1)%N in
    (Ok row, World (collection w) (<[id := row]> (documents w)) (storage w)
               (S (next_id w)) (clock w + 1 + 1)%N (trace w)).
Proof. done. Qed.

Lemma updateDocumentStatus_run documentId status additionalData w :
  updateDocumentStatus documentId status additionalData w
  = match documents w !! documentId with
    | Some r =>
        let r' := apply_patch status additionalData (clock w) r in
        (Ok r', World (collection w) (<[documentId := r']> (documents w)) (storage w)
                  (next_id w) (clock w + 1)%N (trace w))
    | None => (Throw (str "Failed to update document status"), set_clock (clock w + 1)%N w)
    end.
Proof.
  unfold updateDocumentStatus, try_catch, table_update. prog_unfold. unfold now. simpl.
  by destruct (documents w !! documentId).
Qed.

Lemma uploadToStorage_run file companyId documentId w :
  uploadToStorage file companyId documentId w
  = let fileName := storage_key companyId documentId (originalname file) in
    match storage w !! fileName with
    | Some _ => (Throw (str "Failed to upload file to storage"), w)
    | None => (Ok (getPublicUrl fileName),
               set_storage (<[fileName := Blob (buffer file) (mimetype file)]> (storage w)) w)
    end.
Proof.
  unfold uploadToStorage, storage_upload. prog_unfold. cbv zeta.
  by destruct (storage w !! _).
Qed.

(** ** Frames of the steps *)

#[export] Instance doc_frame_preorder c id : PreOrder (doc_frame c id).
Proof.
  split.
  - intros w. by split.
  - intros w1 w2 w3 [Hr1 Hf1 Hc1 Hn1] [Hr2 Hf2 Hc2 Hn2]. split.
    + intros j Hj. by rewrite Hr2, Hr1.
    + intros k Hk. by rewrite Hf2, Hf1.
    + by rewrite Hc2.
    + lia.
Qed.

Lemma same_stores_doc_frame c id w w' : same_stores w w' → doc_frame c id w w'.
Proof. intros (Hc & Hd & Hs & Hn & _). split; rewrite <- ?Hc, <- ?Hd, <- ?Hs, <- ?Hn; done. Qed.

Lemma same_data_doc_frame c id w w' : same_data w w' → doc_frame c id w w'.
Proof. intros (Hc & Hd & Hs & Hn). split; rewrite <- ?Hc, <- ?Hd, <- ?Hs, <- ?Hn; done. Qed.

Lemma updateDocumentStatus_frame c id status additionalData :
  preserves (doc_frame c id) (updateDocumentStatus id status additionalData).
Proof.
  intros w r w'. rewrite updateDocumentStatus_run.
  destruct (documents w !! id); intros [= _ <-]; split; simpl; try done.
  intros j Hj. by rewrite lookup_insert_ne.
Qed.

Lemma deleteDocumentChunks_frame c id :
  preserves (doc_frame c id) (deleteDocumentChunks c id).
Proof.
  intros w r w'. rewrite deleteDocumentChunks_run. intros [= _ <-].
  split; simpl; try done. apply filter_all, Forall_forall.
  by intros x [? _]%list_elem_of_filter.
Qed.

Lemma storeDocumentChunks_frame `{Providers} c id chunks metadata :
  preserves (doc_frame c id) (storeDocumentChunks c id chunks metadata).
Proof.
  intros w r w' (Hd & Hs & Hn & docs & Hc & Hdocs & _)%storeDocumentChunks_effect.
  split; rewrite ?Hd, ?Hs, ?Hn, ?Hc; try done.
  rewrite filter_app, (filter_none _ docs), app_nil_r; [done|].
  eapply Forall_impl; [done|]. intros x Hx Hnx. by apply Hnx.
Qed.

Lemma uploadToStorage_frame file c id :
  preserves (doc_frame c id) (uploadToStorage file c id).
Proof.
  intros w r w'. rewrite uploadToStorage_run. cbv zeta.
  destruct (storage w !! _); intros [= _ <-]; split; simpl; try done.
  intros k Hk. by rewrite lookup_insert_ne.
Qed.

Lemma storage_remove_frame c id name :
  preserves (E:=text) (doc_frame c id) (storage_remove (storage_key c id name)).
Proof.
  intros w r w' [= _ <-]. split; simpl; try done.
  intros k Hk. by rewrite lookup_delete_ne.
Qed.

Lemma table_delete_frame c id : preserves (doc_frame c id) (table_delete id c).
Proof.
  intros w r w'. unfold table_delete.
  destruct (table_select_single id c w); intros [= _ <-]; split; simpl; try done.
  intros j Hj. by rewrite lookup_delete_ne.
Qed.

Section frames.
Context `{Providers}.

Lemma extractText_same_stores file : preserves same_stores (extractText file).
Proof.
  assert (∀ A e (reply : list event → option A), preserves same_stores (call e reply)) as Hcall.
  { intros A e reply w r w' Hrun. apply (f_equal snd) in Hrun. simpl in Hrun.
    rewrite call_world in Hrun. subst w'. apply log_event_same_stores. }
  unfold extractText, extractFromPDF, extractFromDOCX. cbv zeta.
  repeat case_bool_decide; solve_preserves.
Qed.

Lemma extractText_frame c id file : preserves (doc_frame c id) (extractText file).
Proof.
  eapply preserves_weaken; [|apply extractText_same_stores].
  apply same_stores_doc_frame.
Qed.

#[local] Hint Resolve updateDocumentStatus_frame deleteDocumentChunks_frame
  storeDocumentChunks_frame uploadToStorage_frame storage_remove_frame
  table_delete_frame extractText_frame : rag.

Lemma reprocessDocument_frame id c : preserves (doc_frame c id) (reprocessDocument id c).
Proof. unfold reprocessDocument, reprocess_body. solve_preserves. Qed.

Lemma deleteDocument_frame id c : preserves (doc_frame c id) (deleteDocument id c).
Proof. unfold deleteDocument. solve_preserves. Qed.

End frames.

(** ** Validation *)

(** C22: [validateFile] touches nothing, and it accepts exactly a file
    that is present, no larger than [maxFileSize], and whose extension, in
    lower case, is one of [allowedTypes]. *)
Theorem validateFile_accepts_iff svc file w :
  (validateFile svc file w).2 = w
  ∧ ((validateFile svc file w).1 = Ok tt
     ↔ ∃ f, file = Some f ∧ file_size f ≤ maxFileSize svc
            ∧ getFileExtension (originalname f) ∈ allowedTypes svc).
Proof. split; [apply validateFile_world|apply validateFile_ok]. Qed.

(** The three refusals of the exported service carry the messages of
    the source: no file, a file over 10 MB (the limit is printed in
    mebibytes), an extension outside [pdf], [docx], [txt]. *)
Theorem validateFile_messages f w :
  validateFile documentService None w = (Throw (str "No file provided"), w)
  ∧ (10 * 1024 * 1024 < file_size f →
     validateFile documentService (Some f) w
     = (Throw (str "File size exceeds maximum limit of 10MB"), w))
  ∧ (file_size f ≤ 10 * 1024 * 1024 →
     getFileExtension (originalname f) ∉ [str "pdf"; str "docx"; str "txt"] →
     validateFile documentService (Some f) w
     = (Throw (str "File type " ++ getFileExtension (originalname f)
               ++ str " not supported. Allowed types: pdf, docx, txt"), w)).
Proof.
  split; [done|]. unfold validateFile.
  change (maxFileSize documentService) with (10 * 1024 * 1024). split.
  - intros Hbig. rewrite (proj2 (Z.ltb_lt _ _) Hbig). vm_compute. reflexivity.
  - intros Hsmall Hext. rewrite (proj2 (Z.ltb_ge _ _) Hsmall). cbv zeta.
    unfold js_includes. change (allowedTypes documentService)
      with [str "pdf"; str "docx"; str "txt"].
    by rewrite bool_decide_eq_false_2.
Qed.

(** A file name whose last component is a non-empty stem, a period
    and an extension has that extension, in lower case; it is accepted by the
    exported service exactly when that is [pdf], [docx] or [txt]. *)
Theorem getFileExtension_of_name base c ext :
  c ≠ slash → slash ∉ ext → period ∉ ext → ext ≠ [] →
  getFileExtension (base ++ c :: period :: ext) = js_toLowerCase ext.
Proof. intros. by apply getFileExtension_ext. Qed.

Section ingest.
Context `{Providers}.

(** ** [processDocument] *)

(** A file that fails validation is refused before anything happens:
    the error is the validation message behind ["Failed to process
    document: "], and the world, the trace of provider calls included, is
    unchanged. *)
Theorem processDocument_rejects_before_effects svc file companyId userId w e :
  (validateFile svc file w).1 = Throw e →
  processDocument svc file companyId userId w
  = (Throw (str "Failed to process document: " ++ e), w).
Proof.
  intros He. unfold processDocument. prog_unfold.
  by rewrite validateFile_run, He.
Qed.

(** The run of the steps after validation, call by call. *)
Lemma process_valid_run file companyId userId w :
  process_valid file companyId userId w
  = match extractText file w with
    | (Throw e, w1) => (Throw e, w1)
    | (Ok extractedText, w1) =>
        let id := table_id (next_id w1) in
        let row := DocumentRow id companyId userId (originalname file)
                     (getFileExtension (originalname file)) (file_size file)
                     (js_length extractedText) Processing None None
                     (clock w1) (clock w1 + 1)%N in
        let w2 := World (collection w1) (<[id := row]> (documents w1)) (storage w1)
                    (S (next_id w1)) (clock w1 + 1 + 1)%N (trace w1) in
        let fileName := storage_key companyId id (originalname file) in
        match storage w1 !! fileName with
        | Some _ => (Throw (str "Failed to upload file to storage"), w2)
        | None =>
            let chunks := ragService_chunkText extractedText in
            match storeDocumentChunks companyId id chunks
                    (chunk_metadata (originalname file)
                       (getFileExtension (originalname file)) (Some (getPublicUrl fileName)))
                    (set_storage (<[fileName := Blob (buffer file) (mimetype file)]>
                                    (storage w1)) w2) with
            | (Throw e, w4) => (Throw e, w4)
            | (Ok _, w4) =>
                match updateDocumentStatus id Processed
                        (StatusPatch (Some (js_length chunks)) None
                           (Some (getPublicUrl fileName))) w4 with
                | (Throw e, w5) => (Throw e, w5)
                | (Ok _, w5) =>
                    (Ok (ProcessedDocument id (originalname file) Processed
                           (js_length chunks) (js_length extractedText)
                           (getPublicUrl fileName)), w5)
                end
            end
        end
    end.
Proof.
  unfold process_valid. unfold mbind at 1, prog_bind, bind_prog.
  destruct (extractText file w) as [[txt|e] w1]; [|done].
  unfold mbind at 1, prog_bind, bind_prog. rewrite storeDocumentMetadata_run. cbv zeta.
  unfold mbind at 1, prog_bind, bind_prog. rewrite uploadToStorage_run. cbv zeta.
  simpl storage. simpl row_id. destruct (storage w1 !! _); [done|].
  unfold mbind at 1, prog_bind, bind_prog. simpl row_id.
  destruct (storeDocumentChunks _ _ _ _ _) as [[n|e] w4]; [|done].
  unfold mbind, prog_bind, bind_prog.
  by destruct (updateDocumentStatus _ _ _ w4) as [[r|e] w5].
Qed.

Lemma processDocument_run svc file companyId userId w :
  (validateFile svc (Some file) w).1 = Ok tt →
  processDocument svc (Some file) companyId userId w
  = match process_valid file companyId userId w with
    | (Ok d, w') => (Ok d, w')
    | (Throw e, w') => (Throw (str "Failed to process document: " ++ e), w')
    end.
Proof.
  intros Hv. unfold processDocument. prog_unfold.
  rewrite validateFile_run, Hv. by destruct (process_valid _ _ _ w) as [[?|?] ?].
Qed.

Lemma processDocument_ok_file svc file companyId userId w d w' :
  processDocument svc file companyId userId w = (Ok d, w') →
  ∃ f, file = Some f ∧ process_valid f companyId userId w = (Ok d, w').
Proof.
  destruct (validateFile svc file w).1 as [[]|e] eqn:Hv.
  - pose proof Hv as (f & -> & _)%validateFile_ok.
    rewrite processDocument_run by done.
    destruct (process_valid _ _ _ w) as [[?|?] ?] eqn:Hp; [|done].
    intros [= <- <-]. eauto.
  - by rewrite (processDocument_rejects_before_effects _ _ _ _ _ _ Hv).
Qed.

(** What a run of the steps that returned has done. *)
Lemma process_valid_ok file companyId userId w d w' :
  process_valid file companyId userId w = (Ok d, w') →
  let id := table_id (next_id w) in
  let fileName := storage_key companyId id (originalname file) in
  ∃ extractedText w1 docs t1 t2,
    extractText file w = (Ok extractedText, w1)
    ∧ let chunks := ragService_chunkText extractedText in
      d = ProcessedDocument id (originalname file) Processed (js_length chunks)
            (js_length extractedText) (getPublicUrl fileName)
      ∧ documents w'
        = <[id := DocumentRow id companyId userId (originalname file)
                    (getFileExtension (originalname file)) (file_size file)
                    (js_length extractedText) Processed (Some (js_length chunks))
                    (Some (getPublicUrl fileName)) t1 t2]> (documents w)
      ∧ storage w !! fileName = None
      ∧ storage w' = <[fileName := Blob (buffer file) (mimetype file)]> (storage w)
      ∧ collection w' = collection w ++ docs
      ∧ stored_chunks companyId id
          (chunk_metadata (originalname file) (getFileExtension (originalname file))
             (Some (getPublicUrl fileName))) chunks docs.
Proof.
  rewrite process_valid_run.
  destruct (extractText file w) as [[txt|e] w1] eqn:He; [|done].
  apply extractText_same_stores in He as Hs. destruct Hs as (Hc & Hd & Hst & Hn & _).
  cbv zeta. rewrite <- Hc, <- Hd, <- Hst, <- Hn.
  destruct (storage w !! _) eqn:Hkey; [done|].
  destruct (storeDocumentChunks _ _ _ _ _) as [[n|e] w4] eqn:Hstore; [|done].
  apply storeDocumentChunks_effect in Hstore
    as (Hd4 & Hs4 & Hn4 & docs & Hc4 & _ & Hok & _).
  destruct (Hok n eq_refl) as [_ Hdocs]. simpl in Hd4, Hs4, Hc4.
  rewrite updateDocumentStatus_run, Hd4, lookup_insert_eq. cbv zeta.
  intros [= <- <-]. simpl.
  eexists txt, w1, docs, _, _. split; [done|]. split; [done|].
  by rewrite Hs4, Hc4, insert_insert_eq.
Qed.

(** C4: when [processDocument] returns, the document is registered as
    [processed] under a new id with its chunk count, content length and file
    URL, the file is stored under the key of the company and the document,
    which was free, and the collection has gained exactly the chunks of the
    extracted text, in order; the object returned says the same. *)
Theorem processDocument_success svc file companyId userId w d w' :
  processDocument svc file companyId userId w = (Ok d, w') →
  ∃ f extractedText docs r,
    file = Some f
    ∧ pd_id d = table_id (next_id w) ∧ pd_status d = Processed
    ∧ pd_chunk_count d = js_length (ragService_chunkText extractedText)
    ∧ pd_content_length d = js_length extractedText
    ∧ documents w' = <[pd_id d := r]> (documents w)
    ∧ row_status r = Processed ∧ row_company_id r = companyId
    ∧ row_chunk_count r = Some (pd_chunk_count d)
    ∧ row_file_url r = Some (pd_file_url d)
    ∧ storage w !! storage_key companyId (pd_id d) (originalname f) = None
    ∧ storage w' = <[storage_key companyId (pd_id d) (originalname f)
                     := Blob (buffer f) (mimetype f)]> (storage w)
    ∧ collection w' = collection w ++ docs
    ∧ length docs = length (ragService_chunkText extractedText)
    ∧ Forall (in_document companyId (pd_id d)) docs.
Proof.
  intros (f & -> & Hrun)%processDocument_ok_file.
  apply process_valid_ok in Hrun
    as (txt & w1 & docs & t1 & t2 & _ & -> & Hd & Hkey & Hs & Hc & Hdocs).
  eexists f, txt, docs, _. simpl. rewrite Hd, Hs, Hc. simpl.
  repeat (split; [done|]).
  split; [apply Hdocs|]. by eapply stored_chunks_in_document.
Qed.

(** C19: [processDocument] has no step that marks a document [failed]:
    when it throws, either validation or extraction failed and no store was
    written, or the row it registered is left with the status [processing],
    which happens when the upload or the storing of the chunks fails. *)
Theorem processDocument_failure_leaves_processing svc file companyId userId w e w' :
  processDocument svc file companyId userId w = (Throw e, w') →
  same_stores w w'
  ∨ (status_of (table_id (next_id w)) w' = Some Processing
     ∧ (e = str "Failed to process document: Failed to upload file to storage"
        ∨ e = str "Failed to process document: Failed to store document chunks")).
Proof.
  destruct (validateFile svc file w).1 as [[]|e0] eqn:Hv; last first.
  { rewrite (processDocument_rejects_before_effects _ _ _ _ _ _ Hv).
    intros [= _ <-]. by left. }
  pose proof Hv as (f & -> & _)%validateFile_ok.
  rewrite processDocument_run, process_valid_run by done.
  destruct (extractText f w) as [[txt|e1] w1] eqn:He;
    apply extractText_same_stores in He as Hs; [|intros [= _ <-]; by left].
  destruct Hs as (Hc & Hd & Hst & Hn & _). cbv zeta. rewrite <- Hn.
  destruct (storage w1 !! _).
  { intros [= <- <-]. right. unfold status_of. simpl. rewrite lookup_insert_eq. eauto. }
  destruct (storeDocumentChunks _ _ _ _ _) as [[n|e2] w4] eqn:Hstore;
    apply storeDocumentChunks_effect in Hstore as (Hd4 & _ & _ & _ & _ & _ & _ & Hmsg);
    simpl in Hd4.
  - rewrite updateDocumentStatus_run, Hd4, lookup_insert_eq. done.
  - intros [= <- <-]. right. unfold status_of. rewrite Hd4, lookup_insert_eq.
    rewrite (Hmsg e2 eq_refl). eauto.
Qed.

(** An ingest touches only what belongs to the new document: the
    rows of other ids, the files outside the key prefix of the document and
    the records of other documents are as before, whether it returns or
    throws. *)
Theorem processDocument_frame svc file companyId userId w r w' :
  processDocument svc file companyId userId w = (r, w') →
  doc_frame companyId (table_id (next_id w)) w w'.
Proof.
  destruct (validateFile svc file w).1 as [[]|e0] eqn:Hv; last first.
  { rewrite (processDocument_rejects_before_effects _ _ _ _ _ _ Hv). by intros [= _ <-]. }
  pose proof Hv as (f & -> & _)%validateFile_ok.
  rewrite processDocument_run, process_valid_run by done.
  destruct (extractText f w) as [[txt|e1] w1] eqn:He;
    apply extractText_same_stores in He as Hs;
    [|intros [= _ <-]; by apply same_stores_doc_frame].
  pose proof Hs as (_ & _ & _ & Hn & _). cbv zeta. rewrite <- Hn.
  set (id := table_id (next_id w)). set (w2 := World _ _ _ _ _ _).
  assert (doc_frame companyId id w w2) as H2.
  { destruct Hs as (Hc & Hd & Hst & _). subst w2. rewrite <- Hc, <- Hd, <- Hst.
    split; simpl; try done; [|lia]. intros j Hj. by rewrite lookup_insert_ne. }
  destruct (storage w1 !! _) eqn:Hkey.
  { by intros [= _ <-]. }
  set (w3 := set_storage _ w2).
  assert (doc_frame companyId id w w3) as H3.
  { etrans; [done|]. split; simpl; try done. intros k Hk. by rewrite lookup_insert_ne. }
  destruct (storeDocumentChunks _ _ _ _ w3) as [[n|e2] w4] eqn:Hstore;
    apply storeDocumentChunks_frame in Hstore;
    [|intros [= _ <-]; by etrans].
  destruct (updateDocumentStatus _ _ _ w4) as [[r5|e5] w5] eqn:Hup;
    apply (updateDocumentStatus_frame companyId) in Hup;
    intros [= _ <-]; etrans; [apply H3| |apply H3|]; by etrans.
Qed.

End ingest.

(** ** [reprocessDocument] *)

#[export] Instance row_kept_preorder id : PreOrder (row_kept id).
Proof.
  split; [intros w Hw; exact Hw|]. intros w1 w2 w3 H1 H2 Hw. by apply H2, H1.
Qed.

Lemma same_data_row_kept id w w' : same_data w w' → row_kept id w w'.
Proof. intros (_ & Hd & _) Hw. unfold row_kept. by rewrite <- Hd. Qed.

Lemma updateDocumentStatus_row_kept id status additionalData :
  preserves (row_kept id) (updateDocumentStatus id status additionalData).
Proof.
  intros w r w'. rewrite updateDocumentStatus_run.
  destruct (documents w !! id) eqn:Hr; intros [= _ <-] Hw; simpl.
  - by rewrite lookup_insert_eq.
  - by destruct Hw.
Qed.

Section reprocess.
Context `{Providers}.

Lemma reprocess_body_row_kept id c : preserves (row_kept id) (reprocess_body id c).
Proof.
  assert (preserves (row_kept id) (deleteDocumentChunks c id)) as Hdel.
  { intros w r w'. rewrite deleteDocumentChunks_run. intros [= _ <-] Hw. exact Hw. }
  assert (∀ chunks md, preserves (row_kept id) (storeDocumentChunks c id chunks md)) as Hst.
  { intros chunks md w r w' (Hd & _)%storeDocumentChunks_effect Hw.
    unfold row_kept. by rewrite Hd. }
  assert (∀ f, preserves (row_kept id) (extractText f)) as Hex.
  { intros f. eapply preserves_weaken; [|apply extractText_same_stores].
    intros w w' Hs. by apply same_data_row_kept, same_stores_data. }
  pose proof (updateDocumentStatus_row_kept id) as Hup.
  unfold reprocess_body. solve_preserves.
Qed.

(** The [catch] of [reprocessDocument], run on a world where the row is there. *)
Lemma reprocess_catch_run id w r :
  documents w !! id = Some r →
  (updateDocumentStatus id Failed no_patch ≫= λ _, throw (str "Failed to reprocess document"))
    w
  = (Throw (A:=bool) (str "Failed to reprocess document"),
     World (collection w) (<[id := apply_patch Failed no_patch (clock w) r]> (documents w))
       (storage w) (next_id w) (clock w + 1)%N (trace w)).
Proof.
  intros Hr. unfold mbind, prog_bind, bind_prog.
  by rewrite updateDocumentStatus_run, Hr.
Qed.

(** C6: [reprocessDocument] looks the document up by id and company but
    marks it failed by id alone: called with the id of a document of another
    company it throws, and that company's document is now [failed]. *)
Theorem reprocessDocument_foreign_document_marked_failed id companyId w r :
  documents w !! id = Some r → row_company_id r ≠ companyId →
  ∃ w', reprocessDocument id companyId w
        = (Throw (str "Failed to reprocess document"), w')
    ∧ status_of id w' = Some Failed
    ∧ documents w' = <[id := apply_patch Failed no_patch (clock w) r]> (documents w)
    ∧ collection w' = collection w ∧ storage w' = storage w.
Proof.
  intros Hr Hc. eexists. split.
  - unfold reprocessDocument, try_catch, reprocess_body.
    unfold mbind at 1 2, prog_bind, bind_prog. simpl.
    unfold table_select_single. rewrite Hr. simpl.
    rewrite bool_decide_eq_false_2 by done. simpl.
    by apply reprocess_catch_run.
  - unfold status_of. simpl. by rewrite lookup_insert_eq.
Qed.

(** For an id that has no row the [catch] itself fails: the caller
    sees the error of the status update, not ["Failed to reprocess
    document"], and no store is written. *)
Theorem reprocessDocument_missing_document id companyId w :
  documents w !! id = None →
  reprocessDocument id companyId w
  = (Throw (str "Failed to update document status"), set_clock (clock w + 1)%N w).
Proof.
  intros Hr. unfold reprocessDocument, try_catch, reprocess_body.
  unfold mbind at 1 2, prog_bind, bind_prog. simpl.
  unfold table_select_single. rewrite Hr. simpl.
  unfold mbind, prog_bind, bind_prog. by rewrite updateDocumentStatus_run, Hr.
Qed.

(** The two ends of a reprocess of a document that has a row. *)
Lemma reprocessDocument_status id companyId w r w' :
  is_Some (documents w !! id) →
  reprocessDocument id companyId w = (r, w') →
  (r = Ok true ∧ status_of id w' = Some Processed)
  ∨ (r = Throw (str "Failed to reprocess document") ∧ status_of id w' = Some Failed).
Proof.
  intros Hrow [(b & Hbody & ->)|(e & w1 & Hbody & Hcatch)]%try_catch_inv.
  - left. unfold reprocess_body in Hbody. prog_ok_inv Hbody.
    apply mret_inv in Hbody as [[= ->] ->]. split; [done|].
    match goal with
    | Hup : updateDocumentStatus id Processed _ ?w7 = _ |- _ =>
        rewrite updateDocumentStatus_run in Hup; destruct (documents w7 !! id); [|done];
        injection Hup as _ <-
    end.
    unfold status_of. simpl. by rewrite lookup_insert_eq.
  - right. destruct (reprocess_body_row_kept id companyId _ _ _ Hbody Hrow) as [r1 Hr1].
    rewrite (reprocess_catch_run _ _ _ Hr1) in Hcatch. injection Hcatch as <- <-.
    split; [done|]. unfold status_of. simpl. by rewrite lookup_insert_eq.
Qed.

(** C20: on a document that has a row, [reprocessDocument] ends in one of
    two ways: it returns [true] and the document is [processed], or it throws
    ["Failed to reprocess document"] and the document is [failed]; no call
    leaves it at [processing]. *)
Theorem reprocessDocument_outcome id companyId w r w' :
  is_Some (documents w !! id) →
  reprocessDocument id companyId w = (r, w') →
  status_of id w' ≠ Some Processing
  ∧ ((r = Ok true ∧ status_of id w' = Some Processed)
     ∨ (r = Throw (str "Failed to reprocess document") ∧ status_of id w' = Some Failed)).
Proof.
  intros Hrow Hrun.
  destruct (reprocessDocument_status _ _ _ _ _ Hrow Hrun) as [[-> Hs]|[-> Hs]];
    rewrite Hs; (split; [done|]); [left|right]; done.
Qed.

End reprocess.

(** ** [deleteDocument] *)

Section delete.
Context `{Providers}.

Lemma deleteDocument_run id c w :
  deleteDocument id c w
  = (Ok true,
     let rest := filter (λ x, ¬ in_document c id x) (collection w) in
     match table_select_single id c w with
     | Some document =>
         World rest (delete id (documents w))
           (delete (storage_key c id (row_filename document)) (storage w))
           (next_id w) (clock w) (trace w)
     | None => set_collection rest w
     end).
Proof.
  unfold deleteDocument. prog_unfold. rewrite deleteDocumentChunks_run.
  unfold table_delete, storage_remove, table_select_single. prog_unfold. simpl.
  destruct (documents w !! id) as [r|] eqn:Hr; simpl; [|by rewrite Hr].
  case_bool_decide as Hc; simpl; rewrite Hr; simpl.
  - by rewrite bool_decide_eq_true_2.
  - by rewrite bool_decide_eq_false_2.
Qed.

(** C7: [deleteDocument] always returns [true].  Afterwards the company
    has no record, no row and no stored file of the document: the records are
    removed first, then the file, then the row. *)
Theorem deleteDocument_removes_everything id companyId w :
  ∃ w', deleteDocument id companyId w = (Ok true, w')
    ∧ filter (in_document companyId id) (collection w') = []
    ∧ table_select_single id companyId w' = None
    ∧ (∀ r, table_select_single id companyId w = Some r →
            documents w' = delete id (documents w)
            ∧ storage w' = delete (storage_key companyId id (row_filename r)) (storage w))
    ∧ trace w' = trace w.
Proof.
  rewrite deleteDocument_run. eexists. split; [done|]. cbv zeta.
  destruct (table_select_single id companyId w) as [r|] eqn:Hsel; simpl.
  - split; [by apply filter_filter_none; intros x Hx Hnx|].
    split; [|by split; [intros ? [= <-]|]].
    unfold table_select_single. simpl. by rewrite lookup_delete_eq.
  - split; [by apply filter_filter_none; intros x Hx Hnx|]. done.
Qed.

(** Deleting a document twice is deleting it once: the second call
    returns [true] and changes nothing. *)
Theorem deleteDocument_idempotent id companyId w :
  deleteDocument id companyId (deleteDocument id companyId w).2
  = (Ok true, (deleteDocument id companyId w).2).
Proof.
  rewrite (deleteDocument_run id companyId w). cbn [snd]. rewrite deleteDocument_run.
  f_equal. cbv zeta.
  destruct (table_select_single id companyId w) as [r|] eqn:Hsel.
  - replace (table_select_single id companyId (World _ _ _ _ _ _))
      with (@None document_row)
      by (unfold table_select_single; simpl; by rewrite lookup_delete_eq).
    unfold set_collection. simpl. f_equal.
    apply filter_all, Forall_forall. by intros x [? _]%list_elem_of_filter.
  - replace (table_select_single id companyId (set_collection _ w))
      with (@None document_row) by (symmetry; exact Hsel).
    unfold set_collection. simpl. f_equal.
    apply filter_all, Forall_forall. by intros x [? _]%list_elem_of_filter.
Qed.

(** A document of another company survives a [deleteDocument] called
    with its id: its row and every stored file stay, and so do its records. *)
Theorem deleteDocument_foreign_document_kept id companyId w r :
  documents w !! id = Some r → row_company_id r ≠ companyId →
  ∃ w', deleteDocument id companyId w = (Ok true, w')
    ∧ documents w' = documents w ∧ storage w' = storage w
    ∧ filter (in_document (row_company_id r) id) (collection w')
      = filter (in_document (row_company_id r) id) (collection w).
Proof.
  intros Hr Hc. rewrite deleteDocument_run. eexists. split; [done|]. cbv zeta.
  unfold table_select_single. rewrite Hr. simpl.
  rewrite bool_decide_eq_false_2 by done. simpl. split; [done|]. split; [done|].
  rewrite list_filter_filter. apply list_filter_iff.
  intros x. unfold in_document. split; [by intros [? _]|].
  intros [Hx ?]. split; [done|]. intros [Hx' _]. congruence.
Qed.

(** [reprocessDocument] and [deleteDocument] touch only the document
    they are called for: the rows of other ids, the files outside the key
    prefix of the document and the records of other documents and companies
    are as before, whether the call returns or throws. *)
Theorem document_operations_frame id companyId w :
  doc_frame companyId id w (reprocessDocument id companyId w).2
  ∧ doc_frame companyId id w (deleteDocument id companyId w).2.
Proof.
  split.
  - eapply reprocessDocument_frame, surjective_pairing.
  - eapply deleteDocument_frame, surjective_pairing.
Qed.

End delete.

(** ** Well-formed worlds *)

#[export] Instance wf_kept_preorder : PreOrder wf_kept.
Proof.
  split; [intros w Hw; exact Hw|]. intros w1 w2 w3 H1 H2 Hw. by apply H2, H1.
Qed.

Lemma storeDocumentMetadata_wf metadata : preserves wf_kept (storeDocumentMetadata metadata).
Proof.
  intros w r w'. rewrite storeDocumentMetadata_run. cbv zeta.
  intros [= _ <-] [Hids Hrows Hfresh]. split; simpl; [done| |].
  - intros id r0. destruct (decide (id = table_id (next_id w))) as [->|Hne].
    + rewrite lookup_insert_eq. by intros [= <-].
    + rewrite lookup_insert_ne by done. apply Hrows.
  - intros n Hn. rewrite lookup_insert_ne; [apply Hfresh; lia|].
    intros Heq%js_of_nat_inj. lia.
Qed.

Lemma updateDocumentStatus_wf id status additionalData :
  preserves wf_kept (updateDocumentStatus id status additionalData).
Proof.
  intros w r w'. rewrite updateDocumentStatus_run.
  destruct (documents w !! id) as [r0|] eqn:Hr; intros [= _ <-] [Hids Hrows Hfresh];
    [|by split].
  split; simpl; [done| |].
  - intros j r1. destruct (decide (j = id)) as [->|Hne].
    + rewrite lookup_insert_eq. intros [= <-]. simpl. by apply Hrows.
    + rewrite lookup_insert_ne by done. apply Hrows.
  - intros n Hn. rewrite lookup_insert_ne; [by apply Hfresh|].
    intros ->. by rewrite Hfresh in Hr.
Qed.

Lemma uploadToStorage_wf file c id : preserves wf_kept (uploadToStorage file c id).
Proof.
  intros w r w'. rewrite uploadToStorage_run. cbv zeta.
  destruct (storage w !! _); intros [= _ <-] [? ? ?]; by split.
Qed.

Lemma storage_remove_wf key : preserves (E:=text) wf_kept (storage_remove key).
Proof. intros w r w' [= _ <-] [? ? ?]. by split. Qed.

Lemma table_delete_wf id c : preserves wf_kept (table_delete id c).
Proof.
  intros w r w'. unfold table_delete.
  destruct (table_select_single id c w); intros [= _ <-] [Hids Hrows Hfresh]; [|by split].
  split; simpl; [done| |].
  - intros j r1 [_ ?]%lookup_delete_Some. by apply Hrows.
  - intros n Hn. apply lookup_delete_None. right. by apply Hfresh.
Qed.

Section wf.
Context `{Providers}.

Lemma extractText_wf file : preserves wf_kept (extractText file).
Proof.
  eapply preserves_weaken; [|apply extractText_same_stores].
  intros w w' Hs Hw. eapply wf_world_same_data; [by apply same_stores_data|done].
Qed.

Lemma storeDocumentChunks_wf_kept c id chunks md :
  preserves wf_kept (storeDocumentChunks c id chunks md).
Proof. intros w r w' Hrun Hw. by eapply storeDocumentChunks_wf. Qed.

Lemma deleteDocumentChunks_wf_kept c id : preserves wf_kept (deleteDocumentChunks c id).
Proof.
  intros w r w' Hrun Hw. apply (f_equal snd) in Hrun. simpl in Hrun. subst w'.
  by apply deleteDocumentChunks_wf.
Qed.

#[local] Hint Resolve storeDocumentMetadata_wf updateDocumentStatus_wf uploadToStorage_wf
  storage_remove_wf table_delete_wf extractText_wf storeDocumentChunks_wf_kept
  deleteDocumentChunks_wf_kept : rag.

Lemma validateFile_wf svc file : preserves wf_kept (validateFile svc file).
Proof.
  intros w r w' Hrun Hw. apply (f_equal snd) in Hrun. simpl in Hrun.
  by rewrite validateFile_world in Hrun; subst w'.
Qed.

Lemma processDocument_wf svc file companyId userId :
  preserves wf_kept (processDocument svc file companyId userId).
Proof.
  pose proof (validateFile_wf svc file) as Hv.
  unfold processDocument, process_valid. solve_preserves.
Qed.

Lemma reprocessDocument_wf id companyId : preserves wf_kept (reprocessDocument id companyId).
Proof. unfold reprocessDocument, reprocess_body. solve_preserves. Qed.

Lemma deleteDocument_wf id companyId : preserves wf_kept (deleteDocument id companyId).
Proof. unfold deleteDocument. solve_preserves. Qed.

(** The three operations of the document service keep the world well
    formed, whether they return or throw: record ids stay pairwise distinct,
    every row is stored under its own id, and the ids the table has yet to
    assign are free. *)
Theorem document_operations_preserve_wf svc file id companyId userId w :
  wf_world w →
  wf_world (processDocument svc file companyId userId w).2
  ∧ wf_world (reprocessDocument id companyId w).2
  ∧ wf_world (deleteDocument id companyId w).2.
Proof.
  intros Hw. split; [|split].
  - eapply processDocument_wf; [apply surjective_pairing|done].
  - eapply reprocessDocument_wf; [apply surjective_pairing|done].
  - eapply deleteDocument_wf; [apply surjective_pairing|done].
Qed.

End wf.

(** ** Reading the table *)

Lemma foldl_row_sum f l a :
  foldl (λ sum d, sum + f d) a l = a + row_sum f l.
Proof.
  revert a. induction l as [|d l IH]; intros a; simpl; [lia|]. rewrite IH. lia.
Qed.

Lemma count_status_partition data :
  js_length data
  = count_status Processed data + count_status Processing data + count_status Failed data.
Proof.
  unfold count_status, js_length. induction data as [|d data IH]; [done|].
  rewrite !filter_cons. destruct (row_status d); simpl;
    repeat (case_decide; try done); simpl length; lia.
Qed.

(** The statistics of a company are computed from its rows alone and
    change nothing: every row counts once, under its status, so the three
    counts add up to the total; the sizes and the chunk counts are summed, a
    row without a chunk count counting for zero. *)
Theorem table_stats_of_rows companyId w :
  let data := table_select_company companyId w in
  ∃ stats, documentService_getDocumentStats companyId w = (Ok stats, w)
    ∧ total_documents stats = js_length data
    ∧ total_documents stats
      = processed_documents stats + processing_documents stats + failed_documents stats
    ∧ total_size stats = row_sum row_file_size data
    ∧ total_table_chunks stats = row_sum (λ d, default 0 (row_chunk_count d)) data.
Proof.
  cbv zeta. eexists. split; [reflexivity|]. simpl.
  split; [done|]. split; [apply count_status_partition|].
  by rewrite !foldl_row_sum.
Qed.

Lemma newer_total : Total (λ x y, newer x y = true).
Proof.
  intros x y. unfold newer. destruct (N.leb_spec (row_created_at y) (row_created_at x));
    [by left|right]. apply N.leb_le. lia.
Qed.

(** [getDocuments] returns a page of the company's rows and changes
    nothing: at most [limit] rows, each a row of the table that belongs to
    the company, the most recently created first. *)
Theorem getDocuments_page companyId limit offset w :
  ∃ rows, getDocuments companyId limit offset w = (Ok rows, w)
    ∧ Z.of_nat (length rows) ≤ Z.max limit 0
    ∧ Forall (λ r, row_company_id r = companyId
                   ∧ ∃ id, documents w !! id = Some r) rows
    ∧ Sorted (λ a b, (row_created_at b ≤ row_created_at a)%N) rows.
Proof.
  eexists. split; [reflexivity|]. split; [rewrite length_take; lia|]. split.
  - apply Forall_take, Forall_drop, js_sort_by_Forall, Forall_forall.
    intros r [Hc Hr]%list_elem_of_filter. split; [done|].
    apply list_elem_of_fmap in Hr as ([id r'] & -> & Hr).
    exists id. by apply elem_of_map_to_list.
  - apply Sorted_take, Sorted_drop.
    eapply Sorted_impl; [|apply js_sort_by_sorted, newer_total].
    intros a b Hab. by apply N.leb_le.
Qed.

(** ** A reprocess that returns *)

Section reprocess_ok.
Context `{Providers}.

(** What a reprocess that returned has done. *)
Lemma reprocessDocument_ok_inv id companyId w b w' :
  reprocessDocument id companyId w = (Ok b, w') →
  ∃ r extractedText docs r',
    table_select_single id companyId w = Some r
    ∧ stored_chunks companyId id
        (chunk_metadata (row_filename r) (row_file_type r) (row_file_url r))
        (ragService_chunkText extractedText) docs
    ∧ filter (in_document companyId id) (collection w') = docs
    ∧ documents w' !! id = Some r'
    ∧ row_status r' = Processed
    ∧ row_chunk_count r' = Some (js_length (ragService_chunkText extractedText))
    ∧ row_content_length r' = js_length extractedText
    ∧ storage w' = storage w.
Proof.
  intros [(b' & Hbody & _)|(e & w1 & _ & Hcatch)]%try_catch_inv; last first.
  { apply bind_inv in Hcatch as [(? & _ & ?)|(? & ? & _ & ?)]; done. }
  unfold reprocess_body in Hbody. prog_ok_inv Hbody.
  apply mret_inv in Hbody as [_ ->].
  injection Hrun as <- <-. apply of_option_ok_inv in Hrun0 as [Hsel ->].
  injection Hrun1 as <- <-. apply of_option_ok_inv in Hrun2 as [_ ->].
  apply extractText_same_stores in Hrun3 as (Hc3 & _ & Hs3 & _).
  rewrite updateDocumentStatus_run in Hrun4.
  destruct (documents w4 !! id); [|done]. injection Hrun4 as _ <-.
  rewrite deleteDocumentChunks_run in Hrun5. injection Hrun5 as _ <-.
  apply storeDocumentChunks_effect in Hrun6
    as (Hd7 & Hs7 & _ & docs & Hc7 & Hin & Hok & _).
  destruct (Hok _ eq_refl) as [_ Hdocs]. simpl in Hd7, Hs7, Hc7.
  rewrite updateDocumentStatus_run, Hd7, lookup_insert_eq in Hrun7.
  injection Hrun7 as _ <-. simpl.
  eexists a0, a3, docs, _. rewrite lookup_insert_eq, Hs7, Hc7, <- Hs3.
  repeat (split; [done|]). split; [|done].
  rewrite filter_app, filter_filter_none, (filter_all _ docs) by done. done.
Qed.

(** When [reprocessDocument] returns, the records of the document
    hold exactly the chunks of the text extracted anew, in order (the old
    ones are gone, none is kept twice), the row is [processed] with their
    number and the new content length, and the stored file is untouched. *)
Theorem reprocessDocument_replaces_chunks id companyId w b w' :
  reprocessDocument id companyId w = (Ok b, w') →
  ∃ extractedText r',
    content <$> filter (in_document companyId id) (collection w')
    = ragService_chunkText extractedText
    ∧ documents w' !! id = Some r'
    ∧ row_status r' = Processed
    ∧ row_chunk_count r' = Some (js_length (ragService_chunkText extractedText))
    ∧ row_content_length r' = js_length extractedText
    ∧ storage w' = storage w.
Proof.
  intros (r & txt & docs & r' & _ & Hdocs & Hfilter & Hrest)%reprocessDocument_ok_inv.
  exists txt, r'. split; [|done].
  rewrite Hfilter. by eapply stored_chunks_contents.
Qed.

End reprocess_ok.

(** ** The theorems at work on the small world *)

Section examples.
#[local] Existing Instance toy_providers.

Lemma getFileExtension_of_name_witness :
  getFileExtension (str "Annual Report.PDF") = js_toLowerCase (str "PDF").
Proof.
  apply (getFileExtension_of_name (str "Annual Repor") 116%N (str "PDF")).
  - discriminate.
  - apply (bool_decide_unpack _). vm_compute. exact I.
  - apply (bool_decide_unpack _). vm_compute. exact I.
  - discriminate.
Defined.

Lemma processDocument_rejects_before_effects_witness :
  processDocument documentService
    (Some (UploadFile (str "setup.exe") [] 28 (str "application/octet-stream")))
    acme (str "u1") library_world
  = (Throw (str "Failed to process document: "
            ++ str "File type exe not supported. Allowed types: pdf, docx, txt"),
     library_world).
Proof.
  apply processDocument_rejects_before_effects. vm_compute. reflexivity.
Defined.

Lemma processDocument_success_witness :
  let run := processDocument documentService (Some notes_file) acme (str "u1") empty_world in
  let d := ok_value (ProcessedDocument [] [] Failed 0 0 []) run.1 in
  ∃ f extractedText docs r,
    Some notes_file = Some f
    ∧ pd_id d = table_id (next_id empty_world) ∧ pd_status d = Processed
    ∧ pd_chunk_count d = js_length (ragService_chunkText extractedText)
    ∧ pd_content_length d = js_length extractedText
    ∧ documents run.2 = <[pd_id d := r]> (documents empty_world)
    ∧ row_status r = Processed ∧ row_company_id r = acme
    ∧ row_chunk_count r = Some (pd_chunk_count d)
    ∧ row_file_url r = Some (pd_file_url d)
    ∧ storage empty_world !! storage_key acme (pd_id d) (originalname f) = None
    ∧ storage run.2 = <[storage_key acme (pd_id d) (originalname f)
                        := Blob (buffer f) (mimetype f)]> (storage empty_world)
    ∧ collection run.2 = collection empty_world ++ docs
    ∧ length docs = length (ragService_chunkText extractedText)
    ∧ Forall (in_document acme (pd_id d)) docs.
Proof.
  apply (processDocument_success documentService (Some notes_file) acme (str "u1")
           empty_world).
  vm_compute. reflexivity.
Defined.

Lemma processDocument_failure_leaves_processing_witness :
  let run := processDocument (H:=mute_providers) documentService (Some notes_file)
               acme (str "u1") empty_world in
  same_stores empty_world run.2
  ∨ (status_of (table_id (next_id empty_world)) run.2 = Some Processing
     ∧ (str "Failed to process document: Failed to store document chunks"
        = str "Failed to process document: Failed to upload file to storage"
        ∨ str "Failed to process document: Failed to store document chunks"
          = str "Failed to process document: Failed to store document chunks")).
Proof.
  apply (processDocument_failure_leaves_processing (H:=mute_providers) documentService
           (Some notes_file) acme (str "u1") empty_world).
  vm_compute. reflexivity.
Defined.

Lemma processDocument_frame_witness :
  doc_frame acme (table_id (next_id library_world)) library_world
    (processDocument documentService (Some notes_file) acme (str "u2") library_world).2.
Proof.
  eapply (processDocument_frame documentService (Some notes_file) acme (str "u2")).
  apply surjective_pairing.
Defined.

Lemma reprocessDocument_foreign_document_marked_failed_witness :
  ∃ w', reprocessDocument (str "0") globex library_world
        = (Throw (str "Failed to reprocess document"), w')
    ∧ status_of (str "0") w' = Some Failed
    ∧ documents w'
      = <[str "0" := apply_patch Failed no_patch (clock library_world) library_row]>
          (documents library_world)
    ∧ collection w' = collection library_world ∧ storage w' = storage library_world.
Proof.
  apply reprocessDocument_foreign_document_marked_failed.
  - vm_compute. reflexivity.
  - vm_compute. discriminate.
Defined.

Lemma reprocessDocument_missing_document_witness :
  reprocessDocument (str "5") acme library_world
  = (Throw (str "Failed to update document status"),
     set_clock (clock library_world + 1)%N library_world).
Proof. apply reprocessDocument_missing_document. vm_compute. reflexivity. Defined.

Lemma reprocessDocument_outcome_witness :
  let run := reprocessDocument (str "0") acme library_world in
  status_of (str "0") run.2 ≠ Some Processing
  ∧ ((run.1 = Ok true ∧ status_of (str "0") run.2 = Some Processed)
     ∨ (run.1 = Throw (str "Failed to reprocess document")
        ∧ status_of (str "0") run.2 = Some Failed)).
Proof.
  apply (reprocessDocument_outcome (str "0") acme library_world).
  - vm_compute. by eexists.
  - apply surjective_pairing.
Defined.

Lemma reprocessDocument_replaces_chunks_witness :
  let w' := (reprocessDocument (str "0") acme library_world).2 in
  ∃ extractedText r',
    content <$> filter (in_document acme (str "0")) (collection w')
    = ragService_chunkText extractedText
    ∧ documents w' !! str "0" = Some r'
    ∧ row_status r' = Processed
    ∧ row_chunk_count r' = Some (js_length (ragService_chunkText extractedText))
    ∧ row_content_length r' = js_length extractedText
    ∧ storage w' = storage library_world.
Proof.
  apply (reprocessDocument_replaces_chunks (str "0") acme library_world true).
  vm_compute. reflexivity.
Defined.

Lemma deleteDocument_foreign_document_kept_witness :
  ∃ w', deleteDocument (str "0") globex library_world = (Ok true, w')
    ∧ documents w' = documents library_world ∧ storage w' = storage library_world
    ∧ filter (in_document (row_company_id library_row) (str "0")) (collection w')
      = filter (in_document (row_company_id library_row) (str "0"))
          (collection library_world).
Proof.
  apply (deleteDocument_foreign_document_kept (str "0") globex library_world library_row).
  - vm_compute. reflexivity.
  - vm_compute. discriminate.
Defined.

Lemma document_operations_preserve_wf_witness :
  wf_world (processDocument documentService (Some notes_file) acme (str "u1") empty_world).2
  ∧ wf_world (reprocessDocument (str "0") acme empty_world).2
  ∧ wf_world (deleteDocument (str "0") acme empty_world).2.
Proof. apply document_operations_preserve_wf. exact empty_world_wf. Defined.

End examples.
