(* ===== verification/Lifecycle.v ===== *)
(** * The life of a document, request after request

    [documentService.js] exports three operations that write: the ingest of
    an upload ([processDocument]), [reprocessDocument] and [deleteDocument].
    This file looks at the worlds a sequence of such requests can produce,
    from the empty one: [reachable] is the inductive family of these worlds.
    Two things are proved about every one of them, by induction on the
    sequence: the world is well formed, and it has no orphan record (every
    record of the collection belongs to a document that has a row, of the
    company of the record).  [transition] is the relation between the status
    of a document before and after one request, as the code has it. *)

From Stdlib Require Import ZArith QArith Lia String.
From stdpp Require Import prelude list gmap sorting.
From S2P Require Import Prelude JsString Chunker World AiService Rag Documents.

#[local] Open Scope Z_scope.

(** ** Requests and reachable worlds *)

Inductive request :=
  | Ingest (file : option upload_file) (companyId userId : text)
  | Reprocess (documentId companyId : text)
  | Delete (documentId companyId : text).

(** The world after a request is served, whether it returned or threw. *)
Definition serve `{Providers} (svc : DocumentService) (rq : request) (w : world) : world :=
  match rq with
  | Ingest file companyId userId => (processDocument svc file companyId userId w).2
  | Reprocess documentId companyId => (reprocessDocument documentId companyId w).2
  | Delete documentId companyId => (deleteDocument documentId companyId w).2
  end.

Inductive reachable `{Providers} (svc : DocumentService) : world → Prop :=
  | reachable_empty : reachable svc empty_world
  | reachable_serve w rq : reachable svc w → reachable svc (serve svc rq w).

(** The world after a list of requests, served in order. *)
Definition serve_all `{Providers} (svc : DocumentService) (rqs : list request) (w : world)
    : world :=
  foldl (λ w rq, serve svc rq w) w rqs.

(** ** Invariants *)

(** Every record belongs to a document that has a row, of its company. *)
Definition no_orphans (w : world) : Prop :=
  ∀ x, x ∈ collection w →
    ∃ r, documents w !! document_id x = Some r ∧ row_company_id r = company_id x.

(** The chunk count of a processed document is the number of its records. *)
Definition counts_agree (w : world) : Prop :=
  ∀ id r, documents w !! id = Some r → row_status r = Processed →
    row_chunk_count r
    = Some (js_length (filter (in_document (row_company_id r) id) (collection w))).

(** The row [id], when there is one, stays, with its company and file name. *)
Definition row_stays (id : text) (w w' : world) : Prop :=
  ∀ r, documents w !! id = Some r →
    ∃ r', documents w' !! id = Some r'
          ∧ row_company_id r' = row_company_id r ∧ row_filename r' = row_filename r.

(** ** The status of a document across one request *)

(** What a request can do to the status of document [id]: nothing; an
    ingest registers it, up to [processing] or up to [processed]; a reprocess
    of [id] ends at [processed] or at [failed]; a delete of [id] removes it. *)
Inductive transition (id : text) : request → option doc_status → option doc_status → Prop :=
  | transition_none rq s : transition id rq s s
  | transition_registered file c u :
      transition id (Ingest file c u) None (Some Processing)
  | transition_ingested file c u :
      transition id (Ingest file c u) None (Some Processed)
  | transition_reprocessed c s :
      transition id (Reprocess id c) (Some s) (Some Processed)
  | transition_failed c s :
      transition id (Reprocess id c) (Some s) (Some Failed)
  | transition_deleted c s :
      transition id (Delete id c) (Some s) None.

(** A small history for the examples: an ingest by [acme], a reprocess of
    the document by [globex], a delete by [acme]. *)
Definition history : list request :=
  [Ingest (Some notes_file) acme (str "u1");
   Reprocess (str "0") globex;
   Delete (str "0") acme].

(** ** Facts on rows that stay *)

#[export] Instance row_stays_preorder id : PreOrder (row_stays id).
Proof.
  split.
  - intros w r Hr. eauto.
  - intros w1 w2 w3 H1 H2 r Hr.
    destruct (H1 r Hr) as (r2 & Hr2 & Hc2 & Hf2).
    destruct (H2 r2 Hr2) as (r3 & Hr3 & Hc3 & Hf3).
    exists r3. split; [done|]. split; congruence.
Qed.

Lemma same_data_row_stays id w w' : same_data w w' → row_stays id w w'.
Proof. intros (_ & Hd & _) r Hr. rewrite <- Hd. eauto. Qed.

Lemma updateDocumentStatus_row_stays id status additionalData :
  preserves (row_stays id) (updateDocumentStatus id status additionalData).
Proof.
  intros w r w'. rewrite updateDocumentStatus_run.
  destruct (documents w !! id) as [r0|] eqn:Hr; intros [= _ <-] r1 Hr1; simpl.
  - rewrite lookup_insert_eq. eexists. split; [done|]. by simplify_eq.
  - by rewrite Hr1 in Hr.
Qed.

Section rows.
Context `{Providers}.

Lemma reprocessDocument_row_stays id c : preserves (row_stays id) (reprocessDocument id c).
Proof.
  assert (preserves (row_stays id) (deleteDocumentChunks c id)) as Hdel.
  { intros w r w'. rewrite deleteDocumentChunks_run. intros [= _ <-] r0 Hr0. eauto. }
  assert (∀ chunks md, preserves (row_stays id) (storeDocumentChunks c id chunks md)) as Hst.
  { intros chunks md w r w' (Hd & _)%storeDocumentChunks_effect r0 Hr0.
    rewrite Hd. eauto. }
  assert (∀ f, preserves (row_stays id) (extractText f)) as Hex.
  { intros f. eapply preserves_weaken; [|apply extractText_same_stores].
    intros w w' Hs. by apply same_data_row_stays, same_stores_data. }
  pose proof (updateDocumentStatus_row_stays id) as Hup.
  unfold reprocessDocument, reprocess_body. solve_preserves.
Qed.

End rows.

(** ** What each request does to the rows and the records *)

Section effects.
Context `{Providers}.

(** An ingest writes nothing, or registers one row under the next id, of the
    company of the call, and adds records of that document only. *)
Lemma processDocument_effect svc file c u w r w' :
  processDocument svc file c u w = (r, w') →
  same_data w w'
  ∨ ∃ row docs,
      documents w' = <[table_id (next_id w) := row]> (documents w)
      ∧ row_company_id row = c
      ∧ (row_status row = Processing
         ∨ (row_status row = Processed ∧ row_chunk_count row = Some (js_length docs)))
      ∧ collection w' = collection w ++ docs
      ∧ Forall (in_document c (table_id (next_id w))) docs.
Proof.
  destruct (validateFile svc file w).1 as [[]|e0] eqn:Hv; last first.
  { rewrite (processDocument_rejects_before_effects _ _ _ _ _ _ Hv).
    intros [= _ <-]. by left. }
  pose proof Hv as (f & -> & _)%validateFile_ok.
  rewrite processDocument_run, process_valid_run by done.
  destruct (extractText f w) as [[txt|e1] w1] eqn:He;
    apply extractText_same_stores in He as Hs;
    [|intros [= _ <-]; left; by apply same_stores_data].
  destruct Hs as (Hc & Hd & Hst & Hn & _). cbv zeta. rewrite <- Hn, <- Hc, <- Hd, <- Hst.
  destruct (storage w !! _).
  { intros [= _ <-]. right. eexists _, []. simpl. rewrite app_nil_r. eauto 10. }
  destruct (storeDocumentChunks _ _ _ _ _) as [[n|e2] w4] eqn:Hstore;
    apply storeDocumentChunks_effect in Hstore
      as (Hd4 & _ & _ & docs & Hc4 & Hin & Hok & _);
    simpl in Hd4, Hc4.
  - destruct (Hok n eq_refl) as [_ [Hlen _]].
    rewrite updateDocumentStatus_run, Hd4, lookup_insert_eq. cbv zeta.
    intros [= _ <-]. right. eexists _, docs. simpl.
    rewrite Hc4, insert_insert_eq. unfold js_length. rewrite Hlen. eauto 10.
  - intros [= _ <-]. right. eexists _, docs. rewrite Hd4, Hc4. simpl. eauto 10.
Qed.

(** A reprocess that does not find the document of the company runs the
    [catch] at once. *)
Lemma reprocessDocument_not_selected id c w :
  table_select_single id c w = None →
  reprocessDocument id c w
  = (updateDocumentStatus id Failed no_patch
       ≫= λ _, throw (str "Failed to reprocess document")) w.
Proof.
  intros Hsel. unfold reprocessDocument, try_catch, reprocess_body.
  unfold mbind at 1 2, prog_bind, bind_prog. simpl. by rewrite Hsel.
Qed.

(** A record found after a reprocess was there before, or is a record of
    the document, which the company owns. *)
Lemma reprocessDocument_records id c w r w' x :
  reprocessDocument id c w = (r, w') → x ∈ collection w' →
  x ∈ collection w ∨ (in_document c id x ∧ is_Some (table_select_single id c w)).
Proof.
  intros Hrun Hx. destruct (table_select_single id c w) as [r0|] eqn:Hsel.
  - destruct (decide (in_document c id x)) as [Hin|Hout]; [right; eauto|left].
    pose proof (frame_records _ _ _ _ (reprocessDocument_frame id c _ _ _ Hrun)) as Hf.
    assert (x ∈ filter (λ x, ¬ in_document c id x) (collection w')) as Hx'
      by (by apply list_elem_of_filter).
    rewrite Hf in Hx'. by apply list_elem_of_filter in Hx' as [_ ?].
  - left. rewrite reprocessDocument_not_selected in Hrun by done.
    unfold mbind, prog_bind, bind_prog in Hrun. rewrite updateDocumentStatus_run in Hrun.
    destruct (documents w !! id); injection Hrun as _ <-; done.
Qed.

End effects.

(** ** One request keeps the invariants *)

Section invariants.
Context `{Providers}.

Lemma serve_wf svc rq w : wf_world w → wf_world (serve svc rq w).
Proof.
  intros Hw. destruct rq as [file c u|id c|id c]; simpl.
  - eapply processDocument_wf; [apply surjective_pairing|done].
  - eapply reprocessDocument_wf; [apply surjective_pairing|done].
  - eapply deleteDocument_wf; [apply surjective_pairing|done].
Qed.

Lemma processDocument_no_orphans svc file c u w :
  wf_world w → no_orphans w → no_orphans (processDocument svc file c u w).2.
Proof.
  intros Hwf Hno.
  destruct (processDocument svc file c u w) as [r w'] eqn:Hrun. simpl.
  apply processDocument_effect in Hrun
    as [(Hc & Hd & _)|(row & docs & Hd & Hrow & _ & Hc & Hdocs)].
  { intros x. rewrite <- Hc, <- Hd. apply Hno. }
  intros x. rewrite Hc, Hd. intros [Hx|Hx]%elem_of_app.
  - destruct (Hno x Hx) as (r0 & Hr0 & Hc0). exists r0. split; [|done].
    rewrite lookup_insert_ne; [done|]. intros Heq.
    rewrite <- Heq, (wf_fresh _ Hwf) in Hr0; done.
  - rewrite Forall_forall in Hdocs. destruct (Hdocs x Hx) as [Hxc Hxd].
    exists row. rewrite Hxd, lookup_insert_eq. by rewrite Hxc.
Qed.

Lemma reprocessDocument_no_orphans id c w :
  no_orphans w → no_orphans (reprocessDocument id c w).2.
Proof.
  intros Hno. destruct (reprocessDocument id c w) as [r w'] eqn:Hrun. simpl.
  pose proof (reprocessDocument_frame id c _ _ _ Hrun) as Hframe.
  pose proof (reprocessDocument_row_stays id c _ _ _ Hrun) as Hstays.
  assert (∀ j r0, documents w !! j = Some r0 →
            ∃ r1, documents w' !! j = Some r1 ∧ row_company_id r1 = row_company_id r0)
    as Hrows.
  { intros j r0 Hr0. destruct (decide (j = id)) as [->|Hj].
    - destruct (Hstays r0 Hr0) as (r1 & ? & ? & _). eauto.
    - exists r0. by rewrite (frame_rows _ _ _ _ Hframe). }
  intros x Hx.
  destruct (reprocessDocument_records _ _ _ _ _ _ Hrun Hx) as [Hold|[[Hxc Hxd] [r0 Hsel]]].
  - destruct (Hno x Hold) as (r0 & Hr0 & Hc0).
    destruct (Hrows _ _ Hr0) as (r1 & ? & ?). exists r1. split; [done|congruence].
  - unfold table_select_single in Hsel.
    destruct (documents w !! id) as [r1|] eqn:Hr1; [|done]. simpl in Hsel.
    case_bool_decide as Hc; [|done].
    destruct (Hrows _ _ Hr1) as (r2 & ? & ?). exists r2. rewrite Hxd.
    split; [done|congruence].
Qed.

Lemma deleteDocument_no_orphans id c w :
  no_orphans w → no_orphans (deleteDocument id c w).2.
Proof.
  intros Hno. rewrite deleteDocument_run. cbn [snd]. cbv zeta.
  assert (∀ x, x ∈ filter (λ x, ¬ in_document c id x) (collection w) →
            ¬ in_document c id x
            ∧ ∃ r0, documents w !! document_id x = Some r0
                    ∧ row_company_id r0 = company_id x) as Hrest.
  { intros x [Hout Hx]%list_elem_of_filter. split; [done|]. by apply Hno. }
  destruct (table_select_single id c w) as [r|] eqn:Hsel; intros x Hx; simpl in *;
    apply Hrest in Hx as (Hout & r0 & Hr0 & Hc0); exists r0; (split; [|done]); [|done].
  rewrite lookup_delete_ne; [done|]. intros Heq. apply Hout. split; [|done].
  unfold table_select_single in Hsel. rewrite Heq, Hr0 in Hsel. simpl in Hsel.
  case_bool_decide; [congruence|done].
Qed.

Lemma serve_no_orphans svc rq w :
  wf_world w → no_orphans w → no_orphans (serve svc rq w).
Proof.
  intros Hwf Hno. destruct rq as [file c u|id c|id c]; simpl.
  - by apply processDocument_no_orphans.
  - by apply reprocessDocument_no_orphans.
  - by apply deleteDocument_no_orphans.
Qed.

(** The records of one document are not among those an operation on another
    document may touch. *)
Lemma in_document_filter_rest c id cj j (l : list chunk_doc) :
  j ≠ id ∨ cj ≠ c →
  filter (in_document cj j) (filter (λ x, ¬ in_document c id x) l)
  = filter (in_document cj j) l.
Proof.
  intros Hne. rewrite list_filter_filter. apply list_filter_iff.
  intros x. unfold in_document. split; [by intros [? _]|].
  intros [Hc Hd]. split; [done|]. intros [Hc' Hd']. destruct Hne; congruence.
Qed.

Lemma in_document_frame c id cj j w w' :
  doc_frame c id w w' → j ≠ id ∨ cj ≠ c →
  filter (in_document cj j) (collection w') = filter (in_document cj j) (collection w).
Proof.
  intros Hframe Hne. rewrite <- (in_document_filter_rest c id cj j (collection w')) by done.
  rewrite (frame_records _ _ _ _ Hframe). by apply in_document_filter_rest.
Qed.

Lemma processDocument_counts_agree svc file c u w :
  wf_world w → no_orphans w → counts_agree w →
  counts_agree (processDocument svc file c u w).2.
Proof.
  intros Hwf Hno Hcount.
  destruct (processDocument svc file c u w) as [r w'] eqn:Hrun. simpl.
  apply processDocument_effect in Hrun
    as [(Hc & Hd & _)|(row & docs & Hd & Hrow & Hst & Hc & Hdocs)].
  { intros id r0. rewrite <- Hc, <- Hd. apply Hcount. }
  pose proof (wf_fresh _ Hwf (next_id w) (le_n _)) as Hfresh.
  intros id r0. rewrite Hd, Hc, filter_app.
  destruct (decide (id = table_id (next_id w))) as [->|Hne].
  - rewrite lookup_insert_eq. intros [= <-] Hproc.
    destruct Hst as [?|[_ ->]]; [congruence|].
    rewrite (filter_none _ (collection w)), (filter_all _ docs); [done|by rewrite Hrow|].
    apply Forall_forall. intros x Hx [_ Hxd]. destruct (Hno x Hx) as (r1 & Hr1 & _).
    by rewrite Hxd, Hfresh in Hr1.
  - rewrite lookup_insert_ne by done. intros Hr0 Hproc.
    rewrite (filter_none _ docs), app_nil_r; [by apply Hcount|].
    eapply Forall_impl; [done|]. intros x [_ Hxd] [_ Hxd']. congruence.
Qed.

Lemma reprocessDocument_counts_agree id c w :
  counts_agree w → counts_agree (reprocessDocument id c w).2.
Proof.
  intros Hcount. destruct (reprocessDocument id c w) as [r w'] eqn:Hrun. simpl.
  pose proof (reprocessDocument_frame id c _ _ _ Hrun) as Hframe.
  pose proof (reprocessDocument_row_stays id c _ _ _ Hrun) as Hstays.
  intros j r1 Hr1 Hproc. destruct (decide (j = id)) as [->|Hj].
  - destruct r as [b|e].
    + apply reprocessDocument_ok_inv in Hrun
        as (r0 & txt & docs & r' & Hsel & Hdocs & Hfilter & Hr' & _ & Hn & _).
      unfold table_select_single in Hsel.
      destruct (documents w !! id) as [r2|] eqn:Hr2; [|done]. simpl in Hsel.
      case_bool_decide as Hc; [|done].
      destruct (Hstays r2 Hr2) as (r3 & Hr3 & Hc3 & _).
      assert (r1 = r') as -> by congruence.
      assert (row_company_id r' = c) as -> by congruence.
      rewrite Hn, Hfilter. unfold js_length. by rewrite (proj1 Hdocs).
    + destruct (documents w !! id) as [r0|] eqn:Hr0.
      * destruct (reprocessDocument_status id c w _ _ ltac:(by eexists) Hrun)
          as [[? _]|[_ Hs]]; [done|].
        unfold status_of in Hs. rewrite Hr1 in Hs. simpl in Hs. congruence.
      * rewrite reprocessDocument_not_selected in Hrun
          by (unfold table_select_single; by rewrite Hr0).
        unfold mbind, prog_bind, bind_prog in Hrun.
        rewrite updateDocumentStatus_run, Hr0 in Hrun. injection Hrun as _ <-.
        simpl in Hr1. congruence.
  - rewrite (frame_rows _ _ _ _ Hframe) in Hr1 by done.
    rewrite (in_document_frame c id _ j w w' Hframe) by (by left). by apply Hcount.
Qed.

Lemma deleteDocument_counts_agree id c w :
  counts_agree w → counts_agree (deleteDocument id c w).2.
Proof.
  intros Hcount. rewrite deleteDocument_run. cbn [snd]. cbv zeta.
  destruct (table_select_single id c w) as [r|] eqn:Hsel; intros j r1; simpl.
  - intros [Hj Hr1]%lookup_delete_Some Hproc.
    rewrite in_document_filter_rest by (by left). by apply Hcount.
  - intros Hr1 Hproc. rewrite in_document_filter_rest; [by apply Hcount|].
    destruct (decide (j = id)) as [->|Hj]; [right|by left].
    unfold table_select_single in Hsel. rewrite Hr1 in Hsel. simpl in Hsel.
    by case_bool_decide.
Qed.

Lemma serve_counts_agree svc rq w :
  wf_world w → no_orphans w → counts_agree w → counts_agree (serve svc rq w).
Proof.
  intros Hwf Hno Hcount. destruct rq as [file c u|id c|id c]; simpl.
  - by apply processDocument_counts_agree.
  - by apply reprocessDocument_counts_agree.
  - by apply deleteDocument_counts_agree.
Qed.

Lemma reachable_world_ok svc w :
  reachable svc w → wf_world w ∧ no_orphans w ∧ counts_agree w.
Proof.
  induction 1 as [|w rq _ (Hwf & Hno & Hcount)].
  - split; [apply empty_world_wf|]. split; [by intros x Hx%elem_of_nil|].
    intros id r Hr. simpl in Hr. by rewrite lookup_empty in Hr.
  - split; [by apply serve_wf|]. split; [by apply serve_no_orphans|].
    by apply serve_counts_agree.
Qed.

(** C11: every world the document service can reach from the empty one,
    by any sequence of ingests, reprocesses and deletes, returning or
    throwing, is well formed, has no orphan record (each record of the
    collection belongs to a document that has a row, of the record's
    company), and the chunk count of every processed document is the number
    of its records in the collection. *)
Theorem reachable_invariants svc w :
  reachable svc w → wf_world w ∧ no_orphans w ∧ counts_agree w.
Proof. apply reachable_world_ok. Qed.

Lemma serve_all_reachable svc rqs w : reachable svc w → reachable svc (serve_all svc rqs w).
Proof.
  revert w. induction rqs as [|rq rqs IH]; intros w Hw; [done|].
  simpl. apply IH. by constructor.
Qed.

End invariants.

(** ** The status of a document, request by request *)

Section transitions.
Context `{Providers}.

Lemma status_of_same_documents id w w' :
  documents w' = documents w → status_of id w' = status_of id w.
Proof. unfold status_of. by intros ->. Qed.

Lemma ingest_transition svc file c u w id :
  wf_world w →
  transition id (Ingest file c u) (status_of id w)
    (status_of id (processDocument svc file c u w).2).
Proof.
  intros Hwf. destruct (processDocument svc file c u w) as [r w'] eqn:Hrun. simpl.
  apply processDocument_effect in Hrun as [(_ & Hd & _)|(row & docs & Hd & _ & Hs & _)].
  { rewrite (status_of_same_documents id w w') by done. constructor. }
  unfold status_of. rewrite Hd. destruct (decide (id = table_id (next_id w))) as [->|Hne].
  - rewrite lookup_insert_eq, (wf_fresh _ Hwf) by done. simpl.
    destruct Hs as [-> | [-> _]]; constructor.
  - rewrite lookup_insert_ne by done. constructor.
Qed.

Lemma reprocess_transition id' c w id :
  transition id (Reprocess id' c) (status_of id w)
    (status_of id (reprocessDocument id' c w).2).
Proof.
  destruct (reprocessDocument id' c w) as [r w'] eqn:Hrun. simpl.
  destruct (decide (id = id')) as [->|Hne]; last first.
  { unfold status_of.
    rewrite (frame_rows _ _ _ _ (reprocessDocument_frame id' c _ _ _ Hrun)) by done.
    constructor. }
  destruct (documents w !! id') as [r0|] eqn:Hr0.
  - destruct (reprocessDocument_status id' c w r w') as [[_ ->]|[_ ->]]; [by eexists|done| |];
      unfold status_of; rewrite Hr0; constructor.
  - rewrite reprocessDocument_not_selected in Hrun
      by (unfold table_select_single; by rewrite Hr0).
    unfold mbind, prog_bind, bind_prog in Hrun.
    rewrite updateDocumentStatus_run, Hr0 in Hrun. injection Hrun as _ <-.
    unfold status_of. simpl. rewrite Hr0. constructor.
Qed.

Lemma delete_transition id' c w id :
  transition id (Delete id' c) (status_of id w) (status_of id (deleteDocument id' c w).2).
Proof.
  rewrite deleteDocument_run. cbn [snd]. cbv zeta.
  destruct (table_select_single id' c w) as [r0|] eqn:Hsel; [|constructor].
  unfold status_of. simpl. destruct (decide (id = id')) as [->|Hne].
  - rewrite lookup_delete_eq. unfold table_select_single in Hsel.
    destruct (documents w !! id'); [constructor|done].
  - rewrite lookup_delete_ne by done. constructor.
Qed.

(** C18: between two requests the status of a document moves as
    [transition] says and in no other way: an ingest registers a new document
    and leaves every other alone; a reprocess ends at [processed] or
    [failed]; a delete removes the row; nothing else changes a status. *)
Theorem serve_transition svc rq w id :
  wf_world w → transition id rq (status_of id w) (status_of id (serve svc rq w)).
Proof.
  intros Hwf. destruct rq as [file c u|id' c|id' c]; simpl.
  - by apply ingest_transition.
  - apply reprocess_transition.
  - apply delete_transition.
Qed.

(** A document becomes [failed] only through a [reprocessDocument]
    called with its id: no ingest and no delete marks a document failed, its
    own included. *)
Theorem failed_only_by_reprocess svc rq w id :
  wf_world w →
  status_of id (serve svc rq w) = Some Failed → status_of id w ≠ Some Failed →
  ∃ c, rq = Reprocess id c.
Proof.
  intros Hwf Hafter Hbefore.
  destruct rq as [file c u|id' c|id' c]; simpl in Hafter.
  - pose proof (ingest_transition svc file c u w id Hwf) as Ht.
    rewrite Hafter in Ht. inversion Ht; congruence.
  - pose proof (reprocess_transition id' c w id) as Ht.
    rewrite Hafter in Ht. inversion Ht; subst; [congruence|eauto].
  - pose proof (delete_transition id' c w id) as Ht.
    rewrite Hafter in Ht. inversion Ht; congruence.
Qed.

End transitions.

(** ** The theorems at work on the small history *)

Section examples.
#[local] Existing Instance toy_providers.

Lemma library_world_wf : wf_world library_world.
Proof.
  eapply processDocument_wf; [apply surjective_pairing|apply empty_world_wf].
Qed.

Lemma reachable_invariants_witness :
  wf_world (serve_all documentService history empty_world)
  ∧ no_orphans (serve_all documentService history empty_world)
  ∧ counts_agree (serve_all documentService history empty_world).
Proof.
  apply (reachable_invariants documentService).
  apply serve_all_reachable. constructor.
Defined.

Lemma serve_transition_witness :
  transition (str "0") (Reprocess (str "0") globex)
    (status_of (str "0") library_world)
    (status_of (str "0") (serve documentService (Reprocess (str "0") globex) library_world)).
Proof. apply serve_transition. exact library_world_wf. Defined.

Lemma failed_only_by_reprocess_witness :
  ∃ c, Reprocess (str "0") globex = Reprocess (str "0") c.
Proof.
  apply (failed_only_by_reprocess documentService _ library_world).
  - exact library_world_wf.
  - vm_compute. reflexivity.
  - vm_compute. discriminate.
Defined.

End examples.
