(* ===== verification/Typing.v ===== *)
(** * Typed records: what every stored record looks like

    [ragService.js] builds the records of the collection in one place, the
    first loop of [storeDocumentChunks], and no operation edits a record
    once it is stored: records are appended ([insertMany]) and removed
    ([deleteMany]).  So what holds of a record when it is built holds of
    every record of every reachable world.  [record_typed] is that type: the
    vector has the dimension of the embedding model (this is where
    [ProvidersOk] is used), the index is a natural number, the id is the one
    derived from the document and the index, and the metadata carries the
    size of the content and a creation time.

    The consequence for a search is [search_compares_equal_dimensions]: the
    similarity is only ever computed between two vectors of the same
    dimension. *)

From Stdlib Require Import ZArith QArith Lia String.
From stdpp Require Import prelude list gmap sorting.
From S2P Require Import Prelude JsString Chunker World AiService Rag Documents Lifecycle.

#[local] Open Scope Z_scope.

(** ** The type of a record *)

Record record_typed `{Providers} (x : chunk_doc) : Prop := RecordTyped {
  typed_vector : length (vector x) = embedding_dim;
  typed_index : 0 ≤ chunk_index x;
  typed_id : _id x = chunk_id (document_id x) (Z.to_nat (chunk_index x));
  typed_size : metadata x !! str "chunk_size" = Some (JNum (js_length (content x)));
  typed_created : ∃ t, metadata x !! str "created_at" = Some (JNum t) ∧ 0 ≤ t
}.

Definition typed_world `{Providers} (w : world) : Prop :=
  Forall record_typed (collection w).

(** The records that satisfy [P] in [w] are joined in [w'] only by records
    that satisfy [P]. *)
Definition records_kept (P : chunk_doc → Prop) (w w' : world) : Prop :=
  Forall P (collection w) → Forall P (collection w').

(** A query as long as the one chunk of [library_world]. *)
Definition note_query : text := str "Hello world. This is a note?".

(** The toy providers keep the promise of [ProvidersOk]. *)
#[export] Instance toy_providers_ok : @ProvidersOk toy_providers.
Proof.
  split. intros tr m t v. simpl. case_decide; [done|]. by intros [= <-].
Qed.

(** ** Records that are kept *)

#[export] Instance records_kept_preorder P : PreOrder (records_kept P).
Proof.
  split; [intros w Hw; exact Hw|]. intros w1 w2 w3 H1 H2 Hw. by apply H2, H1.
Qed.

Lemma same_collection_kept P w w' : collection w' = collection w → records_kept P w w'.
Proof. unfold records_kept. by intros ->. Qed.

Lemma same_data_kept P w w' : same_data w w' → records_kept P w w'.
Proof. intros (Hc & _). by apply same_collection_kept. Qed.

Section kept.
Context (P : chunk_doc → Prop).

Lemma storeDocumentMetadata_kept metadata :
  preserves (records_kept P) (storeDocumentMetadata metadata).
Proof.
  intros w r w'. rewrite storeDocumentMetadata_run. cbv zeta.
  intros [= _ <-]. by apply same_collection_kept.
Qed.

Lemma updateDocumentStatus_kept id status additionalData :
  preserves (records_kept P) (updateDocumentStatus id status additionalData).
Proof.
  intros w r w'. rewrite updateDocumentStatus_run.
  destruct (documents w !! id); intros [= _ <-]; by apply same_collection_kept.
Qed.

Lemma uploadToStorage_kept file c id :
  preserves (records_kept P) (uploadToStorage file c id).
Proof.
  intros w r w'. rewrite uploadToStorage_run. cbv zeta.
  destruct (storage w !! _); intros [= _ <-]; by apply same_collection_kept.
Qed.

Lemma storage_remove_kept key : preserves (E:=text) (records_kept P) (storage_remove key).
Proof. intros w r w' [= _ <-]. by apply same_collection_kept. Qed.

Lemma table_delete_kept id c : preserves (records_kept P) (table_delete id c).
Proof.
  intros w r w'. unfold table_delete.
  destruct (table_select_single id c w); intros [= _ <-]; by apply same_collection_kept.
Qed.

Lemma deleteDocumentChunks_kept c id : preserves (records_kept P) (deleteDocumentChunks c id).
Proof.
  intros w r w'. rewrite deleteDocumentChunks_run. intros [= _ <-] Hw. simpl.
  by apply Forall_filter_keep.
Qed.

Lemma validateFile_kept svc file : preserves (records_kept P) (validateFile svc file).
Proof.
  intros w r w' Hrun. apply (f_equal snd) in Hrun. simpl in Hrun.
  rewrite validateFile_world in Hrun. by subst w'.
Qed.

End kept.

(** ** The records [storeDocumentChunks] builds *)

Section built.
Context `{Providers}.

(** Every object the first loop returns is built from an answer of the
    embedding provider to the chunk. *)
Lemma embed_chunks_built (P : chunk_doc → Prop) c d chunks md w docs w' :
  (∀ i chunk tr v ts, embeddings_create tr embedding_model chunk = Some v →
     P (make_chunk_doc c d md i chunk v ts)) →
  embed_chunks c d chunks md w = (Ok docs, w') → Forall P docs.
Proof.
  intros HP Hrun.
  eapply (for_each_Forall2 _ (λ _ doc, P doc)) in Hrun.
  - clear -Hrun. induction Hrun; by constructor.
  - intros [i chunk] w0 y w1 _. rewrite embed_chunk_run. simpl.
    destruct (embeddings_create _ _ _) eqn:He; [|done]. intros [= <- _]. eauto.
Qed.

(** Whatever its outcome, a call adds only records that were built so. *)
Lemma storeDocumentChunks_kept (P : chunk_doc → Prop) c d chunks md :
  (∀ i chunk tr v ts, embeddings_create tr embedding_model chunk = Some v →
     P (make_chunk_doc c d md i chunk v ts)) →
  preserves (records_kept P) (storeDocumentChunks c d chunks md).
Proof.
  intros HP w r w' [(e & He & _)|(docs & w1 & r1 & He & Hi & _)]%storeDocumentChunks_inv.
  - by eapply same_data_kept, embed_chunks_same_data.
  - pose proof (embed_chunks_built P _ _ _ _ _ _ _ HP He) as Hdocs.
    apply embed_chunks_same_data in He as (Hc & _).
    apply insert_batches_inv in Hi as [(k & ->) _]. intros Hw. simpl.
    rewrite <- Hc. apply Forall_app. split; [done|]. by apply Forall_take.
Qed.

End built.

(** ** Every reachable world is typed *)

Section typed.
Context `{ProvidersOk}.

Lemma make_chunk_doc_typed c d md i chunk tr v ts :
  embeddings_create tr embedding_model chunk = Some v →
  record_typed (make_chunk_doc c d md i chunk v ts).
Proof.
  intros Hv. split; simpl.
  - by eapply embeddings_create_dim.
  - lia.
  - by rewrite Nat2Z.id.
  - by rewrite lookup_insert_eq.
  - exists (Z.of_N ts). rewrite lookup_insert_ne by done.
    rewrite lookup_insert_eq. split; [done|lia].
Qed.

Lemma storeDocumentChunks_typed c d chunks md :
  preserves (records_kept record_typed) (storeDocumentChunks c d chunks md).
Proof. apply storeDocumentChunks_kept. intros. by eapply make_chunk_doc_typed. Qed.

Lemma extractText_kept P file : preserves (records_kept P) (extractText file).
Proof.
  eapply preserves_weaken; [|apply extractText_same_stores].
  intros w w' Hs. by apply same_data_kept, same_stores_data.
Qed.

#[local] Hint Resolve storeDocumentMetadata_kept updateDocumentStatus_kept
  uploadToStorage_kept storage_remove_kept table_delete_kept deleteDocumentChunks_kept
  validateFile_kept extractText_kept storeDocumentChunks_typed : rag.

Lemma processDocument_typed svc file companyId userId :
  preserves (records_kept record_typed) (processDocument svc file companyId userId).
Proof. unfold processDocument, process_valid. solve_preserves. Qed.

Lemma reprocessDocument_typed id companyId :
  preserves (records_kept record_typed) (reprocessDocument id companyId).
Proof. unfold reprocessDocument, reprocess_body. solve_preserves. Qed.

Lemma deleteDocument_typed id companyId :
  preserves (records_kept record_typed) (deleteDocument id companyId).
Proof. unfold deleteDocument. solve_preserves. Qed.

Lemma updateDocumentChunks_typed c d chunks md :
  preserves (records_kept record_typed) (updateDocumentChunks c d chunks md).
Proof. unfold updateDocumentChunks. solve_preserves. Qed.

Lemma serve_typed svc rq w : typed_world w → typed_world (serve svc rq w).
Proof.
  intros Hw. destruct rq as [file c u|id c|id c]; simpl.
  - eapply processDocument_typed; [apply surjective_pairing|done].
  - eapply reprocessDocument_typed; [apply surjective_pairing|done].
  - eapply deleteDocument_typed; [apply surjective_pairing|done].
Qed.

Lemma reachable_records_typed svc w : reachable svc w → typed_world w.
Proof.
  induction 1 as [|w rq _ IH]; [constructor|by apply serve_typed].
Qed.

(** C12: whatever requests were served, every record of the collection is
    typed: its vector has the dimension of the embedding model, its index is
    not negative, its id is [<document_id>_chunk_<index>], and its metadata
    gives the length of its content as [chunk_size] and a creation time. *)
Theorem reachable_typed svc w : reachable svc w → typed_world w.
Proof. apply reachable_records_typed. Qed.

(** In a typed world a search computes the similarity only between
    vectors of the same dimension: each item returned comes from a stored
    record whose vector is as long as the embedding of the query. *)
Theorem search_compares_equal_dimensions companyId query limit w items w' :
  typed_world w →
  searchRelevantContext companyId query limit w = (Ok items, w') →
  ∃ v, embeddings_create (trace w) embedding_model query = Some v
       ∧ length v = embedding_dim
       ∧ Forall (λ it, ∃ d, d ∈ collection w ∧ length (vector d) = length v
                            ∧ it = to_context (d, similarity v (vector d))) items.
Proof.
  intros Hw. rewrite searchRelevantContext_run.
  destruct (embeddings_create _ _ _) as [v|] eqn:Hv; [|done]. intros [= <- _].
  pose proof (embeddings_create_dim _ _ _ _ Hv) as Hdim.
  exists v. split; [done|]. split; [done|].
  apply Forall_forall. intros it (d & Hd & _ & -> & _)%elem_of_search_spec.
  exists d. split; [done|]. split; [|done].
  rewrite Hdim. by apply (proj1 (Forall_forall _ _) Hw d Hd).
Qed.

End typed.

(** ** The theorems at work *)

Section examples.
#[local] Existing Instance toy_providers.

Lemma library_world_reachable : reachable documentService library_world.
Proof.
  apply (reachable_serve documentService empty_world
           (Ingest (Some notes_file) acme (str "u1"))).
  constructor.
Qed.

Lemma reachable_typed_witness :
  typed_world (serve_all documentService history library_world).
Proof.
  apply (reachable_typed documentService).
  apply serve_all_reachable, library_world_reachable.
Defined.

Lemma search_compares_equal_dimensions_witness :
  ∃ v, embeddings_create (trace library_world) embedding_model (note_query) = Some v
       ∧ length v = embedding_dim
       ∧ Forall (λ it, ∃ d, d ∈ collection library_world ∧ length (vector d) = length v
                            ∧ it = to_context (d, similarity v (vector d)))
           (search_spec acme [28 # 4; 1]%Q 5 (collection library_world)).
Proof.
  apply (search_compares_equal_dimensions acme _ 5 library_world _
           (world_after (searchRelevantContext acme (note_query) 5) library_world)).
  - apply (reachable_records_typed documentService), library_world_reachable.
  - vm_compute. reflexivity.
Defined.

End examples.
