(* ===== verification/Roundtrip.v ===== *)
(** * Round trips of the document service

    What [documentService.js] writes, it reads back.  The file an ingest
    uploads is the file a reprocess downloads; the row an ingest registers is
    the row a reprocess selects; and a delete undoes an ingest.  The file
    states these as theorems on the worlds the service can reach:

    - [uploadToStorage], then [storage_download] of the same key, gives the
      bytes and the content type of the upload;
    - [reprocess_after_ingest]: a reprocess of a text document that was just
      ingested extracts the same text, and leaves the same chunks under the
      same ids, with the same indices (the records are new ones: embeddings
      and creation times are taken again);
    - [delete_after_ingest]: the delete of a document that was just ingested
      gives back the collection, the table and the bucket of before.

    [reprocess_body_run] is the run of a reprocess step by step, once the row
    and the file are known to be there. *)

From Stdlib Require Import ZArith QArith Lia String.
From stdpp Require Import prelude list gmap sorting.
From S2P Require Import Prelude JsString Chunker World AiService Rag.
From S2P Require Import Documents Lifecycle Typing.

#[local] Open Scope Z_scope.

(** ** What identifies a record *)

(** The id, the index and the content: what a record says of the document,
    as opposed to what the providers and the clock said when it was built. *)
Definition record_key (x : chunk_doc) : text * Z * text := (_id x, chunk_index x, content x).

(** The records of a document, in the order of the collection. *)
Definition document_records (companyId documentId : text) (w : world) : list chunk_doc :=
  filter (in_document companyId documentId) (collection w).

(** The file a reprocess rebuilds from the row and the stored bytes. *)
Definition stored_file (r : document_row) (b : blob) : upload_file :=
  {| originalname := row_filename r;
     buffer := blob_bytes b;
     file_size := row_file_size r;
     mimetype := getMimeType (row_file_type r) |}.

(** A second text file, for the examples. *)
Definition memo_file : upload_file :=
  UploadFile (str "memo.txt") (str "A memo of two sentences. The second one.") 40
    (str "text/plain").

(** ** The bucket *)

(** A file that [uploadToStorage] stored is the file
    [storage_download] returns for the key of the company, the document and
    the file name: the same bytes, with the content type of the upload. *)
Theorem uploadToStorage_roundtrip file companyId documentId w url w' :
  uploadToStorage file companyId documentId w = (Ok url, w') →
  storage_download (storage_key companyId documentId (originalname file)) w'
  = Some (Blob (buffer file) (mimetype file))
  ∧ url = getPublicUrl (storage_key companyId documentId (originalname file)).
Proof.
  rewrite uploadToStorage_run. cbv zeta. destruct (storage w !! _); [done|].
  intros [= <- <-]. unfold storage_download. simpl. by rewrite lookup_insert_eq.
Qed.

(** ** A reprocess, step by step *)

Section run.
Context `{Providers}.

Lemma reprocess_body_run id c w r b :
  table_select_single id c w = Some r →
  storage_download (storage_key c id (row_filename r)) w = Some b →
  reprocess_body id c w
  = match extractText (stored_file r b) w with
    | (Throw e, w1) => (Throw e, w1)
    | (Ok extractedText, w1) =>
        match updateDocumentStatus id Processing no_patch w1 with
        | (Throw e, w2) => (Throw e, w2)
        | (Ok _, w2) =>
            let chunks := ragService_chunkText extractedText in
            match storeDocumentChunks c id chunks
                    (chunk_metadata (row_filename r) (row_file_type r) (row_file_url r))
                    (deleteDocumentChunks c id w2).2 with
            | (Throw e, w4) => (Throw e, w4)
            | (Ok _, w4) =>
                match updateDocumentStatus id Processed
                        (StatusPatch (Some (js_length chunks))
                           (Some (js_length extractedText)) None) w4 with
                | (Throw e, w5) => (Throw e, w5)
                | (Ok _, w5) => (Ok true, w5)
                end
            end
        end
    end.
Proof.
  intros Hr Hb. unfold reprocess_body. prog_unfold. rewrite Hr. cbn [ret_prog].
  rewrite Hb. cbn [ret_prog]. fold (stored_file r b).
  destruct (extractText (stored_file r b) w) as [[txt|e] w1]; [|done].
  destruct (updateDocumentStatus _ _ _ w1) as [[r2|e] w2]; [|done].
  rewrite (surjective_pairing (deleteDocumentChunks c id w2)).
  rewrite deleteDocumentChunks_run. cbn [fst snd].
  destruct (storeDocumentChunks _ _ _ _ _) as [[n|e] w4]; [|done].
  by destruct (updateDocumentStatus _ _ _ w4) as [[r5|e] w5].
Qed.

(** The text of a [.txt] file is its bytes, decoded; nothing is called. *)
Lemma extractText_txt file w :
  getFileExtension (originalname file) = str "txt" →
  extractText file w = (Ok (utf8_decode (buffer file)), w).
Proof. unfold extractText. by intros ->. Qed.

End run.

(** ** Facts on the records of a document *)

Lemma stored_chunks_keys c d md chunks docs :
  stored_chunks c d md chunks docs →
  record_key <$> docs = imap (λ i chunk, (chunk_id d i, Z.of_nat i, chunk)) chunks.
Proof.
  intros [Hlen Hdocs]. apply list_eq_same_length with (length docs).
  - by rewrite length_imap.
  - by rewrite length_fmap.
  - intros i x y Hi. rewrite list_lookup_fmap, list_lookup_imap.
    destruct (docs !! i) as [doc|] eqn:Hdoc; [|done]. simpl.
    destruct (Hdocs _ _ Hdoc) as (chunk & v & ts & -> & ->). simpl.
    by intros [= <-] [= <-].
Qed.

Section fresh.
Context `{Providers}.

(** A well-formed world without orphans holds no record of the document the
    table has yet to register. *)
Lemma next_document_has_no_record w x :
  wf_world w → no_orphans w → x ∈ collection w →
  document_id x ≠ table_id (next_id w).
Proof.
  intros Hwf Hno Hx Heq. destruct (Hno x Hx) as (r & Hr & _).
  rewrite Heq, (wf_fresh _ Hwf) in Hr; [done|lia].
Qed.

(** In a typed world, once the records of a document of its company are
    deleted, no record carries an id of the document, provided every record
    of the document was of the company. *)
Lemma fresh_after_delete c id w :
  typed_world w → (∀ x, x ∈ collection w → document_id x = id → company_id x = c) →
  fresh_document id (deleteDocumentChunks c id w).2.
Proof.
  intros Hty Hco x i. rewrite deleteDocumentChunks_run. simpl.
  intros [Hnot Hx]%list_elem_of_filter Hid.
  pose proof (proj1 (Forall_forall _ _) Hty x Hx) as [_ _ Htid _ _].
  rewrite Htid in Hid. apply chunk_id_eq_inv in Hid as [Hd _].
  apply Hnot. split; [by apply Hco|done].
Qed.

End fresh.

(** ** A reprocess that returns *)

Section reprocess.
Context `{ProvidersOk}.

(** In a well-formed, typed world without orphans, the reprocess of a text
    document whose row and file are there returns, provided the embedding
    provider answers for every chunk; the records of the document are then
    the chunks of the stored bytes, decoded. *)
Lemma reprocess_text_document id c w r b :
  wf_world w → no_orphans w → typed_world w →
  table_select_single id c w = Some r →
  storage_download (storage_key c id (row_filename r)) w = Some b →
  getFileExtension (row_filename r) = str "txt" →
  let chunks := ragService_chunkText (utf8_decode (blob_bytes b)) in
  (∀ tr chunk, chunk ∈ chunks → is_Some (embeddings_create tr embedding_model chunk)) →
  ∃ w', reprocessDocument id c w = (Ok true, w')
    ∧ record_key <$> document_records c id w'
      = imap (λ i chunk, (chunk_id id i, Z.of_nat i, chunk)) chunks
    ∧ status_of id w' = Some Processed
    ∧ storage w' = storage w.
Proof.
  intros Hwf Hno Hty Hsel Hb Hext chunks Hemb.
  assert (documents w !! id = Some r ∧ row_company_id r = c) as [Hr Hc].
  { unfold table_select_single in Hsel. destruct (documents w !! id) as [r0|]; [|done].
    simpl in Hsel. case_bool_decide; by simplify_eq. }
  set (md := chunk_metadata (row_filename r) (row_file_type r) (row_file_url r)).
  set (w2 := (updateDocumentStatus id Processing no_patch w).2).
  assert (collection w2 = collection w ∧ storage w2 = storage w
          ∧ is_Some (documents w2 !! id)) as (Hc2 & Hs2 & Hd2).
  { subst w2. rewrite updateDocumentStatus_run, Hr. simpl. by rewrite lookup_insert_eq. }
  destruct (storeDocumentChunks_succeeds c id chunks md (deleteDocumentChunks c id w2).2)
    as [w4 Hstore]; [done| | |].
  { rewrite deleteDocumentChunks_run. simpl. rewrite Hc2. apply filter_ids_NoDup, Hwf. }
  { apply fresh_after_delete; [unfold typed_world; by rewrite Hc2|].
    rewrite Hc2. intros x Hx Hid. destruct (Hno x Hx) as (r0 & Hr0 & <-).
    rewrite Hid, Hr in Hr0. by injection Hr0 as <-. }
  pose proof Hstore as (_ & docs & Hdocs & Hc4 & Hd4 & Hs4)%storeDocumentChunks_returns.
  rewrite deleteDocumentChunks_run in Hc4, Hd4, Hs4. simpl in Hc4, Hd4, Hs4.
  destruct Hd2 as [r2 Hr2]. rewrite <- Hd4 in Hr2.
  eexists. split.
  - unfold reprocessDocument. prog_unfold.
    rewrite (reprocess_body_run id c w r b Hsel Hb), extractText_txt by done.
    rewrite (surjective_pairing (updateDocumentStatus id Processing no_patch w)).
    fold w2. rewrite (updateDocumentStatus_run _ _ _ w) at 1. rewrite Hr. cbn [fst].
    cbv zeta. change (buffer (stored_file r b)) with (blob_bytes b). fold chunks md.
    rewrite Hstore, updateDocumentStatus_run, Hr2. done.
  - simpl. unfold document_records, status_of. simpl. rewrite lookup_insert_eq. simpl.
    rewrite Hc4, Hs4, Hs2, filter_app, filter_filter_none by tauto.
    rewrite (filter_all _ docs) by (by eapply stored_chunks_in_document).
    split; [by eapply stored_chunks_keys|done].
Qed.

End reprocess.

(** ** After an ingest *)

Section after_ingest.
Context `{ProvidersOk}.

(** What an ingest that returned leaves, read back: the row is selected by
    the id and the company, the file is downloaded under the key of the file
    name, and the records of the document are those of the chunks. *)
Lemma processDocument_read_back svc file companyId userId w d w' :
  wf_world w → no_orphans w →
  processDocument svc file companyId userId w = (Ok d, w') →
  ∃ f extractedText r,
    file = Some f ∧ extractText f w = (Ok extractedText, (extractText f w).2)
    ∧ pd_id d = table_id (next_id w)
    ∧ pd_chunk_count d = js_length (ragService_chunkText extractedText)
    ∧ table_select_single (pd_id d) companyId w' = Some r
    ∧ row_filename r = originalname f
    ∧ documents w' = <[pd_id d := r]> (documents w)
    ∧ storage w !! storage_key companyId (pd_id d) (originalname f) = None
    ∧ storage w' = <[storage_key companyId (pd_id d) (originalname f)
                     := Blob (buffer f) (mimetype f)]> (storage w)
    ∧ filter (λ x, ¬ in_document companyId (pd_id d) x) (collection w') = collection w
    ∧ record_key <$> document_records companyId (pd_id d) w'
      = imap (λ i chunk, (chunk_id (pd_id d) i, Z.of_nat i, chunk))
          (ragService_chunkText extractedText).
Proof.
  intros Hwf Hno (f & -> & Hrun)%processDocument_ok_file.
  apply process_valid_ok in Hrun
    as (txt & w1 & docs & t1 & t2 & He & -> & Hd & Hkey & Hs & Hc & Hdocs).
  assert (Forall (λ x, ¬ in_document companyId (table_id (next_id w)) x) (collection w))
    as Hfresh.
  { apply Forall_forall. intros x Hx [_ Hid].
    by eapply next_document_has_no_record. }
  eexists f, txt, _. simpl. rewrite He. split; [done|]. split; [done|].
  split; [done|]. split; [done|]. split.
  { unfold table_select_single. rewrite Hd, lookup_insert_eq. simpl.
    by rewrite bool_decide_eq_true_2. }
  simpl. repeat (split; [done|]). unfold document_records. rewrite Hc, !filter_app.
  pose proof (stored_chunks_in_document _ _ _ _ _ Hdocs) as Hin.
  set (own := in_document companyId (table_id (next_id w))) in *.
  rewrite (filter_all (λ x, ¬ own x) (collection w)), (filter_all own docs) by done.
  rewrite (filter_none (λ x, ¬ own x) docs), (filter_none own (collection w)), app_nil_r.
  - split; [done|]. by eapply stored_chunks_keys.
  - done.
  - eapply Forall_impl; [exact Hin|]. tauto.
Qed.

(** C14: the reprocess of a text document that was just ingested extracts
    the text of the upload again: it returns, and the document has the same
    chunks as before, under the same ids and indices and in the same number;
    the row is [processed] and the stored file is untouched.  It is assumed
    that the embedding provider answers for every chunk. *)
Theorem reprocess_after_ingest svc f companyId userId w d w1 :
  reachable svc w →
  getFileExtension (originalname f) = str "txt" →
  processDocument svc (Some f) companyId userId w = (Ok d, w1) →
  (∀ tr chunk, chunk ∈ ragService_chunkText (utf8_decode (buffer f)) →
     is_Some (embeddings_create tr embedding_model chunk)) →
  ∃ w2, reprocessDocument (pd_id d) companyId w1 = (Ok true, w2)
    ∧ record_key <$> document_records companyId (pd_id d) w2
      = record_key <$> document_records companyId (pd_id d) w1
    ∧ js_length (document_records companyId (pd_id d) w2) = pd_chunk_count d
    ∧ status_of (pd_id d) w2 = Some Processed
    ∧ storage w2 = storage w1.
Proof.
  intros Hw Hext Hrun Hemb.
  assert (reachable svc w1) as Hw1.
  { replace w1 with (serve svc (Ingest (Some f) companyId userId) w)
      by (simpl; by rewrite Hrun).
    by constructor. }
  destruct (reachable_world_ok svc w Hw) as (Hwf & Hno & _).
  destruct (reachable_world_ok svc w1 Hw1) as (Hwf1 & Hno1 & _).
  pose proof (reachable_records_typed svc w1 Hw1) as Hty1.
  apply processDocument_read_back in Hrun
    as (f' & txt & r & [= <-] & He & _ & Hn & Hsel & Hname & _ & _ & Hs & _ & Hkeys);
    [|done..].
  rewrite extractText_txt in He by done. injection He as <-.
  destruct (reprocess_text_document (pd_id d) companyId w1 r
              (Blob (buffer f) (mimetype f))) as (w2 & Hre & Hkeys2 & Hst & Hs2);
    try done.
  { unfold storage_download. by rewrite Hname, Hs, lookup_insert_eq. }
  { by rewrite Hname. }
  exists w2. split; [done|]. split; [by rewrite Hkeys, Hkeys2|].
  split; [|done].
  apply (f_equal length) in Hkeys2. rewrite length_fmap, length_imap in Hkeys2.
  unfold js_length in *. by rewrite Hkeys2, Hn.
Qed.

(** C21: the delete of a document that was just ingested undoes the
    ingest: it returns [true], no record of the document is left, and the
    collection, the table and the bucket are those of before the ingest. *)
Theorem delete_after_ingest svc file companyId userId w d w1 :
  wf_world w → no_orphans w →
  processDocument svc file companyId userId w = (Ok d, w1) →
  ∃ w2, deleteDocument (pd_id d) companyId w1 = (Ok true, w2)
    ∧ document_records companyId (pd_id d) w2 = []
    ∧ collection w2 = collection w ∧ documents w2 = documents w
    ∧ storage w2 = storage w.
Proof.
  intros Hwf Hno Hrun.
  apply processDocument_read_back in Hrun
    as (f & txt & r & _ & _ & Hid & _ & Hsel & Hname & Hd & Hkey & Hs & Hc & _);
    [|done..].
  rewrite deleteDocument_run, Hsel. eexists. split; [done|]. simpl.
  split; [apply filter_filter_none; tauto|].
  rewrite Hc, Hd, Hs, Hname, !delete_insert_id; [done|done|].
  rewrite Hid. apply (wf_fresh _ Hwf). lia.
Qed.

End after_ingest.

(** ** The theorems at work *)

Section examples.
#[local] Existing Instance toy_providers.

Lemma uploadToStorage_roundtrip_witness :
  storage_download (storage_key acme (str "7") (str "memo.txt"))
    (world_after (uploadToStorage memo_file acme (str "7")) library_world)
  = Some (Blob (buffer memo_file) (mimetype memo_file))
  ∧ getPublicUrl (storage_key acme (str "7") (str "memo.txt"))
    = getPublicUrl (storage_key acme (str "7") (originalname memo_file)).
Proof.
  apply (uploadToStorage_roundtrip memo_file acme (str "7") library_world).
  vm_compute. reflexivity.
Defined.

Lemma reprocess_after_ingest_witness :
  ∃ w2, reprocessDocument (str "1") acme
          (world_after (processDocument documentService (Some memo_file) acme (str "u1"))
             library_world) = (Ok true, w2)
    ∧ record_key <$> document_records acme (str "1") w2
      = record_key <$> document_records acme (str "1")
          (world_after (processDocument documentService (Some memo_file) acme (str "u1"))
             library_world)
    ∧ js_length (document_records acme (str "1") w2) = 1
    ∧ status_of (str "1") w2 = Some Processed
    ∧ storage w2
      = storage (world_after (processDocument documentService (Some memo_file) acme
                                (str "u1")) library_world).
Proof.
  apply (reprocess_after_ingest documentService memo_file acme (str "u1") library_world
           (ProcessedDocument (str "1") (str "memo.txt") Processed 1 40
              (getPublicUrl (storage_key acme (str "1") (str "memo.txt"))))).
  - apply library_world_reachable.
  - vm_compute. reflexivity.
  - vm_compute. reflexivity.
  - intros tr chunk Hin. simpl. case_decide as Hnil; [|by eexists].
    subst chunk. vm_compute in Hin. by apply list_elem_of_singleton in Hin.
Defined.

Lemma delete_after_ingest_witness :
  ∃ w2, deleteDocument (str "1") acme
          (world_after (processDocument documentService (Some memo_file) acme (str "u1"))
             library_world) = (Ok true, w2)
    ∧ document_records acme (str "1") w2 = []
    ∧ collection w2 = collection library_world ∧ documents w2 = documents library_world
    ∧ storage w2 = storage library_world.
Proof.
  destruct (reachable_world_ok documentService library_world library_world_reachable)
    as (Hwf & Hno & _).
  apply (delete_after_ingest documentService (Some memo_file) acme (str "u1") library_world
           (ProcessedDocument (str "1") (str "memo.txt") Processed 1 40
              (getPublicUrl (storage_key acme (str "1") (str "memo.txt")))));
    [exact Hwf|exact Hno|vm_compute; reflexivity].
Defined.

End examples.
