(* ===== verification/Interleave.v ===== *)
(** * Requests served at the same time

    The methods of the services are [async]: each [await] hands control back
    to the event loop of Node, and the handler of another request may run
    until its own next [await].  [Lifecycle.v] serves one request after the
    other; this file cuts the three writing operations of
    [documentService.js], and the store and search of [ragService.js], at
    their [await]s and lets a scheduler interleave them.

    - [task]: a method as a tree of atomic steps.  [Await c k] runs the
      program [c], the code up to and including one awaited call, without
      interruption, and goes on as [k] of its outcome; a step that throws
      hands the error to the enclosing [catch] ([task_try]).
    - [storeDocumentChunks_task], [searchRelevantContext_task],
      [process_valid_task], [processDocument_task], [deleteDocument_task],
      [reprocess_body_task], [reprocessDocument_task]: the methods, one step
      per [await] of the source.  A method that awaits one call of a client
      inside its own [try] ([deleteDocumentChunks], [updateDocumentStatus],
      [storeDocumentMetadata], [uploadToStorage], [extractText]) is one step.
      [validateFile] does not await; it is a step of its own here, which
      adds no behaviour since it reads and writes nothing of the world.
    - [complete]: a task run alone, from its first step to its last;
      [task_step], [pool_step], [run_pool]: one step of one task of a pool,
      and a schedule of such steps.

    The theorems: every task, run alone, is the method of [Rag.v] and
    [Documents.v] it was cut from, so a schedule that runs the requests one
    after the other produces the worlds of [Lifecycle.v]; under every
    schedule the world stays well formed and its records typed; and there is
    a schedule of a reprocess and a delete of the same document after which
    the collection holds records of a document that has no row, which a
    search then returns. *)

From Stdlib Require Import ZArith QArith Lia String.
From stdpp Require Import prelude list gmap sorting.
From S2P Require Import Prelude JsString Tasks Chunker World AiService Rag.
From S2P Require Import Documents Lifecycle Typing Roundtrip.

#[local] Open Scope Z_scope.

(** ** The methods, step by step *)

Section methods.
Context `{Providers}.

Definition storeDocumentChunks_task (companyId documentId : text) (chunks : list text)
    (metadata : gmap text jsval) : task world Z :=
  task_try
    (documents ← task_for_each
                   (λ ic : nat * text,
                      atomic (embed_chunk companyId documentId metadata ic.1 ic.2))
                   (imap pair chunks);
     _ ← task_for_each (λ i, atomic (insertMany (js_slice documents i (i + batchSize))))
           (batch_starts (js_length documents));
     Return (js_length documents))
    (λ _, Raise (str "Failed to store document chunks")).

Definition searchRelevantContext_task (companyId query : text) (limit : Z)
    : task world (list context_item) :=
  task_try
    (queryEmbedding ← atomic (generateEmbeddings query);
     results ← atomic (find_similar {| by_company := Some companyId; by_document := None |}
                         queryEmbedding limit);
     Return (js_sort_by by_similarity_desc
               (to_context <$> filter (λ r, above_threshold r = true) results)))
    (λ _, Raise (str "Failed to search relevant context")).

Definition process_valid_task (file : upload_file) (companyId userId : text)
    : task world processed_document :=
  extractedText ← atomic (extractText file);
  documentRecord ← atomic (storeDocumentMetadata
    {| md_company_id := companyId;
       md_user_id := userId;
       md_filename := originalname file;
       md_file_type := getFileExtension (originalname file);
       md_file_size := file_size file;
       md_content_length := js_length extractedText;
       md_status := Processing |});
  fileUrl ← atomic (uploadToStorage file companyId (row_id documentRecord));
  let chunks := ragService_chunkText extractedText in
  _ ← storeDocumentChunks_task companyId (row_id documentRecord) chunks
        (chunk_metadata (originalname file) (getFileExtension (originalname file))
           (Some fileUrl));
  _ ← atomic (updateDocumentStatus (row_id documentRecord) Processed
        {| patch_chunk_count := Some (js_length chunks);
           patch_content_length := None;
           patch_file_url := Some fileUrl |});
  Return {| pd_id := row_id documentRecord;
            pd_filename := originalname file;
            pd_status := Processed;
            pd_chunk_count := js_length chunks;
            pd_content_length := js_length extractedText;
            pd_file_url := fileUrl |}.

Definition processDocument_task (svc : DocumentService) (file : option upload_file)
    (companyId userId : text) : task world processed_document :=
  task_try
    (_ ← atomic (validateFile svc file);
     match file with
     | Some f => process_valid_task f companyId userId
     | None => Raise (str "Cannot read properties of undefined (reading 'originalname')")
     end)
    (λ message, Raise (str "Failed to process document: " ++ message)).

Definition deleteDocument_task (documentId companyId : text) : task world bool :=
  task_try
    (_ ← atomic (deleteDocumentChunks companyId documentId);
     document ← atomic (w ← get_world; mret (table_select_single documentId companyId w));
     _ ← match document with
         | Some document =>
             atomic (storage_remove (storage_key companyId documentId (row_filename document)))
         | None => Return tt
         end;
     _ ← atomic (table_delete documentId companyId);
     Return true)
    (λ _, Raise (str "Failed to delete document")).

(** The [try] of [reprocessDocument] up to the deletion of the old
    records: what it goes on with is the row it read and the text. *)
Definition reprocess_head_task (documentId companyId : text)
    : task world (document_row * text) :=
  document ← atomic (w ← get_world;
                     of_option (table_select_single documentId companyId w)
                       (str "JSON object requested, multiple (or no) rows returned"));
  let fileName := storage_key companyId documentId (row_filename document) in
  fileData ← atomic (w' ← get_world;
                     of_option (storage_download fileName w') (str "Object not found"));
  let file := {| originalname := row_filename document;
                 buffer := blob_bytes fileData;
                 file_size := row_file_size document;
                 mimetype := getMimeType (row_file_type document) |} in
  extractedText ← atomic (extractText file);
  _ ← atomic (updateDocumentStatus documentId Processing no_patch);
  _ ← atomic (deleteDocumentChunks companyId documentId);
  Return (document, extractedText).

(** The rest of the [try]: the new chunks are stored and the row updated. *)
Definition reprocess_tail_task (documentId companyId : text) (document : document_row)
    (extractedText : text) : task world bool :=
  let chunks := ragService_chunkText extractedText in
  _ ← storeDocumentChunks_task companyId documentId chunks
        (chunk_metadata (row_filename document) (row_file_type document)
           (row_file_url document));
  _ ← atomic (updateDocumentStatus documentId Processed
        {| patch_chunk_count := Some (js_length chunks);
           patch_content_length := Some (js_length extractedText);
           patch_file_url := None |});
  Return true.

Definition reprocess_body_task (documentId companyId : text) : task world bool :=
  read ← reprocess_head_task documentId companyId;
  reprocess_tail_task documentId companyId read.1 read.2.

Definition reprocessDocument_task (documentId companyId : text) : task world bool :=
  task_try (reprocess_body_task documentId companyId)
    (λ _, _ ← atomic (updateDocumentStatus documentId Failed no_patch);
          Raise (str "Failed to reprocess document")).

(** A reprocess whose first steps are [t]: [reprocessDocument_task] is
    [reprocess_from] of [reprocess_head_task]. *)
Definition reprocess_from (documentId companyId : text) (t : task world (document_row * text))
    : task world unit :=
  _ ← task_try (read ← t; reprocess_tail_task documentId companyId read.1 read.2)
        (λ _, _ ← atomic (updateDocumentStatus documentId Failed no_patch);
              Raise (str "Failed to reprocess document"));
  Return tt.

(** ** Requests in progress *)

(** A request as a task; what it returns is dropped, that it returned or
    threw is kept. *)
Definition serve_task (svc : DocumentService) (rq : request) : task world unit :=
  match rq with
  | Ingest file companyId userId =>
      _ ← processDocument_task svc file companyId userId; Return tt
  | Reprocess documentId companyId =>
      _ ← reprocessDocument_task documentId companyId; Return tt
  | Delete documentId companyId =>
      _ ← deleteDocument_task documentId companyId; Return tt
  end.

End methods.

(** ** Specifications *)

(** What the steps keep: well-formedness, and the type of the records. *)
Definition kept `{Providers} (w w' : world) : Prop :=
  wf_kept w w' ∧ records_kept record_typed w w'.

(** A reprocess and a delete of the first document of [library_world]: the
    reprocess goes as far as the deletion of the old records, the delete
    runs from its first step to its last, the reprocess goes on. *)
Definition racing : list request := [Reprocess (str "0") acme; Delete (str "0") acme].

Definition race : list nat := alone 0 5 ++ alone 1 4 ++ alone 0 4.

(** ** A task run alone *)

Section alone.
Context `{Providers}.

Lemma storeDocumentChunks_task_alone c id chunks md :
  complete (storeDocumentChunks_task c id chunks md) ≃ storeDocumentChunks c id chunks md.
Proof.
  unfold storeDocumentChunks_task, storeDocumentChunks, embed_chunks, insert_batches, for_each_.
  solve_alone. intros w.
  unfold mbind, prog_bind, bind_prog. by destruct (for_each _ _ w) as [[?|?] ?].
Qed.

Lemma searchRelevantContext_task_alone c query limit :
  complete (searchRelevantContext_task c query limit) ≃ searchRelevantContext c query limit.
Proof. unfold searchRelevantContext_task, searchRelevantContext. solve_alone. Qed.

Lemma process_valid_task_alone file c u :
  complete (process_valid_task file c u) ≃ process_valid file c u.
Proof.
  unfold process_valid_task, process_valid. cbv zeta.
  solve_alone_with storeDocumentChunks_task_alone.
Qed.

Lemma processDocument_task_alone svc file c u :
  complete (processDocument_task svc file c u) ≃ processDocument svc file c u.
Proof.
  unfold processDocument_task, processDocument. run_alone.
  apply try_catch_proper; [|done]. apply bind_prog_proper; [|done]. intros _.
  destruct file; [apply process_valid_task_alone|done].
Qed.

Lemma deleteDocument_task_alone id c :
  complete (deleteDocument_task id c) ≃ deleteDocument id c.
Proof.
  unfold deleteDocument_task, deleteDocument. solve_alone.
  intros w. unfold mbind, prog_bind, bind_prog. simpl.
  destruct (table_select_single id c w); solve_alone.
Qed.

Lemma reprocess_body_task_alone id c :
  complete (reprocess_body_task id c) ≃ reprocess_body id c.
Proof.
  unfold reprocess_body_task, reprocess_head_task, reprocess_tail_task, reprocess_body.
  cbv zeta. repeat first [setoid_rewrite storeDocumentChunks_task_alone | run_alone_step].
  repeat setoid_rewrite bind_assoc_runs.
  change (complete (Return ?a)) with (mret (M:=M) a).
  by setoid_rewrite bind_ret_l_runs.
Qed.

Lemma reprocessDocument_task_alone id c :
  complete (reprocessDocument_task id c) ≃ reprocessDocument id c.
Proof.
  unfold reprocessDocument_task, reprocessDocument.
  solve_alone_with reprocess_body_task_alone.
Qed.

End alone.

(** ** Every step of every method keeps the world well formed and typed *)

Section steps.
Context `{ProvidersOk}.

#[export] Instance kept_preorder : PreOrder kept.
Proof.
  split; [by split|]. intros w1 w2 w3 [? ?] [? ?]. split; by etrans.
Qed.

Lemma preserves_kept {B} (c : M B) :
  preserves wf_kept c → preserves (records_kept record_typed) c → preserves kept c.
Proof. intros Hw Ht w r w' Hrun. split; eauto. Qed.

Lemma embed_chunk_sound c id md i chunk :
  task_sound kept record_typed (atomic (embed_chunk c id md i chunk)).
Proof.
  apply sound_atomic.
  - intros w r w' Hd%embed_chunk_same_data.
    split; [intros ?; by eapply wf_world_same_data|by apply same_data_kept].
  - intros w doc w'. rewrite embed_chunk_run.
    destruct (embeddings_create _ _ _) eqn:He; [|done]. intros [= <- _].
    by eapply make_chunk_doc_typed.
Qed.

Lemma insertMany_sound (batch : list chunk_doc) :
  Forall record_typed batch → task_sound kept (λ _, True) (atomic (insertMany batch)).
Proof.
  intros Hb. apply sound_atomic; [|done].
  intros w r w' Hrun. split; [intros ?; by eapply insertMany_wf|].
  apply insertMany_inv in Hrun as [(_ & -> & _)|[-> _]]; [|done].
  intros Hw. simpl. by apply Forall_app.
Qed.

Lemma storeDocumentChunks_task_sound c id chunks md :
  task_sound kept (λ _, True) (storeDocumentChunks_task c id chunks md).
Proof.
  apply sound_try; [|constructor].
  eapply sound_bind.
  { apply sound_for_each. intros [i chunk] _. apply embed_chunk_sound. }
  intros documents Hd.
  eapply sound_bind; [|by constructor].
  apply sound_for_each. intros i (k & -> & _)%list_elem_of_fmap. apply insertMany_sound.
  rewrite js_slice_take_drop by (unfold batchSize; lia). by apply Forall_take, Forall_drop.
Qed.

#[local] Hint Resolve storeDocumentMetadata_wf updateDocumentStatus_wf uploadToStorage_wf
  storage_remove_wf table_delete_wf extractText_wf deleteDocumentChunks_wf_kept validateFile_wf
  storeDocumentMetadata_kept updateDocumentStatus_kept uploadToStorage_kept
  storage_remove_kept table_delete_kept deleteDocumentChunks_kept validateFile_kept
  extractText_kept : rag.

(** A step keeps [kept]: by the two facts on the call it awaits, or call by
    call when it only reads. *)
Ltac step_kept := first [ apply preserves_kept; solve [auto with rag] | solve_preserves ].

Ltac sound_steps :=
  repeat first
    [ apply storeDocumentChunks_task_sound
    | apply sound_Return; exact I
    | apply sound_Raise
    | apply sound_try; [|intros ?]
    | eapply (sound_bind _ (λ _, True)); [|intros ? _]
    | apply sound_atomic; [step_kept|done]
    | case_match ].

Lemma processDocument_task_sound svc file c u :
  task_sound kept (λ _, True) (processDocument_task svc file c u).
Proof. unfold processDocument_task, process_valid_task. cbv zeta. sound_steps. Qed.

Lemma deleteDocument_task_sound id c : task_sound kept (λ _, True) (deleteDocument_task id c).
Proof. unfold deleteDocument_task. sound_steps. Qed.

Lemma reprocessDocument_task_sound id c :
  task_sound kept (λ _, True) (reprocessDocument_task id c).
Proof.
  unfold reprocessDocument_task, reprocess_body_task, reprocess_head_task,
    reprocess_tail_task.
  cbv zeta. sound_steps.
Qed.

Lemma serve_task_sound svc rq : task_sound kept (λ _, True) (serve_task svc rq).
Proof.
  destruct rq; unfold serve_task; (eapply (sound_bind _ (λ _, True)); [|by constructor]).
  - apply processDocument_task_sound.
  - apply reprocessDocument_task_sound.
  - apply deleteDocument_task_sound.
Qed.

End steps.

(** ** Schedules *)

(** C13: however the steps of the requests in progress are interleaved,
    the world stays well formed (the ids of the records are distinct, a row
    is stored under its id, the ids not given yet are free) and every record
    stays typed: no schedule of ingests, reprocesses and deletes breaks what
    a single insert or update keeps. *)
Theorem interleaved_kept `{ProvidersOk} svc rqs schedule w :
  wf_world w → typed_world w →
  wf_world (run_pool schedule (serve_task svc <$> rqs) w).2
  ∧ typed_world (run_pool schedule (serve_task svc <$> rqs) w).2.
Proof.
  intros Hwf Hty.
  destruct (run_pool schedule _ w) as [p' w'] eqn:Hrun.
  eapply (run_pool_sound kept) in Hrun as [[Hw Ht] _].
  - split; [by apply Hw|by apply Ht].
  - apply Forall_fmap, Forall_forall. intros rq _. apply serve_task_sound.
Qed.


(** ** Requests served one after the other *)

Section serial.
Context `{Providers}.

Lemma serve_task_alone svc rq w : (complete (serve_task svc rq) w).2 = serve svc rq w.
Proof.
  destruct rq as [file c u|id c|id c]; unfold serve_task; rewrite (complete_bind _ _ w);
    unfold mbind at 1, prog_bind, bind_prog, serve.
  - rewrite (processDocument_task_alone _ _ _ _ w).
    by destruct (processDocument _ _ _ _ _) as [[?|?] ?].
  - rewrite (reprocessDocument_task_alone _ _ w).
    by destruct (reprocessDocument _ _ _) as [[?|?] ?].
  - rewrite (deleteDocument_task_alone _ _ w).
    by destruct (deleteDocument _ _ _) as [[?|?] ?].
Qed.

Lemma serial_from svc rqs (before : pool world) w :
  ∃ schedule after,
    run_pool schedule (before ++ (serve_task svc <$> rqs)) w
    = (before ++ after, serve_all svc rqs w)
    ∧ Forall (λ t, ended t = true) after.
Proof.
  revert before w. induction rqs as [|rq rqs IH]; intros before w.
  - by exists [], [].
  - destruct (task_ends (serve_task svc rq) w) as (n & t' & Hn & Ht').
    destruct (IH (before ++ [t']) (serve svc rq w)) as (schedule & after & Hrun & Hended).
    exists (((λ _, length before) <$> alone 0 n) ++ schedule), (t' :: after).
    split; [|constructor; [by destruct t'|done]].
    eapply (run_pool_at before (serve_task svc <$> rqs)) in Hn; [|by apply Forall_replicate].
    rewrite run_pool_app, fmap_cons, Hn, serve_task_alone. simpl.
    revert Hrun. by rewrite <- !app_assoc.
Qed.


(** The worlds of [Lifecycle.v] are worlds of the scheduler: for the
    requests that lead to a reachable world there is a schedule, the one that
    runs each request to its end before the next starts, that ends every
    request and leaves that world. *)
Theorem reachable_by_schedule svc w :
  reachable svc w →
  ∃ rqs schedule ends,
    run_pool schedule (serve_task svc <$> rqs) empty_world = (ends, w)
    ∧ Forall (λ t, ended t = true) ends.
Proof.
  intros Hw. assert (∃ rqs, w = serve_all svc rqs empty_world) as [rqs ->].
  { induction Hw as [|w rq _ [rqs ->]]; [by exists []|].
    exists (rqs ++ [rq]). unfold serve_all. by rewrite foldl_app. }
  destruct (serial_from svc rqs [] empty_world) as (schedule & ends & Hrun & Hends).
  by exists rqs, schedule, ends.
Qed.

End serial.

(** ** A delete that overtakes a reprocess *)

Section race.
Context `{ProvidersOk} (svc : DocumentService) (id c : text) (w : world).
Context (r : document_row) (b : blob).
Context (Hwf : wf_world w) (Hno : no_orphans w) (Hty : typed_world w).
Context (Hsel : table_select_single id c w = Some r).
Context (Hb : storage_download (storage_key c id (row_filename r)) w = Some b).
Context (Hext : getFileExtension (row_filename r) = str "txt").
Context (Hemb : ∀ tr chunk, chunk ∈ ragService_chunkText (utf8_decode (blob_bytes b)) →
                  is_Some (embeddings_create tr embedding_model chunk)).

#[local] Abbreviation decoded := (utf8_decode (blob_bytes b)).
#[local] Abbreviation others := (filter (λ x, ¬ in_document c id x) (collection w)).
#[local] Abbreviation key := (storage_key c id (row_filename r)).

Lemma selected_row : documents w !! id = Some r ∧ row_company_id r = c.
Proof.
  unfold table_select_single in Hsel. destruct (documents w !! id) as [r0|]; [|done].
  simpl in Hsel. case_bool_decide; by simplify_eq.
Qed.

(** The reprocess up to the deletion of the old records. *)
Lemma reprocess_head_run :
  ∃ w5 r5, complete (reprocess_head_task id c) w = (Ok (r, decoded), w5)
    ∧ collection w5 = others ∧ documents w5 = <[id := r5]> (documents w)
    ∧ row_company_id r5 = c ∧ row_filename r5 = row_filename r
    ∧ storage w5 = storage w.
Proof.
  destruct selected_row as [Hr Hc]. unfold reprocess_head_task.
  erewrite complete_step;
    [|by unfold mbind, prog_bind, bind_prog, get_world; rewrite Hsel].
  cbv zeta. erewrite complete_step;
    [|by unfold mbind, prog_bind, bind_prog, get_world; rewrite Hb].
  erewrite complete_step; [|by apply extractText_txt].
  erewrite complete_step; [|by rewrite updateDocumentStatus_run, Hr].
  erewrite complete_step; [|apply deleteDocumentChunks_run].
  by eexists _, _.
Qed.

(** The delete, from the world the reprocess has left so far. *)
Lemma delete_after_head w5 r5 :
  collection w5 = others → documents w5 = <[id := r5]> (documents w) →
  row_company_id r5 = c → row_filename r5 = row_filename r → storage w5 = storage w →
  ∃ w9, complete (serve_task svc (Delete id c)) w5 = (Ok tt, w9)
    ∧ collection w9 = others ∧ documents w9 = delete id (documents w)
    ∧ storage w9 = delete key (storage w).
Proof.
  intros Hc5 Hd5 Hco5 Hf5 Hs5. unfold serve_task.
  rewrite (complete_bind _ _ w5). unfold mbind at 1, prog_bind, bind_prog.
  rewrite (deleteDocument_task_alone id c w5), deleteDocument_run.
  unfold table_select_single. rewrite Hd5, lookup_insert_eq. simpl.
  rewrite bool_decide_true by done. eexists. split; [done|]. simpl.
  rewrite Hc5, Hf5, Hs5, delete_insert_eq, list_filter_filter.
  split; [|done]. apply list_filter_iff. tauto.
Qed.

Lemma others_fresh w9 : collection w9 = others → fresh_document id w9.
Proof.
  intros Hc9 x i Hx. apply (fresh_after_delete c id w Hty).
  - intros y Hy Hid. destruct (Hno y Hy) as (r0 & Hr0 & <-).
    destruct selected_row as [Hr Hc]. rewrite Hid, Hr in Hr0. by injection Hr0 as <-.
  - rewrite deleteDocumentChunks_run. simpl. by rewrite <- Hc9.
Qed.

(** The rest of the reprocess, once the row is gone. *)
Lemma reprocess_tail_run w9 :
  collection w9 = others → documents w9 !! id = None →
  ∃ w' docs,
    complete (reprocess_from id c (Return (r, decoded))) w9
    = (Throw (str "Failed to update document status"), w')
    ∧ stored_chunks c id (chunk_metadata (row_filename r) (row_file_type r) (row_file_url r))
        (ragService_chunkText decoded) docs
    ∧ collection w' = others ++ docs ∧ documents w' = documents w9.
Proof.
  intros Hc9 Hd9.
  destruct (storeDocumentChunks_succeeds c id (ragService_chunkText decoded)
              (chunk_metadata (row_filename r) (row_file_type r) (row_file_url r)) w9)
    as [w10 Hstore]; [exact Hemb| |exact (others_fresh w9 Hc9)|].
  { rewrite Hc9. apply filter_ids_NoDup, Hwf. }
  pose proof Hstore as (_ & docs & Hdocs & Hc10 & Hd10 & _)%storeDocumentChunks_returns.
  eexists _, docs. split.
  - unfold reprocess_from, reprocess_tail_task. cbv zeta.
    rewrite (complete_bind _ _ w9). unfold mbind at 1, prog_bind, bind_prog.
    rewrite (complete_try _ _ w9). unfold try_catch.
    change (Return (r, decoded) ≫= ?f) with (f (r, decoded)). cbn [fst snd].
    rewrite (complete_bind _ _ w9). unfold mbind at 1, prog_bind, bind_prog.
    rewrite (storeDocumentChunks_task_alone _ _ _ _ w9), Hstore.
    erewrite complete_step_throw; [|by rewrite updateDocumentStatus_run, Hd10, Hd9].
    erewrite complete_step_throw; [done|].
    rewrite updateDocumentStatus_run. simpl. by rewrite Hd10, Hd9.
  - simpl. by rewrite Hc10, Hd10, Hc9.
Qed.

(** C16: a delete that runs between the deletion of the old records and
    the store of the new ones of a reprocess of the same document returns,
    and the reprocess then stores the records again and throws when it finds
    no row to update.  For every text document whose row and file are there
    there is such a schedule: both requests have ended, the document has no
    row, and the collection holds its records again, one per chunk, which no
    later request of the service removes; the invariant [no_orphans] of the
    requests served one after the other does not survive it. *)
Theorem delete_overtakes_reprocess :
  ∃ schedule ends w',
    run_pool schedule (serve_task svc <$> [Reprocess id c; Delete id c]) w = (ends, w')
    ∧ outcome_of <$> ends
      = [Some (Throw (str "Failed to update document status")); Some (Ok tt)]
    ∧ documents w' !! id = None
    ∧ record_key <$> document_records c id w'
      = imap (λ i chunk, (chunk_id id i, Z.of_nat i, chunk)) (ragService_chunkText decoded)
    ∧ (ragService_chunkText decoded ≠ [] → ¬ no_orphans w').
Proof.
  destruct reprocess_head_run as (w5 & r5 & Hhead & Hc5 & Hd5 & Hco5 & Hf5 & Hs5).
  destruct (delete_after_head w5 r5) as (w9 & Hdelete & Hc9 & Hd9 & Hs9); [done..|].
  destruct (reprocess_tail_run w9) as (w' & docs & Htail & Hdocs & Hc' & Hd');
    [done|by rewrite Hd9, lookup_delete_eq|].
  destruct (runs_inside (reprocess_from id c) [] [serve_task svc (Delete id c)]
              (reprocess_head_task id c) w) as [n1 H1]; [done|].
  destruct (runs_inside (λ t, t) [reprocess_from id c (Return (r, decoded))] []
              (serve_task svc (Delete id c)) w5) as [n2 H2]; [done|].
  destruct (runs_inside (λ t, t) [] [Return tt]
              (reprocess_from id c (Return (r, decoded))) w9) as [n3 H3]; [done|].
  rewrite Hhead in H1. rewrite Hdelete in H2. rewrite Htail in H3.
  cbn [app length fst snd finished] in H1, H2, H3.
  change (serve_task svc <$> [Reprocess id c; Delete id c])
    with [reprocess_from id c (reprocess_head_task id c); serve_task svc (Delete id c)].
  exists (alone 0 n1 ++ alone 1 n2 ++ alone 0 n3), [Raise (str "Failed to update document status"); Return tt], w'.
  split; [rewrite !run_pool_app, H1; cbn [fst snd]; rewrite H2; cbn [fst snd]; exact H3|].
  split; [done|]. split; [by rewrite Hd', Hd9, lookup_delete_eq|].
  assert (document_records c id w' = docs) as Hrecords.
  { unfold document_records. rewrite Hc', filter_app, filter_filter_none by tauto.
    by rewrite (filter_all _ docs) by (by eapply stored_chunks_in_document). }
  split; [rewrite Hrecords; by eapply stored_chunks_keys|].
  intros Hchunks Horphans. destruct docs as [|x docs'].
  { destruct Hdocs as [Hlen _]. by destruct (ragService_chunkText decoded). }
  destruct (Horphans x) as (r0 & Hr0 & _); [rewrite Hc', elem_of_app; right; left|].
  apply stored_chunks_in_document, Forall_cons in Hdocs as [[_ Hid] _].
  by rewrite Hid, Hd', Hd9, lookup_delete_eq in Hr0.
Qed.

End race.

(** ** The theorems at work *)

Section examples.
#[local] Existing Instance toy_providers.

Lemma library_world_ok :
  wf_world library_world ∧ no_orphans library_world ∧ typed_world library_world.
Proof.
  destruct (reachable_world_ok documentService library_world library_world_reachable)
    as (Hwf & Hno & _).
  split; [done|]. split; [done|].
  apply (reachable_records_typed documentService), library_world_reachable.
Qed.

Lemma delete_overtakes_reprocess_witness :
  ∃ schedule ends w',
    run_pool schedule (serve_task documentService <$> racing) library_world = (ends, w')
    ∧ outcome_of <$> ends
      = [Some (Throw (str "Failed to update document status")); Some (Ok tt)]
    ∧ documents w' !! str "0" = None
    ∧ record_key <$> document_records acme (str "0") w'
      = imap (λ i chunk, (chunk_id (str "0") i, Z.of_nat i, chunk))
          (ragService_chunkText (utf8_decode (buffer notes_file)))
    ∧ (ragService_chunkText (utf8_decode (buffer notes_file)) ≠ [] → ¬ no_orphans w').
Proof.
  destruct library_world_ok as (Hwf & Hno & Hty).
  apply (delete_overtakes_reprocess documentService (str "0") acme library_world
           (default (DocumentRow [] [] [] [] [] 0 0 Processing None None 0 0)
              (documents library_world !! str "0"))
           (Blob (buffer notes_file) (mimetype notes_file)) Hwf Hno Hty).
  - by vm_compute.
  - by vm_compute.
  - by vm_compute.
  - intros tr chunk Hin. simpl. case_decide as Hnil; [|by eexists].
    subst chunk. vm_compute in Hin. by apply list_elem_of_singleton in Hin.
Defined.

(** The schedule [race] on the first document of [library_world]: the
    delete returns, the reprocess throws, the document has no row and no
    file, and a search of the company returns its record. *)
Example race_leaves_orphan :
  let after := run_pool race (serve_task documentService <$> racing) library_world in
  outcome_of <$> after.1
  = [Some (Throw (str "Failed to update document status")); Some (Ok tt)]
  ∧ documents after.2 !! str "0" = None
  ∧ storage after.2 = ∅
  ∧ document_id <$> collection after.2 = [str "0"]
  ∧ (ctx_document_id <$>
       ok_value [] (result_of (searchRelevantContext acme note_query 5) after.2))
    = [str "0"].
Proof. cbv zeta. repeat split; by vm_compute. Qed.

Lemma interleaved_kept_witness :
  wf_world (run_pool race (serve_task documentService <$> racing) library_world).2
  ∧ typed_world (run_pool race (serve_task documentService <$> racing) library_world).2.
Proof.
  destruct library_world_ok as (Hwf & _ & Hty).
  exact (interleaved_kept documentService racing race library_world Hwf Hty).
Defined.

Lemma reachable_by_schedule_witness :
  ∃ rqs schedule ends,
    run_pool schedule (serve_task documentService <$> rqs) empty_world = (ends, library_world)
    ∧ Forall (λ t, ended t = true) ends.
Proof. apply reachable_by_schedule, library_world_reachable. Defined.

End examples.
