(* ===== verification/Schemas.v ===== *)
(** * Chatbot configuration schemas

    [src/backend/src/schemas/chatbotSchemas.js] declares two Joi schemas,
    [createChatbot] and [updateChatbot].  The file holds

    - the request body as the validator sees it ([body]: the own keys of a
      parsed JSON object in enumeration order, each a [field_value]);
    - the part of Joi 17 the schemas use, as combinators on [schema] that are
      applied in the order the source chains them ([Joi_string], [string_min],
      [string_max], [string_pattern], [string_uri], [any_valid],
      [any_default], [any_required], [any_messages], [Joi_array],
      [array_items], [array_min], [Joi_object]); validation stops at the first
      error, children in the order of the schema, then the unknown keys;
    - the two schemas, written as the source writes them;
    - what the schemas accept, which defaults they add, which of the messages
      of the source an error carries, and that a model or language a schema
      lets through is one [AIService] has an entry for.

    The call [schema.validate(body)] is not in the repository: [validate] is
    that call with the options Joi defaults to (the first error ends the
    validation, a key the schema does not know is an error, values are not
    converted between types).  The [uri] rule of Joi (RFC 3986) is a variable
    of the section: the theorems hold for every such rule. *)

From Stdlib Require Import ZArith Lia String.
From stdpp Require Import prelude list gmap.
From S2P Require Import Prelude JsString World AiService.

#[local] Open Scope Z_scope.

(** ** Request bodies *)

(** A value of a body that is not an array.  [ANested] is an object or an
    array met where the schemas look for a string. *)
Inductive atom :=
  | ANull
  | ABool (b : bool)
  | ANumber (z : Z)
  | AString (t : text)
  | ANested.

#[export] Instance atom_eq_dec : EqDecision atom.
Proof. solve_decision. Defined.

Inductive field_value :=
  | Atom (a : atom)
  | Items (l : list atom).

#[export] Instance field_value_eq_dec : EqDecision field_value.
Proof. solve_decision. Defined.

Definition body : Type := list (text * field_value).

(** [b[key]] on a body: [None] is [undefined]. *)
Fixpoint body_get (b : body) (key : text) : option field_value :=
  match b with
  | [] => None
  | (k, v) :: rest => if bool_decide (k = key) then Some v else body_get rest key
  end.

(** ** The rules of Joi the schemas use *)

Inductive joi_code :=
  | AnyRequired
  | AnyOnly
  | StringBase
  | StringEmpty
  | StringMin
  | StringMax
  | StringPatternBase
  | StringUri
  | ArrayBase
  | ArrayMin
  | ObjectUnknown.

#[export] Instance joi_code_eq_dec : EqDecision joi_code.
Proof. solve_decision. Defined.

(** A failed rule: its code and, for an item of an array, the index. *)
Record failure := Failure { fail_code : joi_code; fail_index : option nat }.

Inductive presence := Optional | Required.

(** A schema: the check of its type followed by its rules in the order they
    were added ([base_check], the first failure), the values [valid] allows,
    and its flags. *)
Record schema := Schema {
  base_check : field_value → option failure;
  valids : option (list field_value);
  schema_presence : presence;
  default_value : option field_value;
  messages : list (joi_code * text)
}.

(** An error of a validation.  [err_message] is the message the schema gives
    for the code with [messages]; [None] stands for the template of Joi. *)
Record joi_error := JoiError {
  err_key : text;
  err_index : option nat;
  err_code : joi_code;
  err_message : option text
}.

#[export] Instance joi_error_eq_dec : EqDecision joi_error.
Proof. solve_decision. Defined.

Definition fails (c : joi_code) : option failure := Some (Failure c None).

Definition Joi_string : schema :=
  {| base_check := λ v,
       match v with
       | Atom (AString t) => if bool_decide (t = []) then fails StringEmpty else None
       | _ => fails StringBase
       end;
     valids := None; schema_presence := Optional; default_value := None; messages := [] |}.

Definition Joi_array : schema :=
  {| base_check := λ v, match v with Items _ => None | Atom _ => fails ArrayBase end;
     valids := None; schema_presence := Optional; default_value := None; messages := [] |}.

(** A rule is checked when the ones before it passed. *)
Definition add_rule (r : field_value → option failure) (s : schema) : schema :=
  {| base_check := λ v, match base_check s v with Some f => Some f | None => r v end;
     valids := valids s; schema_presence := schema_presence s;
     default_value := default_value s; messages := messages s |}.

Definition on_string (p : text → bool) (c : joi_code) (v : field_value) : option failure :=
  match v with
  | Atom (AString t) => if p t then None else fails c
  | _ => None
  end.

Definition string_min (n : Z) : schema → schema :=
  add_rule (on_string (λ t, n <=? js_length t) StringMin).

Definition string_max (n : Z) : schema → schema :=
  add_rule (on_string (λ t, js_length t <=? n) StringMax).

Definition string_pattern (re : text → bool) : schema → schema :=
  add_rule (on_string re StringPatternBase).

Definition string_uri (is_uri : text → bool) : schema → schema :=
  add_rule (on_string is_uri StringUri).

Definition any_valid (l : list text) (s : schema) : schema :=
  {| base_check := base_check s; valids := Some (Atom ∘ AString <$> l);
     schema_presence := schema_presence s; default_value := default_value s;
     messages := messages s |}.

Definition any_default (d : field_value) (s : schema) : schema :=
  {| base_check := base_check s; valids := valids s;
     schema_presence := schema_presence s; default_value := Some d;
     messages := messages s |}.

Definition any_required (s : schema) : schema :=
  {| base_check := base_check s; valids := valids s;
     schema_presence := Required; default_value := default_value s;
     messages := messages s |}.

Definition any_optional (s : schema) : schema :=
  {| base_check := base_check s; valids := valids s;
     schema_presence := Optional; default_value := default_value s;
     messages := messages s |}.

Definition any_messages (m : list (joi_code * text)) (s : schema) : schema :=
  {| base_check := base_check s; valids := valids s;
     schema_presence := schema_presence s; default_value := default_value s;
     messages := m ++ messages s |}.

(** A value that [valid] lists is accepted without a look at the rules, and
    with [valid] nothing else is. *)
Definition validate_value (s : schema) (v : field_value) : option failure :=
  match valids s with
  | Some allowed => if bool_decide (v ∈ allowed) then None else fails AnyOnly
  | None => base_check s v
  end.

(** The first item the item schema refuses, with its index. *)
Fixpoint first_failure (item : schema) (i : nat) (l : list atom) : option failure :=
  match l with
  | [] => None
  | a :: rest =>
      match validate_value item (Atom a) with
      | Some f => Some (Failure (fail_code f) (Some i))
      | None => first_failure item (S i) rest
      end
  end.

Definition array_items (item : schema) : schema → schema :=
  add_rule (λ v, match v with Items l => first_failure item 0 l | Atom _ => None end).

Definition array_min (n : Z) : schema → schema :=
  add_rule (λ v, match v with
                 | Items l => if n <=? js_length l then None else fails ArrayMin
                 | Atom _ => None
                 end).

Definition object_schema : Type := list (text * schema).

Definition Joi_object (keys : list (text * schema)) : object_schema := keys.

Definition message_for (s : schema) (c : joi_code) : option text :=
  snd <$> head (filter (λ m, m.1 = c) (messages s)).

Definition error_of (key : text) (s : schema) (f : failure) : joi_error :=
  JoiError key (fail_index f) (fail_code f) (message_for s (fail_code f)).

(** One key of an object schema against the body: an error, or the default
    to add when the key is absent and the schema has one. *)
Definition validate_key (key : text) (s : schema) (b : body)
  : outcome joi_error (option field_value) :=
  match body_get b key with
  | None =>
      match schema_presence s with
      | Required => Throw (error_of key s (Failure AnyRequired None))
      | Optional => Ok (default_value s)
      end
  | Some v =>
      match validate_value s v with
      | Some f => Throw (error_of key s f)
      | None => Ok None
      end
  end.

(** The children in the order of the schema; the defaults found so far. *)
Fixpoint validate_keys (keys : object_schema) (b : body) : outcome joi_error body :=
  match keys with
  | [] => Ok []
  | (key, s) :: rest =>
      match validate_key key s b with
      | Throw e => Throw e
      | Ok d =>
          match validate_keys rest b with
          | Throw e => Throw e
          | Ok ds => Ok (match d with Some v => (key, v) :: ds | None => ds end)
          end
      end
  end.

Definition unknown_keys (keys : object_schema) (b : body) : list text :=
  filter (λ k, k ∉ keys.*1) b.*1.

(** [schema.validate(body)]: the body with the defaults added after its own
    keys, or the first error. *)
Definition validate (keys : object_schema) (b : body) : outcome joi_error body :=
  match validate_keys keys b with
  | Throw e => Throw e
  | Ok ds =>
      match unknown_keys keys b with
      | k :: _ => Throw (JoiError k None ObjectUnknown None)
      | [] => Ok (b ++ ds)
      end
  end.

(** ** The schemas *)

Notation "s .> f" := (f s) (at level 45, left associativity, only parsing).

Definition is_hex_digit (c : N) : bool :=
  ((48 <=? c) && (c <=? 57) || (65 <=? c) && (c <=? 70) || (97 <=? c) && (c <=? 102))%N.

(** [/^#[0-9A-Fa-f]{6}$/.test(t)] *)
Definition hex_color (t : text) : bool :=
  match t with
  | c :: digits => (c =? 35)%N && (length digits =? 6)%nat && forallb is_hex_digit digits
  | [] => false
  end.

Definition ai_model_values : list text := [str "gpt-4"; str "gpt-3.5-turbo"; str "gemini-pro"].

Definition language_values : list text :=
  [str "en"; str "es"; str "fr"; str "de"; str "hi"; str "ne"; str "zh"; str "ja"].

Definition status_values : list text := [str "active"; str "inactive"].

Section schemas.
Context (is_uri : text → bool).

Definition createChatbot : object_schema :=
  Joi_object [
    (str "name",
     Joi_string .> string_min 2 .> string_max 100 .> any_required .> any_messages [
       (StringMin, str "Chatbot name must be at least 2 characters long");
       (StringMax, str "Chatbot name cannot exceed 100 characters");
       (AnyRequired, str "Chatbot name is required")]);
    (str "description", Joi_string .> string_max 500 .> any_optional);
    (str "ai_model",
     Joi_string .> any_valid ai_model_values
                .> any_default (Atom (AString (str "gpt-3.5-turbo"))));
    (str "welcome_message", Joi_string .> string_max 500 .> any_optional);
    (str "primary_color",
     Joi_string .> string_pattern hex_color
                .> any_default (Atom (AString (str "#2563eb")))
                .> any_messages [
       (StringPatternBase, str "Primary color must be a valid hex color code")]);
    (str "supported_languages",
     Joi_array .> array_items (Joi_string .> any_valid language_values)
               .> array_min 1
               .> any_default (Items [AString (str "en")]));
    (str "logo_url", Joi_string .> string_uri is_uri .> any_optional)
  ].

Definition updateChatbot : object_schema :=
  Joi_object [
    (str "name", Joi_string .> string_min 2 .> string_max 100 .> any_optional);
    (str "description", Joi_string .> string_max 500 .> any_optional);
    (str "ai_model", Joi_string .> any_valid ai_model_values .> any_optional);
    (str "welcome_message", Joi_string .> string_max 500 .> any_optional);
    (str "primary_color", Joi_string .> string_pattern hex_color .> any_optional);
    (str "supported_languages",
     Joi_array .> array_items (Joi_string .> any_valid language_values)
               .> array_min 1
               .> any_optional);
    (str "logo_url", Joi_string .> string_uri is_uri .> any_optional);
    (str "status", Joi_string .> any_valid status_values .> any_optional)
  ].

End schemas.

(** ** Specification of the accepted bodies *)

(** What an optional key asks of a body: nothing when the key is absent. *)
Definition absent_or (P : field_value → Prop) (o : option field_value) : Prop :=
  match o with None => True | Some v => P v end.

Definition present_and (P : field_value → Prop) (o : option field_value) : Prop :=
  match o with None => False | Some v => P v end.

(** A string that is not empty, of a length between [lo] and [hi]. *)
Definition text_between (lo hi : Z) (v : field_value) : Prop :=
  ∃ t, v = Atom (AString t) ∧ t ≠ [] ∧ lo ≤ js_length t ≤ hi.

Definition text_such (p : text → bool) (v : field_value) : Prop :=
  ∃ t, v = Atom (AString t) ∧ t ≠ [] ∧ p t = true.

Definition one_of (l : list text) (v : field_value) : Prop :=
  ∃ t, v = Atom (AString t) ∧ t ∈ l.

Definition some_of (l : list text) (v : field_value) : Prop :=
  ∃ items, v = Items items ∧ items ≠ [] ∧ Forall (λ a, ∃ t, a = AString t ∧ t ∈ l) items.

Definition known_keys (keys : object_schema) (b : body) : Prop :=
  Forall (λ k, k ∈ keys.*1) b.*1.

(** What one key of a schema asks of the value the body has for it. *)
Definition key_accepts (s : schema) (o : option field_value) : Prop :=
  match o with
  | None => schema_presence s = Optional
  | Some v => validate_value s v = None
  end.

(** The default a key adds: only when the body has no value for it. *)
Definition default_of (b : body) (ks : text * schema) : option (text * field_value) :=
  match body_get b ks.1 with
  | None => pair ks.1 <$> default_value ks.2
  | Some _ => None
  end.

Section accepted.
Context (is_uri : text → bool).

Record create_ok (b : body) : Prop := {
  create_name : present_and (text_between 2 100) (body_get b (str "name"));
  create_description : absent_or (text_between 0 500) (body_get b (str "description"));
  create_ai_model : absent_or (one_of ai_model_values) (body_get b (str "ai_model"));
  create_welcome_message :
    absent_or (text_between 0 500) (body_get b (str "welcome_message"));
  create_primary_color : absent_or (text_such hex_color) (body_get b (str "primary_color"));
  create_supported_languages :
    absent_or (some_of language_values) (body_get b (str "supported_languages"));
  create_logo_url : absent_or (text_such is_uri) (body_get b (str "logo_url"));
  create_known : known_keys (createChatbot is_uri) b
}.

Record update_ok (b : body) : Prop := {
  update_name : absent_or (text_between 2 100) (body_get b (str "name"));
  update_description : absent_or (text_between 0 500) (body_get b (str "description"));
  update_ai_model : absent_or (one_of ai_model_values) (body_get b (str "ai_model"));
  update_welcome_message :
    absent_or (text_between 0 500) (body_get b (str "welcome_message"));
  update_primary_color : absent_or (text_such hex_color) (body_get b (str "primary_color"));
  update_supported_languages :
    absent_or (some_of language_values) (body_get b (str "supported_languages"));
  update_logo_url : absent_or (text_such is_uri) (body_get b (str "logo_url"));
  update_status : absent_or (one_of status_values) (body_get b (str "status"));
  update_known : known_keys (updateChatbot is_uri) b
}.

End accepted.

(** The defaults [createChatbot] adds to a body, in the order of the schema. *)
Definition create_defaults (b : body) : body :=
  (if body_get b (str "ai_model") is Some _ then []
   else [(str "ai_model", Atom (AString (str "gpt-3.5-turbo")))])
  ++ (if body_get b (str "primary_color") is Some _ then []
      else [(str "primary_color", Atom (AString (str "#2563eb")))])
  ++ (if body_get b (str "supported_languages") is Some _ then []
      else [(str "supported_languages", Items [AString (str "en")])]).

(** The code and the message of the error [createChatbot] gives for a [name]
    it refuses. *)
Definition name_error (o : option field_value) : joi_code * option text :=
  match o with
  | None => (AnyRequired, Some (str "Chatbot name is required"))
  | Some (Atom (AString t)) =>
      if bool_decide (t = []) then (StringEmpty, None)
      else if js_length t <? 2 then
        (StringMin, Some (str "Chatbot name must be at least 2 characters long"))
      else (StringMax, Some (str "Chatbot name cannot exceed 100 characters"))
  | Some _ => (StringBase, None)
  end.

(** ** Examples *)

Definition toy_uri (t : text) : bool := js_startsWith t (str "https://").

Definition minimal_body : body := [(str "name", Atom (AString (str "Helpdesk")))].

Definition full_body : body :=
  [(str "name", Atom (AString (str "Helpdesk")));
   (str "ai_model", Atom (AString (str "gemini-pro")));
   (str "primary_color", Atom (AString (str "#FF00aa")));
   (str "supported_languages", Items [AString (str "ne"); AString (str "ja")]);
   (str "logo_url", Atom (AString (str "https://acme.example/logo.png")))].

(** ** The rules *)

Lemma body_get_app b1 b2 key :
  body_get (b1 ++ b2) key
  = match body_get b1 key with Some v => Some v | None => body_get b2 key end.
Proof. induction b1 as [|[k v] b1 IH]; simpl; [done|]. by case_bool_decide. Qed.

Lemma body_get_elem_of b key v : body_get b key = Some v → (key, v) ∈ b.
Proof.
  induction b as [|[k v'] b IH]; simpl; [done|].
  rewrite elem_of_cons. case_bool_decide; [|by auto]. intros [= <-]. subst. by left.
Qed.

Lemma body_get_None b key : body_get b key = None ↔ key ∉ b.*1.
Proof.
  induction b as [|[k v] b IH]; simpl; [rewrite elem_of_nil; tauto|].
  rewrite elem_of_cons. case_bool_decide as Hk.
  - split; [done | intros []; by left].
  - rewrite IH. split; [intros Hn [->|?]; done | intros Hn ?; apply Hn; by right].
Qed.

Section rules.
Implicit Types (s : schema) (v : field_value).

Lemma validate_value_add_rule r s v :
  valids s = None →
  validate_value (add_rule r s) v = None ↔ validate_value s v = None ∧ r v = None.
Proof.
  unfold validate_value. simpl. intros ->.
  destruct (base_check s v); split; try done; [by intros [? _] | by intros [_ ?]].
Qed.

Lemma Joi_string_accepts v :
  validate_value Joi_string v = None ↔ ∃ t, v = Atom (AString t) ∧ t ≠ [].
Proof.
  unfold validate_value. simpl.
  destruct v as [[]|]; try (split; [done | by intros (? & ? & ?)]).
  case_bool_decide; split; try done; [intros (? & [= <-] & ?); done | eauto].
Qed.

Lemma on_string_accepts p c t : on_string p c (Atom (AString t)) = None ↔ p t = true.
Proof. unfold on_string. destruct (p t); by split. Qed.

(** A string schema with one rule. *)
Lemma string_rule_accepts p c v :
  validate_value (add_rule (on_string p c) Joi_string) v = None ↔ text_such p v.
Proof.
  rewrite validate_value_add_rule, Joi_string_accepts by done. unfold text_such.
  split.
  - intros ((t & -> & Ht) & Hp). apply on_string_accepts in Hp. eauto.
  - intros (t & -> & Ht & Hp). split; [eauto | by apply on_string_accepts].
Qed.

Lemma string_max_accepts hi v :
  validate_value (Joi_string .> string_max hi) v = None ↔ text_between 0 hi v.
Proof.
  unfold string_max. rewrite string_rule_accepts. unfold text_such, text_between.
  split; intros (t & -> & Ht & Hp); exists t; (split; [done|]); (split; [done|]).
  - apply Z.leb_le in Hp. pose proof (js_length_nonneg t). lia.
  - apply Z.leb_le. lia.
Qed.

Lemma string_min_max_accepts lo hi v :
  validate_value (Joi_string .> string_min lo .> string_max hi) v = None
  ↔ text_between lo hi v.
Proof.
  unfold string_max, string_min.
  rewrite validate_value_add_rule, string_rule_accepts by done.
  unfold text_such, text_between. split.
  - intros ((t & -> & Ht & Hlo) & Hhi). apply on_string_accepts in Hhi.
    exists t. repeat split; [done|lia..].
  - intros (t & -> & Ht & Hlo & Hhi). split; [exists t; repeat split; [done|lia] |].
    apply on_string_accepts. lia.
Qed.

Lemma any_valid_accepts l s v : validate_value (any_valid l s) v = None ↔ one_of l v.
Proof.
  unfold validate_value, one_of. simpl. case_bool_decide as Hv; split; try done.
  - intros _. apply list_elem_of_fmap in Hv as (t & -> & Ht). eauto.
  - intros (t & -> & Ht). destruct Hv. apply list_elem_of_fmap. eauto.
Qed.

Lemma first_failure_accepts l i items :
  first_failure (Joi_string .> any_valid l) i items = None
  ↔ Forall (λ a, ∃ t, a = AString t ∧ t ∈ l) items.
Proof.
  revert i. induction items as [|a items IH]; intros i; simpl; [by split|].
  rewrite Forall_cons.
  destruct (validate_value _ (Atom a)) eqn:Ha.
  - split; [done|]. intros [(t & -> & Ht) _].
    assert (validate_value (Joi_string .> any_valid l) (Atom (AString t)) = None) as Hn
      by (apply any_valid_accepts; exists t; done).
    congruence.
  - rewrite IH. apply any_valid_accepts in Ha as (t & [= ->] & Ht).
    split; [eauto | by intros [_ ?]].
Qed.

Lemma array_accepts l v :
  validate_value (Joi_array .> array_items (Joi_string .> any_valid l) .> array_min 1) v
  = None ↔ some_of l v.
Proof.
  unfold array_min, array_items. rewrite !validate_value_add_rule by done.
  unfold some_of. destruct v as [a|items].
  - split; [by intros [[[=] _] _] | by intros (? & [=] & _)].
  - rewrite first_failure_accepts. unfold validate_value. simpl. split.
    + intros [[_ Hall] Hmin]. exists items. split; [done|]. split; [|done].
      intros ->. done.
    + intros (? & [= <-] & Hne & Hall). repeat split; [done|].
      destruct items; [done|]. unfold js_length. simpl. case_match; [done|].
      apply Z.leb_gt in H. lia.
Qed.

(** The flags leave the check of a value as it is. *)
Lemma validate_value_flags s v :
  validate_value (any_required s) v = validate_value s v
  ∧ validate_value (any_optional s) v = validate_value s v
  ∧ (∀ d, validate_value (any_default d s) v = validate_value s v)
  ∧ (∀ m, validate_value (any_messages m s) v = validate_value s v).
Proof. done. Qed.

End rules.

(** ** Objects *)

Lemma validate_key_ok key s b :
  is_ok (validate_key key s b) = true ↔ key_accepts s (body_get b key).
Proof.
  unfold validate_key, key_accepts. destruct (body_get b key) as [v|].
  - destruct (validate_value s v); by split.
  - destruct (schema_presence s); by split.
Qed.

Lemma validate_key_default key s b d :
  validate_key key s b = Ok d → pair key <$> d = default_of b (key, s).
Proof.
  unfold validate_key, default_of. simpl. destruct (body_get b key) as [v|].
  - destruct (validate_value s v); [done|]. by intros [= <-].
  - destruct (schema_presence s); [|done]. by intros [= <-].
Qed.

Lemma validate_keys_ok keys b :
  is_ok (validate_keys keys b) = true
  ↔ Forall (λ ks, key_accepts ks.2 (body_get b ks.1)) keys.
Proof.
  induction keys as [|[key s] keys IH]; simpl; [by split|].
  rewrite Forall_cons, <- IH, <- validate_key_ok. simpl.
  destruct (validate_key key s b); [|by split; [|intros []]].
  destruct (validate_keys keys b); simpl; split; try done; by intros [].
Qed.

Lemma validate_keys_defaults keys b ds :
  validate_keys keys b = Ok ds → ds = omap (default_of b) keys.
Proof.
  revert ds. induction keys as [|[key s] keys IH]; intros ds; [by intros [= <-]|].
  change (omap (default_of b) ((key, s) :: keys))
    with (match default_of b (key, s) with
          | Some x => x :: omap (default_of b) keys
          | None => omap (default_of b) keys
          end).
  simpl. destruct (validate_key key s b) as [d|] eqn:Hd; [|done].
  destruct (validate_keys keys b) as [ds'|]; [|done]. intros [= <-].
  rewrite <- (validate_key_default _ _ _ _ Hd), <- (IH ds' eq_refl). by destruct d.
Qed.

Lemma unknown_keys_nil keys b : unknown_keys keys b = [] ↔ known_keys keys b.
Proof.
  unfold unknown_keys, known_keys. rewrite Forall_forall. split.
  - intros Hnil k Hk. destruct (decide (k ∈ keys.*1)) as [|Hn]; [done|].
    assert (k ∈ filter (λ k, k ∉ keys.*1) b.*1) as Hin by (by apply list_elem_of_filter).
    rewrite Hnil in Hin. by apply elem_of_nil in Hin.
  - intros Hall. apply filter_none, Forall_forall. intros k Hk Hn. by apply Hn, Hall.
Qed.

Lemma validate_ok keys b :
  is_ok (validate keys b) = true
  ↔ Forall (λ ks, key_accepts ks.2 (body_get b ks.1)) keys ∧ known_keys keys b.
Proof.
  rewrite <- validate_keys_ok, <- unknown_keys_nil. unfold validate.
  destruct (validate_keys keys b); simpl; [|by split; [|intros []]].
  destruct (unknown_keys keys b); by split; [|intros []].
Qed.

Lemma omap_default_cons b k s keys :
  omap (default_of b) ((k, s) :: keys)
  = match default_value s with
    | Some d => if body_get b k is Some _ then [] else [(k, d)]
    | None => []
    end ++ omap (default_of b) keys.
Proof.
  change (omap (default_of b) ((k, s) :: keys))
    with (match default_of b (k, s) with
          | Some x => x :: omap (default_of b) keys
          | None => omap (default_of b) keys
          end).
  unfold default_of. simpl. by destruct (default_value s), (body_get b k).
Qed.

Lemma validate_output keys b out :
  validate keys b = Ok out → out = b ++ omap (default_of b) keys.
Proof.
  unfold validate. destruct (validate_keys keys b) as [ds|] eqn:Hds; [|done].
  destruct (unknown_keys keys b); [|done]. intros [= <-].
  by rewrite (validate_keys_defaults _ _ _ Hds).
Qed.

(** An error of the first key of a schema is the error of the validation. *)
Lemma validate_first_key key s keys b e :
  validate_key key s b = Throw e → validate ((key, s) :: keys) b = Throw e.
Proof. unfold validate. simpl. by intros ->. Qed.

Lemma key_accepts_optional s P o :
  schema_presence s = Optional → (∀ v, validate_value s v = None ↔ P v) →
  key_accepts s o ↔ absent_or P o.
Proof. intros Hs HP. destruct o; simpl; [apply HP | by split]. Qed.

Lemma key_accepts_required s P o :
  schema_presence s = Required → (∀ v, validate_value s v = None ↔ P v) →
  key_accepts s o ↔ present_and P o.
Proof. intros Hs HP. destruct o; simpl; [apply HP | by rewrite Hs]. Qed.

(** [key_spec P L] turns the requirement of the next key of the goal into
    [absent_or P] or [present_and P], with [L] the lemma of its rules. *)
Ltac key_spec P L :=
  first
    [ rewrite (key_accepts_required _ P) by first [done | intros ?; exact (L _)]
    | rewrite (key_accepts_optional _ P) by first [done | intros ?; exact (L _)] ].

(** ** What the schemas accept *)

Section accepts.
Context (is_uri : text → bool).

Lemma createChatbot_keys b :
  Forall (λ ks, key_accepts ks.2 (body_get b ks.1)) (createChatbot is_uri)
  ↔ present_and (text_between 2 100) (body_get b (str "name"))
    ∧ absent_or (text_between 0 500) (body_get b (str "description"))
    ∧ absent_or (one_of ai_model_values) (body_get b (str "ai_model"))
    ∧ absent_or (text_between 0 500) (body_get b (str "welcome_message"))
    ∧ absent_or (text_such hex_color) (body_get b (str "primary_color"))
    ∧ absent_or (some_of language_values) (body_get b (str "supported_languages"))
    ∧ absent_or (text_such is_uri) (body_get b (str "logo_url")).
Proof.
  unfold createChatbot, Joi_object. rewrite !Forall_cons, Forall_nil. simpl.
  key_spec (text_between 2 100) (string_min_max_accepts 2 100).
  key_spec (text_between 0 500) (string_max_accepts 500).
  key_spec (one_of ai_model_values) (any_valid_accepts ai_model_values Joi_string).
  key_spec (text_between 0 500) (string_max_accepts 500).
  key_spec (text_such hex_color) (string_rule_accepts hex_color StringPatternBase).
  key_spec (some_of language_values) (array_accepts language_values).
  key_spec (text_such is_uri) (string_rule_accepts is_uri StringUri).
  tauto.
Qed.

(** C31: [createChatbot] accepts exactly the bodies with a [name] of 2 to
    100 code units whose other keys, where present, are: a non-empty
    [description] and [welcome_message] of at most 500 code units, an
    [ai_model] among the three models, a [primary_color] of the form
    [#hhhhhh], a non-empty array [supported_languages] of the eight language
    codes, a [logo_url] the uri rule accepts; and with no key besides. *)
Theorem createChatbot_accepts_iff b :
  is_ok (validate (createChatbot is_uri) b) = true ↔ create_ok is_uri b.
Proof.
  rewrite validate_ok, createChatbot_keys.
  split; [intros ((?&?&?&?&?&?&?)&?); by constructor | intros []; repeat split; done].
Qed.

Lemma createChatbot_ok_inv b out :
  validate (createChatbot is_uri) b = Ok out →
  absent_or (one_of ai_model_values) (body_get b (str "ai_model"))
  ∧ absent_or (text_such hex_color) (body_get b (str "primary_color"))
  ∧ absent_or (some_of language_values) (body_get b (str "supported_languages")).
Proof.
  intros Hv. assert (is_ok (validate (createChatbot is_uri) b) = true) as Hok
    by (by rewrite Hv).
  apply validate_ok in Hok as [Hkeys _]. apply createChatbot_keys in Hkeys. tauto.
Qed.

(** [updateChatbot] asks the same of every key as [createChatbot], knows
    the key [status] with the values [active] and [inactive], and requires no
    key: the empty body is accepted. *)
Theorem updateChatbot_accepts_iff b :
  is_ok (validate (updateChatbot is_uri) b) = true ↔ update_ok is_uri b.
Proof.
  rewrite validate_ok. unfold updateChatbot at 1, Joi_object.
  rewrite !Forall_cons, Forall_nil. simpl.
  key_spec (text_between 2 100) (string_min_max_accepts 2 100).
  key_spec (text_between 0 500) (string_max_accepts 500).
  key_spec (one_of ai_model_values) (any_valid_accepts ai_model_values Joi_string).
  key_spec (text_between 0 500) (string_max_accepts 500).
  key_spec (text_such hex_color) (string_rule_accepts hex_color StringPatternBase).
  key_spec (some_of language_values) (array_accepts language_values).
  key_spec (text_such is_uri) (string_rule_accepts is_uri StringUri).
  key_spec (one_of status_values) (any_valid_accepts status_values Joi_string).
  split; [intros ((?&?&?&?&?&?&?&?&_)&?); by constructor | intros []; repeat split; done].
Qed.

Lemma createChatbot_defaults_of b :
  omap (default_of b) (createChatbot is_uri) = create_defaults b.
Proof.
  unfold createChatbot, Joi_object. rewrite !omap_default_cons.
  cbn [default_value any_messages any_default any_optional any_required any_valid
       string_max string_min string_pattern string_uri array_min array_items
       add_rule Joi_string Joi_array app].
  change (omap (default_of b) []) with (@nil (text * field_value)).
  by rewrite app_nil_r.
Qed.

Lemma body_get_create_defaults b key d :
  (key, d) ∈ [(str "ai_model", Atom (AString (str "gpt-3.5-turbo")));
              (str "primary_color", Atom (AString (str "#2563eb")));
              (str "supported_languages", Items [AString (str "en")])] →
  body_get b key = None → body_get (create_defaults b) key = Some d.
Proof.
  intros Hin Hb. unfold create_defaults.
  destruct (body_get b (str "ai_model")) eqn:H1,
    (body_get b (str "primary_color")) eqn:H2,
    (body_get b (str "supported_languages")) eqn:H3;
    repeat (apply elem_of_cons in Hin as [[= -> ->]|Hin];
            [first [congruence | vm_compute; reflexivity]|]);
    by apply elem_of_nil in Hin.
Qed.

(** A key with a default has, after validation, a value of its own or the
    default. *)
Lemma createChatbot_defaulted P b out key d :
  validate (createChatbot is_uri) b = Ok out →
  absent_or P (body_get b key) → P d →
  (key, d) ∈ [(str "ai_model", Atom (AString (str "gpt-3.5-turbo")));
              (str "primary_color", Atom (AString (str "#2563eb")));
              (str "supported_languages", Items [AString (str "en")])] →
  present_and P (body_get out key).
Proof.
  intros Hv HP Hd Hin. rewrite (validate_output _ _ _ Hv), body_get_app.
  destruct (body_get b key) eqn:Hb; [done|].
  by rewrite createChatbot_defaults_of, (body_get_create_defaults _ _ d).
Qed.

End accepts.

(** ** Defaults, errors, and the services behind the values *)

Lemma default_model_allowed : one_of ai_model_values (Atom (AString (str "gpt-3.5-turbo"))).
Proof. eexists. split; [done|]. apply (bool_decide_unpack _). vm_compute. exact I. Qed.

Lemma default_color_allowed : text_such hex_color (Atom (AString (str "#2563eb"))).
Proof. eexists. split; [done|]. split; [done|]. vm_compute. reflexivity. Qed.

Lemma default_languages_allowed : some_of language_values (Items [AString (str "en")]).
Proof.
  eexists. split; [done|]. split; [done|]. apply Forall_singleton. eexists. split; [done|].
  apply (bool_decide_unpack _). vm_compute. exact I.
Qed.

(** The three models of the schemas are the keys of [AIService.models], and
    each has a branch of its own in [generateResponse]. *)
Lemma ai_model_values_served m :
  m ∈ ai_model_values →
  models aiService !! m = Some m
  ∧ (js_startsWith m (str "gpt") = true ∨ m = str "gemini-pro").
Proof.
  unfold ai_model_values. rewrite !elem_of_cons, elem_of_nil.
  intros [->|[->|[->|[]]]]; (split; [by vm_compute|]); [left|left|right]; done.
Qed.

Section served.
Context `{Providers} (is_uri : text → bool).

(** A model with a branch in [generateResponse] reaches its provider: one
    call is made, whatever its result. *)
Lemma generateResponse_calls_provider m msgs ctx lang w :
  js_startsWith m (str "gpt") = true ∨ m = str "gemini-pro" →
  ∃ ev, trace (world_after (generateResponse aiService m msgs ctx lang) w) = trace w ++ [ev].
Proof.
  intros Hm. unfold world_after, generateResponse, try_catch.
  destruct (js_startsWith m (str "gpt")) eqn:Hgpt.
  - unfold generateOpenAIResponse, call, throw. eexists.
    destruct (chat_create _ _ _ _ _); simpl; reflexivity.
  - destruct Hm as [? | ->]; [done|]. rewrite bool_decide_eq_true_2 by done.
    unfold generateGeminiResponse, call, throw. prog_unfold. eexists.
    destruct (gemini_generate _ _); simpl; reflexivity.
Qed.

(** A body [createChatbot] accepts comes back with the defaults of
    the schema after its own keys, and then has an [ai_model] among the three
    models, a [primary_color] of the form [#hhhhhh] and at least one of the
    eight language codes, whether the body had them or not. *)
Theorem createChatbot_adds_defaults b out :
  validate (createChatbot is_uri) b = Ok out →
  out = b ++ create_defaults b
  ∧ present_and (one_of ai_model_values) (body_get out (str "ai_model"))
  ∧ present_and (text_such hex_color) (body_get out (str "primary_color"))
  ∧ present_and (some_of language_values) (body_get out (str "supported_languages")).
Proof.
  intros Hv. destruct (createChatbot_ok_inv is_uri _ _ Hv) as (Hm & Hc & Hl).
  split; [by rewrite (validate_output _ _ _ Hv), createChatbot_defaults_of|].
  repeat split; eapply createChatbot_defaulted; eauto
    using default_model_allowed, default_color_allowed, default_languages_allowed;
    apply (bool_decide_unpack _); vm_compute; exact I.
Qed.

(** The first key of [createChatbot] is [name]: a body whose [name] is
    refused gets the error of [name] whatever its other keys hold, with the
    message of the source when the name is missing, shorter than 2 or longer
    than 100 code units, and with no message of the source when it is the
    empty string or not a string. *)
Theorem createChatbot_name_errors b :
  ¬ present_and (text_between 2 100) (body_get b (str "name")) →
  validate (createChatbot is_uri) b
  = Throw (JoiError (str "name") None (name_error (body_get b (str "name"))).1
                    (name_error (body_get b (str "name"))).2).
Proof.
  intros Hn. apply validate_first_key. unfold validate_key, name_error.
  destruct (body_get b (str "name")) as [[[| | |t|]|]|]; try done. simpl in Hn.
  unfold validate_value, error_of. simpl. case_bool_decide; [done|].
  destruct (2 <=? js_length t) eqn:Hlo; simpl.
  - destruct (js_length t <=? 100) eqn:Hhi; simpl.
    + destruct Hn. exists t. repeat split; [done|lia..].
    + replace (js_length t <? 2) with false by lia. done.
  - replace (js_length t <? 2) with true by lia. done.
Qed.

(** C37: the model a validated configuration carries is a key of
    [AIService.models] and has a branch in [generateResponse]: the call
    reaches a provider, it is never refused as an unsupported model. *)
Theorem createChatbot_model_is_served b out msgs ctx lang w :
  validate (createChatbot is_uri) b = Ok out →
  ∃ m ev, body_get out (str "ai_model") = Some (Atom (AString m))
    ∧ models aiService !! m = Some m
    ∧ trace (world_after (generateResponse aiService m msgs ctx lang) w) = trace w ++ [ev].
Proof.
  intros Hv. destruct (createChatbot_ok_inv is_uri _ _ Hv) as (Hm & _ & _).
  assert (present_and (one_of ai_model_values) (body_get out (str "ai_model"))) as Hout.
  { eapply createChatbot_defaulted; eauto using default_model_allowed.
    apply (bool_decide_unpack _); vm_compute; exact I. }
  destruct (body_get out (str "ai_model")) as [v|]; [|done].
  destruct Hout as (m & -> & Hin). apply ai_model_values_served in Hin as [Hk Hbr].
  destruct (generateResponse_calls_provider m msgs ctx lang w Hbr) as [ev Hev]. eauto.
Qed.

End served.

(** The language codes the schemas accept are the keys of the table of
    directives of [buildSystemPrompt]: a configured language never falls back
    to the English directive, and no directive is out of reach of a
    configuration. *)
Theorem language_values_have_directives c :
  c ∈ language_values ↔ is_Some (languageInstructions !! c).
Proof.
  split.
  - unfold language_values. rewrite !elem_of_cons, elem_of_nil.
    intros [->|[->|[->|[->|[->|[->|[->|[->|[]]]]]]]]]; vm_compute; eexists; reflexivity.
  - intros [d Hd]. unfold languageInstructions in Hd.
    apply elem_of_list_to_map_2, list_elem_of_fmap_2 with (f := fst) in Hd.
    revert Hd. apply (eq_ind _ (λ l, c ∈ l → c ∈ language_values) (λ H, H)).
    vm_compute. reflexivity.
Qed.

Section refused.
Context (is_uri : text → bool).

(** An optional text key may be left out but not left empty: with an
    acceptable [name], a [description] that is the empty string is refused. *)
Theorem createChatbot_empty_description_refused b :
  present_and (text_between 2 100) (body_get b (str "name")) →
  body_get b (str "description") = Some (Atom (AString [])) →
  validate (createChatbot is_uri) b
  = Throw (JoiError (str "description") None StringEmpty None).
Proof.
  intros Hn Hd. unfold validate, createChatbot, Joi_object.
  cbn [validate_keys]. unfold validate_key at 1.
  destruct (body_get b (str "name")) as [v|]; [|done].
  apply (string_min_max_accepts 2 100) in Hn.
  change (validate_value (any_messages _ (any_required _)) v)
    with (validate_value (Joi_string .> string_min 2 .> string_max 100) v).
  rewrite Hn. unfold validate_key at 1. by rewrite Hd.
Qed.

End refused.

(** ** The theorems at concrete bodies *)

Lemma createChatbot_adds_defaults_witness :
  validate (createChatbot toy_uri) minimal_body
  = Ok (minimal_body ++ create_defaults minimal_body)
  ∧ present_and (one_of ai_model_values)
      (body_get (minimal_body ++ create_defaults minimal_body) (str "ai_model")).
Proof.
  assert (validate (createChatbot toy_uri) minimal_body
          = Ok (minimal_body ++ create_defaults minimal_body)) as Hv
    by (vm_compute; reflexivity).
  split; [exact Hv|].
  exact (proj1 (proj2 (createChatbot_adds_defaults toy_uri _ _ Hv))).
Defined.

Lemma createChatbot_name_errors_witness :
  validate (createChatbot toy_uri) [(str "name", Atom (AString []))]
  = Throw (JoiError (str "name") None StringEmpty None).
Proof.
  apply (createChatbot_name_errors toy_uri [(str "name", Atom (AString []))]).
  intros (t & Ht & Hne & _). injection Ht as <-. by apply Hne.
Defined.

Lemma createChatbot_empty_description_refused_witness :
  validate (createChatbot toy_uri)
    [(str "description", Atom (AString [])); (str "name", Atom (AString (str "Helpdesk")))]
  = Throw (JoiError (str "description") None StringEmpty None).
Proof.
  apply createChatbot_empty_description_refused; [|reflexivity].
  exists (str "Helpdesk"). split; [reflexivity|]. split; [discriminate|].
  vm_compute. split; discriminate.
Defined.

Section examples.
#[local] Existing Instance toy_providers.

Lemma createChatbot_model_is_served_witness :
  ∃ m ev,
    body_get (full_body ++ create_defaults full_body) (str "ai_model")
    = Some (Atom (AString m))
    ∧ models aiService !! m = Some m
    ∧ trace (world_after (generateResponse aiService m [] [] (str "ne")) empty_world)
      = trace empty_world ++ [ev].
Proof.
  apply (createChatbot_model_is_served toy_uri full_body). vm_compute. reflexivity.
Defined.

End examples.
