(* ===== verification/Session.v ===== *)
(** * The session of the dashboard

    [src/project/src/lib/api.ts] builds the requests of the dashboard and
    [src/project/src/contexts/AuthContext.tsx] keeps the session: the React
    state [user], [profile], [loading] and the keys [token] and [user] of
    [localStorage].  The file holds

    - [http_request]: what [fetch] is called with; [api_register], [api_login],
      [api_uploadDocument], [api_createChatbot], [api_sendMessage]: the
      requests of [api.ts], with the base address [API_URL];
    - [session]: the state of [AuthProvider] with the storage, the toasts
      shown and the requests sent;
    - [mount] (the effect of [AuthProvider]), [signUp], [signIn], [signOut],
      [updateProfile]: one definition per handler.  The answer of the server
      to the request a handler awaits is an argument of the handler
      ([fetched]); a handler runs from its call to its end without another
      one in between;
    - [session_step], [session_reachable] and the invariant [backed]: a
      signed-in session is backed by the storage;
    - [useAuth]: what a component below the provider reads of the session.

    The class [Profiles] is what the handlers need of user objects: the JSON
    codec and the spread [{...profile, ...updates}]. *)

From Stdlib Require Import ZArith Lia String.
From stdpp Require Import prelude list gmap.
From S2P Require Import Prelude JsString.

(** ** User objects *)

Class Profiles := {
  UserProfile : Type;
  Updates : Type;
  (** [JSON.stringify] *)
  stringify : UserProfile → text;
  stringify_updates : Updates → text;
  (** [JSON.parse]; [None] when it throws *)
  parse : text → option UserProfile;
  (** [{...profile, ...updates}] *)
  spread : option UserProfile → Updates → UserProfile;
  parse_stringify p : parse (stringify p) = Some p;
  parse_empty : parse [] = None
}.

(** ** Requests *)

Inductive payload :=
  | JsonBody (json : text)
  | FormData (field : text) (file_name : text).

Record http_request := HttpRequest {
  req_url : text;
  req_method : text;
  req_headers : list (text * text);
  req_body : payload
}.

(** [a || b] on strings that may be [undefined]. *)
Definition js_or (a : option text) (b : text) : text :=
  match a with
  | Some t => if bool_decide (t = []) then b else t
  | None => b
  end.

(** [`${a}`] *)
Definition js_template (a : option text) : text := default (str "undefined") a.

Definition truthy (a : option text) : bool :=
  match a with Some t => negb (bool_decide (t = [])) | None => false end.

Definition content_type_json : text * text := (str "Content-Type", str "application/json").

Definition authorization (token : text) : text * text :=
  (str "Authorization", str "Bearer " ++ token).

Section api.
Context (VITE_API_URL : option text).
Context (json_of_fields : list (text * text) → text).

Definition API_URL : text := js_or VITE_API_URL (str "http://localhost:3002/api").

Definition api_register (email password company_name : text) : http_request :=
  {| req_url := API_URL ++ str "/auth/register";
     req_method := str "POST";
     req_headers := [content_type_json];
     req_body := JsonBody (json_of_fields [(str "email", email); (str "password", password);
                                           (str "company_name", company_name)]) |}.

Definition api_login (email password : text) : http_request :=
  {| req_url := API_URL ++ str "/auth/login";
     req_method := str "POST";
     req_headers := [content_type_json];
     req_body := JsonBody (json_of_fields [(str "email", email); (str "password", password)]) |}.

Definition api_uploadDocument (file_name token : text) : http_request :=
  {| req_url := API_URL ++ str "/documents/upload";
     req_method := str "POST";
     req_headers := [authorization token];
     req_body := FormData (str "document") file_name |}.

(** [data] and [message] below are the texts [JSON.stringify] gives for the
    objects the callers pass. *)
Definition api_createChatbot (data token : text) : http_request :=
  {| req_url := API_URL ++ str "/chatbots";
     req_method := str "POST";
     req_headers := [content_type_json; authorization token];
     req_body := JsonBody data |}.

Definition api_sendMessage (chatbotId message : text) : http_request :=
  {| req_url := API_URL ++ str "/chat/" ++ chatbotId;
     req_method := str "POST";
     req_headers := [content_type_json];
     req_body := JsonBody message |}.

End api.

(** ** The state of [AuthProvider] *)

Inductive toast :=
  | ToastSuccess (t : text)
  | ToastError (t : text).

(** What [await fetch(...)] gives: the promise is rejected, or there is a
    response with its [ok] flag and its body, which [response.json()] parses
    or rejects with a message. *)
Inductive fetched (A : Type) :=
  | Rejected (message : text)
  | Responded (ok : bool) (json : text + A).
Arguments Rejected {A} message.
Arguments Responded {A} ok json.

Section session.
Context `{Profiles}.
Context (VITE_API_URL : option text).
Context (json_of_fields : list (text * text) → text).

Record session := Session {
  user : option UserProfile;
  profile : option UserProfile;
  loading : bool;
  localStorage : gmap text text;
  toasts : list toast;
  sent : list http_request
}.

(** The state of the first render. *)
Definition AuthProvider (storage : gmap text text) : session :=
  Session None None true storage [] [].

Definition S (A : Type) : Type := prog session text A.

Definition setUser (u : option UserProfile) : S unit :=
  modify_world (λ s, Session u (profile s) (loading s) (localStorage s) (toasts s) (sent s)).

Definition setProfile (p : option UserProfile) : S unit :=
  modify_world (λ s, Session (user s) p (loading s) (localStorage s) (toasts s) (sent s)).

Definition setLoading (b : bool) : S unit :=
  modify_world (λ s, Session (user s) (profile s) b (localStorage s) (toasts s) (sent s)).

Definition getItem (key : text) : S (option text) :=
  λ s, (Ok (localStorage s !! key), s).

Definition setItem (key value : text) : S unit :=
  modify_world (λ s, Session (user s) (profile s) (loading s)
                             (<[key := value]> (localStorage s)) (toasts s) (sent s)).

Definition removeItem (key : text) : S unit :=
  modify_world (λ s, Session (user s) (profile s) (loading s)
                             (delete key (localStorage s)) (toasts s) (sent s)).

Definition show (t : toast) : S unit :=
  modify_world (λ s, Session (user s) (profile s) (loading s) (localStorage s)
                             (toasts s ++ [t]) (sent s)).

(** [await fetch(...)]: the request leaves, the answer comes or the promise
    is rejected. *)
Definition fetch {A} (rq : http_request) (answer : fetched A) : S (bool * (text + A)) :=
  λ s, let s' := Session (user s) (profile s) (loading s) (localStorage s) (toasts s)
                         (sent s ++ [rq]) in
       match answer with
       | Rejected message => (Throw message, s')
       | Responded ok json => (Ok (ok, json), s')
       end.

(** [await response.json()] *)
Definition response_json {A} (response : bool * (text + A)) : S A :=
  match response.2 with
  | inl message => throw message
  | inr result => mret result
  end.

(** The reply of [/auth/login]. *)
Record login_reply := LoginReply {
  reply_message : option text;
  reply_data : option (UserProfile * text)
}.

(** The message of the [TypeError] of destructuring [undefined]. *)
Definition destructure_error : text :=
  str "Cannot destructure property 'user' of 'result.data' as it is undefined.".

(** The effect of [AuthProvider], run once after the first render. *)
Definition mount : S unit :=
  token ← getItem (str "token");
  userData ← getItem (str "user");
  _ ← (if truthy token && truthy userData then
         u ← of_option (parse (default [] userData)) (str "SyntaxError");
         _ ← setUser (Some u);
         setProfile (Some u)
       else mret tt);
  setLoading false.

Definition signUp (email password companyName : text) (answer : fetched unit) : S unit :=
  try_catch
    (response ← fetch (api_register VITE_API_URL json_of_fields email password companyName)
                      answer;
     if negb response.1 then throw (str "Sign up failed")
     else show (ToastSuccess (str "Account created successfully!")))
    (λ error, _ ← show (ToastError (js_or (Some error) (str "Error during sign up")));
              throw error).

Definition signIn (email password : text) (answer : fetched login_reply) : S unit :=
  try_catch
    (response ← fetch (api_login VITE_API_URL json_of_fields email password) answer;
     result ← response_json response;
     if negb response.1 then throw (js_or (reply_message result) (str "Login failed"))
     else
       data ← of_option (reply_data result) destructure_error;
       _ ← setItem (str "token") data.2;
       _ ← setItem (str "user") (stringify data.1);
       _ ← setUser (Some data.1);
       _ ← setProfile (Some data.1);
       show (ToastSuccess (str "Signed in successfully!")))
    (λ error, _ ← show (ToastError (js_or (Some error) (str "Error during login")));
              throw error).

Definition signOut : S unit :=
  try_catch
    (_ ← removeItem (str "token");
     _ ← removeItem (str "user");
     _ ← setUser None;
     _ ← setProfile None;
     show (ToastSuccess (str "Signed out successfully!")))
    (λ error, _ ← show (ToastError (js_or (Some error) (str "Error during sign out")));
              throw error).

Definition profile_request (token : text) (updates : Updates) : http_request :=
  {| req_url := js_template VITE_API_URL ++ str "/auth/profile";
     req_method := str "PUT";
     req_headers := [content_type_json; authorization token];
     req_body := JsonBody (stringify_updates updates) |}.

Definition updateProfile (updates : Updates) (answer : fetched unit) : S unit :=
  try_catch
    (token ← getItem (str "token");
     s ← get_world;
     if negb (truthy token) || negb (bool_decide (is_Some (user s))) then
       throw (str "Not authenticated")
     else
       response ← fetch (profile_request (default [] token) updates) answer;
       if negb response.1 then throw (str "Failed to update profile")
       else
         let updated := spread (profile s) updates in
         _ ← setProfile (Some updated);
         _ ← setItem (str "user") (stringify updated);
         show (ToastSuccess (str "Profile updated!")))
    (λ error, _ ← show (ToastError (js_or (Some error) (str "Error updating profile")));
              throw error).

(** ** Sessions over time *)

Inductive action :=
  | SignUp (email password companyName : text) (answer : fetched unit)
  | SignIn (email password : text) (answer : fetched login_reply)
  | SignOut
  | UpdateProfile (updates : Updates) (answer : fetched unit).

Definition handler (a : action) : S unit :=
  match a with
  | SignUp email password companyName answer => signUp email password companyName answer
  | SignIn email password answer => signIn email password answer
  | SignOut => signOut
  | UpdateProfile updates answer => updateProfile updates answer
  end.

(** A handler run on a session, thrown or not. *)
Definition session_step (a : action) (s : session) : session := (handler a s).2.

(** The sessions of a page load: the first render, the effect, then
    handlers. *)
Inductive session_reachable (storage : gmap text text) : session → Prop :=
  | loaded : session_reachable storage (mount (AuthProvider storage)).2
  | handled s a : session_reachable storage s → session_reachable storage (session_step a s).

(** A signed-in session is backed by the storage: [user] and [profile] are
    set together, and the [user] key holds a text that parses to [profile]
    beside a [token] key. *)
Record backed (s : session) : Prop := {
  backed_both : is_Some (user s) ↔ is_Some (profile s);
  backed_token : is_Some (user s) → is_Some (localStorage s !! str "token");
  backed_user p :
    profile s = Some p → ∃ data, localStorage s !! str "user" = Some data ∧ parse data = Some p
}.

(** [user] and [profile] hold the same object. *)
Definition in_sync (s : session) : Prop := user s = profile s.

(** [updateProfile] goes on to the request when there is a token that is
    not empty and a user. *)
Definition authenticated (s : session) : bool :=
  truthy (localStorage s !! str "token") && bool_decide (is_Some (user s)).

(** What [signIn] throws for an answer, [None] when it signs in. *)
Definition signIn_error (answer : fetched login_reply) : option text :=
  match answer with
  | Rejected message => Some message
  | Responded _ (inl message) => Some message
  | Responded false (inr result) => Some (js_or (reply_message result) (str "Login failed"))
  | Responded true (inr result) =>
      match reply_data result with
      | Some _ => None
      | None => Some destructure_error
      end
  end.

(** ** The context

    What the provider hands to the components below it: the three state
    variables of the render (the five handlers of the value are [handler]). *)
Record auth_context := AuthContextValue {
  ctx_user : option UserProfile;
  ctx_loading : bool;
  ctx_profile : option UserProfile
}.

Definition provided (s : session) : auth_context :=
  AuthContextValue (user s) (loading s) (profile s).

(** [useContext] of a context created with [undefined]: the value of the
    nearest of the providers above the component, innermost first. *)
Definition useContext (providers_above : list session) : option auth_context :=
  provided <$> head providers_above.

Definition useAuth (providers_above : list session) : outcome text auth_context :=
  match useContext providers_above with
  | None => Throw (str "useAuth must be used within an AuthProvider")
  | Some context => Ok context
  end.

(** The session after a handler threw [error]: a toast more. *)
Definition failed_with (fallback error : text) (rq : list http_request) (s : session) : session :=
  Session (user s) (profile s) (loading s) (localStorage s)
          (toasts s ++ [ToastError (js_or (Some error) fallback)]) (sent s ++ rq).

End session.

Arguments session {_}.
Arguments Session {_} _ _ _ _ _ _.
Arguments auth_context {_}.
Arguments AuthContextValue {_} _ _ _.

(** ** Examples *)

(** User objects as texts between braces. *)
Definition toy_profiles : Profiles :=
  {| UserProfile := text;
     Updates := text;
     stringify := λ p, 123%N :: p;
     stringify_updates := λ u, u;
     parse := λ t, match t with c :: p => if (c =? 123)%N then Some p else None | [] => None end;
     spread := λ p u, default [] p ++ u;
     parse_stringify := λ p, eq_refl;
     parse_empty := eq_refl |}.

Definition toy_json (fields : list (text * text)) : text :=
  js_join (str ",") ((λ kv, kv.1 ++ str ":" ++ kv.2) <$> fields).

Definition ada : text := str "ada@acme.example".

Definition welcome : fetched (@login_reply toy_profiles) :=
  Responded true (inr (@LoginReply toy_profiles None (Some (ada, str "t0k3n")))).

Definition dot_org : @Updates toy_profiles := str ".org".

(** A page load on an empty storage, then a sign-in the server accepts. *)
Definition signed_in : @session toy_profiles :=
  session_step None toy_json (SignIn ada (str "pw") welcome) (mount (AuthProvider ∅)).2.

(** ** The handlers, run *)

#[local] Arguments str : simpl never.

Section handlers.
Context `{Profiles}.
Context (VITE_API_URL : option text).
Context (json_of_fields : list (text * text) → text).


Lemma signIn_error_None answer :
  signIn_error answer = None →
  ∃ message u token, answer = Responded true (inr (LoginReply message (Some (u, token)))).
Proof.
  destruct answer as [|[] [|[message [[u token]|]]]]; try done. intros _. eauto.
Qed.

Lemma signIn_throws email password answer error s :
  signIn_error answer = Some error →
  signIn VITE_API_URL json_of_fields email password answer s
  = (Throw error,
     failed_with (str "Error during login") error
       [api_login VITE_API_URL json_of_fields email password] s).
Proof.
  unfold signIn, failed_with, fetch, response_json. prog_unfold.
  destruct answer as [|[] [|[message [[u token]|]]]]; simpl; intros [= <-]; done.
Qed.

Lemma signIn_succeeds email password message u token s :
  signIn VITE_API_URL json_of_fields email password (Responded true (inr (LoginReply message (Some (u, token))))) s
  = (Ok tt,
     Session (Some u) (Some u) (loading s)
       (<[str "user" := stringify u]> (<[str "token" := token]> (localStorage s)))
       (toasts s ++ [ToastSuccess (str "Signed in successfully!")])
       (sent s ++ [api_login VITE_API_URL json_of_fields email password])).
Proof. done. Qed.

Lemma signUp_run email password companyName answer s :
  signUp VITE_API_URL json_of_fields email password companyName answer s
  = let rq := api_register VITE_API_URL json_of_fields email password companyName in
    match answer with
    | Responded true _ =>
        (Ok tt, Session (user s) (profile s) (loading s) (localStorage s)
                  (toasts s ++ [ToastSuccess (str "Account created successfully!")])
                  (sent s ++ [rq]))
    | Responded false _ =>
        (Throw (str "Sign up failed"),
         failed_with (str "Error during sign up") (str "Sign up failed") [rq] s)
    | Rejected message =>
        (Throw message, failed_with (str "Error during sign up") message [rq] s)
    end.
Proof. by destruct answer as [|[] ?]. Qed.

Lemma signOut_run s :
  signOut s
  = (Ok tt,
     Session None None (loading s)
       (delete (str "user") (delete (str "token") (localStorage s)))
       (toasts s ++ [ToastSuccess (str "Signed out successfully!")]) (sent s)).
Proof. done. Qed.

Lemma updateProfile_run updates answer s :
  updateProfile VITE_API_URL updates answer s
  = if authenticated s then
      let rq := profile_request VITE_API_URL
                  (default [] (localStorage s !! str "token")) updates in
      match answer with
      | Responded true _ =>
          (Ok tt,
           Session (user s) (Some (spread (profile s) updates)) (loading s)
             (<[str "user" := stringify (spread (profile s) updates)]> (localStorage s))
             (toasts s ++ [ToastSuccess (str "Profile updated!")]) (sent s ++ [rq]))
      | Responded false _ =>
          (Throw (str "Failed to update profile"),
           failed_with (str "Error updating profile") (str "Failed to update profile") [rq] s)
      | Rejected message =>
          (Throw message, failed_with (str "Error updating profile") message [rq] s)
      end
    else (Throw (str "Not authenticated"),
          failed_with (str "Error updating profile") (str "Not authenticated") [] s).
Proof.
  unfold updateProfile, authenticated, failed_with, fetch, getItem. prog_unfold.
  destruct (truthy (localStorage s !! str "token")), (bool_decide (is_Some (user s)));
    simpl; rewrite ?app_nil_r; try done.
  by destruct answer as [|[] ?].
Qed.

Lemma mount_run storage :
  mount (AuthProvider storage)
  = if truthy (storage !! str "token") && truthy (storage !! str "user") then
      match parse (default [] (storage !! str "user")) with
      | Some u => (Ok tt, Session (Some u) (Some u) false storage [] [])
      | None => (Throw (str "SyntaxError"), AuthProvider storage)
      end
    else (Ok tt, Session None None false storage [] []).
Proof.
  unfold mount, AuthProvider, getItem. prog_unfold. simpl.
  destruct (truthy (storage !! str "token") && truthy (storage !! str "user")); [|done].
  by destruct (parse _).
Qed.

End handlers.

(** ** The invariant *)

Section invariant.
Context `{Profiles}.
Context (VITE_API_URL : option text).
Context (json_of_fields : list (text * text) → text).


Lemma truthy_is_Some a : truthy a = true → is_Some a ∧ a ≠ Some [].
Proof.
  destruct a as [t|]; simpl; [|done]. case_bool_decide; [done|].
  intros _. split; [eauto | congruence].
Qed.

Lemma failed_with_backed fallback error rq s : backed s → backed (failed_with fallback error rq s).
Proof. by intros []. Qed.

Lemma mount_backed storage : backed (mount (AuthProvider storage)).2.
Proof.
  rewrite mount_run.
  destruct (truthy (storage !! str "token") && truthy (storage !! str "user")) eqn:Ht.
  - apply andb_true_iff in Ht as [[Htok _]%truthy_is_Some [[data Hdata] _]%truthy_is_Some].
    rewrite Hdata. simpl. destruct (parse data) as [u|] eqn:Hu; simpl.
    + split; simpl; [done|done|]. intros p [= <-]. eauto.
    + split; simpl; [done| by intros [] | done].
  - split; simpl; [done| by intros [] | done].
Qed.

Lemma signIn_backed email password answer s :
  backed s → backed (signIn VITE_API_URL json_of_fields email password answer s).2.
Proof.
  intros Hs. destruct (signIn_error answer) as [error|] eqn:He.
  - rewrite (signIn_throws _ _ _ _ _ _ _ He). by apply failed_with_backed.
  - apply signIn_error_None in He as (message & u & token & ->).
    rewrite signIn_succeeds. split; simpl.
    + done.
    + intros _. rewrite lookup_insert_ne by done. rewrite lookup_insert. eauto.
    + intros p [= <-]. exists (stringify u). by rewrite lookup_insert, parse_stringify.
Qed.

Lemma updateProfile_backed updates answer s :
  backed s → backed (updateProfile VITE_API_URL updates answer s).2.
Proof.
  intros Hs. rewrite updateProfile_run. unfold authenticated.
  destruct (truthy _) eqn:Ht; simpl; [|by apply failed_with_backed].
  case_bool_decide as Hu; simpl; [|by apply failed_with_backed].
  destruct answer as [?|[] ?]; simpl; try by apply failed_with_backed.
  apply truthy_is_Some in Ht as [Htok _]. split; simpl.
  - split; eauto.
  - intros _. by rewrite lookup_insert_ne.
  - intros p [= <-]. eexists. by rewrite lookup_insert, parse_stringify.
Qed.

Lemma step_backed a s : backed s → backed (session_step VITE_API_URL json_of_fields a s).
Proof.
  intros Hs. destruct a; unfold session_step, handler.
  - rewrite signUp_run. destruct answer as [?|[] ?]; simpl;
      first [by apply failed_with_backed | by destruct Hs].
  - by apply signIn_backed.
  - rewrite signOut_run. split; simpl; [done| by intros [] | done].
  - by apply updateProfile_backed.
Qed.

Lemma session_backed storage s : session_reachable VITE_API_URL json_of_fields storage s → backed s.
Proof. induction 1; [apply mount_backed | by apply step_backed]. Qed.


(** A component outside every provider cannot render; inside, it reads the
    innermost provider's state. *)
Lemma useAuth_cases providers_above :
  match providers_above with
  | [] => useAuth providers_above = Throw (str "useAuth must be used within an AuthProvider")
  | s :: _ => useAuth providers_above = Ok (provided s)
  end.
Proof. by destruct providers_above. Qed.

(** What a component reads through [useAuth] under a provider whose session
    was reached from a page load: a user and a profile together, and with
    them a stored token. *)
Theorem useAuth_reads_backed storage s outer context :
  session_reachable VITE_API_URL json_of_fields storage s →
  useAuth (s :: outer) = Ok context →
  (is_Some (ctx_user context) ↔ is_Some (ctx_profile context))
  ∧ (is_Some (ctx_user context) → is_Some (localStorage s !! str "token")).
Proof.
  intros Hs [= <-]. destruct (session_backed _ _ Hs) as [Hboth Htoken _].
  by split.
Qed.

End invariant.

(** ** What the handlers do to a session *)

Section behaviour.
Context `{Profiles}.
Context (VITE_API_URL : option text).
Context (json_of_fields : list (text * text) → text).


Lemma parse_Some_truthy data p : parse data = Some p → truthy (Some data) = true.
Proof.
  intros Hp. simpl. case_bool_decide as Hd; [|done]. by rewrite Hd, parse_empty in Hp.
Qed.

(** The effect on a storage whose [user] key parses. *)
Lemma mount_parsed storage data p :
  truthy (storage !! str "token") = true →
  storage !! str "user" = Some data → parse data = Some p →
  mount (AuthProvider storage) = (Ok tt, Session (Some p) (Some p) false storage [] []).
Proof.
  intros Ht Hd Hp. rewrite mount_run, Ht, Hd, (parse_Some_truthy _ _ Hp). simpl.
  by rewrite Hp.
Qed.

(** A sign-in the server accepts stores the token and the user object
    under [token] and [user], sets [user] and [profile] to the object, and
    has sent the one request [api.login] builds. *)
Theorem signIn_signs_in email password message u token s :
  let s' := (signIn VITE_API_URL json_of_fields email password
               (Responded true (inr (LoginReply message (Some (u, token))))) s).2 in
  user s' = Some u ∧ profile s' = Some u
  ∧ localStorage s' !! str "token" = Some token
  ∧ localStorage s' !! str "user" ≫= parse = Some u
  ∧ sent s' = sent s ++ [api_login VITE_API_URL json_of_fields email password].
Proof.
  rewrite signIn_succeeds. simpl. repeat split.
  - rewrite lookup_insert_ne by done. by rewrite lookup_insert.
  - rewrite lookup_insert. simpl. apply parse_stringify.
Qed.

(** C39: a sign-in that throws, for a rejected request, a body that is not
    JSON, a response that is not [ok] or a reply without [data], leaves
    [user], [profile] and the storage as they were and shows the message it
    throws. *)
Theorem signIn_failure_keeps_session email password answer error s s' :
  signIn VITE_API_URL json_of_fields email password answer s = (Throw error, s') →
  signIn_error answer = Some error
  ∧ user s' = user s ∧ profile s' = profile s ∧ localStorage s' = localStorage s
  ∧ toasts s' = toasts s ++ [ToastError (js_or (Some error) (str "Error during login"))].
Proof.
  destruct (signIn_error answer) as [e|] eqn:He.
  - rewrite (signIn_throws _ _ _ _ _ _ _ He). by intros [= <- <-].
  - apply signIn_error_None in He as (message & u & token & ->). by rewrite signIn_succeeds.
Qed.

(** The session survives a reload: with a token that is not empty, the
    effect of a new page load on the storage of a backed session sets [user]
    and [profile] to the profile the session had, and ends the loading. *)
Theorem reload_restores_profile s p :
  backed s → profile s = Some p → truthy (localStorage s !! str "token") = true →
  mount (AuthProvider (localStorage s))
  = (Ok tt, Session (Some p) (Some p) false (localStorage s) [] []).
Proof.
  intros Hs Hp Ht. destruct (backed_user _ Hs p Hp) as (data & Hd & Hparse).
  by apply (mount_parsed _ data).
Qed.

(** [updateProfile] writes the merged object to [profile] and to the
    storage and leaves [user] as it was: until the page is loaded again
    [user] is the object from before the update, after it the merged one. *)
Theorem updateProfile_leaves_user_stale updates json s :
  authenticated s = true →
  let s' := (updateProfile VITE_API_URL updates (Responded true json) s).2 in
  user s' = user s
  ∧ profile s' = Some (spread (profile s) updates)
  ∧ user (mount (AuthProvider (localStorage s'))).2 = Some (spread (profile s) updates).
Proof.
  intros Ha. rewrite updateProfile_run, Ha. simpl. split; [done|]. split; [done|].
  apply andb_true_iff in Ha as [Ht _].
  erewrite mount_parsed; [done| |by apply lookup_insert_eq|by apply parse_stringify].
  by rewrite lookup_insert_ne.
Qed.

(** [signOut] always succeeds; it removes the two keys and nothing
    else, clears [user] and [profile], and an [updateProfile] after it throws
    before any request is made. *)
Theorem signOut_ends_session s updates answer :
  let s' := (signOut s).2 in
  result_of signOut s = Ok tt
  ∧ user s' = None ∧ profile s' = None
  ∧ localStorage s' = delete (str "user") (delete (str "token") (localStorage s))
  ∧ result_of (updateProfile VITE_API_URL updates answer) s' = Throw (str "Not authenticated")
  ∧ sent (updateProfile VITE_API_URL updates answer s').2 = sent s.
Proof.
  unfold result_of. rewrite updateProfile_run, signOut_run. unfold authenticated. simpl.
  rewrite lookup_delete_ne, lookup_delete by done. simpl.
  by rewrite app_nil_r.
Qed.

End behaviour.

(** The profile request takes its address from the build variable
    alone: without the variable the requests of [api.ts] go to the local
    address while [updateProfile] asks for [undefined/auth/profile]. *)
Theorem updateProfile_address_has_no_fallback `{Profiles} json_of_fields updates answer s :
  authenticated s = true →
  ∃ rq, sent (updateProfile None updates answer s).2 = sent s ++ [rq]
    ∧ req_url rq = str "undefined/auth/profile"
    ∧ API_URL None = str "http://localhost:3002/api"
    ∧ ∀ email password,
        req_url (api_login None json_of_fields email password)
        = str "http://localhost:3002/api/auth/login".
Proof.
  intros Ha. rewrite updateProfile_run, Ha. eexists.
  split; [by destruct answer as [?|[] ?]|]. split; [by vm_compute|]. split; by vm_compute.
Qed.

(** ** The theorems at a concrete session *)

Section examples.
#[local] Existing Instance toy_profiles.

Lemma signed_in_authenticated : authenticated signed_in = true.
Proof. vm_compute. reflexivity. Qed.

Lemma signed_in_backed : backed signed_in.
Proof. apply step_backed, mount_backed. Qed.


Lemma useAuth_reads_backed_witness :
  (is_Some (ctx_user (provided signed_in)) ↔ is_Some (ctx_profile (provided signed_in)))
  ∧ (is_Some (ctx_user (provided signed_in)) → is_Some (localStorage signed_in !! str "token")).
Proof.
  apply (useAuth_reads_backed None toy_json ∅ signed_in []); [apply handled, loaded | done].
Defined.

Lemma signIn_failure_keeps_session_witness :
  signIn_error (Rejected (str "Failed to fetch")) = Some (str "Failed to fetch")
  ∧ user (signIn None toy_json ada (str "pw") (Rejected (str "Failed to fetch")) signed_in).2
    = user signed_in.
Proof.
  pose proof (signIn_failure_keeps_session None toy_json ada (str "pw")
                (Rejected (str "Failed to fetch")) (str "Failed to fetch") signed_in _
                eq_refl) as (He & Hu & _).
  split; [exact He | exact Hu].
Defined.

Lemma reload_restores_profile_witness :
  mount (AuthProvider (localStorage signed_in))
  = (Ok tt, Session (Some ada) (Some ada) false (localStorage signed_in) [] []).
Proof.
  apply (@reload_restores_profile toy_profiles signed_in ada);
    [apply signed_in_backed | reflexivity | vm_compute; reflexivity].
Defined.

Lemma updateProfile_leaves_user_stale_witness :
  user (updateProfile None dot_org (Responded true (inr tt)) signed_in).2 = Some ada
  ∧ profile (updateProfile None dot_org (Responded true (inr tt)) signed_in).2
    = Some (ada ++ str ".org").
Proof.
  destruct (updateProfile_leaves_user_stale None dot_org (inr tt) signed_in
              signed_in_authenticated) as (Hu & Hp & _).
  split; [exact Hu | exact Hp].
Defined.

Lemma updateProfile_address_has_no_fallback_witness :
  ∃ rq, sent (updateProfile None dot_org (Responded true (inr tt)) signed_in).2
        = sent signed_in ++ [rq]
    ∧ req_url rq = str "undefined/auth/profile"
    ∧ API_URL None = str "http://localhost:3002/api"
    ∧ ∀ email password,
        req_url (api_login None toy_json email password)
        = str "http://localhost:3002/api/auth/login".
Proof.
  apply (updateProfile_address_has_no_fallback toy_json dot_org
           (Responded true (inr tt)) signed_in signed_in_authenticated).
Defined.

End examples.
