(* ===== verification/Upload.v ===== *)
(** * The upload list of the dashboard

    [src/project/src/components/FileUpload.tsx] keeps the list of the files
    dropped on it and drives one timer per file that raises its progress.
    The file holds

    - [File], [UploadedFile]: the objects of the list;
    - [accept], [maxSize], [dropzone_accepts]: what the drop zone lets
      through to [onDrop];
    - [upload_state]: the list [uploadedFiles] with the timers started and
      not yet cleared, each with the file name its callback holds;
    - [onDrop], [tick] (one firing of the callback of [setInterval]),
      [removeFile], [process_disabled] (the [disabled] of the button);
    - [upload_step] and [run]: drops, firings and removals in any order;
    - what holds of every list, that the progress of a file depends on the
      firings of its own timer alone when names are distinct, and what
      happens when they are not or when a file is removed while it loads;
    - the files the server's [validateFile] accepts against the ones the drop
      zone accepts.

    The state setter runs its function once per call.  [formatFileSize]
    and the markup are in [UploadView.v]. *)

From Stdlib Require Import ZArith Lia String.
From stdpp Require Import prelude list gmap.
From S2P Require Import Prelude JsString World Documents.

#[local] Open Scope Z_scope.

(** ** Files and the drop zone *)

Record File := MkFile {
  f_name : text;
  f_size : Z;
  f_type : text
}.

Inductive upload_status := Uploading | Success | Error.

#[export] Instance upload_status_eq_dec : EqDecision upload_status.
Proof. solve_decision. Defined.

Record UploadedFile := MkUploadedFile {
  up_file : File;
  up_status : upload_status;
  up_progress : Z;
  up_error : option text
}.

(** The [accept] of the drop zone: a MIME type with its extensions. *)
Definition accept : list (text * list text) :=
  [(str "application/pdf", [str ".pdf"]);
   (str "application/vnd.openxmlformats-officedocument.wordprocessingml.document",
    [str ".docx"]);
   (str "text/plain", [str ".txt"])].

Definition maxSize : Z := 10 * 1024 * 1024.

(** A file passes one entry of [accept] by its type or by the end of its
    name, both in lower case. *)
Definition accepted_by (f : File) (entry : text * list text) : bool :=
  bool_decide (js_toLowerCase (f_type f) = entry.1)
  || existsb (λ ext, js_endsWith (js_toLowerCase (f_name f)) (js_toLowerCase ext)) entry.2.

(** The files the drop zone hands to [onDrop]. *)
Definition dropzone_accepts (f : File) : bool :=
  existsb (accepted_by f) accept && (f_size f <=? maxSize).

(** ** The list and its timers *)

Record upload_state := UploadState {
  uploadedFiles : list UploadedFile;
  (** the timers running: the id [setInterval] returned and the file name
      the callback holds *)
  intervals : list (nat * text);
  next_interval : nat
}.

(** The component as first rendered. *)
Definition FileUpload : upload_state := UploadState [] [] 0.

Definition new_upload (file : File) : UploadedFile :=
  {| up_file := file; up_status := Uploading; up_progress := 0; up_error := None |}.

(** The timers [onDrop] starts, one per new file, in the order of the files. *)
Definition start_intervals (first : nat) (files : list File) : list (nat * text) :=
  imap (λ i file, ((first + i)%nat, f_name file)) files.

Definition onDrop (acceptedFiles : list File) (st : upload_state) : upload_state :=
  {| uploadedFiles := uploadedFiles st ++ (new_upload <$> acceptedFiles);
     intervals := intervals st ++ start_intervals (next_interval st) acceptedFiles;
     next_interval := (next_interval st + length acceptedFiles)%nat |}.

(** [updated[fileIndex].progress += 10] and the completion. *)
Definition advance (u : UploadedFile) : UploadedFile :=
  if 100 <=? up_progress u + 10 then
    {| up_file := up_file u; up_status := Success; up_progress := 100;
       up_error := up_error u |}
  else
    {| up_file := up_file u; up_status := up_status u;
       up_progress := up_progress u + 10; up_error := up_error u |}.

Definition clearInterval (interval : nat) (l : list (nat * text)) : list (nat * text) :=
  filter (λ t, t.1 ≠ interval) l.

Definition named (fileName : text) (u : UploadedFile) : Prop :=
  f_name (up_file u) = fileName.

#[export] Instance named_dec fileName u : Decision (named fileName u).
Proof. unfold named. apply _. Defined.

(** One firing of the callback of the timer [interval] started for the
    file [fileName]: the first entry of that name advances. *)
Definition tick (interval : nat) (fileName : text) (st : upload_state) : upload_state :=
  match list_find (named fileName) (uploadedFiles st) with
  | Some (fileIndex, u) =>
      {| uploadedFiles := <[fileIndex := advance u]> (uploadedFiles st);
         intervals := if 100 <=? up_progress u + 10
                      then clearInterval interval (intervals st)
                      else intervals st;
         next_interval := next_interval st |}
  | None => st
  end.

(** A timer fires only while it has not been cleared. *)
Definition fire (interval : nat) (st : upload_state) : upload_state :=
  match list_find (λ t, t.1 = interval) (intervals st) with
  | Some (_, (_, fileName)) => tick interval fileName st
  | None => st
  end.

Definition removeFile (fileName : text) (st : upload_state) : upload_state :=
  {| uploadedFiles := filter (λ u, ¬ named fileName u) (uploadedFiles st);
     intervals := intervals st;
     next_interval := next_interval st |}.

(** The [disabled] of the button [Process Documents]. *)
Definition process_disabled (st : upload_state) : bool :=
  bool_decide (length (uploadedFiles st) = 0%nat)
  || existsb (λ u, bool_decide (up_status u = Uploading)) (uploadedFiles st).

(** ** Events *)

Inductive upload_event :=
  | Drop (files : list File)
  | Fire (interval : nat)
  | Remove (fileName : text).

Definition upload_step (st : upload_state) (e : upload_event) : upload_state :=
  match e with
  | Drop files => onDrop (filter (λ f, dropzone_accepts f = true) files) st
  | Fire interval => fire interval st
  | Remove fileName => removeFile fileName st
  end.

Definition run (es : list upload_event) (st : upload_state) : upload_state :=
  foldl upload_step st es.

Definition is_fire (e : upload_event) : Prop :=
  match e with Fire _ => True | _ => False end.

(** ** Specifications *)

(** An entry as the handlers leave it: a progress in tens up to 100, done
    exactly at 100, never in error. *)
Record entry_ok (u : UploadedFile) : Prop := {
  entry_range : 0 ≤ up_progress u ≤ 100;
  entry_tens : (10 | up_progress u);
  entry_done : up_status u = Success ↔ up_progress u = 100;
  entry_no_error : up_status u ≠ Error ∧ up_error u = None
}.

Record upload_ok (st : upload_state) : Prop := {
  ok_entries : Forall entry_ok (uploadedFiles st);
  ok_intervals : Forall (λ t, (t.1 < next_interval st)%nat) (intervals st);
  ok_distinct : NoDup (intervals st).*1
}.

(** The file names of the list, in its order. *)
Definition names (st : upload_state) : list text :=
  (λ u, f_name (up_file u)) <$> uploadedFiles st.

(** The entry of a file whose timer has fired [n] times. *)
Definition after_firings (n : nat) (file : File) : UploadedFile :=
  {| up_file := file;
     up_status := if 10 <=? Z.of_nat n then Success else Uploading;
     up_progress := Z.min 100 (10 * Z.of_nat n);
     up_error := None |}.

(** The state after a drop of [files] on the first render when the timer of
    the file at index [i] has fired [count i] times. *)
Definition loading_state (files : list File) (count : nat → nat) : upload_state :=
  {| uploadedFiles := imap (λ i, after_firings (count i)) files;
     intervals := filter (λ t, (count t.1 < 10)%nat) (start_intervals 0 files);
     next_interval := length files |}.

(** ** Examples *)

Definition report : File := MkFile (str "Report.PDF") 2048 (str "").

Definition notes_plain : File := MkFile (str "notes") 10 (str "text/plain").

(** Two files of the same name dropped together. *)
Definition twins : upload_state :=
  onDrop [MkFile (str "a.txt") 1 (str "text/plain"); MkFile (str "a.txt") 2 (str "text/plain")]
         FileUpload.

(** One firing more of the timer [j]. *)
Definition bump (j : nat) (count : nat → nat) (i : nat) : nat :=
  if decide (i = j) then Datatypes.S (count i) else count i.

(** The firings of the timer [i] in a schedule. *)
Definition firings (schedule : list nat) (i : nat) : nat :=
  length (filter (λ j, j = i) schedule).

(** The file the server receives for a file of the browser. *)
Definition sent_file (f : File) (content : list N) : upload_file :=
  {| originalname := f_name f; buffer := content; file_size := f_size f;
     mimetype := f_type f |}.

(** ** Every list the component can show *)

Lemma new_upload_ok file : entry_ok (new_upload file).
Proof.
  split; simpl; [lia | by exists 0 | by split | by split].
Qed.

Lemma advance_ok u : entry_ok u → entry_ok (advance u).
Proof.
  intros [Hr [k Hk] Hd [He1 He2]]. unfold advance.
  destruct (100 <=? up_progress u + 10) eqn:Hp; split; simpl; try done; try lia.
  - by exists 10.
  - exists (k + 1). lia.
  - split; [|lia]. intros Hs. apply Hd in Hs. lia.
Qed.

Lemma start_intervals_ids first files :
  (start_intervals first files).*1 = seq first (length files).
Proof.
  unfold start_intervals. revert first.
  induction files as [|f files IH]; intros first; [done|]. simpl.
  rewrite Nat.add_0_r. f_equal. rewrite <- IH. rewrite !fmap_imap.
  apply imap_ext. intros i x _. simpl. f_equal. lia.
Qed.

Lemma clearInterval_ids interval l :
  NoDup l.*1 → NoDup (clearInterval interval l).*1.
Proof.
  intros Hl. unfold clearInterval. eapply sublist_NoDup; [exact Hl|].
  apply fmap_sublist, sublist_filter.
Qed.

Lemma onDrop_ok files st : upload_ok st → upload_ok (onDrop files st).
Proof.
  intros [He Hi Hd]. split; simpl.
  - apply Forall_app. split; [done|]. apply Forall_fmap, Forall_true. apply new_upload_ok.
  - apply Forall_app. split; [eapply Forall_impl; [exact Hi|]; simpl; lia|].
    apply Forall_forall. intros t Ht.
    assert (t.1 ∈ seq (next_interval st) (length files)) as Hs
      by (rewrite <- start_intervals_ids; by apply list_elem_of_fmap_2).
    apply elem_of_seq in Hs. lia.
  - rewrite fmap_app, start_intervals_ids. apply NoDup_app. split; [done|].
    split; [|apply NoDup_seq]. intros x Hx Hs. apply elem_of_seq in Hs.
    apply list_elem_of_fmap in Hx as (t & -> & Ht).
    rewrite Forall_forall in Hi. specialize (Hi t Ht). lia.
Qed.

Lemma tick_ok interval fileName st : upload_ok st → upload_ok (tick interval fileName st).
Proof.
  intros [He Hi Hd]. unfold tick.
  destruct (list_find _ _) as [[fileIndex u]|] eqn:Hf; [|done].
  apply list_find_Some in Hf as (Hu & _ & _). split; simpl.
  - apply Forall_insert; [done|]. apply advance_ok.
    by apply (Forall_lookup_1 _ _ _ _ He Hu).
  - case_match; [by apply Forall_filter_keep|done].
  - case_match; [by apply clearInterval_ids|done].
Qed.

Lemma fire_ok interval st : upload_ok st → upload_ok (fire interval st).
Proof.
  intros Hst. unfold fire. destruct (list_find _ _) as [[? [? fileName]]|]; [|done].
  by apply tick_ok.
Qed.

Lemma removeFile_ok fileName st : upload_ok st → upload_ok (removeFile fileName st).
Proof. intros [He Hi Hd]. split; simpl; [by apply Forall_filter_keep|done..]. Qed.

Lemma upload_step_ok st e : upload_ok st → upload_ok (upload_step st e).
Proof.
  destruct e; simpl; [apply onDrop_ok | apply fire_ok | apply removeFile_ok].
Qed.

Lemma run_ok es st : upload_ok st → upload_ok (run es st).
Proof.
  unfold run. revert st. induction es as [|e es IH]; intros st Hst; [done|].
  simpl. by apply IH, upload_step_ok.
Qed.

Lemma FileUpload_ok : upload_ok FileUpload.
Proof. split; simpl; [done | done | apply NoDup_nil_2]. Qed.

(** Whatever is dropped, removed and whichever timers fire, in any
    order, every entry of the list has a progress of 0, 10, ..., 100, is
    shown as done exactly at 100 and is never shown in error, and the timers
    running have distinct ids. *)
Theorem upload_list_ok es : upload_ok (run es FileUpload).
Proof. apply run_ok, FileUpload_ok. Qed.

(** ** Firings *)

Lemma advance_file u : up_file (advance u) = up_file u.
Proof. unfold advance. by case_match. Qed.

Lemma tick_names interval fileName st : names (tick interval fileName st) = names st.
Proof.
  unfold tick, names. destruct (list_find _ _) as [[k w]|] eqn:Hf; [|done]. simpl.
  apply list_find_Some in Hf as (Hk & _ & _).
  rewrite list_fmap_insert, advance_file. apply list_insert_id.
  by rewrite list_lookup_fmap, Hk.
Qed.

Lemma fire_names interval st : names (fire interval st) = names st.
Proof.
  unfold fire. destruct (list_find _ _) as [[? [? fileName]]|]; [|done].
  apply tick_names.
Qed.

(** An entry behind another one of the same name is out of reach of the
    timers: [findIndex] stops at the first. *)
Lemma tick_shadowed interval fileName st i j u :
  (j < i)%nat → uploadedFiles st !! i = Some u →
  names st !! j = Some (f_name (up_file u)) →
  uploadedFiles (tick interval fileName st) !! i = Some u.
Proof.
  intros Hji Hi Hj. unfold tick.
  destruct (list_find _ _) as [[k w]|] eqn:Hf; [|done]. simpl.
  apply list_find_Some in Hf as (Hk & Hn & Hleast).
  destruct (decide (k = i)) as [->|Hne]; [|by rewrite list_lookup_insert_ne].
  unfold names in Hj. rewrite list_lookup_fmap in Hj.
  destruct (uploadedFiles st !! j) as [v|] eqn:Hv; [|done].
  destruct (Hleast j v Hv Hji). unfold named in *. simpl in Hj. congruence.
Qed.

Lemma fire_shadowed interval st i j u :
  (j < i)%nat → uploadedFiles st !! i = Some u →
  names st !! j = Some (f_name (up_file u)) →
  uploadedFiles (fire interval st) !! i = Some u.
Proof.
  intros. unfold fire. destruct (list_find _ _) as [[? [? fileName]]|]; [|done].
  by eapply tick_shadowed.
Qed.

Lemma process_disabled_uploading st i u :
  uploadedFiles st !! i = Some u → up_status u = Uploading → process_disabled st = true.
Proof.
  intros Hi Hu. unfold process_disabled. apply orb_true_iff. right.
  apply existsb_exists. exists u. split; [|by apply bool_decide_eq_true].
  apply list_elem_of_In. by eapply list_elem_of_lookup_2.
Qed.

(** C40: of two entries with the same file name every timer finds the
    first.  Whichever timers fire, and however often, the second entry stays
    as it is; if it is loading, the button [Process Documents] stays
    disabled. *)
Theorem shadowed_entry_never_advances es st i j u :
  Forall is_fire es → (j < i)%nat → uploadedFiles st !! i = Some u →
  names st !! j = Some (f_name (up_file u)) →
  uploadedFiles (run es st) !! i = Some u
  ∧ (up_status u = Uploading → process_disabled (run es st) = true).
Proof.
  intros Hes Hji. revert st. unfold run.
  induction Hes as [|e es He Hes IH]; intros st Hi Hj; simpl.
  - split; [done|]. by apply (process_disabled_uploading st i).
  - destruct e as [|interval|]; try done. simpl. apply IH.
    + by eapply fire_shadowed.
    + by rewrite fire_names.
Qed.

Lemma NoDup_fst_unique {A B} (l : list (A * B)) x y1 y2 :
  NoDup l.*1 → (x, y1) ∈ l → (x, y2) ∈ l → y1 = y2.
Proof.
  induction l as [|[a b] l IH]; [by intros _ ?%elem_of_nil|].
  rewrite fmap_cons, NoDup_cons, !elem_of_cons. simpl. intros [Ha Hl] H1 H2.
  assert (∀ y, (a, y) ∈ l → False) as Hno
    by (intros y Hy; apply Ha; by apply (list_elem_of_fmap_2 fst) in Hy).
  destruct H1 as [H1|H1], H2 as [H2|H2]; simplify_eq; try done.
  - by destruct (Hno y2).
  - by destruct (Hno y1).
  - by apply IH.
Qed.

(** A timer whose file is not in the list finds no entry and is never
    cleared. *)
Lemma fire_keeps_orphan interval' st interval fileName :
  NoDup (intervals st).*1 → (interval, fileName) ∈ intervals st → fileName ∉ names st →
  (interval, fileName) ∈ intervals (fire interval' st).
Proof.
  intros Hd Hin Hn. unfold fire.
  destruct (list_find _ _) as [[k [t n]]|] eqn:Ht; [|done].
  apply list_find_Some in Ht as (Hk & Ht & _). simpl in Ht. subst t.
  unfold tick. destruct (list_find _ _) as [[k' w]|] eqn:Hf; [|done]. simpl.
  apply list_find_Some in Hf as (Hw & Hnamed & _).
  case_match; [|done]. apply list_elem_of_filter. split; [|done]. simpl.
  intros <-.
  assert (n = fileName) as ->
    by (eapply NoDup_fst_unique; [done|by eapply list_elem_of_lookup_2|done]).
  apply Hn. unfold names. apply list_elem_of_fmap. exists w.
  split; [done|]. by eapply list_elem_of_lookup_2.
Qed.

Lemma fire_distinct interval st :
  NoDup (intervals st).*1 → NoDup (intervals (fire interval st)).*1.
Proof.
  intros Hd. unfold fire. destruct (list_find _ _) as [[? [? n]]|]; [|done].
  unfold tick. destruct (list_find _ _) as [[? w]|]; [|done]. simpl.
  case_match; [by apply clearInterval_ids|done].
Qed.

Lemma removeFile_names fileName st : fileName ∉ names (removeFile fileName st).
Proof.
  unfold names, removeFile. simpl.
  intros (u & Hu & [Hn _]%list_elem_of_filter)%list_elem_of_fmap. by destruct Hn.
Qed.

Lemma orphan_kept es st interval fileName :
  Forall is_fire es → NoDup (intervals st).*1 →
  (interval, fileName) ∈ intervals st → fileName ∉ names st →
  (interval, fileName) ∈ intervals (run es st).
Proof.
  intros Hes. revert st. unfold run.
  induction Hes as [|e es He Hes IH]; intros st Hd Hin Hn; [done|].
  destruct e as [|interval'|]; try done. simpl. apply IH.
  - by apply fire_distinct.
  - by apply fire_keeps_orphan.
  - by rewrite fire_names.
Qed.

(** [removeFile] takes the entries of a name off the list and leaves
    the timers alone.  The timer of a removed file finds no entry when it
    fires, so it is never cleared: it is still running after any number of
    firings. *)
Theorem removed_file_timer_never_stops es st interval fileName :
  Forall is_fire es → upload_ok st → (interval, fileName) ∈ intervals st →
  (interval, fileName) ∈ intervals (run es (removeFile fileName st))
  ∧ fileName ∉ names (run es (removeFile fileName st)).
Proof.
  intros Hes [_ _ Hd] Hin. split.
  - apply orphan_kept; [done..|apply removeFile_names].
  - replace (names (run es (removeFile fileName st))) with (names (removeFile fileName st));
      [apply removeFile_names|].
    clear Hin Hd. generalize (removeFile fileName st). unfold run.
    induction Hes as [|e es He Hes IH]; intros st'; [done|].
    destruct e; try done. simpl. by rewrite <- IH, fire_names.
Qed.

(** ** Distinct names: each file follows its own timer *)

Lemma advance_after_firings n file :
  (n < 10)%nat → advance (after_firings n file) = after_firings (Datatypes.S n) file.
Proof.
  intros Hn. unfold advance, after_firings. simpl.
  rewrite (Z.min_r 100 (10 * Z.of_nat n)) by lia.
  destruct (Z.leb_spec 100 (10 * Z.of_nat n + 10)),
    (Z.leb_spec 10 (Z.of_nat (Datatypes.S n))), (Z.leb_spec 10 (Z.of_nat n));
    try lia; f_equal; lia.
Qed.

Lemma after_firings_done n file :
  (10 ≤ n)%nat → after_firings (Datatypes.S n) file = after_firings n file.
Proof.
  intros Hn. unfold after_firings.
  destruct (Z.leb_spec 10 (Z.of_nat (Datatypes.S n))), (Z.leb_spec 10 (Z.of_nat n));
    try lia; f_equal; lia.
Qed.

Lemma elem_of_start_intervals t files :
  t ∈ start_intervals 0 files ↔ ∃ file, files !! t.1 = Some file ∧ t.2 = f_name file.
Proof.
  unfold start_intervals. rewrite elem_of_lookup_imap. split.
  - intros (i & file & -> & Hi). eauto.
  - intros (file & Hi & Hn). exists t.1, file. split; [|done]. destruct t. simpl in *. by subst.
Qed.

Lemma list_find_named files (g : nat → File → UploadedFile) j file :
  (∀ i f, up_file (g i f) = f) → NoDup (f_name <$> files) → files !! j = Some file →
  list_find (named (f_name file)) (imap g files) = Some (j, g j file).
Proof.
  intros Hg Hd Hj. apply list_find_Some. rewrite list_lookup_imap, Hj.
  split; [done|]. split; [unfold named; by rewrite Hg|].
  intros i u Hi Hij Hn. rewrite list_lookup_imap in Hi.
  destruct (files !! i) as [f|] eqn:Hf; [|done]. injection Hi as <-.
  unfold named in Hn. rewrite Hg in Hn.
  assert (i = j); [|lia].
  eapply (NoDup_lookup _ _ _ _ Hd); rewrite list_lookup_fmap; [by rewrite Hf|].
  by rewrite Hj, Hn.
Qed.

(** The timer [j] is running in [loading_state] exactly when it belongs to
    a file and has fired less than ten times. *)
Lemma loading_state_running files count j file :
  files !! j = Some file → (count j < 10)%nat →
  ∃ k, list_find (λ t, t.1 = j) (intervals (loading_state files count))
       = Some (k, (j, f_name file)).
Proof.
  intros Hfile Hc. simpl.
  destruct (list_find_elem_of (λ t, t.1 = j)
              (filter (λ t, (count t.1 < 10)%nat) (start_intervals 0 files))
              (j, f_name file)) as [[k [t n]] Hf]; [|done|].
  { apply list_elem_of_filter. split; [done|]. apply elem_of_start_intervals. eauto. }
  exists k. rewrite Hf. apply list_find_Some in Hf as (Hk & Ht & _).
  apply list_elem_of_lookup_2, list_elem_of_filter in Hk as [_ Hin].
  apply elem_of_start_intervals in Hin as (file' & Hfile' & Hn).
  simpl in *. subst. by simplify_eq.
Qed.

Lemma loading_state_stopped files count j :
  (∀ file, files !! j = Some file → (10 ≤ count j)%nat) →
  list_find (λ t, t.1 = j) (intervals (loading_state files count)) = None.
Proof.
  intros Hj. apply list_find_None, Forall_forall.
  intros t [Hc (file & Hfile & _)%elem_of_start_intervals]%list_elem_of_filter Ht.
  rewrite Ht in *. specialize (Hj file Hfile). lia.
Qed.

Lemma loading_state_bump_done files count j :
  (∀ file, files !! j = Some file → (10 ≤ count j)%nat) →
  loading_state files (bump j count) = loading_state files count.
Proof.
  intros Hj. unfold loading_state. f_equal.
  - apply imap_ext. intros i file Hi. unfold bump. case_decide; [|done]. subst.
    apply after_firings_done. eauto.
  - apply filter_iff_elem. intros t (file & Hfile & _)%elem_of_start_intervals.
    unfold bump. case_decide as Ht; [|done].
    rewrite Ht in *. specialize (Hj file Hfile). lia.
Qed.

Lemma loading_state_bump files count j file :
  files !! j = Some file → (count j < 10)%nat →
  loading_state files (bump j count)
  = {| uploadedFiles :=
         <[j := after_firings (Datatypes.S (count j)) file]>
           (uploadedFiles (loading_state files count));
       intervals :=
         if 100 <=? 10 * Z.of_nat (count j) + 10
         then clearInterval j (intervals (loading_state files count))
         else intervals (loading_state files count);
       next_interval := length files |}.
Proof.
  intros Hfile Hc. unfold loading_state. simpl. f_equal.
  - apply list_eq. intros i. rewrite list_lookup_imap. unfold bump.
    destruct (decide (i = j)) as [->|Hne].
    + rewrite list_lookup_insert_eq, Hfile; [done|].
      rewrite length_imap. by eapply lookup_lt_Some.
    + by rewrite list_lookup_insert_ne, list_lookup_imap.
  - destruct (Z.leb_spec 100 (10 * Z.of_nat (count j) + 10)).
    + unfold clearInterval. rewrite list_filter_filter. apply list_filter_iff.
      intros t. unfold bump. case_decide as Ht; [rewrite Ht; lia|tauto].
    + apply list_filter_iff. intros t. unfold bump.
      case_decide as Ht; [rewrite Ht; lia|tauto].
Qed.

(** One firing in [loading_state] is one more firing counted. *)
Lemma fire_loading_state files count j :
  NoDup (f_name <$> files) →
  fire j (loading_state files count) = loading_state files (bump j count).
Proof.
  intros Hd. unfold fire.
  destruct (files !! j) as [file|] eqn:Hfile;
    [destruct (decide (count j < 10)%nat) as [Hc|Hc]|].
  - destruct (loading_state_running files count j file Hfile Hc) as [k ->].
    unfold tick. simpl uploadedFiles.
    rewrite (list_find_named files (λ i, after_firings (count i)) j file) by done.
    rewrite (loading_state_bump _ _ _ file), advance_after_firings by done.
    simpl. by rewrite (Z.min_r 100 (10 * Z.of_nat (count j))) by lia.
  - rewrite loading_state_stopped, loading_state_bump_done;
      [done|intros; lia..].
  - rewrite loading_state_stopped, loading_state_bump_done;
      [done|intros; congruence..].
Qed.

Lemma run_loading_state files count schedule :
  NoDup (f_name <$> files) →
  ∃ count', run (Fire <$> schedule) (loading_state files count) = loading_state files count'
    ∧ ∀ i, count' i = (count i + firings schedule i)%nat.
Proof.
  intros Hd. revert count. unfold run.
  induction schedule as [|j schedule IH]; intros count.
  - exists count. split; [done|]. intros i. unfold firings. simpl. lia.
  - rewrite fmap_cons. cbn [foldl upload_step]. rewrite fire_loading_state by done.
    destruct (IH (bump j count)) as (count' & -> & Hcount'). exists count'.
    split; [done|]. intros i. rewrite Hcount'. unfold firings, bump.
    rewrite filter_cons. repeat case_decide; simpl; congruence || lia.
Qed.

Lemma onDrop_loading_state files :
  onDrop files FileUpload = loading_state files (λ _, 0%nat).
Proof.
  unfold onDrop, loading_state. simpl. f_equal.
  - rewrite <- (imap_const new_upload files)%function. by apply imap_ext.
  - symmetry. apply filter_all, Forall_true. intros. lia.
Qed.

(** C29: when the files of a drop have distinct names, the entry of each
    file depends on the firings of its own timer alone, in whatever order the
    timers fire: after [n] firings it shows a progress of [10 n], it is done
    from the tenth on, and its timer is running exactly until then. *)
Theorem progress_follows_own_timer files schedule i file :
  NoDup (f_name <$> files) → files !! i = Some file →
  let st := run (Fire <$> schedule) (onDrop files FileUpload) in
  uploadedFiles st !! i = Some (after_firings (firings schedule i) file)
  ∧ ((i, f_name file) ∈ intervals st ↔ (firings schedule i < 10)%nat).
Proof.
  intros Hd Hi. simpl. rewrite onDrop_loading_state.
  destruct (run_loading_state files (λ _, 0%nat) schedule Hd) as (count & -> & Hcount).
  simpl. rewrite list_lookup_imap, Hi, Hcount. split; [done|].
  rewrite list_elem_of_filter, elem_of_start_intervals. simpl. rewrite Hcount. simpl.
  split; [by intros []|]. eauto.
Qed.

(** ** The drop zone and the server *)

Lemma accepted_by_extension f mime ext :
  js_toLowerCase ext `suffix_of` js_toLowerCase (f_name f) →
  accepted_by f (mime, [ext]) = true.
Proof.
  intros Hs. unfold accepted_by. simpl. apply orb_true_iff. right.
  apply orb_true_iff. left. by apply js_endsWith_true.
Qed.

(** The extension [getFileExtension] finds in a name without a slash ends
    the name, after a period, when both are put in lower case. *)
Lemma getFileExtension_suffix name :
  slash ∉ name → getFileExtension name ≠ [] →
  (period :: getFileExtension name) `suffix_of` js_toLowerCase name.
Proof.
  intros Hs Hne. unfold getFileExtension in *.
  destruct (path_extname_suffix name Hs) as [Hnil|(ext & Hext & Hsuf)].
  - by rewrite Hnil in Hne.
  - rewrite Hext. apply js_toLowerCase_suffix in Hsuf. exact Hsuf.
Qed.

(** C38: a file the server's [validateFile] accepts, sent under the name it
    has in the browser, is one the drop zone lets through: the size limits
    are the same, and the extension the server reads from the name is one
    the drop zone matches at the end of the name. *)
Theorem server_accepted_passes_dropzone f content w :
  slash ∉ f_name f →
  (validateFile documentService (Some (sent_file f content)) w).1 = Ok tt →
  dropzone_accepts f = true.
Proof.
  intros Hs (f' & [= <-] & Hsize & Hext)%validateFile_ok. simpl in *.
  unfold dropzone_accepts. apply andb_true_iff. split; [|by apply Z.leb_le].
  assert (getFileExtension (f_name f) ≠ []) as Hne.
  { intros Heq. rewrite Heq in Hext.
    repeat (apply elem_of_cons in Hext as [Hext|Hext]; [discriminate|]).
    by apply elem_of_nil in Hext. }
  pose proof (getFileExtension_suffix _ Hs Hne) as Hsuf.
  apply existsb_exists. unfold accept.
  repeat (apply elem_of_cons in Hext as [Hext|Hext]);
    [..|by apply elem_of_nil in Hext]; rewrite Hext in Hsuf.
  - exists (str "application/pdf", [str ".pdf"]).
    split; [simpl; auto | apply accepted_by_extension; exact Hsuf].
  - eexists (_, [str ".docx"]).
    split; [simpl; auto | apply accepted_by_extension; exact Hsuf].
  - exists (str "text/plain", [str ".txt"]).
    split; [simpl; auto | apply accepted_by_extension; exact Hsuf].
Qed.

(** The converse fails: the drop zone lets a file through by its type
    alone, and the server refuses a name without one of its extensions. *)
Theorem dropzone_accepted_refused_by_server content w :
  dropzone_accepts notes_plain = true
  ∧ validateFile documentService (Some (sent_file notes_plain content)) w
    = (Throw (str "File type  not supported. Allowed types: pdf, docx, txt"), w).
Proof. split; [by vm_compute|]. rewrite validateFile_run. f_equal. Qed.

(** ** The theorems at concrete lists *)

Lemma shadowed_entry_never_advances_witness :
  uploadedFiles (run [Fire 0%nat; Fire 1%nat; Fire 0%nat] twins) !! 1%nat
  = Some (new_upload (MkFile (str "a.txt") 2 (str "text/plain")))
  ∧ process_disabled (run [Fire 0%nat; Fire 1%nat; Fire 0%nat] twins) = true.
Proof.
  destruct (shadowed_entry_never_advances [Fire 0%nat; Fire 1%nat; Fire 0%nat] twins 1 0
              (new_upload (MkFile (str "a.txt") 2 (str "text/plain"))))
    as [Hentry Hbutton]; [repeat constructor | lia | reflexivity | reflexivity |].
  split; [exact Hentry | exact (Hbutton eq_refl)].
Defined.

Lemma removed_file_timer_never_stops_witness :
  (0%nat, str "a.txt") ∈ intervals (run [Fire 0%nat; Fire 0%nat] (removeFile (str "a.txt") twins))
  ∧ str "a.txt" ∉ names (run [Fire 0%nat; Fire 0%nat] (removeFile (str "a.txt") twins)).
Proof.
  apply removed_file_timer_never_stops.
  - repeat constructor.
  - apply onDrop_ok, FileUpload_ok.
  - left.
Defined.

Lemma progress_follows_own_timer_witness :
  uploadedFiles (run (Fire <$> [0; 1; 0]%nat) (onDrop [report; notes_plain] FileUpload))
    !! 0%nat
  = Some (after_firings 2 report).
Proof.
  apply (progress_follows_own_timer [report; notes_plain] [0; 1; 0]%nat 0 report);
    [|reflexivity].
  apply (bool_decide_unpack _). vm_compute. exact I.
Defined.

Lemma server_accepted_passes_dropzone_witness : dropzone_accepts report = true.
Proof.
  apply (server_accepted_passes_dropzone report [] empty_world).
  - apply (bool_decide_unpack _). vm_compute. exact I.
  - vm_compute. reflexivity.
Defined.
