(* ===== verification/View.v ===== *)
(** * React elements: what a component renders

    The components under [src/project/src] are functions from their state to
    a tree of elements.  This file holds that tree ([node]) and what a
    browser does with it, so that the markup of a component can be modelled
    as the function it is (its [render]) and the handlers it attaches can be
    reached the way a user reaches them.

    How JSX is read:

    - [<tag a="x" b={e} c>children</tag>] is [Element tag key props children]:
      [key] is the [key] attribute (React keeps it out of the props), the
      other attributes are the props in source order, [c] alone is
      [c={true}].  A component of a library ([motion.div], an icon,
      [DashboardLayout]) is an element whose tag is its name;
    - the text between tags is a [TextNode], with the white space at line
      breaks removed as JSX removes it; [{e}] of a text or a number is the
      text it prints;
    - [{cond && x}] renders [x] or nothing ([Nothing]), [{c ? x : y}] one of
      the two, [{list.map(f)}] the elements of the list in place;
    - a callback is a [Handler]: the function from what the event carries
      ([event_payload]) to the call of the component it makes, if any.  A callback
      that closes over a value of the render holds that value.
    - numbers are rationals: [index * 0.1] is exact here.

    What the browser lets a user do with an element is [offered]: click what
    has an [onClick], type any text into a text input or a textarea that is
    neither disabled nor read-only, choose one of the options of a select,
    toggle a checkbox, pick files in a file input.  This part is the
    behaviour of the DOM, not code of the repository. *)

From Stdlib Require Import ZArith QArith Lia String.
From stdpp Require Import prelude list.
From S2P Require Import Prelude JsString.

(** ** Elements *)

Inductive scalar :=
  | SText (t : text)
  | SNum (q : Q)
  | SBool (b : bool).

(** What an event hands to its callback. *)
Inductive event_payload :=
  | Click
  | Change (value : text)
  | Pick (files : list text).

Inductive prop_value (action : Type) : Type :=
  | Val (v : scalar)
  | Obj (fields : list (text * scalar))
  | Handler (h : event_payload → option action)
  | Spread.

Arguments Val {action} v.
Arguments Obj {action} fields.
Arguments Handler {action} h.
Arguments Spread {action}.

#[warnings="-register-all"]
Inductive node (action : Type) : Type :=
  | Element (tag : text) (key : option text)
      (props : list (text * prop_value action)) (children : list (node action))
  | TextNode (t : text)
  | Nothing.

Arguments Element {action} tag key props children.
Arguments TextNode {action} t.
Arguments Nothing {action}.

(** ** Writing elements *)

(** A field of an object literal. *)
Definition num (name : string) (q : Q) : text * scalar := (str name, SNum q).
Definition field (name value : string) : text * scalar := (str name, SText (str value)).
Definition field_text (name : string) (value : text) : text * scalar := (str name, SText value).

Section write.
Context {action : Type}.

Definition el (tag : string) (props : list (text * prop_value action))
    (children : list (node action)) : node action :=
  Element (str tag) None props children.

Definition keyed (k : text) (n : node action) : node action :=
  match n with
  | Element tag _ props children => Element tag (Some k) props children
  | _ => n
  end.

Definition txt (s : string) : node action := TextNode (str s).

(** [{cond && x}] *)
Definition when (cond : bool) (x : node action) : node action :=
  if cond then x else Nothing.

Definition attr (name value : string) : text * prop_value action :=
  (str name, Val (SText (str value))).
Definition attr_text (name : string) (value : text) : text * prop_value action :=
  (str name, Val (SText value)).
Definition attr_num (name : string) (value : Q) : text * prop_value action :=
  (str name, Val (SNum value)).
Definition attr_bool (name : string) (value : bool) : text * prop_value action :=
  (str name, Val (SBool value)).
Definition attr_obj (name : string) (fields : list (text * scalar))
    : text * prop_value action :=
  (str name, Obj fields).
Definition className (value : string) : text * prop_value action := attr "className" value.

(** [onClick={() => call}] *)
Definition onClick (call : action) : text * prop_value action :=
  (str "onClick", Handler (λ _, Some call)).

(** [onChange={(e) => call(e.target.value)}] *)
Definition onChange (call : text → action) : text * prop_value action :=
  (str "onChange",
   Handler (λ p, match p with Change v => Some (call v) | _ => None end)).

(** An icon of [lucide-react]. *)
Definition icon (name classes : string) : node action := el name [className classes] [].

(** ** Reading elements *)

Definition tag_of (n : node action) : option text :=
  match n with Element tag _ _ _ => Some tag | _ => None end.

Definition key_of (n : node action) : option text :=
  match n with Element _ key _ _ => key | _ => None end.

Definition props_of (n : node action) : list (text * prop_value action) :=
  match n with Element _ _ props _ => props | _ => [] end.

Definition children_of (n : node action) : list (node action) :=
  match n with Element _ _ _ children => children | _ => [] end.

(** The first prop of the name. *)
Definition prop_of (name : text) (n : node action) : option (prop_value action) :=
  (λ ip, ip.2.2) <$> list_find (λ p, p.1 = name) (props_of n).

Definition text_prop (name : text) (n : node action) : option text :=
  match prop_of name n with Some (Val (SText t)) => Some t | _ => None end.

Definition flag (name : text) (n : node action) : bool :=
  match prop_of name n with Some (Val (SBool b)) => b | _ => false end.

Definition handler_of (name : text) (n : node action) : option (event_payload → option action) :=
  match prop_of name n with Some (Handler h) => Some h | _ => None end.

(** The text a reader sees, left to right. *)
Fixpoint text_content (n : node action) : text :=
  match n with
  | Element _ _ _ children => children ≫= text_content
  | TextNode t => t
  | Nothing => []
  end.

(** The node and everything below it, parents first. *)
Fixpoint descendants (n : node action) : list (node action) :=
  n :: match n with
       | Element _ _ _ children => children ≫= descendants
       | _ => []
       end.

(** The node at a path of child indices. *)
Fixpoint locate (path : list nat) (n : node action) : option (node action) :=
  match path with
  | [] => Some n
  | i :: path' => children_of n !! i ≫= locate path'
  end.

Definition with_tag (tag : string) (n : node action) : list (node action) :=
  filter (λ d, tag_of d = Some (str tag)) (descendants n).

(** ** Keys

    React asks for the keys of the children of an element to be pairwise
    distinct; it identifies a child across renders by its key. *)

Definition keys_of (children : list (node action)) : list text := omap key_of children.

Definition keys_distinct (n : node action) : Prop :=
  Forall (λ d, NoDup (keys_of (children_of d))) (descendants n).

(** ** What a user can do *)

Definition is_tag (tag : string) (n : node action) : bool :=
  bool_decide (tag_of n = Some (str tag)).

Definition has_type (type : string) (n : node action) : bool :=
  bool_decide (text_prop (str "type") n = Some (str type)).

(** The values of the options of a select. *)
Definition option_values (n : node action) : list text :=
  omap (text_prop (str "value")) (filter (λ c, is_tag "option" c = true) (children_of n)).

Definition editable (n : node action) : bool :=
  negb (flag (str "disabled") n) && negb (flag (str "readOnly") n).

(** The event [p] can happen on the element [n]. *)
Definition offered (n : node action) (p : event_payload) : bool :=
  match p with
  | Click => negb (flag (str "disabled") n)
  | Change v =>
      editable n
      && ((is_tag "input" n && negb (has_type "file" n))
          || is_tag "textarea" n
          || (is_tag "select" n && js_includes (option_values n) v)
          || is_tag "ChromePicker" n)
  | Pick _ => editable n && is_tag "input" n && has_type "file" n
  end.

Definition event_name (p : event_payload) : text :=
  match p with Click => str "onClick" | _ => str "onChange" end.

(** The call the event [p] on the element at [path] makes, if any. *)
Definition dispatch (view : node action) (path : list nat) (p : event_payload) : option action :=
  n ← locate path view;
  if offered n p then h ← handler_of (event_name p) n; h p else None.

(** The call the event [p] makes on the element itself. *)
Definition own_call (p : event_payload) (n : node action) : option action :=
  if offered n p then h ← handler_of (event_name p) n; h p else None.

(** The calls the event [p] can make somewhere in the tree, parents first. *)
Fixpoint calls (p : event_payload) (n : node action) : list action :=
  match n with
  | Element _ _ _ children => option_list (own_call p n) ++ (children ≫= calls p)
  | _ => []
  end.

(** No prop of the tree is a callback. *)
Fixpoint no_callbacks (n : node action) : bool :=
  match n with
  | Element _ _ props children =>
      forallb (λ pr, match pr.2 with Handler _ => false | _ => true end) props
      && forallb no_callbacks children
  | _ => true
  end.

Definition map_prop {parent : Type} (f : action → parent) (v : prop_value action)
    : prop_value parent :=
  match v with
  | Val x => Val x
  | Obj fields => Obj fields
  | Handler h => Handler (λ p, f <$> h p)
  | Spread => Spread
  end.

(** The same tree with every call translated: a component rendered inside
    another one, whose calls the parent takes as its own. *)
Fixpoint map_calls {parent : Type} (f : action → parent) (n : node action) : node parent :=
  match n with
  | Element tag key props children =>
      Element tag key (prod_map id (map_prop f) <$> props) (map_calls f <$> children)
  | TextNode t => TextNode t
  | Nothing => Nothing
  end.

End write.

(** ** Induction on elements *)

Section node_induction.
Context {action : Type} (P : node action → Prop).
Context (Helement : ∀ tag key props children, Forall P children →
                      P (Element tag key props children)).
Context (Htext : ∀ t, P (TextNode t)) (Hnothing : P Nothing).

Fixpoint node_induction (n : node action) : P n :=
  match n with
  | Element tag key props children =>
      Helement tag key props children
        ((fix go cs : Forall P cs :=
            match cs with
            | [] => @List.Forall_nil _ P
            | c :: cs' => @List.Forall_cons _ P c cs' (node_induction c) (go cs')
            end) children)
  | TextNode t => Htext t
  | Nothing => Hnothing
  end.

End node_induction.

(** ** Facts *)

Section facts.
Context {action : Type}.
Implicit Types n d view : node action.

Lemma descendants_self n : n ∈ descendants n.
Proof. destruct n; simpl; left. Qed.

Lemma descendants_child tag key props children c d :
  c ∈ children → d ∈ descendants c →
  d ∈ descendants (Element tag key props children : node action).
Proof.
  intros Hc Hd. simpl. right. apply list_elem_of_bind. eauto.
Qed.

(** What a path finds is below the node. *)
Lemma locate_descendant path n d : locate path n = Some d → d ∈ descendants n.
Proof.
  revert n. induction path as [|i path IH]; intros n; simpl.
  - intros [= ->]. apply descendants_self.
  - destruct (children_of n !! i) as [c|] eqn:Hc; [|done]. simpl. intros Hd%IH.
    destruct n as [tag key props children| |]; try done.
    eapply descendants_child; [|done]. by eapply list_elem_of_lookup_2.
Qed.

Lemma dispatch_Some view path p a :
  dispatch view path p = Some a →
  ∃ n h, n ∈ descendants view ∧ offered n p = true
         ∧ handler_of (event_name p) n = Some h ∧ h p = Some a.
Proof.
  unfold dispatch. destruct (locate path view) as [n|] eqn:Hn; [|done]. simpl.
  destruct (offered n p) eqn:Ho; [|done].
  destruct (handler_of _ n) as [h|] eqn:Hh; [|done]. simpl. intros Ha.
  exists n, h. split; [by eapply locate_descendant|done].
Qed.

Lemma elem_of_option_list {A} (a : A) (o : option A) : a ∈ option_list o ↔ o = Some a.
Proof.
  destruct o as [b|]; simpl.
  - rewrite list_elem_of_singleton. split; congruence.
  - split; [by intros ?%elem_of_nil|done].
Qed.

(** A call is dispatched at some path exactly when it is among the calls of
    the tree. *)
Lemma dispatch_calls view p a : (∃ path, dispatch view path p = Some a) ↔ a ∈ calls p view.
Proof.
  induction view as [tag key props children IH|t|] using node_induction.
  - split.
    + intros [[|i path] Hd]; simpl.
      * apply elem_of_app. left. by apply elem_of_option_list.
      * unfold dispatch in Hd. simpl in Hd.
        destruct (children !! i) as [c|] eqn:Hc; [|done].
        apply elem_of_app. right. apply list_elem_of_bind. exists c.
        split; [|by eapply list_elem_of_lookup_2].
        eapply (proj1 (Forall_lookup _ _) IH); [done|]. by exists path.
    + simpl. intros [Ha|Ha]%elem_of_app.
      * exists []. apply elem_of_option_list in Ha. exact Ha.
      * apply list_elem_of_bind in Ha as (c & Ha & [i Hc]%list_elem_of_lookup).
        apply (proj1 (Forall_lookup _ _) IH i c Hc) in Ha as [path Hd].
        exists (i :: path). unfold dispatch in *. simpl. by rewrite Hc.
  - split; [|simpl; intros Ha; by apply elem_of_nil in Ha].
    intros [[|i path] Hd]; unfold dispatch in Hd; simpl in Hd; [|done].
    by destruct (offered _ _).
  - split; [|simpl; intros Ha; by apply elem_of_nil in Ha].
    intros [[|i path] Hd]; unfold dispatch in Hd; simpl in Hd; [|done].
    by destruct (offered _ _).
Qed.

Lemma children_of_el tag props (children : list (node action)) :
  children_of (el tag props children) = children.
Proof. done. Qed.

Lemma locate_cons i path n : locate (i :: path) n = children_of n !! i ≫= locate path.
Proof. done. Qed.

Lemma text_content_el tag props (children : list (node action)) :
  text_content (el tag props children) = children ≫= text_content.
Proof. done. Qed.

Lemma key_of_keyed k tag props (children : list (node action)) :
  key_of (keyed k (el tag props children)) = Some k.
Proof. done. Qed.

Lemma keys_of_keyed {A} (f : A → text) (g : A → node action) l :
  (∀ x, key_of (g x) = Some (f x)) → keys_of (g <$> l) = f <$> l.
Proof.
  intros Hk. unfold keys_of. induction l as [|x l IH]; [done|].
  rewrite !fmap_cons. cbn [omap list_omap]. rewrite Hk. by f_equal.
Qed.

Lemma keys_of_imap {A} (f : A → text) (g : nat → A → node action) l :
  (∀ i x, key_of (g i x) = Some (f x)) → keys_of (imap g l) = f <$> l.
Proof.
  intros Hk. unfold keys_of. revert g Hk. induction l as [|x l IH]; intros g Hk; [done|].
  cbn [imap omap list_omap fmap list_fmap]. rewrite Hk. f_equal. apply IH.
  intros. apply Hk.
Qed.

Lemma keys_distinct_element tag key props (children : list (node action)) :
  keys_distinct (Element tag key props children)
  ↔ NoDup (keys_of children) ∧ Forall keys_distinct children.
Proof. unfold keys_distinct. simpl. by rewrite Forall_cons, Forall_bind. Qed.

Lemma keys_distinct_when (b : bool) n :
  keys_distinct (when b n) ↔ (b = true → keys_distinct n).
Proof.
  destruct b; simpl; [split; [by intros ? _|by intros H; apply H]|].
  split; [done|]. intros _. unfold keys_distinct. simpl. repeat constructor.
Qed.

(** The calls of the elements of a list built with its indices. *)
Lemma calls_imap {A} p (g : nat → A → node action) (c : A → list action) l :
  (∀ i x, calls p (g i x) = c x) → imap g l ≫= calls p = l ≫= c.
Proof.
  intros Hc. revert g Hc. induction l as [|x l IH]; intros g Hc; [done|].
  cbn [imap]. rewrite !bind_cons, Hc. f_equal. apply IH. intros. apply Hc.
Qed.

Lemma calls_el p tag props (children : list (node action)) :
  calls p (el tag props children)
  = option_list (own_call p (el tag props children)) ++ (children ≫= calls p).
Proof. done. Qed.

Lemma bind_no_calls {A} (l : list A) : l ≫= (λ _, @nil action) = [].
Proof. by induction l. Qed.

Lemma calls_keyed p k tag props (children : list (node action)) :
  calls p (keyed k (el tag props children)) = calls p (el tag props children).
Proof. done. Qed.

Lemma keys_distinct_keyed k tag props (children : list (node action)) :
  keys_distinct (keyed k (el tag props children)) ↔ keys_distinct (el tag props children).
Proof. unfold keyed, el. by rewrite !keys_distinct_element. Qed.

(** The calls of the elements built from a list. *)
Lemma calls_fmap {A} p (g : A → node action) (c : A → list action) l :
  (∀ x, calls p (g x) = c x) → (g <$> l) ≫= calls p = l ≫= c.
Proof.
  intros Hc. induction l as [|x l IH]; [done|].
  by rewrite fmap_cons, !bind_cons, Hc, IH.
Qed.

Lemma bind_singletons {A B} (g : A → B) (l : list A) : l ≫= (λ x, [g x]) = g <$> l.
Proof. induction l as [|x l IH]; [done|]. by rewrite bind_cons, fmap_cons, IH. Qed.

Lemma no_callbacks_handler name tag key props (children : list (node action)) :
  forallb (λ pr, match pr.2 with Handler _ => false | _ => true end) props = true →
  handler_of name (Element tag key props children) = None.
Proof.
  intros Hp. unfold handler_of, prop_of. simpl.
  destruct (list_find _ props) as [[i pr]|] eqn:Hfind; [|done].
  apply list_find_Some in Hfind as (Hin%list_elem_of_lookup_2 & _).
  rewrite forallb_forall in Hp. apply list_elem_of_In, Hp in Hin. simpl.
  by destruct pr.2.
Qed.

(** A tree without callbacks makes no call, whatever the event. *)
Lemma no_callbacks_calls p n : no_callbacks n = true → calls p n = [].
Proof.
  induction n as [tag key props children IH|t|] using node_induction; [|done..].
  simpl. intros [Hp Hc]%andb_true_iff. unfold own_call.
  rewrite (no_callbacks_handler _ _ _ _ _ Hp).
  assert (children ≫= calls p = []) as ->; [|by destruct (offered _ p)].
  induction IH as [|c cs Hcalls _ IHcs]; [done|].
  apply andb_true_iff in Hc as [Hc Hcs]. by rewrite bind_cons, Hcalls, IHcs.
Qed.

Lemma calls_when p (b : bool) n : calls p (when b n) = if b then calls p n else [].
Proof. by destruct b. Qed.

Lemma keys_of_app (l1 l2 : list (node action)) : keys_of (l1 ++ l2) = keys_of l1 ++ keys_of l2.
Proof. unfold keys_of. apply omap_app. Qed.

End facts.

(** ** A component inside another *)

Section inside.
Context {action parent : Type} (f : action → parent).
Implicit Types n : node action.

Lemma prop_of_map_calls name n :
  prop_of name (map_calls f n) = map_prop f <$> prop_of name n.
Proof.
  destruct n as [tag key props children|t|]; try done.
  unfold prop_of. simpl. rewrite list_find_fmap.
  by destruct (list_find _ props) as [[i [k v]]|].
Qed.

Lemma text_prop_map_calls name n : text_prop name (map_calls f n) = text_prop name n.
Proof.
  unfold text_prop. rewrite prop_of_map_calls.
  by destruct (prop_of name n) as [[[]| | |]|].
Qed.

Lemma flag_map_calls name n : flag name (map_calls f n) = flag name n.
Proof.
  unfold flag. rewrite prop_of_map_calls. by destruct (prop_of name n) as [[[]| | |]|].
Qed.

Lemma is_tag_map_calls tag n : is_tag tag (map_calls f n) = is_tag tag n.
Proof. by destruct n. Qed.

Lemma option_values_map_calls n : option_values (map_calls f n) = option_values n.
Proof.
  destruct n as [tag key props children|t|]; try done.
  unfold option_values. cbn [map_calls children_of].
  induction children as [|c cs IH]; [done|].
  rewrite fmap_cons, !filter_cons, is_tag_map_calls.
  destruct (decide (is_tag "option" c = true)); [|done].
  cbn [omap list_omap]. by rewrite text_prop_map_calls, IH.
Qed.

Lemma offered_map_calls n p : offered (map_calls f n) p = offered n p.
Proof.
  unfold offered, editable, has_type.
  by rewrite !flag_map_calls, !is_tag_map_calls, option_values_map_calls,
    text_prop_map_calls.
Qed.

Lemma own_call_map_calls p n : own_call p (map_calls f n) = f <$> own_call p n.
Proof.
  unfold own_call, handler_of. rewrite offered_map_calls, prop_of_map_calls.
  destruct (offered n p); [|done]. by destruct (prop_of _ n) as [[| | |]|].
Qed.

(** The calls of a component rendered inside another are its own calls,
    translated. *)
Lemma calls_map_calls p n : calls p (map_calls f n) = f <$> calls p n.
Proof.
  induction n as [tag key props children IH|t|] using node_induction; try done.
  change (calls p (map_calls f (Element tag key props children)))
    with (option_list (own_call p (map_calls f (Element tag key props children)))
          ++ ((map_calls f <$> children) ≫= calls p)).
  rewrite own_call_map_calls. cbn [calls]. rewrite fmap_app. f_equal.
  - by destruct (own_call p _).
  - clear -IH. induction IH as [|c cs Hc _ IHcs]; [done|].
    by rewrite fmap_cons, !bind_cons, fmap_app, Hc, IHcs.
Qed.

Lemma keys_of_map_calls (children : list (node action)) :
  keys_of (map_calls f <$> children) = keys_of children.
Proof.
  unfold keys_of. induction children as [|c cs IH]; [done|].
  rewrite fmap_cons. cbn [omap list_omap]. rewrite IH. by destruct c.
Qed.

Lemma keys_distinct_map_calls n : keys_distinct (map_calls f n) ↔ keys_distinct n.
Proof.
  induction n as [tag key props children IH|t|] using node_induction;
    [|split; intros _; unfold keys_distinct; simpl; by repeat constructor..].
  cbn [map_calls]. rewrite !keys_distinct_element, keys_of_map_calls, Forall_fmap.
  split; intros [Hk Hc]; (split; [done|]).
  - apply Forall_forall. intros c Hin.
    apply (proj1 (Forall_forall _ _) IH c Hin), (proj1 (Forall_forall _ _) Hc c Hin).
  - apply Forall_forall. intros c Hin.
    apply (proj1 (Forall_forall _ _) IH c Hin), (proj1 (Forall_forall _ _) Hc c Hin).
Qed.

End inside.

#[export] Instance keys_distinct_dec {action} (n : node action) : Decision (keys_distinct n).
Proof. unfold keys_distinct. apply _. Defined.

(** ** Tactics

    [unfold_calls] writes the calls of a tree given by its markup as the
    calls of its elements; [eval_own_calls] evaluates the call of each
    element that is not a select (the call of such an element does not depend
    on its children). *)

Ltac unfold_calls :=
  unfold icon; repeat (rewrite calls_el || rewrite bind_cons); cbn [calls txt].

Ltac eval_own_calls :=
  repeat match goal with
  | |- context [own_call ?p (el ?tag ?props ?cs)] =>
      let r := eval vm_compute in (own_call p (el tag props [])) in
      change (own_call p (el tag props cs)) with r
  end;
  cbn [option_list option_rect app mbind list_bind].
