(* ===== verification/UploadView.v ===== *)
(** * What FileUpload renders

    The markup of [src/project/src/components/FileUpload.tsx] as the function
    it is: [FileUpload_view] takes the drag flag of the drop zone and the state of
    [Upload.v] to the tree of elements, with [formatFileSize] for the size of
    a file and the two callbacks of the component, [removeFile] and the
    [onClose] of its parent, as [upload_call]s.

    [formatFileSize].  [bytes] is the size of a [File], a natural number.
    [Math.floor(Math.log(bytes) / Math.log(k))] is taken to be the exact
    floor of the logarithm to the base 1024 ([size_index]): with correctly
    rounded logarithms the two agree on every size below [2^50 - 3].  The
    division by a power of 1024 is exact in floating point, [toFixed(2)]
    rounds the exact quotient to hundredths, ties upwards ([toFixed2]), and
    [parseFloat] followed by the concatenation prints the hundredths without
    trailing zeros ([js_quot_text]).

    The theorems: the figure shown is within half a hundredth of the size in
    its unit, and every file the drop zone lets through gets one of the
    units [Bytes], [KB], [MB]; the keys of the rows are distinct exactly when
    the file names are; the calls a user can make are the removal of a
    listed name and closing, and nothing the user does starts the processing
    of the files. *)

From Stdlib Require Import ZArith QArith Lia String.
From stdpp Require Import prelude list gmap.
From S2P Require Import Prelude JsString World Documents Upload View.

#[local] Open Scope Z_scope.

(** ** [formatFileSize] *)

Definition sizes : list text := [str "Bytes"; str "KB"; str "MB"; str "GB"].

(** [Math.floor(Math.log(bytes) / Math.log(k))], for [bytes > 0]. *)
Definition size_index (bytes : Z) : Z := Z.log2 bytes / 10.

(** The hundredths [toFixed(2)] prints for [num / den]. *)
Definition toFixed2 (num den : Z) : Z := (200 * num + den) / (2 * den).

Definition formatFileSize (bytes : Z) : text :=
  if bytes =? 0 then str "0 Bytes"
  else
    let k := 1024 in
    let i := size_index bytes in
    js_quot_text (toFixed2 bytes (k ^ i)) 100 ++ str " "
    ++ default (str "undefined") (sizes !! Z.to_nat i).

(** ** The markup *)

(** The calls the markup makes: [removeFile(name)] and the [onClose] of the
    props. *)
Inductive upload_call :=
  | RemoveFile (fileName : text)
  | OnClose.

Definition dropzone_view (isDragActive : bool) : node upload_call :=
  el "div"
    [(str "...getRootProps()", Spread);
     attr_text "className"
       (str "border-2 border-dashed rounded-lg p-8 text-center cursor-pointer transition-colors "
        ++ (if isDragActive then str "border-blue-500 bg-blue-50"
            else str "border-gray-300 hover:border-gray-400"))]
    [el "input" [(str "...getInputProps()", Spread)] [];
     icon "Upload" "mx-auto h-12 w-12 text-gray-400 mb-4";
     el "p" [className "text-lg font-medium text-gray-900 mb-2"]
       [if isDragActive then txt "Drop files here" else txt "Drag & drop files here"];
     el "p" [className "text-gray-600 mb-4"] [txt "or click to browse files"];
     el "p" [className "text-sm text-gray-500"]
       [txt "Supported formats: PDF, DOCX, TXT (max 10MB each)"]].

(** The entry of one file of the list. *)
Definition file_row (index : nat) (uploadFile : UploadedFile) : node upload_call :=
  keyed (f_name (up_file uploadFile))
    (el "motion.div"
       [className "flex items-center justify-between p-4 bg-gray-50 rounded-lg";
        attr_obj "initial" [num "opacity" 0; num "y" 10];
        attr_obj "animate" [num "opacity" 1; num "y" 0];
        attr_obj "transition"
          [num "duration" (3 # 10); num "delay" (inject_Z (Z.of_nat index) * (1 # 10))]]
       [el "div" [className "flex items-center space-x-3"]
          [icon "FileText" "h-5 w-5 text-gray-500";
           el "div" []
             [el "p" [className "font-medium text-gray-900"]
                [TextNode (f_name (up_file uploadFile))];
              el "p" [className "text-sm text-gray-500"]
                [TextNode (formatFileSize (f_size (up_file uploadFile)))]]];
        el "div" [className "flex items-center space-x-3"]
          [when (bool_decide (up_status uploadFile = Uploading))
             (el "div" [className "flex items-center space-x-2"]
                [icon "Loader" "h-4 w-4 animate-spin text-blue-600";
                 el "span" [className "text-sm text-gray-600"]
                   [TextNode (js_of_Z (up_progress uploadFile)); txt "%"]]);
           when (bool_decide (up_status uploadFile = Success))
             (icon "CheckCircle" "h-5 w-5 text-green-600");
           when (bool_decide (up_status uploadFile = Error))
             (icon "AlertCircle" "h-5 w-5 text-red-600");
           el "button"
             [onClick (RemoveFile (f_name (up_file uploadFile)));
              className "text-gray-400 hover:text-red-600 transition-colors"]
             [icon "X" "h-4 w-4"]]]).

Definition file_list (st : upload_state) : node upload_call :=
  when (0 <? js_length (uploadedFiles st))
    (el "div" [className "space-y-3"]
       (el "h3" [className "font-medium text-gray-900"] [txt "Uploaded Files"]
        :: imap file_row (uploadedFiles st))).

Definition actions_view (st : upload_state) : node upload_call :=
  el "div" [className "flex justify-end space-x-3"]
    [el "button"
       [onClick OnClose;
        className "px-4 py-2 border border-gray-300 rounded-lg text-gray-700 hover:bg-gray-50 transition-colors"]
       [txt "Cancel"];
     el "button"
       [className "px-4 py-2 bg-blue-600 text-white rounded-lg hover:bg-blue-700 transition-colors";
        attr_bool "disabled"
          (bool_decide (length (uploadedFiles st) = 0%nat)
           || existsb (λ f, bool_decide (up_status f = Uploading)) (uploadedFiles st))]
       [txt "Process Documents"]].

Definition FileUpload_view (isDragActive : bool) (st : upload_state) : node upload_call :=
  el "div" [className "space-y-6"]
    [dropzone_view isDragActive; file_list st; actions_view st].

(** ** The component and its user *)

(** What a call does to the state; [onClose] is the parent's. *)
Definition upload_call_step (c : upload_call) (st : upload_state) : upload_state :=
  match c with
  | RemoveFile fileName => removeFile fileName st
  | OnClose => st
  end.

(** One event of the user on the rendered tree. *)
Definition upload_ui_step (isDragActive : bool) (st : upload_state)
    (e : list nat * event_payload) : upload_state :=
  match dispatch (FileUpload_view isDragActive st) e.1 e.2 with
  | Some c => upload_call_step c st
  | None => st
  end.

(** The path of the remove button of the entry at [index]. *)
Definition remove_button (index : nat) : list nat := [1; S index; 1; 3]%nat.

(** ** Examples *)

Definition half_done : upload_state :=
  fire 0 (fire 0 (fire 1 (onDrop [report; notes_plain] FileUpload))).

(** ** [formatFileSize] *)

Lemma size_index_spec bytes :
  0 < bytes → 0 ≤ size_index bytes ∧ 1024 ^ size_index bytes ≤ bytes < 1024 ^ (size_index bytes + 1).
Proof.
  intros Hb. unfold size_index.
  pose proof (Z.log2_nonneg bytes) as Hl. pose proof (Z.log2_spec bytes Hb) as [Hlo Hhi].
  set (l := Z.log2 bytes) in *. set (i := l / 10).
  assert (10 * i ≤ l < 10 * i + 10) as [Hil Hli].
  { pose proof (Z.mul_div_le l 10). pose proof (Z.mul_succ_div_gt l 10). subst i. lia. }
  assert (0 ≤ i) by (apply Z.div_pos; lia). split; [done|].
  change 1024 with (2 ^ 10). rewrite <- !Z.pow_mul_r by lia. split.
  - etrans; [|exact Hlo]. apply Z.pow_le_mono_r; lia.
  - eapply Z.lt_le_trans; [exact Hhi|]. apply Z.pow_le_mono_r; lia.
Qed.

(** [toFixed2] is the nearest number of hundredths, the larger one of two. *)
Lemma toFixed2_spec num den :
  0 < den → - den ≤ 2 * (100 * num - toFixed2 num den * den) < den.
Proof.
  intros Hd. unfold toFixed2.
  pose proof (Z.div_mod (200 * num + den) (2 * den) ltac:(lia)) as Hdm.
  pose proof (Z.mod_pos_bound (200 * num + den) (2 * den) ltac:(lia)) as Hm. lia.
Qed.

Lemma toFixed2_range num den k :
  0 < den → den ≤ num < k * den → 100 ≤ toFixed2 num den ≤ 100 * k.
Proof.
  intros Hd [Hlo Hhi]. pose proof (toFixed2_spec num den Hd) as [H1 H2]. nia.
Qed.

Lemma formatFileSize_printed bytes :
  0 < bytes →
  ∃ i n,
    formatFileSize bytes
    = js_quot_text n 100 ++ str " " ++ default (str "undefined") (sizes !! Z.to_nat i)
    ∧ 0 ≤ i ∧ 1024 ^ i ≤ bytes < 1024 ^ (i + 1)
    ∧ 100 ≤ n ≤ 102400
    ∧ - 1024 ^ i ≤ 2 * (100 * bytes - n * 1024 ^ i) < 1024 ^ i.
Proof.
  intros Hb. destruct (size_index_spec bytes Hb) as (Hi & Hlo & Hhi).
  assert (0 < 1024 ^ size_index bytes) as Hp by (apply Z.pow_pos_nonneg; lia).
  exists (size_index bytes), (toFixed2 bytes (1024 ^ size_index bytes)).
  unfold formatFileSize. rewrite (proj2 (Z.eqb_neq _ _)) by lia. cbv zeta.
  split; [done|]. split; [done|]. split; [done|]. split.
  - apply (toFixed2_range _ _ 1024); [done|]. split; [done|].
    rewrite Z.pow_add_r in Hhi by lia. lia.
  - by apply toFixed2_spec.
Qed.

(** C35: for a size that is not zero, [formatFileSize] prints a number of
    hundredths [n] and the unit of the index [i] with
    [1024^i <= bytes < 1024^(i+1)]: [n / 100] is within half a hundredth of
    [bytes / 1024^i], and lies between 1 and 1024, both included. *)
Theorem formatFileSize_figure bytes :
  0 < bytes →
  ∃ i n,
    formatFileSize bytes
    = js_quot_text n 100 ++ str " " ++ default (str "undefined") (sizes !! Z.to_nat i)
    ∧ 0 ≤ i ∧ 1024 ^ i ≤ bytes < 1024 ^ (i + 1)
    ∧ 100 ≤ n ≤ 102400
    ∧ - 1024 ^ i ≤ 2 * (100 * bytes - n * 1024 ^ i) < 1024 ^ i.
Proof. apply formatFileSize_printed. Qed.

(** The drop zone lets through no file of a gibibyte: the size of every
    file of the list is printed in [Bytes], [KB] or [MB]. *)
Theorem formatFileSize_of_accepted f :
  dropzone_accepts f = true → 0 < f_size f →
  ∃ n unit,
    formatFileSize (f_size f) = js_quot_text n 100 ++ str " " ++ unit
    ∧ unit ∈ [str "Bytes"; str "KB"; str "MB"] ∧ 100 ≤ n ≤ 102400.
Proof.
  intros [_ Hmax%Z.leb_le]%andb_true_iff Hpos.
  destruct (formatFileSize_printed _ Hpos) as (i & n & -> & Hi & [Hlo _] & Hn & _).
  assert (i < 3) as Hi3.
  { destruct (decide (i < 3)) as [|Hge]; [done|].
    assert (1024 ^ 3 ≤ 1024 ^ i) by (apply Z.pow_le_mono_r; lia).
    unfold maxSize in Hmax. lia. }
  exists n, (default (str "undefined") (sizes !! Z.to_nat i)). split; [done|].
  split; [|done].
  assert (i = 0 ∨ i = 1 ∨ i = 2) as Hcases by lia.
  destruct Hcases as [-> | [-> | ->]]; simpl; rewrite !elem_of_cons; tauto.
Qed.

(** A size just under a mebibyte is printed as 1024 KB, and from a
    tebibyte on there is no unit: [sizes[4]] is [undefined]. *)
Example formatFileSize_boundaries :
  formatFileSize 1536 = str "1.5 KB"
  ∧ formatFileSize (1024 * 1024 - 1) = str "1024 KB"
  ∧ formatFileSize (1024 ^ 4) = str "1 undefined".
Proof. vm_compute. done. Qed.

(** ** Keys and calls of the markup *)

Lemma file_row_keys index uploadFile : keys_distinct (file_row index uploadFile).
Proof.
  apply (bool_decide_unpack _). unfold file_row. by destruct (up_status uploadFile); vm_compute.
Qed.

Lemma file_row_calls p index uploadFile :
  calls p (file_row index uploadFile)
  = match p with Click => [RemoveFile (f_name (up_file uploadFile))] | _ => [] end.
Proof. unfold file_row. by destruct p, (up_status uploadFile); vm_compute. Qed.

Lemma dropzone_view_plain p isDragActive :
  keys_distinct (dropzone_view isDragActive) ∧ calls p (dropzone_view isDragActive) = [].
Proof.
  split; [apply (bool_decide_unpack _); by destruct isDragActive; vm_compute|].
  by destruct p, isDragActive; vm_compute.
Qed.

Lemma actions_view_plain p st :
  keys_distinct (actions_view st)
  ∧ calls p (actions_view st) = match p with Click => [OnClose] | _ => [] end.
Proof.
  unfold actions_view. generalize (bool_decide (length (uploadedFiles st) = 0%nat)
    || existsb (λ f, bool_decide (up_status f = Uploading)) (uploadedFiles st)).
  intros b. split; [apply (bool_decide_unpack _); by destruct b; vm_compute|].
  by destruct p, b; vm_compute.
Qed.

Lemma file_list_calls p st :
  calls p (file_list st)
  = match p with Click => RemoveFile <$> names st | _ => [] end.
Proof.
  unfold file_list, names, js_length. rewrite calls_when.
  destruct (uploadedFiles st) as [|u l] eqn:Hl; [by destruct p|].
  rewrite (proj2 (Z.ltb_lt _ _)) by (simpl; lia). rewrite <- Hl. clear Hl u l.
  cbn [el calls]. rewrite bind_cons.
  rewrite (calls_imap p file_row
             (λ u, match p with Click => [RemoveFile (f_name (up_file u))] | _ => [] end))
    by (intros; apply file_row_calls).
  destruct p; cbn; try (induction (uploadedFiles st); by simpl).
  induction (uploadedFiles st) as [|u l IH]; [done|]. rewrite bind_cons, fmap_cons. simpl.
  by f_equal.
Qed.

Lemma FileUpload_view_keys isDragActive st :
  keys_distinct (FileUpload_view isDragActive st) ↔ NoDup (names st).
Proof.
  unfold FileUpload_view, el. rewrite keys_distinct_element, !Forall_cons.
  pose proof (dropzone_view_plain Click isDragActive) as [Hdrop _].
  pose proof (actions_view_plain Click st) as [Hact _].
  assert (keys_of [dropzone_view isDragActive; file_list st; actions_view st] = []) as ->.
  { unfold file_list. by destruct (0 <? _). }
  assert (keys_distinct (file_list st) ↔ NoDup (names st)) as <-.
  2: { split; [by intros (_ & _ & ? & _)|]. intros ?. repeat split; try done; constructor. }
  unfold file_list, names, js_length. rewrite keys_distinct_when.
  destruct (uploadedFiles st) as [|u l] eqn:Hl; [split; [constructor|done]|].
  rewrite (proj2 (Z.ltb_lt _ _)) by (simpl; lia). rewrite <- Hl. clear Hl u l.
  unfold el at 1. rewrite keys_distinct_element, Forall_cons.
  change (keys_of (?h :: ?rows)) with (keys_of rows).
  rewrite (keys_of_imap (λ u, f_name (up_file u))) by done.
  split; [intros Hk; by destruct (Hk eq_refl) as [? _]|]. intros Hnd _. split; [done|]. split.
  - apply (bool_decide_unpack _). by vm_compute.
  - apply Forall_forall. intros r (i & u & -> & _)%elem_of_lookup_imap. apply file_row_keys.
Qed.

(** The keys React is given for the entries of the list are the file
    names: they are pairwise distinct exactly when no two files of the list
    have the same name. *)
Theorem FileUpload_keys_distinct isDragActive st :
  keys_distinct (FileUpload_view isDragActive st) ↔ NoDup (names st).
Proof. apply FileUpload_view_keys. Qed.

(** Whatever the user does on the rendered component, the call made
    is [onClose] or the removal of a file name of the list: the calls of a
    click are one removal per entry, in order, then [onClose], and no other
    event makes a call.  In particular nothing starts the processing of the
    files: the button [Process Documents] has no handler. *)
Theorem FileUpload_calls isDragActive st p :
  calls p (FileUpload_view isDragActive st)
  = match p with Click => (RemoveFile <$> names st) ++ [OnClose] | _ => [] end.
Proof.
  unfold FileUpload_view. cbn [el calls]. rewrite !bind_cons. cbn [mbind list_bind].
  rewrite app_nil_r.
  rewrite (proj2 (dropzone_view_plain p isDragActive)), file_list_calls,
    (proj2 (actions_view_plain p st)).
  by destruct p.
Qed.

(** ** The user of the component *)

Lemma remove_button_dispatch isDragActive st index uploadFile :
  uploadedFiles st !! index = Some uploadFile →
  dispatch (FileUpload_view isDragActive st) (remove_button index) Click
  = Some (RemoveFile (f_name (up_file uploadFile))).
Proof.
  intros Hu. unfold dispatch, remove_button. rewrite locate_cons.
  unfold FileUpload_view. rewrite children_of_el.
  change ([?a; ?b; ?c] !! 1%nat) with (Some b). cbn [mbind option_bind].
  assert (0 < length (uploadedFiles st))%nat
    by (eapply Nat.le_lt_trans; [|by eapply lookup_lt_Some]; lia).
  unfold file_list, js_length. rewrite (proj2 (Z.ltb_lt _ _)) by lia.
  cbn [when]. rewrite locate_cons, children_of_el.
  change ((?a :: ?l) !! S ?i) with (l !! i).
  rewrite list_lookup_imap, Hu. reflexivity.
Qed.


(** ** The theorems at work *)

Lemma formatFileSize_figure_witness :
  ∃ i n,
    formatFileSize 2048
    = js_quot_text n 100 ++ str " " ++ default (str "undefined") (sizes !! Z.to_nat i)
    ∧ 0 ≤ i ∧ 1024 ^ i ≤ 2048 < 1024 ^ (i + 1)
    ∧ 100 ≤ n ≤ 102400
    ∧ - 1024 ^ i ≤ 2 * (100 * 2048 - n * 1024 ^ i) < 1024 ^ i.
Proof. apply formatFileSize_figure. lia. Defined.

Lemma formatFileSize_of_accepted_witness :
  ∃ n unit,
    formatFileSize (f_size report) = js_quot_text n 100 ++ str " " ++ unit
    ∧ unit ∈ [str "Bytes"; str "KB"; str "MB"] ∧ 100 ≤ n ≤ 102400.
Proof. apply formatFileSize_of_accepted; [vm_compute; reflexivity|reflexivity]. Defined.


(** Two files of the same name get the same key. *)
Example twins_share_a_key : ¬ keys_distinct (FileUpload_view false twins).
Proof.
  rewrite FileUpload_view_keys. vm_compute. intros Hnd.
  apply NoDup_cons in Hnd as [Hin _]. apply Hin. left.
Qed.
