(* ===== verification/Pages.v ===== *)
(** * The pages of the dashboard

    [src/project/src/pages/ChatbotPage.tsx] holds the form of a chatbot
    configuration and [src/project/src/pages/DocumentsPage.tsx] lists
    documents.  Both work on values of their own: neither calls the server.
    The file holds

    - [aiModels], [languages], the state of the form ([chatbot_form], as
      first rendered [ChatbotPage]), [handleLanguageToggle], [chatbotUrl];
    - [documents] (the rows the page shows), [filteredDocuments],
      [getStatusColor], the three figures of the header ([page_stats]) and the
      values of the status filter ([filter_options]);
    - that the form offers the models and languages the schemas of
      [chatbotSchemas.js] accept, what a toggle does to the selection, and
      how the statuses of the page relate to the ones the document service
      writes.

    The markup of the pages and what a user can do with it are in
    [ChatbotView.v], [DocumentsView.v] and [DashboardView.v]. *)

From Stdlib Require Import ZArith Lia String.
From stdpp Require Import prelude list gmap.
From S2P Require Import Prelude JsString World Schemas.

#[local] Open Scope Z_scope.

(** ** [ChatbotPage] *)

Record ai_model := AiModel {
  model_id : text;
  model_name : text;
  model_provider : text;
  model_description : text
}.

Definition aiModels : list ai_model :=
  [AiModel (str "gpt-4") (str "GPT-4") (str "OpenAI") (str "Most capable model");
   AiModel (str "gpt-3.5-turbo") (str "GPT-3.5 Turbo") (str "OpenAI") (str "Fast and efficient");
   AiModel (str "gemini-pro") (str "Gemini Pro") (str "Google") (str "Google's advanced model")].

Record language := Language {
  lang_code : text;
  lang_name : text;
  lang_flag : text
}.

(** The flag of a country as the source writes it: the two regional
    indicator symbols of the letters of its code, each a surrogate pair. *)
Definition flag_of (country : string) : text :=
  str country ≫= λ letter, [55356; 56806 + (letter - 65)]%N.

Definition languages : list language :=
  [Language (str "en") (str "English") (flag_of "US");
   Language (str "es") (str "Spanish") (flag_of "ES");
   Language (str "fr") (str "French") (flag_of "FR");
   Language (str "de") (str "German") (flag_of "DE");
   Language (str "hi") (str "Hindi") (flag_of "IN");
   Language (str "ne") (str "Nepali") (flag_of "NP");
   Language (str "zh") (str "Chinese") (flag_of "CN");
   Language (str "ja") (str "Japanese") (flag_of "JP")].

Record chatbot_form := ChatbotForm {
  selectedModel : text;
  selectedLanguages : list text;
  companyName : text;
  welcomeMessage : text;
  primaryColor : text;
  showColorPicker : bool;
  logo : option text
}.

(** The form as first rendered. *)
Definition ChatbotPage : chatbot_form :=
  {| selectedModel := str "gpt-4";
     selectedLanguages := [str "en"];
     companyName := str "Your Company";
     welcomeMessage := str "Hi! How can I help you today?";
     primaryColor := str "#2563eb";
     showColorPicker := false;
     logo := None |}.

(** The function [handleLanguageToggle] gives to [setSelectedLanguages]. *)
Definition toggle_language (langCode : text) (prev : list text) : list text :=
  if js_includes prev langCode then filter (λ code, code ≠ langCode) prev
  else prev ++ [langCode].

Definition handleLanguageToggle (langCode : text) (form : chatbot_form) : chatbot_form :=
  {| selectedModel := selectedModel form;
     selectedLanguages := toggle_language langCode (selectedLanguages form);
     companyName := companyName form;
     welcomeMessage := welcomeMessage form;
     primaryColor := primaryColor form;
     showColorPicker := showColorPicker form;
     logo := logo form |}.

Definition chatbotUrl (form : chatbot_form) : text :=
  str "https://chat." ++ js_remove_ws (js_toLowerCase (companyName form)) ++ str ".com".

(** ** [DocumentsPage] *)

Record page_document := PageDocument {
  doc_id : Z;
  doc_name : text;
  doc_type : text;
  doc_size : text;
  doc_uploadDate : text;
  doc_status_text : text;
  doc_pages : Z;
  doc_language : text
}.

Definition documents : list page_document :=
  [PageDocument 1 (str "Customer Support FAQ.pdf") (str "PDF") (str "2.4 MB")
     (str "2024-01-15") (str "processed") 15 (str "English");
   PageDocument 2 (str "Product Manual.docx") (str "DOCX") (str "1.8 MB")
     (str "2024-01-14") (str "processing") 23 (str "English");
   PageDocument 3 (str "Company Policies.txt") (str "TXT") (str "156 KB")
     (str "2024-01-13") (str "processed") 8 (str "English");
   PageDocument 4 (str "Terms of Service.pdf") (str "PDF") (str "896 KB")
     (str "2024-01-12") (str "processed") 12 (str "English")].

(** A row passes the search box and the status filter. *)
Definition shown (searchTerm selectedFilter : text) (doc : page_document) : bool :=
  js_text_includes (js_toLowerCase (doc_name doc)) (js_toLowerCase searchTerm)
  && (bool_decide (selectedFilter = str "all")
      || bool_decide (doc_status_text doc = selectedFilter)).

Definition filteredDocuments (rows : list page_document) (searchTerm selectedFilter : text)
  : list page_document :=
  filter (λ doc, shown searchTerm selectedFilter doc = true) rows.

Definition getStatusColor (status : text) : text :=
  if bool_decide (status = str "processed") then str "text-green-600 bg-green-50"
  else if bool_decide (status = str "processing") then str "text-yellow-600 bg-yellow-50"
  else if bool_decide (status = str "error") then str "text-red-600 bg-red-50"
  else str "text-gray-600 bg-gray-50".

(** The values of the status filter. *)
Definition filter_options : list text :=
  [str "all"; str "processed"; str "processing"; str "error"].

(** The figures of the header: documents, processed documents, pages. *)
Definition page_stats (rows : list page_document) : Z * Z * Z :=
  (js_length rows,
   js_length (filter (λ d, doc_status_text d = str "processed") rows),
   foldl (λ sum doc, sum + doc_pages doc) 0 rows).

(** ** The statuses of the document service *)

(** The text the document service writes for a status. *)
Definition status_string (s : doc_status) : text :=
  match s with
  | Processing => str "processing"
  | Processed => str "processed"
  | Failed => str "failed"
  end.

(** A row of the page with the status the document service wrote. *)
Definition service_row (d : page_document) : Prop :=
  ∃ s, doc_status_text d = status_string s.

(** ** Examples *)

Definition failed_upload : page_document :=
  PageDocument 5 (str "Broken.pdf") (str "PDF") (str "1 KB") (str "2024-01-16")
    (str "failed") 0 (str "English").

(** ** The form and the schemas *)

(** The form offers exactly the models and the languages the schemas
    accept, in the same order, and starts on a model of the list, though not
    on the one the schema takes as default. *)
Theorem form_offers_schema_values :
  model_id <$> aiModels = ai_model_values
  ∧ lang_code <$> languages = language_values
  ∧ selectedModel ChatbotPage ∈ ai_model_values
  ∧ selectedModel ChatbotPage ≠ str "gpt-3.5-turbo"
  ∧ Forall (λ c, c ∈ language_values) (selectedLanguages ChatbotPage).
Proof.
  split; [done|]. split; [done|]. split; [apply (bool_decide_unpack _); by vm_compute|].
  split; [done|]. apply Forall_singleton. apply (bool_decide_unpack _). by vm_compute.
Qed.

Lemma toggle_language_elem langCode code prev :
  code ∈ toggle_language langCode prev
  ↔ (code = langCode ∧ langCode ∉ prev) ∨ (code ≠ langCode ∧ code ∈ prev).
Proof.
  unfold toggle_language, js_includes. case_bool_decide as Hin.
  - rewrite list_elem_of_filter. split; [intros []; by right|].
    intros [[-> ?]|[]]; done.
  - rewrite elem_of_app, list_elem_of_singleton. split.
    + intros [?| ->]; [right|left]; [|done]. split; [|done]. by intros ->.
    + intros [[-> _]|[_ ?]]; [by right|by left].
Qed.

Lemma toggle_language_NoDup langCode prev :
  NoDup prev → NoDup (toggle_language langCode prev).
Proof.
  intros Hd. unfold toggle_language, js_includes. case_bool_decide as Hin.
  - by apply NoDup_filter.
  - apply NoDup_app. split; [done|]. split; [|apply NoDup_singleton].
    by intros x Hx ->%list_elem_of_singleton.
Qed.

(** A toggle flips the language it is given and no other one, and it
    keeps a selection free of repetitions. *)
Theorem toggle_language_flips langCode code prev :
  (langCode ∈ toggle_language langCode prev ↔ langCode ∉ prev)
  ∧ (code ≠ langCode → code ∈ toggle_language langCode prev ↔ code ∈ prev)
  ∧ (NoDup prev → NoDup (toggle_language langCode prev)).
Proof.
  split; [|split].
  - rewrite toggle_language_elem. split; [by intros [[_ ?]|[? _]]|by left].
  - intros Hne. rewrite toggle_language_elem. split; [by intros [[? _]|[_ ?]]|by right].
  - apply toggle_language_NoDup.
Qed.

(** The form lets its user take the last language off the selection,
    and [createChatbot] refuses every body that carries such a selection. *)
Theorem empty_selection_refused is_uri b :
  body_get b (str "supported_languages")
  = Some (Items (AString <$> selectedLanguages (handleLanguageToggle (str "en") ChatbotPage))) →
  selectedLanguages (handleLanguageToggle (str "en") ChatbotPage) = []
  ∧ is_ok (validate (createChatbot is_uri) b) = false.
Proof.
  intros Hb. split; [by vm_compute|]. apply not_true_is_false.
  intros [Hkeys _]%validate_ok. apply createChatbot_keys in Hkeys as (_&_&_&_&_&Hl&_).
  rewrite Hb in Hl. destruct Hl as (items & [= <-] & Hne & _). by apply Hne.
Qed.

Lemma chatbotUrl_first_render : chatbotUrl ChatbotPage = str "https://chat.yourcompany.com".
Proof. by vm_compute. Qed.

(** ** The list of documents *)

Lemma shown_true searchTerm selectedFilter doc :
  shown searchTerm selectedFilter doc = true
  ↔ (∃ a b, js_toLowerCase (doc_name doc) = a ++ js_toLowerCase searchTerm ++ b)
    ∧ (selectedFilter = str "all" ∨ doc_status_text doc = selectedFilter).
Proof.
  unfold shown. by rewrite andb_true_iff, orb_true_iff, js_text_includes_true,
    !bool_decide_eq_true.
Qed.

Lemma elem_of_filteredDocuments rows searchTerm selectedFilter doc :
  doc ∈ filteredDocuments rows searchTerm selectedFilter
  ↔ doc ∈ rows
    ∧ (∃ a b, js_toLowerCase (doc_name doc) = a ++ js_toLowerCase searchTerm ++ b)
    ∧ (selectedFilter = str "all" ∨ doc_status_text doc = selectedFilter).
Proof. unfold filteredDocuments. rewrite list_elem_of_filter, shown_true. tauto. Qed.

(** The list shown is the list of the page in its order, without the
    rows whose name does not hold the search term, letter case apart, and,
    unless the filter is [all], without the rows of another status; with an
    empty search box and the filter [all] it is the whole list. *)
Theorem filteredDocuments_spec rows searchTerm selectedFilter :
  filteredDocuments rows searchTerm selectedFilter `sublist_of` rows
  ∧ (∀ doc, doc ∈ filteredDocuments rows searchTerm selectedFilter
            ↔ doc ∈ rows
              ∧ (∃ a b, js_toLowerCase (doc_name doc) = a ++ js_toLowerCase searchTerm ++ b)
              ∧ (selectedFilter = str "all" ∨ doc_status_text doc = selectedFilter))
  ∧ filteredDocuments rows [] (str "all") = rows.
Proof.
  split; [apply sublist_filter|]. split.
  - apply elem_of_filteredDocuments.
  - apply filter_all, Forall_forall. intros doc _. apply shown_true.
    split; [by exists [], (js_toLowerCase (doc_name doc))|by left].
Qed.

Lemma status_string_not_error s : status_string s ≠ str "error".
Proof. by destruct s. Qed.

(** The page knows the statuses [processed], [processing] and [error];
    the document service writes [failed] for a document it could not process.
    On rows with the statuses of the service the filter [error] shows
    nothing, no value of the filter but [all] shows a failed document, and a
    failed document gets the colour of an unknown status. *)
Theorem failed_status_unknown_to_page rows searchTerm :
  Forall service_row rows →
  filteredDocuments rows searchTerm (str "error") = []
  ∧ (∀ option doc, option ∈ filter_options → option ≠ str "all" →
       doc_status_text doc = status_string Failed →
       doc ∉ filteredDocuments rows searchTerm option)
  ∧ getStatusColor (status_string Failed) = str "text-gray-600 bg-gray-50".
Proof.
  intros Hrows. split; [|split; [|done]].
  - apply filter_none. eapply Forall_impl; [exact Hrows|]. intros doc [s Hs].
    rewrite shown_true, Hs. intros [_ [?|?]]; [done|]. by eapply status_string_not_error.
  - intros option doc Hopt Hall Hfailed.
    rewrite elem_of_filteredDocuments, Hfailed.
    intros (_ & _ & [?|<-]); [done|]. revert Hopt. unfold filter_options.
    rewrite !elem_of_cons, elem_of_nil. intros [?|[?|[?|[?|[]]]]]; done.
Qed.

Lemma failed_status_unknown_to_page_witness :
  filteredDocuments (documents ++ [failed_upload]) [] (str "error") = [].
Proof.
  apply (failed_status_unknown_to_page (documents ++ [failed_upload]) []).
  unfold documents. simpl.
  repeat (apply Forall_cons; split;
          [first [by exists Processed | by exists Processing | by exists Failed]|]).
  apply Forall_nil_2.
Defined.

Lemma empty_selection_refused_witness :
  is_ok (validate (createChatbot toy_uri)
           [(str "name", Atom (AString (str "Helpdesk")));
            (str "supported_languages", Items [])]) = false.
Proof.
  apply (empty_selection_refused toy_uri
           [(str "name", Atom (AString (str "Helpdesk")));
            (str "supported_languages", Items [])]).
  reflexivity.
Defined.
