(* ===== verification/DocumentsView.v ===== *)
(** * What DocumentsPage renders

    [src/project/src/pages/DocumentsPage.tsx] as a component: its state (the
    search box, the status filter, the flag of the upload dialog, and the
    state of the [FileUpload] it mounts in the dialog), its markup
    ([DocumentsPage_view], in the order of the source) and the calls the
    markup makes ([documents_call]).

    The dialog.  [FileUpload] is mounted while [showUpload] is true.  When
    the dialog closes React drops the state of the component, and a dialog
    opened again starts from an empty list: [page_step] resets [upload] to
    the first render.  The timers of a list that was dropped are not
    followed any further.

    The theorems: what a user can do on the page (open and close the dialog,
    type in the search box, choose one of the four values of the filter,
    remove a file of the dialog; the buttons of a row, the filter button and
    [Process Documents] make no call); that the filter is one of its four
    values in every state a user can reach, so that a document the service
    marked failed is on the page only under [all]; that the rows of the table
    are the filtered documents, keyed by their ids; that closing the dialog
    forgets the files dropped on it. *)

From Stdlib Require Import ZArith QArith Lia String.
From stdpp Require Import prelude list gmap.
From S2P Require Import Prelude JsString World Documents Upload View UploadView Schemas Pages.

#[local] Open Scope Z_scope.

(** ** State and calls *)

Record documents_page := DocumentsPageState {
  searchTerm : text;
  showUpload : bool;
  selectedFilter : text;
  (** the state of the [FileUpload] of the dialog, and the drag flag of its
      drop zone *)
  upload : upload_state;
  isDragActive : bool
}.

(** The page as first rendered. *)
Definition DocumentsPage : documents_page :=
  {| searchTerm := [];
     showUpload := false;
     selectedFilter := str "all";
     upload := FileUpload;
     isDragActive := false |}.

Inductive documents_call :=
  | SetSearchTerm (value : text)
  | SetShowUpload (value : bool)
  | SetSelectedFilter (value : text)
  | InFileUpload (fileName : text).

(** ** The markup *)

Definition getFileIcon (type : text) : node documents_call :=
  if bool_decide (type = str "PDF") then icon "FileText" "h-5 w-5 text-red-500"
  else if bool_decide (type = str "DOCX") then icon "FileText" "h-5 w-5 text-blue-500"
  else if bool_decide (type = str "TXT") then icon "FileText" "h-5 w-5 text-gray-500"
  else icon "FileText" "h-5 w-5 text-gray-500".

Definition page_header : node documents_call :=
  el "div" [className "flex justify-between items-center"]
    [el "div" []
       [el "h1" [className "text-3xl font-bold text-gray-900"] [txt "Documents"];
        el "p" [className "text-gray-600 mt-1"]
          [txt "Manage your knowledge base and training documents"]];
     el "button"
       [onClick (SetShowUpload true);
        className "bg-blue-600 text-white px-4 py-2 rounded-lg hover:bg-blue-700 transition-colors flex items-center"]
       [icon "Upload" "h-4 w-4 mr-2"; txt "Upload Documents"]].

(** One card of the header: its transition, label, figure and icon. *)
Definition stat_card (transition : list (text * scalar)) (label : string) (figure : text)
    (tile : string) (symbol : node documents_call) : node documents_call :=
  el "motion.div"
    [className "bg-white p-6 rounded-xl border border-gray-200";
     attr_obj "initial" [num "opacity" 0; num "y" 20];
     attr_obj "animate" [num "opacity" 1; num "y" 0];
     attr_obj "transition" transition]
    [el "div" [className "flex items-center justify-between"]
       [el "div" []
          [el "p" [className "text-sm text-gray-600"] [txt label];
           el "p" [className "text-2xl font-bold text-gray-900 mt-1"] [TextNode figure]];
        el "div" [className tile] [symbol]]].

Definition stats_cards : node documents_call :=
  el "div" [className "grid grid-cols-1 md:grid-cols-4 gap-6"]
    [stat_card [num "duration" (1 # 2)] "Total Documents"
       (js_of_Z (js_length documents))
       "w-12 h-12 bg-blue-50 rounded-lg flex items-center justify-center"
       (icon "FileText" "h-6 w-6 text-blue-600");
     stat_card [num "duration" (1 # 2); num "delay" (1 # 10)] "Processed"
       (js_of_Z (js_length (filter (λ d, doc_status_text d = str "processed") documents)))
       "w-12 h-12 bg-green-50 rounded-lg flex items-center justify-center"
       (icon "FileCheck" "h-6 w-6 text-green-600");
     stat_card [num "duration" (1 # 2); num "delay" (2 # 10)] "Total Pages"
       (js_of_Z (foldl (λ sum doc, sum + doc_pages doc) 0 documents))
       "w-12 h-12 bg-purple-50 rounded-lg flex items-center justify-center"
       (icon "Calendar" "h-6 w-6 text-purple-600");
     stat_card [num "duration" (1 # 2); num "delay" (3 # 10)] "Storage Used"
       (str "5.2 MB")
       "w-12 h-12 bg-orange-50 rounded-lg flex items-center justify-center"
       (icon "Upload" "h-6 w-6 text-orange-600")].

Definition search_and_filters (st : documents_page) : node documents_call :=
  el "div" [className "bg-white rounded-xl border border-gray-200 p-6"]
    [el "div" [className "flex flex-col md:flex-row gap-4"]
       [el "div" [className "flex-1 relative"]
          [icon "Search" "absolute left-3 top-3 h-5 w-5 text-gray-400";
           el "input"
             [attr "type" "text";
              attr "placeholder" "Search documents...";
              attr_text "value" (searchTerm st);
              onChange SetSearchTerm;
              className "w-full pl-10 pr-4 py-2 border border-gray-300 rounded-lg focus:ring-2 focus:ring-blue-500 focus:border-transparent"]
             []];
        el "div" [className "flex items-center space-x-3"]
          [el "select"
             [attr_text "value" (selectedFilter st);
              onChange SetSelectedFilter;
              className "border border-gray-300 rounded-lg px-3 py-2 focus:ring-2 focus:ring-blue-500 focus:border-transparent"]
             [el "option" [attr "value" "all"] [txt "All Status"];
              el "option" [attr "value" "processed"] [txt "Processed"];
              el "option" [attr "value" "processing"] [txt "Processing"];
              el "option" [attr "value" "error"] [txt "Error"]];
           el "button"
             [className "border border-gray-300 rounded-lg px-3 py-2 hover:bg-gray-50 transition-colors"]
             [icon "Filter" "h-5 w-5 text-gray-600"]]]].

Definition table_head : node documents_call :=
  el "thead" [className "bg-gray-50 border-b border-gray-200"]
    [el "tr" []
       ((λ title, el "th" [className "text-left py-4 px-6 font-medium text-gray-900"]
                    [TextNode title])
        <$> [str "Document"; str "Type"; str "Size"; str "Pages"; str "Status";
             str "Upload Date"; str "Actions"])].

Definition row_actions : node documents_call :=
  el "div" [className "flex items-center space-x-2"]
    [el "button" [className "text-gray-400 hover:text-blue-600 transition-colors"]
       [icon "Eye" "h-4 w-4"];
     el "button" [className "text-gray-400 hover:text-green-600 transition-colors"]
       [icon "Download" "h-4 w-4"];
     el "button" [className "text-gray-400 hover:text-red-600 transition-colors"]
       [icon "Trash2" "h-4 w-4"];
     el "button" [className "text-gray-400 hover:text-gray-600 transition-colors"]
       [icon "MoreVertical" "h-4 w-4"]].

Definition table_row (index : nat) (document : page_document) : node documents_call :=
  keyed (js_of_Z (doc_id document))
    (el "motion.tr"
       [className "hover:bg-gray-50 transition-colors";
        attr_obj "initial" [num "opacity" 0; num "y" 20];
        attr_obj "animate" [num "opacity" 1; num "y" 0];
        attr_obj "transition"
          [num "duration" (1 # 2); num "delay" (inject_Z (Z.of_nat index) * (1 # 10))]]
       [el "td" [className "py-4 px-6"]
          [el "div" [className "flex items-center space-x-3"]
             [getFileIcon (doc_type document);
              el "div" []
                [el "p" [className "font-medium text-gray-900"] [TextNode (doc_name document)];
                 el "p" [className "text-sm text-gray-500"]
                   [TextNode (doc_language document)]]]];
        el "td" [className "py-4 px-6 text-gray-900"] [TextNode (doc_type document)];
        el "td" [className "py-4 px-6 text-gray-900"] [TextNode (doc_size document)];
        el "td" [className "py-4 px-6 text-gray-900"] [TextNode (js_of_Z (doc_pages document))];
        el "td" [className "py-4 px-6"]
          [el "span"
             [attr_text "className"
                (str "px-2 py-1 rounded-full text-xs font-medium "
                 ++ getStatusColor (doc_status_text document))]
             [TextNode (doc_status_text document)]];
        el "td" [className "py-4 px-6 text-gray-900"] [TextNode (doc_uploadDate document)];
        el "td" [className "py-4 px-6"] [row_actions]]).

Definition documents_table (st : documents_page) : node documents_call :=
  el "div" [className "bg-white rounded-xl border border-gray-200 overflow-hidden"]
    [el "div" [className "overflow-x-auto"]
       [el "table" [className "w-full"]
          [table_head;
           el "tbody" [className "divide-y divide-gray-200"]
             (imap table_row
                (filteredDocuments documents (searchTerm st) (selectedFilter st)))]]].

(** The calls of the [FileUpload] of the dialog, as calls of the page:
    [onClose] is [() => setShowUpload(false)]. *)
Definition from_upload (c : upload_call) : documents_call :=
  match c with
  | RemoveFile fileName => InFileUpload fileName
  | OnClose => SetShowUpload false
  end.

Definition upload_modal (st : documents_page) : node documents_call :=
  when (showUpload st)
    (el "div"
       [className "fixed inset-0 bg-black bg-opacity-50 flex items-center justify-center z-50"]
       [el "motion.div"
          [className "bg-white rounded-xl p-6 w-full max-w-2xl mx-4";
           attr_obj "initial" [num "opacity" 0; num "scale" (95 # 100)];
           attr_obj "animate" [num "opacity" 1; num "scale" 1];
           attr_obj "transition" [num "duration" (3 # 10)]]
          [el "div" [className "flex justify-between items-center mb-6"]
             [el "h2" [className "text-2xl font-bold text-gray-900"] [txt "Upload Documents"];
              el "button"
                [onClick (SetShowUpload false); className "text-gray-400 hover:text-gray-600"]
                [TextNode [215%N]]];
           map_calls from_upload (FileUpload_view (isDragActive st) (upload st))]]).

Definition DocumentsPage_view (st : documents_page) : node documents_call :=
  el "DashboardLayout" []
    [el "div" [className "space-y-8"]
       [page_header; stats_cards; search_and_filters st; documents_table st;
        upload_modal st]].

(** ** What the calls do *)

Definition page_step (c : documents_call) (st : documents_page) : documents_page :=
  match c with
  | SetSearchTerm value =>
      {| searchTerm := value; showUpload := showUpload st;
         selectedFilter := selectedFilter st; upload := upload st;
         isDragActive := isDragActive st |}
  | SetShowUpload value =>
      {| searchTerm := searchTerm st; showUpload := value;
         selectedFilter := selectedFilter st;
         upload := if value && showUpload st then upload st else FileUpload;
         isDragActive := value && showUpload st && isDragActive st |}
  | SetSelectedFilter value =>
      {| searchTerm := searchTerm st; showUpload := showUpload st;
         selectedFilter := value; upload := upload st;
         isDragActive := isDragActive st |}
  | InFileUpload fileName =>
      {| searchTerm := searchTerm st; showUpload := showUpload st;
         selectedFilter := selectedFilter st;
         upload := removeFile fileName (upload st);
         isDragActive := isDragActive st |}
  end.

(** What happens on the page: an event of the user on the rendered tree, or,
    while the dialog is open, an event of its [FileUpload] that does not come
    from the markup (a drop, a timer firing), or a drag entering or leaving
    its drop zone. *)
Inductive page_event :=
  | User (path : list nat) (p : event_payload)
  | Dialog (e : upload_event)
  | Drag (active : bool).

Definition page_event_step (st : documents_page) (e : page_event) : documents_page :=
  match e with
  | User path p =>
      match dispatch (DocumentsPage_view st) path p with
      | Some c => page_step c st
      | None => st
      end
  | Dialog e =>
      if showUpload st then
        {| searchTerm := searchTerm st; showUpload := true;
           selectedFilter := selectedFilter st;
           upload := upload_step (upload st) e;
           isDragActive := isDragActive st |}
      else st
  | Drag active =>
      if showUpload st then
        {| searchTerm := searchTerm st; showUpload := true;
           selectedFilter := selectedFilter st; upload := upload st;
           isDragActive := active |}
      else st
  end.

Inductive page_reachable : documents_page → Prop :=
  | page_first : page_reachable DocumentsPage
  | page_next st e : page_reachable st → page_reachable (page_event_step st e).

(** The paths of the button that opens the dialog and of the cross that
    closes it. *)
Definition open_button : list nat := [0; 0; 1]%nat.
Definition close_cross : list nat := [0; 4; 0; 0; 1]%nat.

(** ** Invariant *)

Record page_ok (st : documents_page) : Prop := {
  filter_known : selectedFilter st ∈ filter_options;
  dialog_ok : upload_ok (upload st);
  closed_empty : showUpload st = false → upload st = FileUpload ∧ isDragActive st = false
}.

(** The state after events in the dialog. *)
Definition in_dialog (es : list page_event) (st : documents_page) : documents_page :=
  foldl page_event_step st es.

Definition dialog_event (e : page_event) : Prop :=
  match e with User _ _ => False | _ => True end.

(** ** The calls of the parts *)

Lemma table_row_plain p index document :
  keys_distinct (table_row index document) ∧ calls p (table_row index document) = [].
Proof.
  unfold table_row, getFileIcon. split.
  - repeat case_bool_decide; apply (bool_decide_unpack _); by vm_compute.
  - destruct p; repeat case_bool_decide; vm_compute; reflexivity.
Qed.

Lemma page_header_calls p :
  keys_distinct page_header
  ∧ calls p page_header = match p with Click => [SetShowUpload true] | _ => [] end.
Proof. split; [apply (bool_decide_unpack _); by vm_compute|by destruct p; vm_compute]. Qed.

Lemma stats_cards_plain p : keys_distinct stats_cards ∧ calls p stats_cards = [].
Proof. split; [apply (bool_decide_unpack _); by vm_compute|by destruct p; vm_compute]. Qed.

Lemma search_and_filters_calls p st :
  keys_distinct (search_and_filters st)
  ∧ calls p (search_and_filters st)
    = match p with
      | Change v =>
          SetSearchTerm v
          :: (if js_includes filter_options v then [SetSelectedFilter v] else [])
      | _ => []
      end.
Proof.
  split; [apply (bool_decide_unpack _); by vm_compute|].
  destruct p as [|v|files]; [by vm_compute| |by vm_compute].
  unfold search_and_filters. cbn [calls el mbind list_bind]. unfold own_call, offered.
  change (option_values (Element (str "select") _ _ _)) with filter_options.
  destruct (js_includes filter_options v); vm_compute; reflexivity.
Qed.

Lemma documents_table_plain p st :
  keys_distinct (documents_table st) ∧ calls p (documents_table st) = [].
Proof.
  unfold documents_table. set (rows := filteredDocuments _ _ _). split.
  - unfold el. repeat (rewrite keys_distinct_element || rewrite Forall_cons).
    rewrite (keys_of_imap (λ d, js_of_Z (doc_id d))) by done.
    repeat split; try (by repeat constructor).
    + apply (sublist_NoDup _ ((λ d, js_of_Z (doc_id d)) <$> documents));
        [|apply fmap_sublist, sublist_filter].
      apply (bool_decide_unpack _). by vm_compute.
    + apply Forall_forall. intros r (i & d & -> & _)%elem_of_lookup_imap.
      apply (table_row_plain p).
  - repeat (rewrite calls_el || rewrite bind_cons).
    rewrite (calls_imap p table_row (λ _, [])) by (intros; apply table_row_plain).
    rewrite bind_no_calls.
    replace (calls p table_head) with (@nil documents_call) by (by destruct p; vm_compute).
    destruct p; vm_compute; reflexivity.
Qed.

Lemma upload_modal_calls p st :
  calls p (upload_modal st)
  = if showUpload st then
      match p with
      | Click =>
          SetShowUpload false
          :: (InFileUpload <$> names (upload st)) ++ [SetShowUpload false]
      | _ => []
      end
    else [].
Proof.
  unfold upload_modal. rewrite calls_when. destruct (showUpload st); [|done].
  unfold_calls. rewrite calls_map_calls, FileUpload_calls.
  destruct p; eval_own_calls; rewrite !app_nil_r; [|done..].
  by rewrite fmap_app, <- list_fmap_compose.
Qed.

Lemma upload_modal_keys st :
  keys_distinct (upload_modal st) ↔ (showUpload st = true → NoDup (names (upload st))).
Proof.
  unfold upload_modal. rewrite keys_distinct_when. apply forall_proper. intros _.
  unfold el. repeat (rewrite keys_distinct_element || rewrite Forall_cons).
  rewrite keys_distinct_map_calls, FileUpload_view_keys.
  assert (keys_of [map_calls from_upload (FileUpload_view (isDragActive st) (upload st))]
          = []) as Hk by done.
  split; [tauto|]. intros Hnd. cbn [keys_of omap list_omap key_of] in *.
  rewrite Hk. repeat split; try done; by repeat constructor.
Qed.

(** ** The calls of the page *)

(** What a user can do on the page.  A click opens the dialog, or,
    while it is open, closes it (the cross and [Cancel]) or removes a file of
    its list; typing in the search box sets the search term to the text
    typed; the status filter can be set to one of its four values and to
    nothing else.  No other call can be made: the buttons of a row (view,
    download, delete, more), the filter button and [Process Documents] have
    no handler. *)
Theorem DocumentsPage_calls st p :
  calls p (DocumentsPage_view st)
  = match p with
    | Click =>
        SetShowUpload true
        :: (if showUpload st then
              SetShowUpload false
              :: (InFileUpload <$> names (upload st)) ++ [SetShowUpload false]
            else [])
    | Change v =>
        SetSearchTerm v :: (if js_includes filter_options v then [SetSelectedFilter v] else [])
    | Pick _ => []
    end.
Proof.
  unfold DocumentsPage_view. unfold_calls.
  rewrite (proj2 (page_header_calls p)), (proj2 (stats_cards_plain p)),
    (proj2 (search_and_filters_calls p st)), (proj2 (documents_table_plain p st)),
    upload_modal_calls.
  destruct p as [|v|files], (showUpload st); eval_own_calls; by rewrite ?app_nil_r.
Qed.

(** The keys of the page are distinct unless the dialog lists two files
    of the same name: the rows of the table are keyed by the ids of the
    documents, which differ. *)
Theorem DocumentsPage_keys st :
  keys_distinct (DocumentsPage_view st)
  ↔ (showUpload st = true → NoDup (names (upload st))).
Proof.
  unfold DocumentsPage_view, el.
  repeat (rewrite keys_distinct_element || rewrite Forall_cons).
  rewrite upload_modal_keys.
  pose proof (proj1 (page_header_calls Click)). pose proof (proj1 (stats_cards_plain Click)).
  pose proof (proj1 (search_and_filters_calls Click st)).
  pose proof (proj1 (documents_table_plain Click st)).
  assert (keys_of [page_header; stats_cards; search_and_filters st; documents_table st;
                   upload_modal st] = []) as ->.
  { unfold upload_modal. by destruct (showUpload st). }
  split; [tauto|]. intros Hnd. repeat split; try done; by repeat constructor.
Qed.

(** ** The states a user can reach *)

(** The calls the rendered page can make, one by one. *)
Lemma dispatch_cases st path p c :
  dispatch (DocumentsPage_view st) path p = Some c →
  match c with
  | SetSearchTerm _ => True
  | SetShowUpload true => True
  | SetShowUpload false => showUpload st = true
  | SetSelectedFilter v => v ∈ filter_options
  | InFileUpload fileName => showUpload st = true ∧ fileName ∈ names (upload st)
  end.
Proof.
  intros Hd. assert (c ∈ calls p (DocumentsPage_view st)) as Hc
    by (apply dispatch_calls; eauto).
  rewrite DocumentsPage_calls in Hc. destruct p as [|v|files].
  - apply elem_of_cons in Hc as [->|Hc]; [done|].
    destruct (showUpload st); [|by apply elem_of_nil in Hc].
    rewrite elem_of_cons, elem_of_app, list_elem_of_fmap, list_elem_of_singleton in Hc.
    destruct Hc as [->|[(name & -> & Hname)| ->]]; done.
  - apply elem_of_cons in Hc as [->|Hc]; [done|]. unfold js_includes in Hc.
    case_bool_decide; [|by apply elem_of_nil in Hc].
    by apply list_elem_of_singleton in Hc as ->.
  - by apply elem_of_nil in Hc.
Qed.

Lemma page_step_ok c st :
  match c with SetSelectedFilter v => v ∈ filter_options | _ => True end →
  page_ok st → page_ok (page_step c st).
Proof.
  intros Hc [Hf Hu Hclosed]. destruct c as [v|b|v|name]; split; simpl; try done.
  - destruct b, (showUpload st); try done; apply FileUpload_ok.
  - destruct b, (showUpload st); done.
  - by apply removeFile_ok.
  - intros Hs. destruct (Hclosed Hs) as [-> ->]. done.
Qed.

Lemma page_event_step_ok st e : page_ok st → page_ok (page_event_step st e).
Proof.
  intros Hok. destruct e as [path p|e|active]; simpl.
  - destruct (dispatch _ path p) as [c|] eqn:Hd; [|done].
    apply page_step_ok; [|done]. apply dispatch_cases in Hd. by destruct c.
  - destruct (showUpload st) eqn:Hs; [|done]. destruct Hok as [Hf Hu _].
    split; simpl; [done|by apply upload_step_ok|done].
  - destruct (showUpload st) eqn:Hs; [|done]. destruct Hok as [Hf Hu _]. by split.
Qed.

Lemma DocumentsPage_ok : page_ok DocumentsPage.
Proof.
  split; simpl; [|apply FileUpload_ok|done].
  apply (bool_decide_unpack _). by vm_compute.
Qed.

(** C33: in every state of the page a user can reach, by acting on what is
    rendered and by dropping files on an open dialog while its timers fire,
    the status filter holds one of its four values, the list of the dialog is
    well formed, and a closed dialog holds no file. *)
Theorem page_reachable_ok st : page_reachable st → page_ok st.
Proof.
  induction 1 as [|st e _ IH]; [apply DocumentsPage_ok|by apply page_event_step_ok].
Qed.

Lemma in_dialog_reachable es st : page_reachable st → page_reachable (in_dialog es st).
Proof.
  revert st. induction es as [|e es IH]; intros st Hst; [done|].
  apply IH. by constructor.
Qed.

(** ** The dialog *)

Lemma in_dialog_open es st :
  Forall dialog_event es → showUpload st = true →
  showUpload (in_dialog es st) = true
  ∧ searchTerm (in_dialog es st) = searchTerm st
  ∧ selectedFilter (in_dialog es st) = selectedFilter st.
Proof.
  intros Hes. revert st. induction Hes as [|e es He _ IH]; intros st Hs; [done|].
  simpl. destruct e as [| |]; [done|..]; simpl; rewrite Hs.
  - by destruct (IH (DocumentsPageState (searchTerm st) true (selectedFilter st)
                      (upload_step (upload st) e) (isDragActive st)) eq_refl) as (? & ? & ?).
  - by destruct (IH (DocumentsPageState (searchTerm st) true (selectedFilter st)
                      (upload st) active) eq_refl) as (? & ? & ?).
Qed.

Lemma close_cross_dispatch st :
  showUpload st = true →
  dispatch (DocumentsPage_view st) close_cross Click = Some (SetShowUpload false).
Proof. intros Hs. unfold dispatch, close_cross, DocumentsPage_view, upload_modal. by rewrite Hs. Qed.

(** C36: opening the dialog and closing it with the cross gives back the
    page as it was, whatever was dropped on the dialog and however far the
    uploads went in between: the files of the dialog are forgotten, and
    nothing on the page records them. *)
Theorem dialog_forgets_uploads st es :
  page_ok st → showUpload st = false → Forall dialog_event es →
  let opened := page_event_step st (User open_button Click) in
  showUpload opened = true
  ∧ uploadedFiles (upload opened) = []
  ∧ page_event_step (in_dialog es opened) (User close_cross Click) = st.
Proof.
  intros [_ _ Hclosed] Hs Hes. destruct (Hclosed Hs) as [Hu Hd].
  assert (page_event_step st (User open_button Click)
          = page_step (SetShowUpload true) st) as -> by done.
  cbv zeta. split; [done|]. split; [by simpl; rewrite Hs|].
  destruct (in_dialog_open es (page_step (SetShowUpload true) st) Hes eq_refl)
    as (Hopen & Hterm & Hfilter).
  unfold page_event_step. rewrite (close_cross_dispatch _ Hopen).
  unfold page_step at 1. rewrite Hterm, Hfilter. simpl.
  destruct st; simpl in *; by subst.
Qed.

(** ** The theorems at work *)

(** The dialog with two files dropped and one timer fired. *)
Lemma page_reachable_ok_witness :
  page_ok (in_dialog [User open_button Click; Dialog (Drop [report; notes_plain]);
                      Dialog (Fire 0); User [0; 2; 0; 1; 0]%nat (Change (str "error"))]
             DocumentsPage).
Proof.
  apply page_reachable_ok, in_dialog_reachable, page_first.
Defined.

Lemma dialog_forgets_uploads_witness :
  let opened := page_event_step DocumentsPage (User open_button Click) in
  showUpload opened = true
  ∧ uploadedFiles (upload opened) = []
  ∧ page_event_step (in_dialog [Dialog (Drop [report; notes_plain]); Dialog (Fire 0)] opened)
      (User close_cross Click) = DocumentsPage.
Proof.
  apply (dialog_forgets_uploads DocumentsPage
           [Dialog (Drop [report; notes_plain]); Dialog (Fire 0)]).
  - apply DocumentsPage_ok.
  - reflexivity.
  - by repeat constructor.
Defined.
