(* ===== verification/ChatbotView.v ===== *)
(** * What ChatbotPage renders

    [src/project/src/pages/ChatbotPage.tsx] as a component: the form of
    [Pages.v] with the file readers [handleLogoUpload] has started and that
    have not answered yet ([chatbot_page]), the markup in the order of the
    source ([ChatbotPage_view], section by section), the calls the markup
    makes ([chatbot_call]) and what each does ([chatbot_step]).

    [handleLogoUpload] starts a [FileReader] on the first file picked, if
    there is one; its [onload] calls [setLogo] with the data URL.  The reader
    answers later, or never: its answer is the event [Loaded], and the data
    URL, which the browser computes from the bytes, is carried by the event.

    The theorems: what a user can do on the page, and that no call sends the
    configuration anywhere ([Save Changes], [Preview] and the copy button
    have no handler); that in every state a user can reach the model is one
    of the three of the list and the languages are distinct codes of the
    list, so the preview always names the model; that typing a company name
    shows it in the input, in the preview and, in lower case without white
    space, in the address; that the embed code takes the address as it is,
    quotes included; that of two logos picked in a row the one whose reader
    answers last stays. *)

From Stdlib Require Import ZArith QArith Lia String.
From stdpp Require Import prelude list gmap.
From S2P Require Import Prelude JsString World View Schemas Pages.

#[local] Open Scope Z_scope.

(** ** State and calls *)

Record chatbot_page := ChatbotPageState {
  form : chatbot_form;
  (** the readers that have not answered: an id and the name of the file *)
  readers : list (nat * text);
  next_reader : nat
}.

Definition ChatbotPage_first : chatbot_page := ChatbotPageState ChatbotPage [] 0.

Inductive chatbot_call :=
  | SetCompanyName (value : text)
  | SetSelectedModel (value : text)
  | SetWelcomeMessage (value : text)
  | SetShowColorPicker (value : bool)
  | SetPrimaryColor (hex : text)
  | HandleLanguageToggle (langCode : text)
  | HandleLogoUpload (files : list text).

Definition dquote : N := 34%N.

(** The text of the embed code. *)
Definition embed_code (f : chatbot_form) : text :=
  str "<iframe src=" ++ [dquote] ++ chatbotUrl f ++ [dquote]
  ++ str " width=" ++ [dquote] ++ str "400" ++ [dquote]
  ++ str " height=" ++ [dquote] ++ str "600" ++ [dquote] ++ str "></iframe>".

(** [logo ? shown : placeholder], for a logo that is a text or null. *)
Definition logo_or (f : chatbot_form) (shown : text → node chatbot_call)
    (placeholder : node chatbot_call) : node chatbot_call :=
  match logo f with
  | Some src => if bool_decide (src = []) then placeholder else shown src
  | None => placeholder
  end.

(** ** The markup *)

Definition section_title (symbol title : string) : node chatbot_call :=
  el "div" [className "flex items-center mb-6"]
    [icon symbol "h-5 w-5 text-gray-600 mr-2";
     el "h2" [className "text-xl font-semibold text-gray-900"] [txt title]].

Definition field_label (title : string) : node chatbot_call :=
  el "label" [className "block text-sm font-medium text-gray-700 mb-2"] [txt title].

Definition chat_header : node chatbot_call :=
  el "div" [className "flex justify-between items-center"]
    [el "div" []
       [el "h1" [className "text-3xl font-bold text-gray-900"] [txt "Chatbot Configuration"];
        el "p" [className "text-gray-600 mt-1"]
          [txt "Customize your AI chatbot's appearance and behavior"]];
     el "div" [className "flex space-x-3"]
       [el "button"
          [className "border border-gray-300 text-gray-700 px-4 py-2 rounded-lg hover:bg-gray-50 transition-colors flex items-center"]
          [icon "Eye" "h-4 w-4 mr-2"; txt "Preview"];
        el "button"
          [className "bg-blue-600 text-white px-4 py-2 rounded-lg hover:bg-blue-700 transition-colors flex items-center"]
          [icon "Save" "h-4 w-4 mr-2"; txt "Save Changes"]]].

Definition model_option (model : ai_model) : node chatbot_call :=
  keyed (model_id model)
    (el "option" [attr_text "value" (model_id model)]
       [TextNode (model_name model); txt " - "; TextNode (model_provider model)]).

Definition basic_settings (f : chatbot_form) : node chatbot_call :=
  el "div" [className "bg-white rounded-xl border border-gray-200 p-6"]
    [section_title "Settings" "Basic Settings";
     el "div" [className "grid grid-cols-1 md:grid-cols-2 gap-6"]
       [el "div" []
          [field_label "Company Name";
           el "input"
             [attr "type" "text";
              attr_text "value" (companyName f);
              onChange SetCompanyName;
              className "w-full px-3 py-2 border border-gray-300 rounded-lg focus:ring-2 focus:ring-blue-500 focus:border-transparent"]
             []];
        el "div" []
          [field_label "AI Model";
           el "select"
             [attr_text "value" (selectedModel f);
              onChange SetSelectedModel;
              className "w-full px-3 py-2 border border-gray-300 rounded-lg focus:ring-2 focus:ring-blue-500 focus:border-transparent"]
             (model_option <$> aiModels)]];
     el "div" [className "mt-6"]
       [field_label "Welcome Message";
        el "textarea"
          [attr_text "value" (welcomeMessage f);
           onChange SetWelcomeMessage;
           attr_num "rows" 3;
           className "w-full px-3 py-2 border border-gray-300 rounded-lg focus:ring-2 focus:ring-blue-500 focus:border-transparent";
           attr "placeholder" "Enter your chatbot's welcome message..."]
          []]].

Definition appearance (f : chatbot_form) : node chatbot_call :=
  el "div" [className "bg-white rounded-xl border border-gray-200 p-6"]
    [section_title "Palette" "Appearance";
     el "div" [className "grid grid-cols-1 md:grid-cols-2 gap-6"]
       [el "div" []
          [field_label "Company Logo";
           el "div" [className "flex items-center space-x-4"]
             [logo_or f
                (λ src, el "img"
                   [attr_text "src" src; attr "alt" "Logo";
                    className "w-16 h-16 object-contain border border-gray-200 rounded-lg"]
                   [])
                (el "div"
                   [className "w-16 h-16 bg-gray-100 border border-gray-200 rounded-lg flex items-center justify-center"]
                   [icon "Bot" "h-8 w-8 text-gray-400"]);
              el "label"
                [className "cursor-pointer bg-blue-600 text-white px-4 py-2 rounded-lg hover:bg-blue-700 transition-colors"]
                [icon "Upload" "h-4 w-4 inline mr-2";
                 txt "Upload Logo";
                 el "input"
                   [attr "type" "file";
                    attr "accept" "image/*";
                    (str "onChange",
                     Handler (λ p, match p with
                                   | Pick files => Some (HandleLogoUpload files)
                                   | _ => None
                                   end));
                    className "hidden"]
                   []]]];
        el "div" []
          [field_label "Primary Color";
           el "div" [className "flex items-center space-x-3"]
             [el "button"
                [onClick (SetShowColorPicker (negb (showColorPicker f)));
                 className "w-12 h-10 rounded-lg border border-gray-300 shadow-sm";
                 attr_obj "style" [field_text "backgroundColor" (primaryColor f)]]
                [];
              el "span" [className "text-sm text-gray-600"] [TextNode (primaryColor f)]];
           when (showColorPicker f)
             (el "div" [className "absolute z-10 mt-2"]
                [el "div" [className "fixed inset-0"; onClick (SetShowColorPicker false)] [];
                 el "ChromePicker"
                   [attr_text "color" (primaryColor f); onChange SetPrimaryColor] []])]]].

Definition language_label (f : chatbot_form) (lang : language) : node chatbot_call :=
  keyed (lang_code lang)
    (el "label"
       [attr_text "className"
          (str "flex items-center p-3 rounded-lg border cursor-pointer transition-colors "
           ++ (if js_includes (selectedLanguages f) (lang_code lang)
               then str "border-blue-500 bg-blue-50"
               else str "border-gray-200 hover:bg-gray-50"))]
       [el "input"
          [attr "type" "checkbox";
           attr_bool "checked" (js_includes (selectedLanguages f) (lang_code lang));
           (str "onChange", Handler (λ _, Some (HandleLanguageToggle (lang_code lang))));
           className "sr-only"]
          [];
        el "span" [className "text-xl mr-2"] [TextNode (lang_flag lang)];
        el "span" [className "text-sm font-medium"] [TextNode (lang_name lang)]]).

Definition languages_view (f : chatbot_form) : node chatbot_call :=
  el "div" [className "bg-white rounded-xl border border-gray-200 p-6"]
    [section_title "Globe" "Supported Languages";
     el "div" [className "grid grid-cols-2 md:grid-cols-4 gap-3"]
       (language_label f <$> languages)].

Definition deployment (f : chatbot_form) : node chatbot_call :=
  el "div" [className "bg-white rounded-xl border border-gray-200 p-6"]
    [section_title "ExternalLink" "Deployment";
     el "div" [className "space-y-4"]
       [el "div" []
          [field_label "Chatbot URL";
           el "div" [className "flex items-center space-x-2"]
             [el "input"
                [attr "type" "text";
                 attr_text "value" (chatbotUrl f);
                 attr_bool "readOnly" true;
                 className "flex-1 px-3 py-2 border border-gray-300 rounded-lg bg-gray-50"]
                [];
              el "button"
                [className "bg-gray-100 text-gray-700 px-3 py-2 rounded-lg hover:bg-gray-200 transition-colors"]
                [icon "Copy" "h-4 w-4"]]];
        el "div" [className "bg-gray-50 p-4 rounded-lg"]
          [el "h3" [className "font-medium text-gray-900 mb-2"] [txt "Embed Code"];
           el "code" [className "text-sm text-gray-600 bg-white p-2 rounded border block"]
             [TextNode (embed_code f)]]]].

(** A message of the bot in the preview. *)
Definition bot_message (message : text) : node chatbot_call :=
  el "div" [className "mb-4"]
    [el "div" [className "flex items-start space-x-2"]
       [el "div"
          [className "w-6 h-6 bg-gray-300 rounded-full flex items-center justify-center flex-shrink-0"]
          [icon "Bot" "h-3 w-3 text-gray-600"];
        el "div" [className "bg-white p-3 rounded-lg shadow-sm max-w-xs"]
          [el "p" [className "text-sm text-gray-900"] [TextNode message]]]].

Definition preview_window (f : chatbot_form) : node chatbot_call :=
  el "div" [className "border border-gray-200 rounded-lg overflow-hidden"]
    [el "div"
       [className "p-4 border-b border-gray-200";
        attr_obj "style" [field_text "backgroundColor" (primaryColor f)]]
       [el "div" [className "flex items-center space-x-3"]
          [logo_or f
             (λ src, el "img"
                [attr_text "src" src; attr "alt" "Logo"; className "w-8 h-8 object-contain"] [])
             (el "div"
                [className "w-8 h-8 bg-white bg-opacity-20 rounded-full flex items-center justify-center"]
                [icon "Bot" "h-5 w-5 text-white"]);
           el "div" []
             [el "h3" [className "font-medium text-white"] [TextNode (companyName f)];
              el "p" [className "text-xs text-white text-opacity-80"] [txt "Online"]]]];
     el "div" [className "p-4 h-64 overflow-y-auto bg-gray-50"]
       [bot_message (welcomeMessage f);
        el "div" [className "mb-4"]
          [el "div" [className "flex items-start space-x-2 justify-end"]
             [el "div"
                [className "p-3 rounded-lg max-w-xs";
                 attr_obj "style" [field_text "backgroundColor" (primaryColor f)]]
                [el "p" [className "text-sm text-white"]
                   [txt "Hello! I need help with your product."]];
              el "div" [className "w-6 h-6 bg-gray-300 rounded-full flex-shrink-0"] []]];
        bot_message
          (str "I'd be happy to help! What specific information are you looking for?")];
     el "div" [className "p-4 border-t border-gray-200"]
       [el "div" [className "flex items-center space-x-2"]
          [el "input"
             [attr "type" "text";
              attr "placeholder" "Type your message...";
              className "flex-1 px-3 py-2 border border-gray-300 rounded-lg text-sm";
              attr_bool "disabled" true]
             [];
           el "button"
             [className "px-4 py-2 rounded-lg text-white text-sm";
              attr_obj "style" [field_text "backgroundColor" (primaryColor f)];
              attr_bool "disabled" true]
             [txt "Send"]]]].

(** The two lines under the preview. *)
Definition preview_summary (f : chatbot_form) : node chatbot_call :=
  el "div" [className "mt-4 text-center"]
    [el "p" [className "text-sm text-gray-600"]
       [txt "Supports ";
        TextNode (js_of_Z (js_length (selectedLanguages f)));
        txt " language";
        if bool_decide (js_length (selectedLanguages f) ≠ 1) then txt "s" else txt ""];
     el "p" [className "text-xs text-gray-500 mt-1"]
       [txt "Model: ";
        match list_find (λ m, model_id m = selectedModel f) aiModels with
        | Some (_, m) => TextNode (model_name m)
        | None => Nothing
        end]].

Definition preview (f : chatbot_form) : node chatbot_call :=
  el "div" [className "lg:col-span-1"]
    [el "div" [className "bg-white rounded-xl border border-gray-200 p-6 sticky top-6"]
       [section_title "MessageCircle" "Live Preview";
        preview_window f;
        preview_summary f]].

Definition ChatbotPage_view (f : chatbot_form) : node chatbot_call :=
  el "DashboardLayout" []
    [el "div" [className "space-y-8"]
       [chat_header;
        el "div" [className "grid grid-cols-1 lg:grid-cols-3 gap-8"]
          [el "div" [className "lg:col-span-2 space-y-6"]
             [basic_settings f; appearance f; languages_view f; deployment f];
           preview f]]].

(** ** What the calls do *)

Definition setLogo (value : option text) (f : chatbot_form) : chatbot_form :=
  {| selectedModel := selectedModel f; selectedLanguages := selectedLanguages f;
     companyName := companyName f; welcomeMessage := welcomeMessage f;
     primaryColor := primaryColor f; showColorPicker := showColorPicker f;
     logo := value |}.

Definition form_step (c : chatbot_call) (f : chatbot_form) : chatbot_form :=
  match c with
  | SetCompanyName value =>
      {| selectedModel := selectedModel f; selectedLanguages := selectedLanguages f;
         companyName := value; welcomeMessage := welcomeMessage f;
         primaryColor := primaryColor f; showColorPicker := showColorPicker f;
         logo := logo f |}
  | SetSelectedModel value =>
      {| selectedModel := value; selectedLanguages := selectedLanguages f;
         companyName := companyName f; welcomeMessage := welcomeMessage f;
         primaryColor := primaryColor f; showColorPicker := showColorPicker f;
         logo := logo f |}
  | SetWelcomeMessage value =>
      {| selectedModel := selectedModel f; selectedLanguages := selectedLanguages f;
         companyName := companyName f; welcomeMessage := value;
         primaryColor := primaryColor f; showColorPicker := showColorPicker f;
         logo := logo f |}
  | SetShowColorPicker value =>
      {| selectedModel := selectedModel f; selectedLanguages := selectedLanguages f;
         companyName := companyName f; welcomeMessage := welcomeMessage f;
         primaryColor := primaryColor f; showColorPicker := value;
         logo := logo f |}
  | SetPrimaryColor hex =>
      {| selectedModel := selectedModel f; selectedLanguages := selectedLanguages f;
         companyName := companyName f; welcomeMessage := welcomeMessage f;
         primaryColor := hex; showColorPicker := showColorPicker f;
         logo := logo f |}
  | HandleLanguageToggle langCode => handleLanguageToggle langCode f
  | HandleLogoUpload _ => f
  end.

(** [handleLogoUpload]: a reader is started on the first file, if any. *)
Definition handleLogoUpload (files : list text) (st : chatbot_page) : chatbot_page :=
  match files with
  | file :: _ =>
      {| form := form st;
         readers := readers st ++ [(next_reader st, file)];
         next_reader := S (next_reader st) |}
  | [] => st
  end.

Definition chatbot_step (c : chatbot_call) (st : chatbot_page) : chatbot_page :=
  match c with
  | HandleLogoUpload files => handleLogoUpload files st
  | _ => {| form := form_step c (form st); readers := readers st;
            next_reader := next_reader st |}
  end.

(** What happens on the page: an event of the user on the rendered tree, or
    the answer of a reader, with the data URL it read. *)
Inductive chatbot_event :=
  | OnPage (path : list nat) (p : event_payload)
  | Loaded (reader : nat) (result : text).

(** [reader.onload]: [setLogo(e.target?.result)]. *)
Definition reader_onload (reader : nat) (result : text) (st : chatbot_page) : chatbot_page :=
  if bool_decide (reader ∈ (readers st).*1) then
    {| form := setLogo (Some result) (form st);
       readers := filter (λ r, r.1 ≠ reader) (readers st);
       next_reader := next_reader st |}
  else st.

Definition chatbot_event_step (st : chatbot_page) (e : chatbot_event) : chatbot_page :=
  match e with
  | OnPage path p =>
      match dispatch (ChatbotPage_view (form st)) path p with
      | Some c => chatbot_step c st
      | None => st
      end
  | Loaded reader result => reader_onload reader result st
  end.

Inductive chatbot_reachable : chatbot_page → Prop :=
  | chatbot_first : chatbot_reachable ChatbotPage_first
  | chatbot_next st e : chatbot_reachable st → chatbot_reachable (chatbot_event_step st e).

Definition chatbot_run (es : list chatbot_event) (st : chatbot_page) : chatbot_page :=
  foldl chatbot_event_step st es.

(** ** Specifications *)

(** The form as a user can leave it. *)
Record form_ok (f : chatbot_form) : Prop := {
  model_listed : selectedModel f ∈ ai_model_values;
  languages_listed : Forall (λ code, code ∈ language_values) (selectedLanguages f);
  languages_distinct : NoDup (selectedLanguages f)
}.

(** The page as a user can leave it: the readers that have not answered
    were started by the page, one id each. *)
Record chatbot_ok (st : chatbot_page) : Prop := {
  ok_form : form_ok (form st);
  readers_known : Forall (λ r, (r.1 < next_reader st)%nat) (readers st);
  readers_distinct : NoDup (readers st).*1
}.

(** The paths of the inputs, of the name in the preview and of the line of
    the preview that names the model. *)
Definition company_input : list nat := [0; 1; 0; 0; 1; 0; 1]%nat.
Definition logo_input : list nat := [0; 1; 0; 1; 1; 0; 1; 1; 2]%nat.
Definition preview_name : list nat := [0; 1; 1; 0; 1; 0; 0; 1; 0]%nat.
Definition model_line : list nat := [0; 1; 1; 0; 2; 1; 1]%nat.

(** A company name with a quote in it. *)
Definition quoted_name : text :=
  str "x" ++ [dquote] ++ str " onload=" ++ [dquote] ++ str "alert(1)".

(** A session: a name typed, two logos picked, the second read first. *)
Definition example_session : list chatbot_event :=
  [OnPage company_input (Change (str "Acme Rockets"));
   OnPage logo_input (Pick [str "old.png"]);
   OnPage logo_input (Pick [str "new.png"]);
   Loaded 1 (str "data:new");
   Loaded 0 (str "data:old")].

(** ** The calls of the sections *)

Lemma chat_header_plain p : keys_distinct chat_header ∧ calls p chat_header = [].
Proof. split; [apply (bool_decide_unpack _); by vm_compute|by destruct p; vm_compute]. Qed.

Lemma logo_or_calls p f (shown : text → node chatbot_call) placeholder :
  (∀ src, calls p (shown src) = []) → calls p placeholder = [] →
  calls p (logo_or f shown placeholder) = [].
Proof. intros Hs Hp. unfold logo_or. destruct (logo f); [case_bool_decide|]; auto. Qed.

Lemma logo_or_keys f (shown : text → node chatbot_call) placeholder :
  (∀ src, keys_distinct (shown src)) → keys_distinct placeholder →
  keys_distinct (logo_or f shown placeholder).
Proof. intros Hs Hp. unfold logo_or. destruct (logo f); [case_bool_decide|]; auto. Qed.

Lemma basic_settings_calls p f :
  calls p (basic_settings f)
  = match p with
    | Change v =>
        SetCompanyName v
        :: (if js_includes ai_model_values v then [SetSelectedModel v] else [])
        ++ [SetWelcomeMessage v]
    | _ => []
    end.
Proof.
  destruct p as [|v|files]; [by vm_compute| |by vm_compute].
  unfold basic_settings. cbn [calls el mbind list_bind]. unfold own_call, offered.
  change (option_values (Element (str "select") _ _ _)) with ai_model_values.
  destruct (js_includes ai_model_values v); vm_compute; reflexivity.
Qed.

Lemma appearance_calls p f :
  calls p (appearance f)
  = match p with
    | Click =>
        SetShowColorPicker (negb (showColorPicker f))
        :: (if showColorPicker f then [SetShowColorPicker false] else [])
    | Change v => if showColorPicker f then [SetPrimaryColor v] else []
    | Pick files => [HandleLogoUpload files]
    end.
Proof.
  unfold appearance, section_title, field_label. unfold_calls.
  rewrite calls_when, logo_or_calls; [|by intros; destruct p|by destruct p].
  unfold_calls. destruct p, (showColorPicker f); eval_own_calls; by rewrite ?app_nil_r.
Qed.

Lemma language_label_calls p f lang :
  calls p (language_label f lang)
  = match p with Change _ => [HandleLanguageToggle (lang_code lang)] | _ => [] end.
Proof.
  unfold language_label. rewrite calls_keyed. unfold_calls.
  destruct p; eval_own_calls; by rewrite ?app_nil_r.
Qed.

Lemma languages_view_calls p f :
  calls p (languages_view f)
  = match p with Change _ => HandleLanguageToggle <$> language_values | _ => [] end.
Proof.
  unfold languages_view, section_title. unfold_calls.
  rewrite (calls_fmap p (language_label f)
             (λ lang, match p with
                      | Change _ => [HandleLanguageToggle (lang_code lang)]
                      | _ => []
                      end)) by (intros; apply language_label_calls).
  destruct p; eval_own_calls; by rewrite ?app_nil_r.
Qed.

Lemma deployment_plain p f : calls p (deployment f) = [].
Proof.
  unfold deployment, section_title, field_label. unfold_calls.
  destruct p; eval_own_calls; by rewrite ?app_nil_r.
Qed.

Lemma bot_message_plain p message : calls p (bot_message message) = [].
Proof. unfold bot_message. unfold_calls. destruct p; eval_own_calls; by rewrite ?app_nil_r. Qed.

Lemma preview_plain p f : calls p (preview f) = [].
Proof.
  unfold preview, preview_window, preview_summary, section_title. unfold_calls.
  rewrite !bot_message_plain, logo_or_calls; [|by intros; destruct p|by destruct p].
  destruct (list_find _ aiModels) as [[i m]|], (bool_decide _);
    cbn [calls txt]; destruct p; eval_own_calls; by rewrite ?app_nil_r.
Qed.

(** ** The calls of the page *)

(** The calls an event can make somewhere on the page, top to bottom. *)
Lemma ChatbotPage_calls f p :
  calls p (ChatbotPage_view f)
  = match p with
    | Click =>
        SetShowColorPicker (negb (showColorPicker f))
        :: (if showColorPicker f then [SetShowColorPicker false] else [])
    | Change v =>
        SetCompanyName v
        :: (if js_includes ai_model_values v then [SetSelectedModel v] else [])
        ++ SetWelcomeMessage v
        :: (if showColorPicker f then [SetPrimaryColor v] else [])
        ++ (HandleLanguageToggle <$> language_values)
    | Pick files => [HandleLogoUpload files]
    end.
Proof.
  unfold ChatbotPage_view. unfold_calls.
  rewrite (proj2 (chat_header_plain p)), basic_settings_calls, appearance_calls,
    languages_view_calls, deployment_plain, preview_plain.
  destruct p as [|v|files]; eval_own_calls; rewrite ?app_nil_r; [done| |done].
  by rewrite <- !app_assoc.
Qed.

Lemma toggle_call_listed c (l : list text) :
  c ∈ HandleLanguageToggle <$> l
  ↔ match c with HandleLanguageToggle code => code ∈ l | _ => False end.
Proof.
  rewrite list_elem_of_fmap. destruct c; (split; [by intros (y & [= ->] & ?)|]); try done.
  intros Hin. by eexists.
Qed.

(** C34: what a user can do on the page.  A click opens or closes the colour
    picker; a change sets the company name or the welcome message to the text
    typed, the model to one of the three values of its list, the colour to
    what the picker reports while it is open, or toggles one of the eight
    languages; picking files calls [handleLogoUpload].  Nothing else can be
    called from any element: [Preview], [Save Changes] and the copy button
    have no handler, so no event of the page sends the configuration
    anywhere. *)
Theorem ChatbotPage_handlers f p c :
  (∃ path, dispatch (ChatbotPage_view f) path p = Some c)
  ↔ match p, c with
    | Click, SetShowColorPicker b =>
        b = negb (showColorPicker f) ∨ (showColorPicker f = true ∧ b = false)
    | Change v, SetCompanyName v' | Change v, SetWelcomeMessage v' => v' = v
    | Change v, SetSelectedModel v' => v' = v ∧ v ∈ ai_model_values
    | Change v, SetPrimaryColor v' => v' = v ∧ showColorPicker f = true
    | Change _, HandleLanguageToggle code => code ∈ language_values
    | Pick files, HandleLogoUpload files' => files' = files
    | _, _ => False
    end.
Proof.
  rewrite dispatch_calls, ChatbotPage_calls. destruct p as [|v|files].
  - destruct (showColorPicker f); rewrite !elem_of_cons, elem_of_nil;
      destruct c; simpl; intuition congruence.
  - rewrite elem_of_cons, elem_of_app, elem_of_cons, elem_of_app, toggle_call_listed.
    unfold js_includes. case_bool_decide; destruct (showColorPicker f);
      rewrite ?list_elem_of_singleton, ?elem_of_nil; destruct c; intuition congruence.
  - rewrite list_elem_of_singleton. destruct c; intuition congruence.
Qed.

(** ** The states a user can reach *)

(** The calls the rendered page can make, one by one. *)
Lemma chatbot_dispatch_cases f path p c :
  dispatch (ChatbotPage_view f) path p = Some c →
  match c with
  | SetSelectedModel v => v ∈ ai_model_values
  | HandleLanguageToggle code => code ∈ language_values
  | SetPrimaryColor _ => showColorPicker f = true
  | _ => True
  end.
Proof.
  intros Hd. assert (c ∈ calls p (ChatbotPage_view f)) as Hc
    by (apply dispatch_calls; eauto).
  rewrite ChatbotPage_calls in Hc. destruct p as [|v|files].
  - destruct (showColorPicker f);
      repeat (apply elem_of_cons in Hc as [->|Hc]; [done|]); by apply elem_of_nil in Hc.
  - rewrite elem_of_cons, elem_of_app, elem_of_cons, elem_of_app, list_elem_of_fmap in Hc.
    destruct Hc as [->|[Hc|[->|[Hc|(code & -> & Hcode)]]]]; try done.
    + unfold js_includes in Hc. case_bool_decide; [|by apply elem_of_nil in Hc].
      by apply list_elem_of_singleton in Hc as ->.
    + destruct (showColorPicker f); [|by apply elem_of_nil in Hc].
      by apply list_elem_of_singleton in Hc as ->.
  - by apply list_elem_of_singleton in Hc as ->.
Qed.

Lemma form_step_ok c f :
  match c with
  | SetSelectedModel v => v ∈ ai_model_values
  | HandleLanguageToggle code => code ∈ language_values
  | _ => True
  end →
  form_ok f → form_ok (form_step c f).
Proof.
  intros Hc [Hm Hl Hd]. destruct c; split; simpl; try done.
  - apply Forall_forall. intros code [[-> _]|[_ Hin]]%toggle_language_elem; [done|].
    rewrite Forall_forall in Hl. by apply Hl.
  - by apply toggle_language_NoDup.
Qed.

Lemma handleLogoUpload_ok files st : chatbot_ok st → chatbot_ok (handleLogoUpload files st).
Proof.
  intros [Hf Hk Hd]. destruct files as [|file files]; [done|]. split; simpl; [done|..].
  - apply Forall_app. split; [|by repeat constructor].
    eapply Forall_impl; [exact Hk|]. simpl. lia.
  - rewrite fmap_app. apply NoDup_app. split; [done|]. split; [|apply NoDup_singleton].
    intros id (r & Hid & Hin)%list_elem_of_fmap Hnew%list_elem_of_singleton.
    rewrite Forall_forall in Hk. apply Hk in Hin. simpl in Hnew. lia.
Qed.

Lemma reader_onload_ok reader result st : chatbot_ok st → chatbot_ok (reader_onload reader result st).
Proof.
  intros [[Hm Hl Hd] Hk Hn]. unfold reader_onload. case_bool_decide; [|done].
  split; simpl; [done|..].
  - rewrite Forall_forall in Hk. apply Forall_forall.
    intros r [_ Hin]%list_elem_of_filter. by apply Hk.
  - apply (sublist_NoDup _ (readers st).*1); [done|]. apply fmap_sublist, sublist_filter.
Qed.

Lemma chatbot_event_step_ok st e : chatbot_ok st → chatbot_ok (chatbot_event_step st e).
Proof.
  intros Hok. destruct e as [path p|reader result]; simpl; [|by apply reader_onload_ok].
  destruct (dispatch _ path p) as [c|] eqn:Hd; [|done].
  apply chatbot_dispatch_cases in Hd.
  destruct c; try (by apply handleLogoUpload_ok);
    destruct Hok; split; try done; by apply form_step_ok.
Qed.

Lemma chatbot_first_ok : chatbot_ok ChatbotPage_first.
Proof.
  split; [split|..]; simpl; try by repeat constructor.
  apply (bool_decide_unpack _). by vm_compute.
Qed.

Lemma chatbot_reachable_all st : chatbot_reachable st → chatbot_ok st.
Proof.
  induction 1 as [|st e _ IH]; [apply chatbot_first_ok|by apply chatbot_event_step_ok].
Qed.

Lemma chatbot_run_reachable es st : chatbot_reachable st → chatbot_reachable (chatbot_run es st).
Proof.
  revert st. induction es as [|e es IH]; intros st Hst; [done|].
  apply IH. by constructor.
Qed.

Lemma listed_model_found f :
  selectedModel f ∈ ai_model_values →
  ∃ i m, list_find (λ m, model_id m = selectedModel f) aiModels = Some (i, m).
Proof.
  unfold ai_model_values. rewrite !elem_of_cons, elem_of_nil.
  intros [->|[->|[->|[]]]]; eexists _, _; by vm_compute.
Qed.

(** C32: in every state of the page a user can reach, by acting on what is
    rendered while the file readers answer in any order, the model is one of
    the three of the list, the languages selected are distinct codes of the
    list, and the readers still at work were started by the page, one id
    each; so the line under the preview always names the model. *)
Theorem chatbot_reachable_ok st :
  chatbot_reachable st →
  chatbot_ok st
  ∧ ∃ m, m ∈ aiModels ∧ model_id m = selectedModel (form st)
         ∧ locate model_line (ChatbotPage_view (form st)) = Some (TextNode (model_name m)).
Proof.
  intros Hok%chatbot_reachable_all. split; [done|].
  destruct (listed_model_found (form st)) as (i & m & Hfind); [apply Hok|].
  exists m. pose proof Hfind as (Hin%list_elem_of_lookup_2 & Hid & _)%list_find_Some.
  split; [done|]. split; [done|].
  unfold model_line, ChatbotPage_view, preview, preview_summary. by rewrite Hfind.
Qed.

(** ** What is typed is what is shown *)

Lemma company_input_dispatch f v :
  dispatch (ChatbotPage_view f) company_input (Change v) = Some (SetCompanyName v).
Proof. done. Qed.

Lemma logo_input_dispatch f files :
  dispatch (ChatbotPage_view f) logo_input (Pick files) = Some (HandleLogoUpload files).
Proof. done. Qed.

(** A company name typed into its input is the value the input shows
    on the next render and the name in the header of the preview, as it was
    typed; the address under [Chatbot URL] and in the embed code is that name
    in lower case without its white space, between [https://chat.] and
    [.com], whatever else the name holds. *)
Theorem company_name_shown st v :
  let st' := chatbot_event_step st (OnPage company_input (Change v)) in
  locate company_input (ChatbotPage_view (form st')) ≫= text_prop (str "value") = Some v
  ∧ text_content <$> locate preview_name (ChatbotPage_view (form st')) = Some v
  ∧ chatbotUrl (form st')
    = str "https://chat." ++ js_remove_ws (js_toLowerCase v) ++ str ".com"
  ∧ readers st' = readers st.
Proof.
  cbv zeta. unfold chatbot_event_step. rewrite company_input_dispatch.
  split; [done|]. split; [|done].
  unfold preview_name, ChatbotPage_view, preview, preview_window. simpl.
  by rewrite app_nil_r.
Qed.

Lemma dquote_kept t : dquote ∈ t → dquote ∈ js_remove_ws (js_toLowerCase t).
Proof.
  intros Hin. apply list_elem_of_filter. split; [done|].
  apply list_elem_of_fmap. by exists dquote.
Qed.

(** The embed code closes the [src] attribute at the first double quote
    of the company name: the name is put between the quotes as it is. *)
Theorem embed_code_keeps_quotes f :
  dquote ∈ companyName f →
  ∃ before after,
    embed_code f = str "<iframe src=" ++ [dquote] ++ before ++ [dquote] ++ after
    ∧ (dquote ∉ before)
    ∧ (length before < length (chatbotUrl f))%nat.
Proof.
  intros Hq%dquote_kept.
  apply list_elem_of_split_l in Hq as (name & rest & Hname & Hfirst).
  exists (str "https://chat." ++ name),
    (rest ++ str ".com" ++ [dquote] ++ str " width=" ++ [dquote] ++ str "400"
       ++ [dquote] ++ str " height=" ++ [dquote] ++ str "600" ++ [dquote]
       ++ str "></iframe>").
  unfold embed_code, chatbotUrl. rewrite Hname. split; [|split].
  - by rewrite <- !app_assoc.
  - rewrite elem_of_app. intros [Hin|Hin]; [|done]. revert Hin.
    apply (bool_decide_unpack _). by vm_compute.
  - rewrite !length_app. simpl. lia.
Qed.

(** ** Two logos picked in a row *)

(** Of two logos picked one after the other, the one whose reader
    answers last stays: when the reader of the first file is the slower one,
    the page shows the first file though the second was picked after it. *)
Theorem logo_of_last_answer st a b url_a url_b :
  let picked := chatbot_run [OnPage logo_input (Pick [a]); OnPage logo_input (Pick [b])] st in
  let n := next_reader st in
  logo (form (chatbot_run [Loaded (S n) url_b; Loaded n url_a] picked)) = Some url_a
  ∧ logo (form (chatbot_run [Loaded n url_a; Loaded (S n) url_b] picked)) = Some url_b.
Proof.
  cbv zeta. unfold chatbot_run. cbn [foldl]. unfold chatbot_event_step at 2 3 5 6.
  rewrite !logo_input_dispatch. unfold chatbot_step, handleLogoUpload. cbn [form readers next_reader].
  assert (∀ id id' url st', id ≠ id' → id ∈ (readers st').*1 → id' ∈ (readers st').*1 →
            logo (form (reader_onload id url (reader_onload id' url_b st'))) = Some url
            ∧ logo (form (reader_onload id url (reader_onload id' url_a st'))) = Some url)
    as Hlast.
  { intros id id' url st' Hne Hid Hid'. unfold reader_onload.
    rewrite !(bool_decide_true (id' ∈ _)) by done. simpl.
    rewrite !bool_decide_true; [done|..];
      apply list_elem_of_fmap in Hid as (r & -> & Hr);
      apply list_elem_of_fmap; exists r; split; try done;
      apply list_elem_of_filter; split; done. }
  split; simpl; apply Hlast; try lia; simpl;
    rewrite !fmap_app, !elem_of_app; simpl; rewrite !list_elem_of_singleton; tauto.
Qed.

(** ** The theorems at work *)

Lemma chatbot_reachable_ok_witness :
  chatbot_ok (chatbot_run example_session ChatbotPage_first)
  ∧ ∃ m, m ∈ aiModels
         ∧ model_id m = selectedModel (form (chatbot_run example_session ChatbotPage_first))
         ∧ locate model_line
             (ChatbotPage_view (form (chatbot_run example_session ChatbotPage_first)))
           = Some (TextNode (model_name m)).
Proof.
  apply chatbot_reachable_ok, chatbot_run_reachable, chatbot_first.
Defined.

Lemma embed_code_keeps_quotes_witness :
  ∃ before after,
    embed_code (form_step (SetCompanyName quoted_name) ChatbotPage)
    = str "<iframe src=" ++ [dquote] ++ before ++ [dquote] ++ after
    ∧ (dquote ∉ before)
    ∧ (length before
       < length (chatbotUrl (form_step (SetCompanyName quoted_name) ChatbotPage)))%nat.
Proof.
  apply (embed_code_keeps_quotes (form_step (SetCompanyName quoted_name) ChatbotPage)).
  apply (bool_decide_unpack _). by vm_compute.
Defined.

(** The session of [example_session]: the name typed is in the
    address, and the logo is the one picked first. *)
Example example_session_result :
  let st := chatbot_run example_session ChatbotPage_first in
  chatbotUrl (form st) = str "https://chat.acmerockets.com"
  ∧ logo (form st) = Some (str "data:old")
  ∧ readers st = [].
Proof. by vm_compute. Qed.
