(* ===== verification/DashboardView.v ===== *)
(** * What DashboardPage renders

    [src/project/src/pages/DashboardPage.tsx]: a component without state.
    The file holds its two tables ([stats], [recentActivity]) and its markup
    in the order of the source ([DashboardPage_view]): the header, the grid of
    the four figures, the quick actions, the recent activity and the
    performance overview.

    The component takes no prop and holds no state, so the tree is one value;
    it is written for any type of calls, since it makes none.

    The theorems: the page is inert (no event on any element calls anything:
    the buttons, the four quick actions and the select have no handler) and
    its keys are distinct; what a tile of the grid shows; that the figures
    are written in the source and do not follow the lists of the other
    pages. *)

From Stdlib Require Import ZArith QArith Lia String.
From stdpp Require Import prelude list.
From S2P Require Import Prelude JsString View Schemas Pages.

#[local] Open Scope Z_scope.

(** ** The tables *)

Record stat := Stat {
  stat_name : text;
  stat_value : text;
  stat_change : text;
  stat_icon : text;
  stat_color : text;
  stat_bgColor : text
}.

Definition stats : list stat :=
  [Stat (str "Total Documents") (str "12") (str "+2 this week") (str "FileText")
     (str "text-blue-600") (str "bg-blue-50");
   Stat (str "Active Chatbots") (str "3") (str "+1 this month") (str "Bot")
     (str "text-green-600") (str "bg-green-50");
   Stat (str "Conversations") (str "1,234") (str "+23% this week") (str "MessageCircle")
     (str "text-purple-600") (str "bg-purple-50");
   Stat (str "Languages") (str "5") (str "+2 this month") (str "Globe")
     (str "text-orange-600") (str "bg-orange-50")].

Record activity := Activity {
  activity_id : Z;
  activity_type : text;
  activity_title : text;
  activity_description : text;
  activity_time : text;
  activity_icon : text
}.

Definition recentActivity : list activity :=
  [Activity 1 (str "document") (str "New document uploaded")
     (str "Customer Support FAQ.pdf") (str "2 hours ago") (str "FileText");
   Activity 2 (str "chatbot") (str "Chatbot updated")
     (str "Support Bot - Added Hindi language") (str "1 day ago") (str "Bot");
   Activity 3 (str "conversation") (str "High conversation volume")
     (str "156 conversations today") (str "2 days ago") (str "MessageCircle")].

(** ** The markup *)

Section markup.
Context {action : Type}.

Definition dashboard_header : node action :=
  el "div" [className "flex justify-between items-center"]
    [el "div" []
       [el "h1" [className "text-3xl font-bold text-gray-900"] [txt "Dashboard"];
        el "p" [className "text-gray-600 mt-1"]
          [txt "Welcome back! Here's what's happening with your chatbots."]];
     el "div" [className "flex space-x-3"]
       [el "button"
          [className "bg-white border border-gray-300 text-gray-700 px-4 py-2 rounded-lg hover:bg-gray-50 transition-colors"]
          [txt "View Analytics"];
        el "button"
          [className "bg-blue-600 text-white px-4 py-2 rounded-lg hover:bg-blue-700 transition-colors flex items-center"]
          [icon "Plus" "h-4 w-4 mr-2"; txt "New Chatbot"]]].

(** One tile of the grid: [stats.map((stat, index) => ...)]. *)
Definition stat_tile (index : nat) (stat : stat) : node action :=
  keyed (stat_name stat)
    (el "motion.div"
       [className "bg-white p-6 rounded-xl border border-gray-200 hover:shadow-lg transition-shadow";
        attr_obj "initial" [num "opacity" 0; num "y" 20];
        attr_obj "animate" [num "opacity" 1; num "y" 0];
        attr_obj "transition"
          [num "duration" (1 # 2); num "delay" (inject_Z (Z.of_nat index) * (1 # 10))]]
       [el "div" [className "flex items-center justify-between"]
          [el "div" []
             [el "p" [className "text-sm text-gray-600"] [TextNode (stat_name stat)];
              el "p" [className "text-2xl font-bold text-gray-900 mt-1"]
                [TextNode (stat_value stat)];
              el "p" [className "text-sm text-green-600 mt-1"] [TextNode (stat_change stat)]];
           el "div"
             [attr_text "className"
                (str "w-12 h-12 " ++ stat_bgColor stat
                 ++ str " rounded-lg flex items-center justify-center")]
             [Element (stat_icon stat) None
                [attr_text "className" (str "h-6 w-6 " ++ stat_color stat)] []]]]).

Definition stats_grid : node action :=
  el "div" [className "grid grid-cols-1 md:grid-cols-2 lg:grid-cols-4 gap-6"]
    (imap stat_tile stats).

(** One of the four quick actions: they differ in their colour, their icon
    and their two texts. *)
Definition quick_action (color symbol title description : string) : node action :=
  el "motion.div"
    [attr_text "className"
       (str "border border-gray-200 rounded-lg p-6 hover:border-" ++ str color
        ++ str "-200 hover:bg-" ++ str color
        ++ str "-50 transition-colors cursor-pointer group");
     attr_obj "whileHover" [num "scale" (102 # 100)];
     attr_obj "whileTap" [num "scale" (98 # 100)]]
    [el "div" [className "flex items-center justify-between mb-4"]
       [el "div"
          [attr_text "className"
             (str "w-10 h-10 bg-" ++ str color
              ++ str "-100 rounded-lg flex items-center justify-center")]
          [el symbol [attr_text "className" (str "h-5 w-5 text-" ++ str color ++ str "-600")] []];
        el "ArrowRight"
          [attr_text "className"
             (str "h-5 w-5 text-gray-400 group-hover:text-" ++ str color
              ++ str "-600 transition-colors")]
          []];
     el "h3" [className "font-semibold text-gray-900 mb-2"] [txt title];
     el "p" [className "text-sm text-gray-600"] [txt description]].

Definition quick_actions : node action :=
  el "div" [className "lg:col-span-2"]
    [el "div" [className "bg-white rounded-xl border border-gray-200 p-6"]
       [el "h2" [className "text-xl font-semibold text-gray-900 mb-6"] [txt "Quick Actions"];
        el "div" [className "grid grid-cols-1 md:grid-cols-2 gap-4"]
          [quick_action "blue" "FileText" "Upload Documents"
             "Add new documents to train your chatbot";
           quick_action "green" "Bot" "Create Chatbot"
             "Build a new AI chatbot from scratch";
           quick_action "purple" "Globe" "Deploy Chatbot"
             "Make your chatbot live and accessible";
           quick_action "orange" "TrendingUp" "View Analytics"
             "Monitor performance and user interactions"]]].

(** One entry of the activity: [recentActivity.map((activity, index) => ...)]. *)
Definition activity_row (index : nat) (activity : activity) : node action :=
  keyed (js_of_Z (activity_id activity))
    (el "motion.div"
       [className "flex items-start space-x-3";
        attr_obj "initial" [num "opacity" 0; num "x" 20];
        attr_obj "animate" [num "opacity" 1; num "x" 0];
        attr_obj "transition"
          [num "duration" (1 # 2); num "delay" (inject_Z (Z.of_nat index) * (1 # 10))]]
       [el "div"
          [className "w-8 h-8 bg-gray-100 rounded-full flex items-center justify-center flex-shrink-0"]
          [Element (activity_icon activity) None [className "h-4 w-4 text-gray-600"] []];
        el "div" [className "flex-1 min-w-0"]
          [el "p" [className "text-sm font-medium text-gray-900"]
             [TextNode (activity_title activity)];
           el "p" [className "text-sm text-gray-600"]
             [TextNode (activity_description activity)];
           el "p" [className "text-xs text-gray-400 mt-1"]
             [TextNode (activity_time activity)]]]).

Definition recent_activity : node action :=
  el "div" [className "lg:col-span-1"]
    [el "div" [className "bg-white rounded-xl border border-gray-200 p-6"]
       [el "h2" [className "text-xl font-semibold text-gray-900 mb-6"] [txt "Recent Activity"];
        el "div" [className "space-y-4"] (imap activity_row recentActivity);
        el "button"
          [className "w-full mt-6 text-sm text-blue-600 hover:text-blue-700 font-medium"]
          [txt "View All Activity"]]].

Definition performance_figure (classes figure label : string) : node action :=
  el "div" [className "text-center"]
    [el "div" [className classes] [txt figure];
     el "div" [className "text-sm text-gray-600"] [txt label]].

Definition performance : node action :=
  el "div" [className "bg-white rounded-xl border border-gray-200 p-6"]
    [el "div" [className "flex justify-between items-center mb-6"]
       [el "h2" [className "text-xl font-semibold text-gray-900"] [txt "Performance Overview"];
        el "select" [className "border border-gray-300 rounded-lg px-3 py-2 text-sm"]
          [el "option" [] [txt "Last 7 days"];
           el "option" [] [txt "Last 30 days"];
           el "option" [] [txt "Last 90 days"]]];
     el "div" [className "grid grid-cols-1 md:grid-cols-3 gap-6"]
       [performance_figure "text-3xl font-bold text-blue-600 mb-2" "98.5%" "Uptime";
        performance_figure "text-3xl font-bold text-green-600 mb-2" "1.2s"
          "Avg Response Time";
        performance_figure "text-3xl font-bold text-purple-600 mb-2" "94%"
          "Customer Satisfaction"]].

Definition DashboardPage_view : node action :=
  el "DashboardLayout" []
    [el "div" [className "space-y-8"]
       [dashboard_header;
        stats_grid;
        el "div" [className "grid grid-cols-1 lg:grid-cols-3 gap-8"]
          [quick_actions; recent_activity];
        performance]].

End markup.

(** ** Specifications *)

(** The figure the grid shows under a name. *)
Definition figure_of (name : string) : option text :=
  (λ found, stat_value found.2) <$> list_find (λ s, stat_name s = str name) stats.

(** The first quick action. *)
Definition upload_action : list nat := [0; 2; 0; 0; 1; 0]%nat.

(** ** The page is inert *)

Section facts.
Context {action : Type}.
Implicit Types (p : event_payload) (path : list nat).

Lemma DashboardPage_no_callbacks : no_callbacks (@DashboardPage_view action) = true.
Proof. by vm_compute. Qed.

(** No event on any element of the dashboard calls anything: [View
    Analytics], [New Chatbot], [View All Activity], the four quick actions
    and the select of the period have no handler, so the page never leaves
    its first render; and the keys of its two lists are distinct. *)
Theorem DashboardPage_inert path p :
  dispatch (@DashboardPage_view action) path p = None
  ∧ keys_distinct (@DashboardPage_view action).
Proof.
  split; [|apply (bool_decide_unpack _); by vm_compute].
  destruct (dispatch _ path p) as [a|] eqn:Hd; [|done].
  assert (a ∈ calls p (@DashboardPage_view action)) as Ha by (apply dispatch_calls; eauto).
  rewrite no_callbacks_calls in Ha by apply DashboardPage_no_callbacks.
  by apply elem_of_nil in Ha.
Qed.

(** A tile shows the name, the figure and the change of its entry, in
    this order, under the key of its name, and the icon of the entry in its
    colour. *)
Theorem stat_tile_shows index (s : stat) :
  text_content (@stat_tile action index s) = stat_name s ++ stat_value s ++ stat_change s
  ∧ key_of (@stat_tile action index s) = Some (stat_name s)
  ∧ locate [0; 1; 0]%nat (@stat_tile action index s)
    = Some (Element (stat_icon s) None
              [attr_text "className" (str "h-6 w-6 " ++ stat_color s)] []).
Proof. split; [|done]. simpl. by rewrite !app_nil_r. Qed.

(** The quick action [Upload Documents] can be clicked, and the click
    calls nothing. *)
Example upload_action_offered :
  (text_content <$> locate upload_action (@DashboardPage_view action))
  = Some (str "Upload DocumentsAdd new documents to train your chatbot")
  ∧ (λ n, offered n Click) <$> locate upload_action (@DashboardPage_view action) = Some true
  ∧ dispatch (@DashboardPage_view action) upload_action Click = None.
Proof. by vm_compute. Qed.

End facts.

(** The figures of the grid are written in the source: the dashboard
    counts twelve documents and five languages where the page of the
    documents lists four and the form of the chatbot offers eight, and the
    document of the first activity is the first of that page. *)
Example dashboard_figures_fixed :
  figure_of "Total Documents" = Some (str "12")
  ∧ js_length documents = 4
  ∧ figure_of "Languages" = Some (str "5")
  ∧ js_length languages = 8
  ∧ activity_description <$> recentActivity !! 0%nat = doc_name <$> documents !! 0%nat.
Proof. by vm_compute. Qed.
